(** * CTA file naming audit: the filename grammar engine of [app.py]

    A shallow embedding of the core of [app.py] (the leaf normalisers, the
    title and identifier sanitisers, the revision extractor, the length
    budget, the assembler and the dispatcher [audit_filename]) and the
    properties of its specification settled against it.

    Conventions of the embedding.
    - A Python [str] is a list of characters, [str := list ascii]; the
      characters are the code points 0..255, on which [\d] is [0-9], and
      [\s] / [str.strip] whitespace is the twelve code points of
      [is_space].
    - The regular expressions of the source are written as terms of a small
      regular-expression syntax [re] and run by a backtracking matcher with
      the priorities of Python's [re] module (leftmost start, alternatives
      in order, greedy repetition), [$] matching at the end and before a
      final newline.
    - The notes list that the source mutates in place is threaded
      explicitly: a helper that appends notes takes the list and returns
      the new one.
    - Exceptions are explicit: [audit_filename] returns an [outcome], and
      every list index, [int()] call and [datetime.date] construction of
      the source may raise in the model. *)

From Stdlib Require Import List Ascii String Bool Arith ZArith Lia.
Import ListNotations.

Set Implicit Arguments.
Open Scope string_scope.
Open Scope list_scope.
Open Scope nat_scope.

(** ** Strings *)

Definition str : Type := list ascii.

Definition lit (s : string) : str := list_ascii_of_string s.
Coercion lit : string >-> str.

Definition str_eqb (a b : str) : bool :=
  if list_eq_dec ascii_dec a b then true else false.

Definition chr_eqb (a b : ascii) : bool := Ascii.eqb a b.

Definition code (c : ascii) : nat := nat_of_ascii c.

Definition in_range (lo hi : ascii) (c : ascii) : bool :=
  (code lo <=? code c) && (code c <=? code hi).

(** [\d] on the code points 0..255. *)
Definition is_digit (c : ascii) : bool := in_range "0" "9" c.

Definition is_upper (c : ascii) : bool := in_range "A" "Z" c.
Definition is_lower (c : ascii) : bool := in_range "a" "z" c.
Definition is_alpha (c : ascii) : bool := is_upper c || is_lower c.
Definition is_alnum (c : ascii) : bool := is_alpha c || is_digit c.

(** Whitespace of [str.strip()], [str.rstrip()] and [\s]:
    TAB, LF, VT, FF, CR, FS, GS, RS, US, space, NEL and NBSP. *)
Definition is_space (c : ascii) : bool :=
  let n := code c in
  ((9 <=? n) && (n <=? 13)) || ((28 <=? n) && (n <=? 32))
  || (n =? 133) || (n =? 160).

Definition newline : ascii := ascii_of_nat 10.

(** [str.lower()] and [str.upper()], character by character. *)
Definition lower_chr (c : ascii) : ascii :=
  let n := code c in
  if is_upper c then ascii_of_nat (n + 32)
  else if (192 <=? n) && (n <=? 222) && negb (n =? 215) then ascii_of_nat (n + 32)
  else c.

Definition upper_chr (c : ascii) : ascii :=
  if is_lower c then ascii_of_nat (code c - 32) else c.

Definition lower (s : str) : str := map lower_chr s.
Definition upper (s : str) : str := map upper_chr s.

(** [c in s] for a one-character [c]. *)
Definition has_chr (c : ascii) (s : str) : bool := existsb (chr_eqb c) s.

Fixpoint startswith (p s : str) : bool :=
  match p, s with
  | [], _ => true
  | a :: p', b :: s' => chr_eqb a b && startswith p' s'
  | _ :: _, [] => false
  end.

Definition endswith (p s : str) : bool := startswith (rev p) (rev s).

(** [sub in s] for strings. *)
Fixpoint contains (p s : str) : bool :=
  startswith p s ||
  match s with
  | [] => false
  | _ :: t => contains p t
  end.

Fixpoint lstrip_by (f : ascii -> bool) (s : str) : str :=
  match s with
  | c :: t => if f c then lstrip_by f t else s
  | [] => []
  end.

Definition rstrip_by (f : ascii -> bool) (s : str) : str :=
  rev (lstrip_by f (rev s)).

(** [s.strip()] and [s.rstrip()]. *)
Definition strip (s : str) : str := rstrip_by is_space (lstrip_by is_space s).
Definition rstrip (s : str) : str := rstrip_by is_space s.

(** [s.rstrip(chars)]. *)
Definition rstrip_chars (chars : str) (s : str) : str :=
  rstrip_by (fun c => has_chr c chars) s.

(** [s.replace(old, new)] for a one-character [old]. *)
Definition replace_chr (old : ascii) (new : str) (s : str) : str :=
  flat_map (fun c => if chr_eqb c old then new else [c]) s.

(** [s.split(sep)] for a one-character [sep]: every separator cuts, empty
    pieces included. *)
Fixpoint split_chr (sep : ascii) (s : str) : list str :=
  match s with
  | [] => [[]]
  | c :: t =>
      if chr_eqb c sep then [] :: split_chr sep t
      else match split_chr sep t with
           | w :: ws => (c :: w) :: ws
           | [] => [[c]]
           end
  end.

(** [sep.join(parts)]. *)
Fixpoint join (sep : str) (parts : list str) : str :=
  match parts with
  | [] => []
  | [w] => w
  | w :: ws => w ++ sep ++ join sep ws
  end.

(** [s.rfind(c)] for a one-character [c]: the index of the last
    occurrence. *)
Fixpoint rfind_chr (c : ascii) (s : str) : option nat :=
  match s with
  | [] => None
  | x :: t =>
      match rfind_chr c t with
      | Some i => Some (S i)
      | None => if chr_eqb x c then Some 0 else None
      end
  end.

(** [s.count(c)]. *)
Definition count_chr (c : ascii) (s : str) : nat :=
  List.length (filter (chr_eqb c) s).

(** Truth value of a string and of an optional string. *)
Definition nonempty (s : str) : bool :=
  match s with [] => false | _ => true end.

Definition truthy (o : option str) : bool :=
  match o with Some s => nonempty s | None => false end.

(** Truth value of a list. *)
Definition nonempty_list {A : Type} (l : list A) : bool :=
  match l with [] => false | _ => true end.

(** [x in xs] for a list of strings. *)
Definition mem (x : str) (xs : list str) : bool := existsb (str_eqb x) xs.

(** ** Regular expressions *)

Inductive re : Type :=
| Eps                                      (* the empty pattern *)
| Chr (p : ascii -> bool)                  (* one character of a class *)
| Seq (r1 r2 : re)                         (* r1 r2 *)
| Alt (r1 r2 : re)                         (* r1|r2 *)
| Rep (p : ascii -> bool) (lo : nat) (hi : option nat)
                                           (* greedy cls{lo,hi}; hi = None: no bound *)
| Bol                                      (* ^ *)
| Eol                                      (* $ *)
| Grp (r : re)                             (* ( r ), capturing *)
| Ahead (r : re).                          (* (?= r ) *)

Declare Scope re_scope.
Delimit Scope re_scope with re.
Bind Scope re_scope with re.
Infix ";;" := Seq (at level 61, right associativity) : re_scope.

(** A matcher configuration: whether the position is offset 0 of the
    subject, the rest of the subject, and the groups closed so far. *)
Record cfg : Type := Cfg { at0 : bool; rest : str; caps : list str }.

(** The ways a greedy class repetition can stop, longest first. *)
Fixpoint rep_greedy (p : ascii -> bool) (lo : nat) (hi : option nat)
    (a0 : bool) (s : str) (cs : list str) : list cfg :=
  let stop := match lo with O => [Cfg a0 s cs] | S _ => [] end in
  match s with
  | c :: t =>
      let more :=
        match hi with
        | Some O => []
        | Some (S h) => if p c then rep_greedy p (pred lo) (Some h) false t cs else []
        | None => if p c then rep_greedy p (pred lo) None false t cs else []
        end in
      more ++ stop
  | [] => stop
  end.

(** All the ways [r] matches at a configuration, in the order in which a
    backtracking matcher tries them: the head is the match Python takes. *)
Fixpoint run (r : re) (c : cfg) : list cfg :=
  match r with
  | Eps => [c]
  | Chr p =>
      match rest c with
      | x :: t => if p x then [Cfg false t (caps c)] else []
      | [] => []
      end
  | Seq r1 r2 => flat_map (run r2) (run r1 c)
  | Alt r1 r2 => run r1 c ++ run r2 c
  | Rep p lo hi => rep_greedy p lo hi (at0 c) (rest c) (caps c)
  | Bol => if at0 c then [c] else []
  | Eol =>
      match rest c with
      | [] => [c]
      | [x] => if chr_eqb x newline then [c] else []
      | _ => []
      end
  | Grp r1 =>
      map (fun c' =>
             Cfg (at0 c') (rest c')
                 (caps c' ++ [firstn (List.length (rest c) - List.length (rest c')) (rest c)]))
          (run r1 c)
  | Ahead r1 =>
      match run r1 c with
      | [] => []
      | _ :: _ => [c]
      end
  end.

(** A match object: start offset, length of the matched text, groups. *)
Record rmatch : Type := RMatch { m_start : nat; m_len : nat; m_groups : list str }.

(** The match of [r] that starts exactly here, if any. *)
Definition match_here (r : re) (a0 : bool) (i : nat) (s : str) : option rmatch :=
  match run r (Cfg a0 s []) with
  | c' :: _ => Some (RMatch i (List.length s - List.length (rest c')) (caps c'))
  | [] => None
  end.

(** [re.match(r, s)]. *)
Definition re_match (r : re) (s : str) : option rmatch := match_here r true 0 s.

Fixpoint search_from (r : re) (a0 : bool) (i : nat) (s : str) : option rmatch :=
  match match_here r a0 i s with
  | Some m => Some m
  | None =>
      match s with
      | [] => None
      | _ :: t => search_from r false (S i) t
      end
  end.

(** [re.search(r, s)] / [pattern.search(s)]. *)
Definition re_search (r : re) (s : str) : option rmatch := search_from r true 0 s.

(** [m.group(1)]. *)
Definition group1 (m : rmatch) : str := nth 0 (m_groups m) [].

(** [re.sub] with a callback that may update a state [St]: scanning left to
    right, each match is replaced by what the callback returns and the scan
    resumes after it. [skip] counts the characters of the current match
    still to be dropped. *)
Fixpoint sub_scan {St : Type} (r : re) (f : rmatch -> St -> str * St)
    (a0 : bool) (i skip : nat) (s : str) (st : St) : str * St :=
  match s with
  | [] =>
      match skip, match_here r a0 i [] with
      | O, Some m => f m st
      | _, _ => ([], st)
      end
  | c :: t =>
      match skip with
      | S k => sub_scan r f false (S i) k t st
      | O =>
          match match_here r a0 i s with
          | Some m =>
              let '(out, st1) := f m st in
              match m_len m with
              | S n =>
                  let '(tl, st2) := sub_scan r f false (S i) n t st1 in
                  (out ++ tl, st2)
              | O =>
                  let '(tl, st2) := sub_scan r f false (S i) 0 t st1 in
                  (out ++ c :: tl, st2)
              end
          | None =>
              let '(tl, st1) := sub_scan r f false (S i) 0 t st in
              (c :: tl, st1)
          end
      end
  end.

(** [re.sub(r, repl, s)] for a constant replacement. *)
Definition re_sub (r : re) (repl : str) (s : str) : str :=
  fst (sub_scan r (fun _ (u : unit) => (repl, u)) true 0 0 s tt).

(** Pattern builders. *)
Definition chr (c : ascii) : re := Chr (chr_eqb c).

(** A letter under [re.IGNORECASE]. *)
Definition chr_ci (c : ascii) : re :=
  Chr (fun x => chr_eqb (lower_chr x) (lower_chr c)).

Fixpoint word (s : str) : re :=
  match s with
  | [] => Eps
  | [c] => chr c
  | c :: t => Seq (chr c) (word t)
  end.

Fixpoint word_ci (s : str) : re :=
  match s with
  | [] => Eps
  | [c] => chr_ci c
  | c :: t => Seq (chr_ci c) (word_ci t)
  end.

(** [r|r1|...|rn], tried in this order. *)
Fixpoint alts (r : re) (rs : list re) : re :=
  match rs with
  | [] => r
  | r1 :: t => Alt r (alts r1 t)
  end.

Definition one_of (chars : str) : ascii -> bool := fun c => has_chr c chars.

(** [r?], greedy. *)
Definition opt (r : re) : re := Alt r Eps.

Open Scope re_scope.

(** ** Exceptions *)

Inductive exn : Type := IndexError | ValueError.

Inductive outcome (A : Type) : Type :=
| Ret (a : A)
| Raise (e : exn).
Arguments Ret {A} a.
Arguments Raise {A} e.

Definition bind {A B : Type} (m : outcome A) (k : A -> outcome B) : outcome B :=
  match m with
  | Ret a => k a
  | Raise e => Raise e
  end.

Notation "'do' x <- m 'in' k" := (bind m (fun x => k))
  (at level 10, x pattern, m at level 100, k at level 200).

(** [l[i]]. *)
Definition index (l : list str) (i : nat) : outcome str :=
  match nth_error l i with
  | Some x => Ret x
  | None => Raise IndexError
  end.

(** ** Constants and patterns *)

Definition all_digits (s : str) : bool := forallb is_digit s.

Definition digit_val (c : ascii) : Z := Z.of_nat (code c - 48).

(** [int(s)] on a string of decimal digits; anything else raises here. *)
Definition py_int (s : str) : outcome Z :=
  if nonempty s && all_digits s
  then Ret (fold_left (fun acc c => (10 * acc + digit_val c)%Z) s 0%Z)
  else Raise ValueError.

Definition digit_chr (n : Z) : ascii := ascii_of_nat (48 + Z.to_nat n).

(** [f"{n:02d}"] for the values [int] gives on one or two digits. *)
Definition fmt02 (n : Z) : str :=
  [digit_chr ((n / 10) mod 10); digit_chr (n mod 10)].

(** [DATE_RE_STRICT = ^\d{8}$] *)
Definition DATE_RE_STRICT : re := Bol ;; Rep is_digit 8 (Some 8) ;; Eol.

(** Separator classes: [[._-]] and [[._\-\s]]. *)
Definition is_sep (c : ascii) : bool := one_of "._-" c.
Definition is_sepw (c : ascii) : bool := one_of "._-" c || is_space c.

(** [[0-9Oo]] *)
Definition is_digit_or_O (c : ascii) : bool := is_digit c || one_of "Oo" c.

(** [REV_ANY_INFIX = [_\-\.\s]*Rev[_\-\.\s]*([0-9Oo]{1,2})$], IGNORECASE *)
Definition REV_ANY_INFIX : re :=
  Rep is_sepw 0 None ;; word_ci "Rev" ;; Rep is_sepw 0 None ;;
  Grp (Rep is_digit_or_O 1 (Some 2)) ;; Eol.

(** [CANON_REV_SUFFIX = _Rev(\d{1,2})$] *)
Definition CANON_REV_SUFFIX : re :=
  chr "_" ;; word "Rev" ;; Grp (Rep is_digit 1 (Some 2)) ;; Eol.

(** [EMBEDDED_REV = (?i)(?:^|[._\-\s])Rev[._\-\s]*([0-9Oo]{1,2})(?=$|[._\-\s])] *)
Definition EMBEDDED_REV : re :=
  Alt Bol (Chr is_sepw) ;; word_ci "Rev" ;; Rep is_sepw 0 None ;;
  Grp (Rep is_digit_or_O 1 (Some 2)) ;; Ahead (Alt Eol (Chr is_sepw)).

(** [ORPHAN_EMBEDDED_REV = (?i)(?:^|[._\-\s])Rev(?=$|[._\-\s])] *)
Definition ORPHAN_EMBEDDED_REV : re :=
  Alt Bol (Chr is_sepw) ;; word_ci "Rev" ;; Ahead (Alt Eol (Chr is_sepw)).

(** [MULTI_UNDERS = __+] *)
Definition MULTI_UNDERS : re := chr "_" ;; Rep (chr_eqb "_") 1 None.

(** [TRAILING_UNDERS = _+$] *)
Definition TRAILING_UNDERS : re := Rep (chr_eqb "_") 1 None ;; Eol.

(** [SPACE_BEFORE_EXT = \s+\.[A-Za-z0-9]+$] *)
Definition SPACE_BEFORE_EXT : re :=
  Rep is_space 1 None ;; chr "." ;; Rep is_alnum 1 None ;; Eol.

Definition MAX_CHARS_TOTAL : Z := 64.

Definition strs (l : list string) : list str := map lit l.

Definition IGNORE_PREFIXES : list str :=
  strs
    ["I-PAY"; "PCO"; "IDR"; "NCR"; "RFI"; "SMTL"; "UOR"].

Definition STANDARD_PREFIXES : list str :=
  strs
    ["COR";"LG";"MA";"MM";"PN";"PR";"REF";"RP";"SCH";"GA";"DA";"DES";"DV";"DW";"GIS";"IDR";
   "PH";"SOV";"BL";"SV";"TR";"VD";"IGA";"ORD";"OC";"RE";"ROW";"SSC";"SAF";"NCR";"TX";"UM";
   "FA";"FC";"SC";"CL";"PL";"SP";"SF";"WR"].

Definition REQUIRES_CSI : list str :=
  strs
    ["CA";"CT";"EN";"IR";"IC";"MD";"MT";"OM";"PD";"SM";"SD"].

Definition REQUIRES_ID_ANY : list str :=
  strs
    ["SOP";"TF";"ATP";"BR";"CF";"CS";"COST";"ES";"LOE";"FVO";"PIF";"PMP";"PPS";"PRO";"LIQ";
   "RFP";"CN";"NTP";"SOW";"PT";"AU"].

Definition REQUIRES_ID_DIGITS_DASHES : list str :=
  strs
    ["PE";"AEA";"CO";"NOC";"CBL";"DL";"FM";"PO";"LNTP";"CI";"PA"].

Definition OPTIONAL_ID_ANY : list str := strs  ["QA"].

Definition ID_LABEL : list (string * string) :=
  [("CN","ContractNumber");("NTP","ContractNumber");("SOW","ContractNumber");("PT","Permit-ID");
   ("SOP","SOP-ID");("TF","FormID");
   ("ATP","ProjectID");("BR","ProjectID");("CF","ProjectID");("CS","ProjectID");
   ("COST","ProjectID");("ES","ProjectID");
   ("LOE","ProjectID");("FVO","ProjectID");("PIF","ProjectID");("PMP","ProjectID");
   ("PPS","ProjectID");
   ("PRO","ProjectID");("LIQ","ProjectID");("RFP","ProjectID");
   ("PE","EvaluationNumber");("AEA","AllowanceNumber");("CO","ChangeOrder-Number");
   ("NOC","ClaimNumber");
   ("CBL","BulletinNumber");("DL","BulletinNumber");("FM","FieldMemo-ID");
   ("PO","ProceedOrder-Number");
   ("LNTP","OrderNumber");("CI","InvoiceNumber");("PA","InvoiceNumber");
   ("AU","Audit-ID");("QA","QMS-ID")].

Definition id_label (prefix : str) : str :=
  match find (fun kv : string * string => str_eqb (lit (fst kv)) prefix) ID_LABEL with
  | Some kv => lit (snd kv)
  | None => lit "ID"
  end.

(** [EXT_TOKENS]: a Python set; the one loop over it is order-independent
    (see [drop_ext_suffix_order]). *)
Definition EXT_TOKENS : list str :=
  strs ["pdf";"doc";"docx";"xls";"xlsx";"ppt";"pptx";
        "jpg";"jpeg";"png";"tif";"tiff";"gif";"bmp";"heic";
        "dwg";"rvt";"csv";"txt";"rtf";"zip";"msg";"eml"].

(** ** Helpers *)

(** The pattern of [strip_spurious_extensions]:
    [(?i)(?:^|[._-])(pdf|docx?|xlsx?|pptx?|jpe?g|png|tiff?|tif|gif|bmp|heic|dwg|rvt|csv|txt|rtf|zip|msg|eml)(?=$|[._-])] *)
Definition EXT_WORD : re :=
  Alt Bol (Chr is_sep) ;;
  Grp (alts (word_ci "pdf")
         [word_ci "doc" ;; opt (chr_ci "x");
          word_ci "xls" ;; opt (chr_ci "x");
          word_ci "ppt" ;; opt (chr_ci "x");
          word_ci "jp" ;; opt (chr_ci "e") ;; chr_ci "g";
          word_ci "png";
          word_ci "tif" ;; opt (chr_ci "f");
          word_ci "tif"; word_ci "gif"; word_ci "bmp"; word_ci "heic";
          word_ci "dwg"; word_ci "rvt"; word_ci "csv"; word_ci "txt";
          word_ci "rtf"; word_ci "zip"; word_ci "msg"; word_ci "eml"]) ;;
  Ahead (Alt Eol (Chr is_sep)).

(** [for ext in EXT_TOKENS: if lowered.endswith(ext): s2 = s2[:-len(ext)]; break] *)
Fixpoint drop_ext_suffix (exts : list str) (lowered s2 : str) : str :=
  match exts with
  | [] => s2
  | ext :: t =>
      if endswith ext lowered
      then firstn (List.length s2 - List.length ext) s2
      else drop_ext_suffix t lowered s2
  end.

Definition note_ext : str := "Removed extra extension token from title.".

Definition strip_spurious_extensions (text : str) (notes : list str) : str * list str :=
  let s := text in
  let s2 := re_sub EXT_WORD "" s in
  let lowered := lower s2 in
  let s2 := drop_ext_suffix EXT_TOKENS lowered s2 in
  let notes := if negb (str_eqb s2 s) then notes ++ [note_ext] else notes in
  let s2 := re_sub (Rep is_sep 2 None) "-" s2 in
  let s2 := re_sub (Alt (Bol ;; Rep is_sep 1 None) (Rep is_sep 1 None ;; Eol)) "" s2 in
  (s2, notes).

(** [datetime.date(y, mo, d)]: raises [ValueError] unless the date exists. *)
Definition is_leap (y : Z) : bool :=
  ((y mod 4 =? 0) && (negb (y mod 100 =? 0) || (y mod 400 =? 0)))%Z.

Definition days_in_month (y mo : Z) : Z :=
  (if mo =? 2 then (if is_leap y then 29 else 28)
   else if (mo =? 4) || (mo =? 6) || (mo =? 9) || (mo =? 11) then 30
   else 31)%Z.

Definition valid_date (y mo d : Z) : bool :=
  ((1 <=? y) && (y <=? 9999) && (1 <=? mo) && (mo <=? 12)
   && (1 <=? d) && (d <=? days_in_month y mo))%Z.

Definition date_new (y mo d : Z) : outcome unit :=
  if valid_date y mo d then Ret tt else Raise ValueError.

(** [m.groups()] of a three-group match. *)
Definition groups3 (m : rmatch) : str * str * str :=
  (nth 0 (m_groups m) [], nth 1 (m_groups m) [], nth 2 (m_groups m) []).

Definition RE_DATE_DASH : re :=       (* ^(\d{4})-(\d{2})-(\d{2})$ *)
  Bol ;; Grp (Rep is_digit 4 (Some 4)) ;; chr "-" ;; Grp (Rep is_digit 2 (Some 2)) ;;
  chr "-" ;; Grp (Rep is_digit 2 (Some 2)) ;; Eol.

Definition RE_DATE_MDY : re :=        (* ^(\d{1,2})/(\d{1,2})/(\d{4})$ *)
  Bol ;; Grp (Rep is_digit 1 (Some 2)) ;; chr "/" ;; Grp (Rep is_digit 1 (Some 2)) ;;
  chr "/" ;; Grp (Rep is_digit 4 (Some 4)) ;; Eol.

Definition RE_DATE_YMD : re :=        (* ^(\d{4})/(\d{1,2})/(\d{1,2})$ *)
  Bol ;; Grp (Rep is_digit 4 (Some 4)) ;; chr "/" ;; Grp (Rep is_digit 1 (Some 2)) ;;
  chr "/" ;; Grp (Rep is_digit 1 (Some 2)) ;; Eol.

Definition RE_DATE_9 : re :=          (* ^(\d{4})0(\d{2})(\d{2})$ *)
  Bol ;; Grp (Rep is_digit 4 (Some 4)) ;; chr "0" ;; Grp (Rep is_digit 2 (Some 2)) ;;
  Grp (Rep is_digit 2 (Some 2)) ;; Eol.

Definition try_normalize_date (tok : str) : outcome (option str * option str) :=
  let s := strip tok in
  if negb (nonempty s) then Ret (None, None)
  else match re_match DATE_RE_STRICT s with
  | Some _ => Ret (Some s, None)
  | None =>
  match re_match RE_DATE_DASH s with
  | Some m =>
      let '(y, mo, d) := groups3 m in
      Ret (Some (y ++ mo ++ d), Some (lit "Normalized date from YYYY-MM-DD"))
  | None =>
  match re_match RE_DATE_MDY s with
  | Some m =>
      let '(mo, d, y) := groups3 m in
      do imo <- py_int mo in
      do id <- py_int d in
      Ret (Some (y ++ fmt02 imo ++ fmt02 id), Some (lit "Normalized date from M/D/YYYY"))
  | None =>
  match re_match RE_DATE_YMD s with
  | Some m =>
      let '(y, mo, d) := groups3 m in
      do imo <- py_int mo in
      do id <- py_int d in
      Ret (Some (y ++ fmt02 imo ++ fmt02 id), Some (lit "Normalized date from YYYY/M/D"))
  | None =>
  match re_match RE_DATE_9 s with
  | Some m =>
      let '(y, mo, d) := groups3 m in
      (* try: datetime.date(int(y), int(mo), int(d)) ... except Exception: pass *)
      match (do iy <- py_int y in do imo <- py_int mo in do id <- py_int d in
             date_new iy imo id) with
      | Ret _ =>
          Ret (Some (y ++ mo ++ d),
               Some (lit "Normalized date from malformed token (dropped stray 0)."))
      | Raise _ => Ret (None, None)
      end
  | None => Ret (None, None)
  end end end end end.

Definition RE_CSI3 : re :=            (* ^\d{2}-\d{2}-\d{2}$ *)
  Bol ;; Rep is_digit 2 (Some 2) ;; chr "-" ;; Rep is_digit 2 (Some 2) ;; chr "-" ;;
  Rep is_digit 2 (Some 2) ;; Eol.

Definition RE_CSI4 : re :=            (* ^\d{2}-\d{2}-\d{2}-\d{2}$ *)
  Bol ;; Rep is_digit 2 (Some 2) ;; chr "-" ;; Rep is_digit 2 (Some 2) ;; chr "-" ;;
  Rep is_digit 2 (Some 2) ;; chr "-" ;; Rep is_digit 2 (Some 2) ;; Eol.

(** [s[a:b]] *)
Definition slice (a b : nat) (s : str) : str := firstn (b - a) (skipn a s).

Definition is_some {A : Type} (o : option A) : bool :=
  match o with Some _ => true | None => false end.

Definition csi3 (digits : str) : str :=
  slice 0 2 digits ++ lit "-" ++ slice 2 4 digits ++ lit "-" ++ slice 4 6 digits.

Definition csi4 (digits : str) : str :=
  slice 0 2 digits ++ lit "-" ++ slice 2 4 digits ++ lit "-" ++ slice 4 6 digits
  ++ lit "-" ++ slice 6 8 digits.

Definition normalize_csi (token : str) : option str * option str :=
  let t := strip token in
  if negb (nonempty t) then (None, None)
  else if is_some (re_match RE_CSI3 t) || is_some (re_match RE_CSI4 t) then (Some t, None)
  else
    let digits := re_sub (Chr (fun c => negb (is_digit c))) "" t in
    if List.length digits =? 6 then
      (Some (csi3 digits), Some (lit "Auto-formatted CSI from 6 digits"))
    else if List.length digits =? 8 then
      (Some (csi4 digits), Some (lit "Auto-formatted CSI from 8 digits"))
    else if has_chr "-" t && ((List.length digits =? 6) || (List.length digits =? 8)) then
      if List.length digits =? 6 then
        (Some (csi3 digits), Some (lit "Corrected malformed CSI hyphenation"))
      else
        (Some (csi4 digits), Some (lit "Corrected malformed CSI hyphenation"))
    else (None, None).

(** [[^A-Za-z0-9\-]] *)
Definition not_title_chr (c : ascii) : bool := negb (is_alnum c || chr_eqb c "-").

Definition note_normalized_title : str := "Normalized title.".

Definition sanitize_title (raw : str) (notes : list str) : str * list str :=
  let before := raw in
  let '(s, notes) := strip_spurious_extensions raw notes in
  let '(s, notes) :=
    if has_chr "&" s
    then (replace_chr "&" "and" s, notes ++ [lit "Replaced '&' with 'and' in title."])
    else (s, notes) in
  let '(s, notes) :=
    if has_chr " " s
    then (re_sub (Rep is_space 1 None) "" s, notes ++ [lit "Removed spaces from title."])
    else (s, notes) in
  let '(s, notes) :=
    if has_chr "_" s
    then (replace_chr "_" "" s, notes ++ [lit "Removed internal underscores from title."])
    else (s, notes) in
  let s2 := re_sub (Chr not_title_chr) "" s in
  let notes :=
    if negb (str_eqb s2 s) then notes ++ [lit "Removed special characters from title."]
    else notes in
  let s := s2 in
  let '(s, notes) := strip_spurious_extensions s notes in
  let notes :=
    if negb (str_eqb s before) && negb (mem note_normalized_title notes)
    then notes ++ [note_normalized_title] else notes in
  (s, notes).

Definition sanitize_id_any (raw : str) (notes : list str) (label : str) : str * list str :=
  let s := raw in
  let '(s, notes) :=
    if has_chr " " s
    then (re_sub (Rep is_space 1 None) "" s, notes ++ [lit "Removed spaces from " ++ label ++ lit "."])
    else (s, notes) in
  let '(s, notes) :=
    if has_chr "_" s
    then (replace_chr "_" "" s, notes ++ [lit "Removed underscores from " ++ label ++ lit "."])
    else (s, notes) in
  let s2 := re_sub (Chr not_title_chr) "" s in
  let notes :=
    if negb (str_eqb s2 s) then notes ++ [lit "Removed special characters from " ++ label ++ lit "."]
    else notes in
  (s2, notes).

Definition sanitize_id_digits_dashes (raw : str) (notes : list str) (label : str)
  : option str * list str :=
  let cleaned := re_sub (Rep is_space 1 None) "" raw in
  let '(cleaned, notes) :=
    if has_chr "_" cleaned
    then (replace_chr "_" "" cleaned, notes ++ [lit "Removed underscores from " ++ label ++ lit "."])
    else (cleaned, notes) in
  let digits_dashes := re_sub (Chr (fun c => negb (is_digit c || chr_eqb c "-"))) "" cleaned in
  if nonempty digits_dashes
     && is_some (re_match (Bol ;; Chr is_digit ;;
                           Rep (fun c => is_digit c || chr_eqb c "-") 0 None ;; Eol)
                          digits_dashes)
  then
    (Some digits_dashes,
     if negb (str_eqb digits_dashes raw)
     then notes ++ [lit "Corrected " ++ label ++ lit " to digits/dashes only."] else notes)
  else (None, notes).

(** [(?i)Rev[._\-\s]*[0-9Oo]{1,2}\.$] *)
Definition REV_TRAILING_DOT : re :=
  word_ci "Rev" ;; Rep is_sepw 0 None ;; Rep is_digit_or_O 1 (Some 2) ;; chr "." ;; Eol.

(** [raw.upper().replace('O', '0')[:2]] *)
Definition rev_digits (raw : str) : str := firstn 2 (replace_chr "O" "0" (upper raw)).

Definition note_rev_normalized : str := "Normalized revision element.".
Definition note_rev_added : str := "Added Rev0 (missing revision element).".
Definition note_rev_period : str := "Removed extra period after revision element.".

(** The callback [_strip_embedded] of [extract_rev]: the state is the pair
    of its two [nonlocal] variables, [captured_digits] and [saw_embedded]. *)
Definition strip_embedded (m : rmatch) (st : option str * bool) : str * (option str * bool) :=
  let raw := group1 m in
  (lit "", (if nonempty raw then Some (rev_digits raw) else fst st, true)).

Definition extract_rev (trailing : str) (notes : list str) : str * str * list str :=
  let s := rstrip trailing in
  let had_trailing_dot_after_rev := is_some (re_search REV_TRAILING_DOT s) in
  match re_search CANON_REV_SUFFIX s with
  | Some m_canon =>
      let digits := firstn 2 (group1 m_canon) in
      let base := rstrip_chars "_- ." (firstn (m_start m_canon) s) in
      (base, lit "Rev" ++ digits, notes)
  | None =>
      let '(s, captured_digits, notes) :=
        match re_search REV_ANY_INFIX s with
        | Some m_end =>
            let raw := group1 m_end in
            let digits := rev_digits raw in
            let notes :=
              if negb (str_eqb digits raw)
              then notes ++ [lit "Corrected letter 'O' to digit '0' in revision."]
              else notes in
            (rstrip_chars "_- ." (firstn (m_start m_end) s), Some digits,
             notes ++ [note_rev_normalized])
        | None =>
            let '(s2, (captured_digits, saw_embedded)) :=
              sub_scan EMBEDDED_REV strip_embedded true 0 0 s (None, false) in
            let '(s2, saw_embedded) :=
              if str_eqb s2 s then
                let s2 := re_sub ORPHAN_EMBEDDED_REV "" s in
                (s2, if negb (str_eqb s2 s) then true else saw_embedded)
              else (s2, saw_embedded) in
            (rstrip_chars "_- ." s2, captured_digits,
             if saw_embedded
             then notes ++ [lit "Removed embedded revision token from title."; note_rev_normalized]
             else notes)
        end in
      let '(captured_digits, notes) :=
        if negb (truthy captured_digits) then (lit "0", notes ++ [note_rev_added])
        else (match captured_digits with Some d => d | None => [] end, notes) in
      let notes :=
        if had_trailing_dot_after_rev && negb (mem note_rev_period notes)
        then notes ++ [note_rev_period] else notes in
      (s, lit "Rev" ++ captured_digits, notes)
  end.

Definition len (s : str) : Z := Z.of_nat (List.length s).

Definition note_truncated : str :=
  "File name exceeds 64-character limit (title truncated).".

Definition enforce_stem_limit (prefix : str) (id_part : option str) (date title rev : str)
    (notes : list str) : str * list str :=
  let base := prefix ++ lit "_" in
  let base := if truthy id_part
              then base ++ match id_part with Some i => i | None => [] end ++ lit "_"
              else base in
  let base := base ++ date ++ lit "_" in
  let stem_len := (len base + len title + 1 + len rev)%Z in
  if (stem_len >? MAX_CHARS_TOTAL)%Z then
    let over := (stem_len - MAX_CHARS_TOTAL)%Z in
    let keep := Z.max 0 (len title - over) in
    (firstn (Z.to_nat keep) title, notes ++ [note_truncated])
  else (title, notes).

Definition join_tokens (prefix : str) (id_part : option str) (date title rev : str) : str :=
  let parts := [prefix] in
  let parts := if truthy id_part
               then parts ++ [match id_part with Some i => i | None => [] end]
               else parts in
  let parts := parts ++ [date; title; rev] in
  let s := join "_" parts in
  let s := re_sub MULTI_UNDERS "_" s in
  let s := re_sub TRAILING_UNDERS "" s in
  s.

Definition underscores_ok (stem : str) (has_id : bool) : bool :=
  count_chr "_" stem =? (if has_id then 4 else 3).

Definition note_trailing_underscore : str :=
  "Removed trailing underscore before extension.".

Definition postprocess_before_ext (stem : str) (notes : list str) : str * list str :=
  let '(stem, notes) :=
    if endswith "_" stem
    then (rstrip_chars "_" stem,
          if negb (mem note_trailing_underscore notes)
          then notes ++ [note_trailing_underscore] else notes)
    else (stem, notes) in
  if endswith "." stem
  then (rstrip_chars "." stem,
        if negb (mem note_rev_period notes) then notes ++ [note_rev_period] else notes)
  else (stem, notes).

(** ** Decision helper *)

(** What [audit_filename] returns: the suggestion ([None] is Python's
    [None]), the notes, and the changed flag. *)
Definition verdict : Type := option str * list str * bool.

Definition note_terminal : str := "Does not follow CTA file naming convention.".

Definition assemble_decision (suggested_or_none : option str) (issues : list str) : verdict :=
  if existsb (contains "Does not follow CTA") issues then (Some (lit ""), issues, true)
  else match suggested_or_none with
       | None => (Some (lit ""), issues, true)
       | Some s => (Some s, issues, true)
       end.

(** ** Core audit *)

(** A value the source has just tested for truth, used as a string. *)
Definition as_str (o : option str) : str :=
  match o with Some s => s | None => [] end.

(** The context of one audit, shared by the nested functions of
    [audit_filename]: the stripped name and its extension. *)
Record ctx : Type := Ctx { original : str; ext : str }.

Definition note_underscore_count : str :=
  "Unexpected underscore count after normalization (check for missing title or extra separators).".

(** The stem that [finalize] suggests (its local [suggested_stem] after
    [postprocess_before_ext]) and the notes at that point. *)
Definition finalize_stem (issues : list str) (prefix : str) (id_part : option str)
    (date_token title_raw : str) (hard_rev : option str) : str * list str :=
  let '(title_no_rev, rev_norm, issues) := extract_rev title_raw issues in
  let rev := if truthy hard_rev then as_str hard_rev else rev_norm in
  let id_clean := if truthy id_part then Some (replace_chr "_" "" (as_str id_part)) else None in
  let '(title, issues) := sanitize_title title_no_rev issues in
  let '(title, issues) := enforce_stem_limit prefix id_clean date_token title rev issues in
  let suggested_stem := join_tokens prefix id_clean date_token title rev in
  let issues :=
    if negb (underscores_ok suggested_stem (truthy id_clean))
    then issues ++ [note_underscore_count] else issues in
  postprocess_before_ext suggested_stem issues.

(** The nested [finalize] of [audit_filename]; [issues] is the notes list
    of the enclosing call at the time of the call. *)
Definition finalize (c : ctx) (issues : list str) (prefix : str) (id_part : option str)
    (date_token title_raw : str) (hard_rev : option str) : verdict :=
  let '(suggested_stem, issues) :=
    finalize_stem issues prefix id_part date_token title_raw hard_rev in
  (Some (suggested_stem ++ ext c), issues,
   negb (str_eqb (suggested_stem ++ ext c) (original c))).

(** The nested [need_date]: the date, its truth value, and the notes. *)
Definition need_date (tok : option str) (issues : list str)
  : outcome (option str * bool * list str) :=
  if negb (truthy tok) then Ret (None, false, issues)
  else
    do (d, note) <- try_normalize_date (as_str tok) in
    let issues := if truthy d && truthy note then issues ++ [as_str note] else issues in
    Ret (d, truthy d, issues).

(** [for i, tok in enumerate(rest): d, ok = need_date(tok); if ok: ...; break]:
    the index and date of the first token that is a date. *)
Fixpoint first_date (rest : list str) (i : nat) (issues : list str)
  : outcome (option (nat * option str) * list str) :=
  match rest with
  | [] => Ret (None, issues)
  | tok :: t =>
      do (d, ok, issues) <- need_date (Some tok) issues in
      if ok then Ret (Some (i, d), issues) else first_date t (S i) issues
  end.

(** [return assemble_decision(None, issues)] after appending [notes]. *)
Definition reject (issues : list str) (notes : list str) : outcome verdict :=
  Ret (assemble_decision None (issues ++ notes)).

Definition note_bad_date : str := "Invalid or missing date.".

(** [rest[i:]] joined with underscores. *)
Definition title_from (i : nat) (rest : list str) : str := join "_" (skipn i rest).

Definition branch_COR (c : ctx) (prefix : str) (rest : list str) (issues : list str)
  : outcome verdict :=
  do (found, issues) <- first_date rest 0 issues in
  match found with
  | None => reject issues [note_bad_date; note_terminal]
  | Some (idx_date, date_token) =>
      let issues :=
        if negb (idx_date =? 0)
        then issues ++ [lit "Removed non-date token(s) before date."] else issues in
      Ret (finalize c issues prefix None (as_str date_token) (title_from (idx_date + 1) rest) None)
  end.

Definition branch_QA (c : ctx) (prefix : str) (rest : list str) (issues : list str)
  : outcome verdict :=
  if negb (nonempty_list rest) then reject issues [note_terminal]
  else
    do r0 <- index rest 0 in
    do (d0, ok0, issues) <- need_date (Some r0) issues in
    if ok0 then Ret (finalize c issues prefix None (as_str d0) (title_from 1 rest) None)
    else
      do r0 <- index rest 0 in
      let '(idp, issues) := sanitize_id_any r0 issues "QMS-ID" in
      if List.length rest <? 2 then reject issues [note_terminal]
      else
        do r1 <- index rest 1 in
        do (d1, ok1, issues) <- need_date (Some r1) issues in
        if negb ok1 then reject issues [note_bad_date; note_terminal]
        else Ret (finalize c issues prefix (Some idp) (as_str d1) (title_from 2 rest) None).

Definition branch_AU (c : ctx) (prefix : str) (rest : list str) (issues : list str)
  : outcome verdict :=
  if List.length rest <? 2 then reject issues [lit "Missing Audit-ID."; note_terminal]
  else
    do r0 <- index rest 0 in
    do (d0, ok0, issues) <- need_date (Some r0) issues in
    if ok0 then
      reject issues
        [lit "Missing Audit-ID before date. Expected AU_[Audit-ID]_[Date]_[Title]_Rev##.";
         note_terminal]
    else
      do r0 <- index rest 0 in
      let '(idp, issues) := sanitize_id_any r0 issues "Audit-ID" in
      do r1 <- index rest 1 in
      do (d1, ok1, issues) <- need_date (Some r1) issues in
      if negb ok1 then reject issues [note_bad_date; note_terminal]
      else Ret (finalize c issues prefix (Some idp) (as_str d1) (title_from 2 rest) None).

(** [[sanitize_id_any(t, issues, "ID") for t in id_tokens]] *)
Fixpoint sanitize_ids (id_tokens : list str) (issues : list str) : list str * list str :=
  match id_tokens with
  | [] => ([], issues)
  | t :: ts =>
      let '(t', issues) := sanitize_id_any t issues "ID" in
      let '(ts', issues) := sanitize_ids ts issues in
      (t' :: ts', issues)
  end.

Definition branch_FDM (c : ctx) (prefix : str) (rest : list str) (issues : list str)
  : outcome verdict :=
  do (found, issues) <- first_date rest 0 issues in
  match found with
  | None =>
      reject issues [lit "Missing TaskID/ContractID and/or date."; note_terminal]
  | Some (O, _) =>
      reject issues [lit "Missing TaskID/ContractID and/or date."; note_terminal]
  | Some (date_idx, date_token) =>
      let id_tokens := firstn 2 (firstn date_idx rest) in
      if negb (nonempty_list id_tokens)
      then reject issues [lit "Missing TaskID/ContractID."; note_terminal]
      else
        let '(id_sanitized, issues) := sanitize_ids id_tokens issues in
        let id_part := join "-" (filter nonempty id_sanitized) in
        Ret (finalize c issues prefix (Some id_part) (as_str date_token)
               (title_from (date_idx + 1) rest) None)
  end.

Definition note_tf_no_form : str := "No FormID provided — allowed for TF.".
Definition note_tf_reinterpreted : str :=
  "Reinterpreted first token as Title — missing FormID allowed for TF.".

(** The [TF] block: [Some v] when it returns [v], [None] when control
    falls through to the generic handling below it. *)
Definition branch_TF (c : ctx) (prefix : str) (rest : list str) (issues : list str)
  : outcome (option verdict) :=
  if negb (nonempty_list rest)
  then do v <- reject issues [note_terminal] in Ret (Some v)
  else
    do r0 <- index rest 0 in
    do (d0, ok0, issues) <- need_date (Some r0) issues in
    if ok0 then
      let title_raw := title_from 1 rest in
      let issues := issues ++ [note_tf_no_form] in
      Ret (Some (finalize c issues prefix None (as_str d0) title_raw None))
    else
      do (d1, ok1, issues) <-
         need_date (if 1 <? List.length rest then nth_error rest 1 else None) issues in
      if ok1 then
        let trailing := if 2 <? List.length rest then title_from 2 rest else lit "" in
        let m := match re_search REV_ANY_INFIX trailing with
                 | Some m => Some m
                 | None => re_search EMBEDDED_REV trailing
                 end in
        let digits := match m with Some m => group1 m | None => lit "0" end in
        let digits := if nonempty digits then rev_digits digits else lit "0" in
        let issues := issues ++ [note_tf_reinterpreted; note_rev_normalized] in
        do r0 <- index rest 0 in
        Ret (Some (finalize c issues prefix None (as_str d1) r0 (Some (lit "Rev" ++ digits))))
      else Ret None.

Definition branch_ID_ANY (c : ctx) (prefix : str) (rest : list str) (issues : list str)
  : outcome verdict :=
  if List.length rest <? 2 then
    reject issues [lit "Missing " ++ id_label prefix ++ lit " and/or date."; note_terminal]
  else
    do r0 <- index rest 0 in
    do (d0, ok0, issues) <- need_date (Some r0) issues in
    if ok0 then
      let lbl := id_label prefix in
      reject issues
        [lit "Missing " ++ lbl ++ lit " before date. Expected " ++ prefix ++ lit "_[" ++ lbl
         ++ lit "]_[Date]_[Title]_Rev##.";
         note_terminal]
    else
      do r0 <- index rest 0 in
      let '(idp, issues) := sanitize_id_any r0 issues (id_label prefix) in
      do r1 <- index rest 1 in
      do (d1, ok1, issues) <- need_date (Some r1) issues in
      if negb ok1 then reject issues [note_bad_date; note_terminal]
      else Ret (finalize c issues prefix (Some idp) (as_str d1) (title_from 2 rest) None).

Definition note_missing_csi : str := "Missing CSI section.".
Definition note_invalid_csi : str := "Invalid CSI-Section (require NN-NN-NN or NN-NN-NN-NN).".

Definition branch_CSI (c : ctx) (prefix : str) (rest : list str) (issues : list str)
  : outcome verdict :=
  if List.length rest <? 2 then reject issues [note_missing_csi]
  else
    do r0 <- index rest 0 in
    do (d_datefirst, ok_datefirst, issues) <- need_date (Some r0) issues in
    if ok_datefirst then reject issues [note_missing_csi]
    else
      do r0 <- index rest 0 in
      let '(csi, cnote) := normalize_csi r0 in
      if negb (truthy csi) then reject issues [note_invalid_csi]
      else
        let issues := if truthy cnote then issues ++ [as_str cnote] else issues in
        do r1 <- index rest 1 in
        do (d1, ok1, issues) <- need_date (Some r1) issues in
        if negb ok1 then reject issues [note_bad_date]
        else Ret (finalize c issues prefix csi (as_str d1) (title_from 2 rest) None).

(** The [PN], [SP] and [WR] blocks; [omitted] is the note [WR] adds when the
    CSI section is left out ([None] for [PN] and [SP]). *)
Definition branch_CSI_optional (omitted : option str) (c : ctx) (prefix : str)
    (rest : list str) (issues : list str) : outcome verdict :=
  if negb (nonempty_list rest) then reject issues [note_terminal]
  else
    do r0 <- index rest 0 in
    do (d0, ok0, issues) <- need_date (Some r0) issues in
    if ok0 then
      let issues := match omitted with Some n => issues ++ [n] | None => issues end in
      Ret (finalize c issues prefix None (as_str d0) (title_from 1 rest) None)
    else
      do r0 <- index rest 0 in
      let '(csi, cnote) := normalize_csi r0 in
      if truthy csi then
        do (d1, ok1, issues) <-
           need_date (if 1 <? List.length rest then nth_error rest 1 else None) issues in
        if negb ok1 then reject issues [note_bad_date; note_terminal]
        else
          let issues := if truthy cnote then issues ++ [as_str cnote] else issues in
          Ret (finalize c issues prefix csi (as_str d1) (title_from 2 rest) None)
      else reject issues [note_terminal].

Definition note_wr_no_csi : str := "No CSI provided — allowed for overall warranty.".

Definition branch_RE (c : ctx) (prefix : str) (rest : list str) (issues : list str)
  : outcome verdict :=
  if negb (nonempty_list rest) then reject issues [note_terminal]
  else
    do r0 <- index rest 0 in
    do (d0, ok0, issues) <- need_date (Some r0) issues in
    if negb ok0 then reject issues [note_bad_date; note_terminal]
    else Ret (finalize c issues prefix None (as_str d0) (title_from 1 rest) None).

Definition branch_STANDARD (c : ctx) (prefix : str) (rest : list str) (issues : list str)
  : outcome verdict :=
  do (d0, ok0, issues) <-
     need_date (if nonempty_list rest then nth_error rest 0 else None) issues in
  if negb ok0 then reject issues [note_bad_date; note_terminal]
  else Ret (finalize c issues prefix None (as_str d0) (title_from 1 rest) None).

(** [^[A-Z]{2,4}$] *)
Definition PREFIX_RE : re := Bol ;; Rep is_upper 2 (Some 4) ;; Eol.

(** The chain of prefix tests of [audit_filename], in source order. *)
Definition dispatch (c : ctx) (prefix : str) (rest : list str) (issues : list str)
  : outcome verdict :=
  if str_eqb prefix "COR" then branch_COR c prefix rest issues
  else if str_eqb prefix "QA" then branch_QA c prefix rest issues
  else if str_eqb prefix "AU" then branch_AU c prefix rest issues
  else if str_eqb prefix "FDM" then branch_FDM c prefix rest issues
  else
    do tf <- (if str_eqb prefix "TF" then branch_TF c prefix rest issues else Ret None) in
    match tf with
    | Some v => Ret v
    | None =>
        if mem prefix REQUIRES_ID_ANY then branch_ID_ANY c prefix rest issues
        else if mem prefix REQUIRES_CSI then branch_CSI c prefix rest issues
        else if str_eqb prefix "PN" then branch_CSI_optional None c prefix rest issues
        else if str_eqb prefix "SP" then branch_CSI_optional None c prefix rest issues
        else if str_eqb prefix "WR"
             then branch_CSI_optional (Some note_wr_no_csi) c prefix rest issues
        else if str_eqb prefix "RE" then branch_RE c prefix rest issues
        else if mem prefix STANDARD_PREFIXES then branch_STANDARD c prefix rest issues
        else reject issues [note_terminal]
    end.

(** The lines of [audit_filename] that cut the name: the stripped name
    and its extension, the tokens of the stem, and the notes so far. *)
Definition tokenize (original_name : str) : ctx * list str * list str :=
  let original := strip original_name in
  let issues : list str := [] in
  let issues :=
    if is_some (re_search SPACE_BEFORE_EXT original_name)
    then issues ++ [lit "Removed space before file extension."] else issues in
  let '(stem, ext) :=
    match rfind_chr "." original with
    | Some i => (firstn i original, skipn i original)
    | None => (original, lit "")
    end in
  let '(stem, issues) :=
    if contains "__" stem
    then (re_sub MULTI_UNDERS "_" stem, issues ++ [lit "Removed double underscore."])
    else (stem, issues) in
  let tokens := filter nonempty (split_chr "_" stem) in
  (Ctx original ext, tokens, issues).

Definition audit_filename (original_name : str) : outcome verdict :=
  let original := strip original_name in
  if negb (nonempty original) then Ret (Some (lit ""), [lit "Empty value"], true)
  else if existsb (fun ig => startswith ig original) IGNORE_PREFIXES
  then Ret (None, [], false)
  else
    let '(c, tokens, issues) := tokenize original_name in
    if List.length tokens <? 2 then reject issues [note_terminal]
    else
      do prefix <- index tokens 0 in
      let rest := skipn 1 tokens in
      if negb (is_some (re_match PREFIX_RE prefix)) then reject issues [note_terminal]
      else dispatch c prefix rest issues.

(** ** The writer: one row of the sheet

    The cells of the workbook are read through [openpyxl]; a cell value is
    [None], a string, or some other value (a number, a date, a boolean), of
    which the writer only uses [pd.isna(x)] and [str(x)]. *)
Inductive cell : Type :=
| CNone
| CStr (s : str)
| COther (isna : bool) (repr : str).

(** [safe_str]: the stripped text of a cell, [""] for a missing value. An
    exception of [pd.isna] is swallowed by the source, which then goes on
    as for [isna = false]. *)
Definition safe_str (x : cell) : str :=
  match x with
  | CStr s => strip s
  | CNone => lit ""
  | COther true _ => lit ""
  | COther false repr => strip repr
  end.

(** The counters of [stats] and of each entry of [by_company]. *)
Inductive stat_key : Type := Noncompliant | Compliant | EmptyFiles | SkippedFiles.

Record tally : Type :=
  Tally { noncompliant : nat; compliant : nat; empty_files : nat; skipped_files : nat }.

Definition tally_zero : tally := Tally 0 0 0 0.

Definition count_of (key : stat_key) (t : tally) : nat :=
  match key with
  | Noncompliant => noncompliant t
  | Compliant => compliant t
  | EmptyFiles => empty_files t
  | SkippedFiles => skipped_files t
  end.

(** [d[key] += 1] *)
Definition incr (key : stat_key) (t : tally) : tally :=
  match key with
  | Noncompliant => Tally (S (noncompliant t)) (compliant t) (empty_files t) (skipped_files t)
  | Compliant => Tally (noncompliant t) (S (compliant t)) (empty_files t) (skipped_files t)
  | EmptyFiles => Tally (noncompliant t) (compliant t) (S (empty_files t)) (skipped_files t)
  | SkippedFiles => Tally (noncompliant t) (compliant t) (empty_files t) (S (skipped_files t))
  end.

(** [by_company]: a dictionary from company to counters, in insertion
    order. [bump_entry] is [setdefault(company, zeros)] followed by
    [d[key] += 1]. *)
Fixpoint bump_entry (company : str) (key : stat_key) (d : list (str * tally))
  : list (str * tally) :=
  match d with
  | [] => [(company, incr key tally_zero)]
  | (k, t) :: rest =>
      if str_eqb k company then (k, incr key t) :: rest
      else (k, t) :: bump_entry company key rest
  end.

(** The nested [bump] of the writer. *)
Definition bump (company : str) (key : stat_key) (by_company : list (str * tally))
  : list (str * tally) :=
  let company := if nonempty company then company else lit "Unknown" in
  bump_entry company key by_company.

Inductive font : Type := RED_DOT_FONT | GREEN_DOT_FONT.

(** What the writer puts in the four audit cells of a row; [None] is a
    font or a value that the row leaves unset. The dot character itself is
    written in every row. *)
Record row_cells : Type :=
  RowCells { dot_font : option font; status_value : option str;
             newname_value : option str; notes_value : option str }.

(** The body of the row loop of [write_results_inline_dynamic], from the
    value of the file-name cell: the cells it writes and the counter it
    bumps. *)
Definition process_row (raw : cell) : outcome (row_cells * stat_key) :=
  let filename := safe_str raw in
  if negb (nonempty filename) then
    Ret (RowCells (Some RED_DOT_FONT) (Some (lit "Needs Changes")) None
           (Some (lit "Empty value")), EmptyFiles)
  else if existsb (fun ig => startswith ig filename) IGNORE_PREFIXES then
    Ret (RowCells None None None None, SkippedFiles)
  else
    do (suggestion, notes, _) <- audit_filename filename in
    match suggestion with
    | None => Ret (RowCells None None None None, SkippedFiles)
    | Some s =>
        let needs_attention :=
          nonempty_list notes || (nonempty s && negb (str_eqb s filename)) in
        Ret (RowCells (Some (if needs_attention then RED_DOT_FONT else GREEN_DOT_FONT))
               (Some (if needs_attention then lit "Needs Changes" else lit "OK"))
               (Some (if nonempty s && negb (str_eqb s filename) then s else lit ""))
               (Some (if nonempty_list notes then join "; " notes else lit "")),
             if needs_attention then Noncompliant else Compliant)
    end.

(** The row loop: each row is the value of its file-name cell and, when
    the sheet has a company column, the value of its company cell. *)
Fixpoint process_rows (rows : list (cell * option cell)) (stats : tally)
    (by_company : list (str * tally))
  : outcome (list row_cells * tally * list (str * tally)) :=
  match rows with
  | [] => Ret ([], stats, by_company)
  | (raw, company_cell) :: rest =>
      let company :=
        match company_cell with Some x => safe_str x | None => lit "Unknown" end in
      do (out, key) <- process_row raw in
      do (outs, stats, by_company) <-
         process_rows rest (incr key stats) (bump company key by_company) in
      Ret (out :: outs, stats, by_company)
  end.

(** ** The worksheet

    A worksheet as [openpyxl] shows it to the writer: the value of the cell
    at a row and a column, both counted from 1, and the sheet's [max_row]
    and [max_column]. *)
Record sheet : Type :=
  Sheet { cell_value : nat -> nat -> cell; max_row : nat; max_column : nat }.

(** [v is None or str(v).strip() == ""] *)
Definition is_blank (v : cell) : bool :=
  match v with
  | CNone => true
  | CStr s => str_eqb (strip s) (lit "")
  | COther _ repr => str_eqb (strip repr) (lit "")
  end.

(** The loop of [find_last_row]; [steps] counts the rows that the
    condition [r <= ws.max_row + 200] still admits. Reading a cell below
    the last row makes [openpyxl] add that row, empty, so the bound may
    grow while the loop runs: the loop then does the same with more
    steps. *)
Fixpoint scan_rows (ws : sheet) (col : nat) (steps : nat) (r last empty_streak : nat) : nat :=
  match steps with
  | 0 => last
  | S steps =>
      if is_blank (cell_value ws r col) then
        let empty_streak := empty_streak + 1 in
        if 5 <=? empty_streak then last
        else scan_rows ws col steps (r + 1) last empty_streak
      else scan_rows ws col steps (r + 1) r 0
  end.

(** The columns that have a letter, [A] to [ZZZ]: 18278 of them. *)
Definition MAX_COLUMN : nat := 26 + 26 * 26 + 26 * 26 * 26.

(** [find_last_row]; [get_column_letter] raises [ValueError] for a column
    outside 1..18278. *)
Definition find_last_row (ws : sheet) (col_idx header_row : nat) : outcome nat :=
  if (1 <=? col_idx) && (col_idx <=? MAX_COLUMN) then
    Ret (scan_rows ws col_idx (max_row ws + 200 - header_row) (header_row + 1) header_row 0)
  else Raise ValueError.

Definition FILE_HEADER_LABELS : list str :=
  strs ["File Name"; "Filename"; "Document Name"; "file_name"].

Definition COMPANY_LABELS : list str := strs ["Company"; "Owner"; "Organization"].

(** [isinstance(val, str) and val.strip().lower() in labelset], where
    [labelset] holds the stripped, lower-cased labels. *)
Definition is_label (labels : list str) (val : cell) : bool :=
  match val with
  | CStr s => mem (lower (strip s)) (map (fun l => lower (strip l)) labels)
  | _ => false
  end.

(** The first column of [1..ncols] whose cell in row [r] is a label. *)
Definition find_in_row (ws : sheet) (labels : list str) (r ncols : nat) : option nat :=
  find (fun c => is_label labels (cell_value ws r c)) (seq 1 ncols).

(** The first label cell of the rows [rows], row by row. *)
Fixpoint find_label (ws : sheet) (labels : list str) (rows : list nat) (ncols : nat)
  : option (nat * nat) :=
  match rows with
  | [] => None
  | r :: rows =>
      match find_in_row ws labels r ncols with
      | Some c => Some (r, c)
      | None => find_label ws labels rows ncols
      end
  end.

(** A dictionary from header text to column: [d[k] = v], [d.get(k)] and
    [k in d]. *)
Fixpoint dict_set (k : str) (v : nat) (d : list (str * nat)) : list (str * nat) :=
  match d with
  | [] => [(k, v)]
  | (k', v') :: rest =>
      if str_eqb k' k then (k', v) :: rest else (k', v') :: dict_set k v rest
  end.

Fixpoint dict_get (k : str) (d : list (str * nat)) : option nat :=
  match d with
  | [] => None
  | (k', v) :: rest => if str_eqb k' k then Some v else dict_get k rest
  end.

Definition dict_has (k : str) (d : list (str * nat)) : bool :=
  existsb (fun e => str_eqb (fst e) k) d.

(** The last column of the header row with any value, 1 when there is
    none. *)
Definition last_header_col (ws : sheet) (header_row : nat) : nat :=
  fold_left (fun last c => if is_blank (cell_value ws header_row c) then last else c)
    (seq 1 (max_column ws)) 1.

(** The header texts of the header row, stripped and lower-cased, with
    their columns. *)
Definition existing_map (ws : sheet) (header_row : nat) : list (str * nat) :=
  fold_left (fun m c =>
               match cell_value ws header_row c with
               | CStr s => dict_set (lower (strip s)) c m
               | _ => m
               end)
    (seq 1 (max_column ws)) [].

Definition next_col (cur_max : nat) : nat := cur_max + 1.

(** [if not col: cur = next_col(cur); col = cur]: the running maximum and
    the column. [not col] holds for [None] and for 0. *)
Definition allocate (col : option nat) (cur : nat) : nat * nat :=
  match col with
  | Some (S c) => (cur, S c)
  | _ => (next_col cur, next_col cur)
  end.

Record layout : Type :=
  Layout { header_row : nat; file_name_col : nat; company_col : option nat;
           out_header_row : nat; changed_col : nat; status_col : nat;
           newname_col : nat; notes_col : nat; existing_audit_columns : bool }.

Definition detect_layout (ws : sheet) (file_labels company_labels : list str)
    (search_rows search_cols : nat) : layout :=
  let found :=
    find_label ws file_labels (seq 1 (Nat.min search_rows (max_row ws)))
      (Nat.min search_cols (max_column ws)) in
  let '(header_row, file_col) :=
    match found with Some (r, c) => (r, c) | None => (6, 2) end in
  let company_col := find_in_row ws company_labels header_row (max_column ws) in
  let last_header_col := last_header_col ws header_row in
  let existing_map := existing_map ws header_row in
  let changed_col := dict_get "file name ok" existing_map in
  let status_col := dict_get "status" existing_map in
  let newname_col := dict_get "new file name" existing_map in
  let notes_col := dict_get "notes" existing_map in
  let cur := last_header_col in
  let '(cur, changed_col) := allocate changed_col cur in
  let '(cur, status_col) := allocate status_col cur in
  let '(cur, newname_col) := allocate newname_col cur in
  let '(cur, notes_col) := allocate notes_col cur in
  let existing_audit_cols :=
    existsb (fun k => dict_has k existing_map)
      (strs ["file name ok"; "status"; "new file name"; "notes"]) in
  Layout header_row file_col company_col header_row changed_col status_col newname_col
    notes_col existing_audit_cols.

(** [ws.cell(row=r, column=c, value=v)]: the cell takes the value and the
    sheet grows to hold it. *)
Definition set_cell (ws : sheet) (r c : nat) (v : cell) : sheet :=
  Sheet (fun r' c' => if (r' =? r) && (c' =? c) then v else cell_value ws r' c')
    (Nat.max (max_row ws) r) (Nat.max (max_column ws) c).

(** The nested [set_header] of the writer. *)
Definition set_header (ws : sheet) (r c : nat) (text : str) : sheet :=
  set_cell ws r c (CStr text).

(** The four header cells that [write_results_inline_dynamic] writes for
    the layout that [detect_layout(ws)] gave it. *)
Definition write_headers (ws : sheet) (l : layout) : sheet :=
  let ws := set_header ws (out_header_row l) (changed_col l) "File Name OK" in
  let ws := set_header ws (out_header_row l) (status_col l) "Status" in
  let ws := set_header ws (out_header_row l) (newname_col l) "New file name" in
  set_header ws (out_header_row l) (notes_col l) "Notes".

(** ** Vocabulary of the properties *)

(** The three components of a returned verdict ([None] when the call
    raised). *)
Definition suggestion_of (o : outcome verdict) : option (option str) :=
  match o with Ret (s, _, _) => Some s | Raise _ => None end.

Definition notes_of (o : outcome verdict) : option (list str) :=
  match o with Ret (_, n, _) => Some n | Raise _ => None end.

Definition changed_of (o : outcome verdict) : option bool :=
  match o with Ret (_, _, c) => Some c | Raise _ => None end.

(** A string of one or two decimal digits; a string of exactly [n]. *)
Definition digits_1_2 (s : str) : Prop :=
  all_digits s = true /\ (List.length s = 1 \/ List.length s = 2).

Definition digits_n (n : nat) (s : str) : Prop :=
  all_digits s = true /\ List.length s = n.

(** A one- or two-digit field padded with a zero to two characters. *)
Definition zfill2 (s : str) : str :=
  if List.length s <? 2 then lit "0" ++ s else s.

(** The number a string of decimal digits denotes. *)
Definition digits_value (s : str) : Z :=
  fold_left (fun acc c => (10 * acc + digit_val c)%Z) s 0%Z.

(** The stem of a suggestion: the part before its last dot. *)
Definition stem_of (s : str) : str :=
  match rfind_chr "." s with
  | Some i => firstn i s
  | None => s
  end.

(** The note of the third repair of [normalize_csi]. *)
Definition note_csi_hyphenation : str := "Corrected malformed CSI hyphenation".

(** The upper bound of a repetition. *)
Definition hi_ok (hi : option nat) (n : nat) : Prop :=
  match hi with Some h => n <= h | None => True end.

(** [$]: at the end, or before a final newline. *)
Definition at_eol (s : str) : Prop := s = [] \/ s = [newline].

(** The context, the tokens and the first notes of a name, and the prefix
    the dispatcher sees. *)
Definition name_ctx (name : str) : ctx := fst (fst (tokenize name)).
Definition name_tokens (name : str) : list str := snd (fst (tokenize name)).
Definition name_issues (name : str) : list str := snd (tokenize name).
Definition name_prefix (name : str) : str := hd [] (name_tokens name).
Definition name_ext (name : str) : str := ext (name_ctx name).

(** A rejection: the empty suggestion, with a last note that is the
    terminal message, or, for a prefix of the CSI-required family, one of
    the three messages of that family. *)
Definition rejected (prefix : str) (v : verdict) : Prop :=
  exists notes n,
    v = (Some [], notes ++ [n], true)
    /\ (n = note_terminal
        \/ (mem prefix REQUIRES_CSI = true
            /\ In n [note_missing_csi; note_invalid_csi; note_bad_date])).

(** A canonical revision: [Rev] and one or two digits. *)
Definition canon_rev (r : str) : Prop :=
  exists ds, r = lit "Rev" ++ ds /\ digits_1_2 ds.

(** A verdict that [finalize] has assembled, from a date of eight digits
    and, where the caller fixes the revision, a canonical one. *)
Definition finalized (c : ctx) (prefix : str) (v : verdict) : Prop :=
  exists issues id_part date_token title_raw hard_rev,
    v = finalize c issues prefix id_part date_token title_raw hard_rev
    /\ digits_n 8 date_token
    /\ (forall r, hard_rev = Some r -> canon_rev r).

(** What [MULTI_UNDERS.sub("_", s)] computes: an underscore that another
    underscore follows is dropped. *)
Fixpoint collapse (s : str) : str :=
  match s with
  | [] => []
  | c :: t => if chr_eqb "_" c && startswith "_" t then collapse t else c :: collapse t
  end.

(** Strings without underscore, and strings of title characters
    ([[A-Za-z0-9-]]). *)
Definition us_free (s : str) : Prop := Forall (fun c => chr_eqb "_" c = false) s.
Definition title_str (s : str) : Prop := Forall (fun c => not_title_chr c = false) s.

(** The fields of an assembled stem: the title is left out when empty,
    the identifier when absent. *)
Definition fields (prefix : str) (id_clean : option str) (date title rev : str) : list str :=
  [prefix] ++ (if truthy id_clean then [as_str id_clean] else [])
  ++ [date] ++ (if nonempty title then [title] else []) ++ [rev].

(** The identifier that [finalize] assembles. *)
Definition id_clean_of (id_part : option str) : option str :=
  if truthy id_part then Some (replace_chr "_" "" (as_str id_part)) else None.

(** Strings without a dot. *)
Definition dot_free (s : str) : Prop := Forall (fun c => chr_eqb "." c = false) s.

(** An identifier as a list of tokens: one token, or none. *)
Definition opt_list (o : option str) : list str :=
  match o with Some i => [i] | None => [] end.

(** An identifier that needs no repair: not empty, of title characters. *)
Definition id_ok (o : option str) : Prop :=
  match o with Some i => nonempty i = true /\ title_str i | None => True end.

(** Strings of field characters: neither underscore nor dot. *)
Definition field_str (s : str) : Prop :=
  Forall (fun c => chr_eqb "_" c = false /\ chr_eqb "." c = false) s.

(** The prefixes that some branch of [audit_filename] handles. *)
Definition known_prefix (prefix : str) : bool :=
  str_eqb prefix "COR" || str_eqb prefix "QA" || str_eqb prefix "AU"
  || str_eqb prefix "FDM" || str_eqb prefix "TF"
  || mem prefix REQUIRES_ID_ANY || mem prefix REQUIRES_CSI
  || str_eqb prefix "PN" || str_eqb prefix "SP" || str_eqb prefix "WR"
  || str_eqb prefix "RE" || mem prefix STANDARD_PREFIXES.

(** Strings of digits and hyphens. *)
Definition digit_dash_str (s : str) : Prop :=
  Forall (fun c => is_digit c || chr_eqb c "-" = true) s.

(** The characters of a suggested stem: [[A-Za-z0-9_-]]. *)
Definition stem_chr (c : ascii) : bool := is_alnum c || chr_eqb c "-" || chr_eqb c "_".

(** A verdict that [finalize] has assembled from an identifier which,
    once cleaned, holds only title characters. *)
Definition finalized_id (c : ctx) (prefix : str) (v : verdict) : Prop :=
  exists issues id_part date_token title_raw hard_rev,
    v = finalize c issues prefix id_part date_token title_raw hard_rev
    /\ digits_n 8 date_token
    /\ (forall r, hard_rev = Some r -> canon_rev r)
    /\ title_str (as_str (id_clean_of id_part)).

(** The rows a tally accounts for, and the sum of one counter over the
    companies. *)
Definition tally_total (t : tally) : nat :=
  noncompliant t + compliant t + empty_files t + skipped_files t.

Definition company_sum (key : stat_key) (by_company : list (str * tally)) : nat :=
  list_sum (map (fun e => count_of key (snd e)) by_company).

(** The cell of a row in a column is blank. *)
Definition blank_at (ws : sheet) (col r : nat) : bool :=
  is_blank (cell_value ws r col).

(** The row that [find_last_row] looks for in a column: the header row or
    a row with a value, followed by five blank rows and reached from the
    header row without crossing five blank rows in a row. *)
Definition last_row_of (ws : sheet) (col header_row last : nat) : Prop :=
  header_row <= last
  /\ (last = header_row \/ is_blank (cell_value ws last col) = false)
  /\ (forall r, last < r -> r <= last + 5 -> is_blank (cell_value ws r col) = true)
  /\ (forall r, header_row < r -> r <= last ->
        exists y, r <= y /\ y < r + 5 /\ y <= last
                  /\ is_blank (cell_value ws y col) = false).

(** A sheet has no value outside its [max_row] rows and [max_column]
    columns. *)
Definition sheet_wf (ws : sheet) : Prop :=
  forall r c, max_row ws < r \/ max_column ws < c -> cell_value ws r c = CNone.

(** The sheet of a list of rows. *)
Definition sheet_of_rows (rows : list (list cell)) : sheet :=
  Sheet (fun r c =>
           match r, c with
           | S r', S c' => nth c' (nth r' rows []) CNone
           | _, _ => CNone
           end)
    (List.length rows)
    (fold_right (fun row m => Nat.max (List.length row) m) 0 rows).

(** A cell holds the header text [k], up to case and outer spaces. *)
Definition key_is (k : str) (v : cell) : bool :=
  match v with
  | CStr s => str_eqb (lower (strip s)) k
  | _ => false
  end.

(** The last of the columns [1..n] of row [r] that holds the header [k]. *)
Fixpoint last_col (ws : sheet) (r : nat) (k : str) (n : nat) : option nat :=
  match n with
  | 0 => None
  | S m => if key_is k (cell_value ws r (S m)) then Some (S m) else last_col ws r k m
  end.

(** The last of the columns [1..n] of row [r] that is not blank, 1 when
    all are. *)
Fixpoint last_nonblank (ws : sheet) (r : nat) (n : nat) : nat :=
  match n with
  | 0 => 1
  | S m => if is_blank (cell_value ws r (S m)) then last_nonblank ws r m else S m
  end.

(** The layout with its audit columns marked as found. *)
Definition reused (l : layout) : layout :=
  Layout (header_row l) (file_name_col l) (company_col l) (out_header_row l)
    (changed_col l) (status_col l) (newname_col l) (notes_col l) true.

Definition AUDIT_HEADERS : list str :=
  strs ["file name ok"; "status"; "new file name"; "notes"].

(** Where [detect_layout] puts the audit column of the header [k]: on the
    last column of the header row [r] that holds [k], or right of every
    header when no column holds it. *)
Definition placed (ws : sheet) (r : nat) (k : str) (c : nat) : Prop :=
  (last_col ws r k (max_column ws) = Some c
   /\ 1 <= c /\ c <= last_nonblank ws r (max_column ws)
   /\ key_is k (cell_value ws r c) = true)
  \/ (last_col ws r k (max_column ws) = None
      /\ last_nonblank ws r (max_column ws) < c).

(** Two small sheets: a log with a header row, and a sheet with no header
    and one name in row 7. *)
Definition log_sheet : sheet :=
  sheet_of_rows
    [ [CStr "Document log"];
      [CStr "Company"; CStr " File Name "; CStr "Notes"];
      [CStr "ACME"; CStr "COR_20240115_Title_Rev1.pdf"; CNone];
      [CNone; CStr "bad name.pdf"; CStr "draft"] ].

Definition bare_sheet : sheet :=
  sheet_of_rows [ []; []; []; []; []; []; [CNone; CStr "COR_20240115_Title_Rev1.pdf"] ].

(** Two counters are the same counter. *)
Definition same_key (a b : stat_key) : nat :=
  match a, b with
  | Noncompliant, Noncompliant | Compliant, Compliant
  | EmptyFiles, EmptyFiles | SkippedFiles, SkippedFiles => 1
  | _, _ => 0
  end.

(** The arguments of [finalize]

    What follows reads off the dispatcher the arguments with which
    [audit_filename] calls [finalize], leaving the notes aside. *)

(** The date that [need_date] finds in a token, if it finds one. *)
Definition date_of (tok : str) : option str :=
  match try_normalize_date tok with
  | Ret (Some d, _) => if nonempty d then Some d else None
  | _ => None
  end.

(** The index and the date of the first token that is a date, as
    [first_date] finds them. *)
Fixpoint first_date_of (rest : list str) (i : nat) : option (nat * str) :=
  match rest with
  | [] => None
  | tok :: t =>
      match date_of tok with
      | Some d => Some (i, d)
      | None => first_date_of t (S i)
      end
  end.

(** The revision that the [TF] block fixes when it reads the first token
    as the title. *)
Definition tf_rev (rest : list str) : str :=
  let trailing := if 2 <? List.length rest then title_from 2 rest else lit "" in
  let m := match re_search REV_ANY_INFIX trailing with
           | Some m => Some m
           | None => re_search EMBEDDED_REV trailing
           end in
  let digits := match m with Some m => group1 m | None => lit "0" end in
  let digits := if nonempty digits then rev_digits digits else lit "0" in
  lit "Rev" ++ digits.

(** The calls of [finalize] that begin with the date, and those that
    begin with an identifier. *)
Definition date_first (rest : list str) : option (option str * str * str * option str) :=
  match rest with
  | r0 :: _ =>
      match date_of r0 with
      | Some d => Some (None, d, title_from 1 rest, None)
      | None => None
      end
  | [] => None
  end.

Definition id_first (id_part : option str) (rest : list str)
  : option (option str * str * str * option str) :=
  match rest with
  | _ :: r1 :: _ =>
      match date_of r1 with
      | Some d => Some (id_part, d, title_from 2 rest, None)
      | None => None
      end
  | _ => None
  end.

(** An identifier is required: a date in its place ends the audit. *)
Definition id_required (clean : str -> option str) (rest : list str)
  : option (option str * str * str * option str) :=
  match rest with
  | r0 :: _ :: _ =>
      match date_of r0 with
      | Some _ => None
      | None => if is_some (clean r0) then id_first (clean r0) rest else None
      end
  | _ => None
  end.

(** An identifier is optional: a date in its place is the date. *)
Definition id_optional (clean : str -> option str) (rest : list str)
  : option (option str * str * str * option str) :=
  match rest with
  | r0 :: _ =>
      match date_of r0 with
      | Some _ => date_first rest
      | None => if is_some (clean r0) then id_first (clean r0) rest else None
      end
  | [] => None
  end.

Definition clean_any (label : str) (raw : str) : option str :=
  Some (fst (sanitize_id_any raw [] label)).

Definition clean_csi (raw : str) : option str :=
  if truthy (fst (normalize_csi raw)) then fst (normalize_csi raw) else None.

(** The [TF] block: [Some a] when it returns, with the arguments [a] of
    [finalize] or with a rejection ([a = None]); [None] when control falls
    through to the generic handling below it. *)
Definition tf_block (rest : list str)
  : option (option (option str * str * str * option str)) :=
  match rest with
  | r0 :: t =>
      match date_of r0 with
      | Some d => Some (Some (None, d, title_from 1 rest, None))
      | None =>
          match t with
          | r1 :: _ =>
              match date_of r1 with
              | Some d => Some (Some (None, d, r0, Some (tf_rev rest)))
              | None => None
              end
          | [] => None
          end
      end
  | [] => Some None
  end.

(** The identifier, the date, the raw title and the fixed revision that
    [audit_filename] passes to [finalize] for a prefix and the tokens after
    it; [None] when the name is rejected. The tests come in the order of
    the source. *)
Definition assembled (prefix : str) (rest : list str)
  : option (option str * str * str * option str) :=
  if str_eqb prefix "COR" then
    match first_date_of rest 0 with
    | Some (i, d) => Some (None, d, title_from (i + 1) rest, None)
    | None => None
    end
  else if str_eqb prefix "QA" then id_optional (clean_any "QMS-ID") rest
  else if str_eqb prefix "AU" then id_required (clean_any "Audit-ID") rest
  else if str_eqb prefix "FDM" then
    match first_date_of rest 0 with
    | Some (S k, d) =>
        let id_tokens := firstn 2 (firstn (S k) rest) in
        if nonempty_list id_tokens then
          Some (Some (join "-" (filter nonempty (fst (sanitize_ids id_tokens [])))), d,
                title_from (S k + 1) rest, None)
        else None
    | _ => None
    end
  else
    match (if str_eqb prefix "TF" then tf_block rest else None) with
    | Some a => a
    | None =>
        if mem prefix REQUIRES_ID_ANY then id_required (clean_any (id_label prefix)) rest
        else if mem prefix REQUIRES_CSI then id_required clean_csi rest
        else if str_eqb prefix "PN" then id_optional clean_csi rest
        else if str_eqb prefix "SP" then id_optional clean_csi rest
        else if str_eqb prefix "WR" then id_optional clean_csi rest
        else if str_eqb prefix "RE" then date_first rest
        else if mem prefix STANDARD_PREFIXES then date_first rest
        else None
    end.

(** The revision, the sanitized title and the title after the length
    budget, which [finalize] computes from the raw title. *)
Definition rev_of (title_raw : str) (hard_rev : option str) : str :=
  if truthy hard_rev then as_str hard_rev else snd (fst (extract_rev title_raw [])).

Definition title_of (title_raw : str) : str :=
  fst (sanitize_title (fst (fst (extract_rev title_raw []))) []).

Definition title_cut (prefix : str) (id_clean : option str) (date title_raw : str)
    (hard_rev : option str) : str :=
  fst (enforce_stem_limit prefix id_clean date (title_of title_raw)
         (rev_of title_raw hard_rev) []).

(** What a call of the dispatcher ends with: a rejection, or the verdict
    of [finalize] on the arguments that [assembled] gives. *)
Definition ends_with (c : ctx) (prefix : str) (v : verdict)
    (a : option (option str * str * str * option str)) : Prop :=
  match a with
  | None => exists notes, v = (Some [], notes, true)
  | Some (id_part, date, title_raw, hard_rev) =>
      exists issues, v = finalize c issues prefix id_part date title_raw hard_rev
  end.


(** The families whose names can carry an identifier; the other
    families take none. *)
Definition id_family (prefix : str) : bool :=
  str_eqb prefix "QA" || str_eqb prefix "AU" || str_eqb prefix "FDM"
  || (mem prefix REQUIRES_ID_ANY && negb (str_eqb prefix "TF"))
  || mem prefix REQUIRES_CSI
  || str_eqb prefix "PN" || str_eqb prefix "SP" || str_eqb prefix "WR".

(** * Properties *)

(** ** Basic facts on strings *)

Lemma str_eqb_eq (a b : str) : str_eqb a b = true <-> a = b.
Proof.
  unfold str_eqb. destruct (list_eq_dec ascii_dec a b); split; congruence.
Qed.

Lemma str_eqb_neq (a b : str) : str_eqb a b = false <-> a <> b.
Proof.
  unfold str_eqb. destruct (list_eq_dec ascii_dec a b); split; congruence.
Qed.

Lemma str_eqb_refl (a : str) : str_eqb a a = true.
Proof. apply str_eqb_eq. reflexivity. Qed.


Lemma chr_eqb_eq (a b : ascii) : chr_eqb a b = true <-> a = b.
Proof. apply Ascii.eqb_eq. Qed.

Lemma chr_eqb_neq (a b : ascii) : chr_eqb a b = false <-> a <> b.
Proof. apply Ascii.eqb_neq. Qed.

Lemma chr_eqb_refl (a : ascii) : chr_eqb a a = true.
Proof. apply Ascii.eqb_refl. Qed.

Lemma chr_eqb_sym (a b : ascii) : chr_eqb a b = chr_eqb b a.
Proof. apply Ascii.eqb_sym. Qed.

(** Two characters that a class tells apart are different. *)
Lemma class_neq (p : ascii -> bool) (a b : ascii) :
  p a = true -> p b = false -> chr_eqb a b = false /\ chr_eqb b a = false.
Proof.
  intros Ha Hb. split; apply chr_eqb_neq; intros E; subst; congruence.
Qed.

Lemma in_range_spec (lo hi c : ascii) :
  in_range lo hi c = true <-> code lo <= code c <= code hi.
Proof.
  unfold in_range. rewrite andb_true_iff, !Nat.leb_le. tauto.
Qed.

Lemma is_digit_spec (c : ascii) : is_digit c = true <-> 48 <= code c <= 57.
Proof. unfold is_digit. rewrite in_range_spec. reflexivity. Qed.

Lemma is_upper_spec (c : ascii) : is_upper c = true <-> 65 <= code c <= 90.
Proof. unfold is_upper. rewrite in_range_spec. reflexivity. Qed.

Lemma is_lower_spec (c : ascii) : is_lower c = true <-> 97 <= code c <= 122.
Proof. unfold is_lower. rewrite in_range_spec. reflexivity. Qed.

Lemma is_space_spec (c : ascii) :
  is_space c = true <->
  (9 <= code c <= 13 \/ 28 <= code c <= 32 \/ code c = 133 \/ code c = 160).
Proof.
  unfold is_space. cbv zeta.
  rewrite !orb_true_iff, !andb_true_iff, !Nat.leb_le, !Nat.eqb_eq. tauto.
Qed.

Lemma code_inj (a b : ascii) : code a = code b -> a = b.
Proof.
  unfold code. intros H.
  rewrite <- (ascii_nat_embedding a), <- (ascii_nat_embedding b), H. reflexivity.
Qed.

(** The ten digits. *)
Lemma is_digit_cases (c : ascii) :
  is_digit c = true ->
  In c ["0"; "1"; "2"; "3"; "4"; "5"; "6"; "7"; "8"; "9"]%char.
Proof.
  rewrite is_digit_spec. intros [H1 H2].
  assert (E : exists k, k < 10 /\ code c = 48 + k) by (exists (code c - 48); lia).
  destruct E as (k & Hk & E).
  do 10 (destruct k as [|k]; [ simpl; repeat (first [left; apply code_inj; exact (eq_sym E) | right]) | ]).
  lia.
Qed.

Lemma digit_not_space (c : ascii) : is_digit c = true -> is_space c = false.
Proof.
  rewrite is_digit_spec. intros H.
  destruct (is_space c) eqn:E; [| reflexivity].
  apply is_space_spec in E. lia.
Qed.

(** ** Symbolic evaluation of the matcher

    On a subject whose spine is known and whose characters are only known
    by their class, the matcher is run by unfolding it and rewriting with
    the class facts. *)

Ltac closed_preds :=
  repeat match goal with
  | |- context [?p ?x] =>
      match type of (p x) with bool => idtac end;
      match x with Ascii _ _ _ _ _ _ _ _ => idtac end;
      let v := eval vm_compute in (p x) in
      match v with true => idtac | false => idtac end;
      change (p x) with v
  end.

Ltac digit_facts :=
  repeat match goal with
  | H : is_digit ?c = true |- context [is_digit ?c] => rewrite H
  | H : is_digit ?c = true |- context [is_space ?c] => rewrite (digit_not_space c H)
  | H : is_digit ?c = true |- context [chr_eqb ?c ?k] =>
      rewrite (proj1 (class_neq is_digit c k H eq_refl))
  | H : is_digit ?c = true |- context [chr_eqb ?k ?c] =>
      rewrite (proj2 (class_neq is_digit c k H eq_refl))
  end.

Ltac ev :=
  repeat (progress
    (unfold re_match, match_here, re_search, groups3, group1;
     cbn [run rep_greedy flat_map map app rest caps at0 chr word lit
          list_ascii_of_string lstrip_by rstrip_by rev strip nonempty negb pred
          firstn skipn List.length Nat.sub nth m_groups is_some andb orb bind];
     closed_preds; digit_facts)).

Ltac split_digits :=
  repeat match goal with
  | H : digits_1_2 _ |- _ => destruct H as [? [?|?]]
  | H : digits_n _ _ |- _ => destruct H as [? ?]
  end;
  repeat match goal with
  | H : List.length ?s = _ |- _ =>
      (destruct s as [|? [|? [|? [|? [|? ?]]]]]; try discriminate H); clear H
  end;
  unfold all_digits in *; cbn [forallb] in *;
  repeat match goal with
  | H : _ && _ = true |- _ => apply andb_true_iff in H; destruct H
  end.

(** ** The date normaliser on slash dates and on nine-digit tokens *)

Lemma mdy_match (mo d y : str) :
  digits_1_2 mo -> digits_1_2 d -> digits_n 4 y ->
  let s := mo ++ lit "/" ++ d ++ lit "/" ++ y in
  strip s = s /\ nonempty s = true /\
  re_match DATE_RE_STRICT s = None /\
  re_match RE_DATE_DASH s = None /\
  exists n, re_match RE_DATE_MDY s = Some (RMatch 0 n [mo; d; y]).
Proof.
  intros Hm Hd Hy. split_digits; cbv zeta;
    unfold DATE_RE_STRICT, RE_DATE_DASH, RE_DATE_MDY; ev;
    (repeat split; try reflexivity; eexists; reflexivity).
Qed.

Lemma ymd_match (mo d y : str) :
  digits_1_2 mo -> digits_1_2 d -> digits_n 4 y ->
  let s := y ++ lit "/" ++ mo ++ lit "/" ++ d in
  strip s = s /\ nonempty s = true /\
  re_match DATE_RE_STRICT s = None /\
  re_match RE_DATE_DASH s = None /\
  re_match RE_DATE_MDY s = None /\
  exists n, re_match RE_DATE_YMD s = Some (RMatch 0 n [y; mo; d]).
Proof.
  intros Hm Hd Hy. split_digits; cbv zeta;
    unfold DATE_RE_STRICT, RE_DATE_DASH, RE_DATE_MDY, RE_DATE_YMD; ev;
    (repeat split; try reflexivity; eexists; reflexivity).
Qed.

Lemma nine_match (mo d y : str) :
  digits_n 2 mo -> digits_n 2 d -> digits_n 4 y ->
  let s := y ++ lit "0" ++ mo ++ d in
  strip s = s /\ nonempty s = true /\
  re_match DATE_RE_STRICT s = None /\
  re_match RE_DATE_DASH s = None /\
  re_match RE_DATE_MDY s = None /\
  re_match RE_DATE_YMD s = None /\
  exists n, re_match RE_DATE_9 s = Some (RMatch 0 n [y; mo; d]).
Proof.
  intros Hm Hd Hy. split_digits; cbv zeta;
    unfold DATE_RE_STRICT, RE_DATE_DASH, RE_DATE_MDY, RE_DATE_YMD, RE_DATE_9; ev;
    (repeat split; try reflexivity; eexists; reflexivity).
Qed.

Lemma py_int_digits (s : str) :
  nonempty s = true -> all_digits s = true -> py_int s = Ret (digits_value s).
Proof. intros H1 H2. unfold py_int. rewrite H1, H2. reflexivity. Qed.

Lemma fmt02_zfill2 (s : str) : digits_1_2 s -> fmt02 (digits_value s) = zfill2 s.
Proof.
  intros H. split_digits;
    repeat match goal with
    | H : is_digit ?c = true |- _ =>
        apply is_digit_cases in H; cbn [In] in H;
        repeat (destruct H as [H|H]; [subst c|]); [..| contradiction]
    end; reflexivity.
Qed.

Lemma digits_1_2_nonempty (s : str) : digits_1_2 s -> nonempty s = true /\ all_digits s = true.
Proof. intros [H [L|L]]; destruct s; try discriminate; auto. Qed.

Lemma digits_n_nonempty (n : nat) (s : str) :
  digits_n (S n) s -> nonempty s = true /\ all_digits s = true.
Proof. intros [H L]; destruct s; try discriminate; auto. Qed.

(** C10. A token [M/D/YYYY] or [YYYY/M/D] whose month and day have one or
    two digits is rewritten to the eight characters year, zero-padded
    month, zero-padded day, with the note of its format and whatever the
    month and day are; the nine-digit token [YYYY0MMDD] is the one that is
    accepted only when [datetime.date] accepts year, month and day. *)
Theorem slash_dates_not_validated (mo d y : str) :
  digits_1_2 mo -> digits_1_2 d -> digits_n 4 y ->
  try_normalize_date (mo ++ lit "/" ++ d ++ lit "/" ++ y)
    = Ret (Some (y ++ zfill2 mo ++ zfill2 d), Some (lit "Normalized date from M/D/YYYY"))
  /\ try_normalize_date (y ++ lit "/" ++ mo ++ lit "/" ++ d)
    = Ret (Some (y ++ zfill2 mo ++ zfill2 d), Some (lit "Normalized date from YYYY/M/D"))
  /\ List.length (y ++ zfill2 mo ++ zfill2 d) = 8
  /\ (List.length mo = 2 -> List.length d = 2 ->
      try_normalize_date (y ++ lit "0" ++ mo ++ d)
      = if valid_date (digits_value y) (digits_value mo) (digits_value d)
        then Ret (Some (y ++ mo ++ d),
                  Some (lit "Normalized date from malformed token (dropped stray 0)."))
        else Ret (None, None)).
Proof.
  intros Hm Hd Hy.
  destruct (digits_1_2_nonempty Hm) as [Nm Dm].
  destruct (digits_1_2_nonempty Hd) as [Nd Dd].
  destruct (digits_n_nonempty Hy) as [Ny Dy].
  repeat split.
  - destruct (mdy_match Hm Hd Hy) as (E1 & E0 & E2 & E3 & n & E4).
    unfold try_normalize_date. rewrite E1, E0, E2, E3, E4.
    cbn [negb groups3 m_groups nth].
    rewrite (py_int_digits mo Nm Dm), (py_int_digits d Nd Dd). cbn [bind].
    rewrite !fmt02_zfill2 by assumption. reflexivity.
  - destruct (ymd_match Hm Hd Hy) as (E1 & E0 & E2 & E3 & E4 & n & E5).
    unfold try_normalize_date. rewrite E1, E0, E2, E3, E4, E5.
    cbn [negb groups3 m_groups nth].
    rewrite (py_int_digits mo Nm Dm), (py_int_digits d Nd Dd). cbn [bind].
    rewrite !fmt02_zfill2 by assumption. reflexivity.
  - destruct Hy as [_ Ly]. rewrite !length_app, Ly.
    unfold zfill2.
    destruct Hm as [_ [Lm|Lm]], Hd as [_ [Ld|Ld]]; rewrite Lm, Ld; cbn; lia.
  - intros Lm Ld.
    assert (Hm2 : digits_n 2 mo) by (split; assumption).
    assert (Hd2 : digits_n 2 d) by (split; assumption).
    destruct (nine_match Hm2 Hd2 Hy) as (E1 & E0 & E2 & E3 & E4 & E5 & n & E6).
    unfold try_normalize_date. rewrite E1, E0, E2, E3, E4, E5, E6.
    cbn [negb groups3 m_groups nth].
    rewrite (py_int_digits y Ny Dy), (py_int_digits mo Nm Dm), (py_int_digits d Nd Dd).
    cbn [bind]. unfold date_new.
    destruct (valid_date (digits_value y) (digits_value mo) (digits_value d)); reflexivity.
Qed.

(** The claim's own example: [13/45/2024] yields [20241345], and the
    nine-digit [202401345] is refused. *)
Lemma slash_dates_not_validated_witness :
  try_normalize_date (lit "13/45/2024")
    = Ret (Some (lit "20241345"), Some (lit "Normalized date from M/D/YYYY"))
  /\ try_normalize_date (lit "2024/13/45")
    = Ret (Some (lit "20241345"), Some (lit "Normalized date from YYYY/M/D"))
  /\ try_normalize_date (lit "202401345") = Ret (None, None).
Proof.
  assert (Hm : digits_1_2 (lit "13")) by (split; [reflexivity | right; reflexivity]).
  assert (Hd : digits_1_2 (lit "45")) by (split; [reflexivity | right; reflexivity]).
  assert (Hy : digits_n 4 (lit "2024")) by (split; reflexivity).
  destruct (slash_dates_not_validated Hm Hd Hy) as (A & B & _ & C).
  split; [exact A | split; [exact B | exact (C eq_refl eq_refl)]].
Defined.

(** ** The exemption short-circuit *)

Lemma startswith_nonempty (p s : str) :
  nonempty p = true -> startswith p s = true -> nonempty s = true.
Proof. destruct p, s; simpl; congruence. Qed.

Lemma ignore_prefixes_nonempty (ig : str) : In ig IGNORE_PREFIXES -> nonempty ig = true.
Proof.
  cbn. intros H. repeat (destruct H as [H|H]; [subst; reflexivity|]). contradiction.
Qed.

(** C7. A name that, once stripped, begins with one of the exemption
    prefixes is skipped: no suggestion, no notes, not changed. *)
Theorem exemption_short_circuit (name ig : str) :
  In ig IGNORE_PREFIXES ->
  startswith ig (strip name) = true ->
  audit_filename name = Ret (None, [], false).
Proof.
  intros Hin Hsw. unfold audit_filename.
  rewrite (startswith_nonempty _ _ (ignore_prefixes_nonempty Hin) Hsw).
  cbn [negb].
  assert (E : existsb (fun ig => startswith ig (strip name)) IGNORE_PREFIXES = true).
  { apply existsb_exists. exists ig. split; assumption. }
  rewrite E. reflexivity.
Qed.

Lemma exemption_short_circuit_witness :
  audit_filename (lit "  I-PAY_invoice_0001.pdf ") = Ret (None, [], false).
Proof.
  apply (@exemption_short_circuit (lit "  I-PAY_invoice_0001.pdf ") (lit "I-PAY")).
  - simpl. left. reflexivity.
  - vm_compute. reflexivity.
Defined.

(** ** The CSI normaliser *)

(** Whatever the token, the note of [normalize_csi] is never the
    hyphenation note: the two digit-count tests come first. *)
Lemma normalize_csi_never_hyphenation (token : str) :
  snd (normalize_csi token) <> Some note_csi_hyphenation.
Proof.
  unfold normalize_csi.
  destruct (negb (nonempty (strip token))); [discriminate|].
  destruct (is_some (re_match RE_CSI3 (strip token)) || is_some (re_match RE_CSI4 (strip token)));
    [discriminate|].
  cbv zeta.
  destruct (List.length _ =? 6) eqn:E6; [discriminate|].
  destruct (List.length _ =? 8) eqn:E8; [discriminate|].
  rewrite andb_false_r. discriminate.
Qed.

(** C6. The token [03-0708] contains a hyphen, is not in canonical form and
    has six digits; [normalize_csi] repairs it with the note of the plain
    digit strings, not with the hyphenation note. *)
Theorem csi_hyphen_repair_note :
  has_chr "-" (lit "03-0708") = true
  /\ re_match RE_CSI3 (lit "03-0708") = None
  /\ re_match RE_CSI4 (lit "03-0708") = None
  /\ normalize_csi (lit "03-0708")
     = (Some (lit "03-07-08"), Some (lit "Auto-formatted CSI from 6 digits"))
  /\ normalize_csi (lit "03-07-08-1122")
     = (None, None).
Proof. vm_compute. repeat split. Qed.

(** ** Worked examples *)

(** C4, as the specification states it: the suggestion is not
    [TF_20240310_SiteMap_Rev2.pdf]. *)
Lemma tf_example_not_rev2 :
  suggestion_of (audit_filename (lit "TF_SiteMap_20240310_Rev02.pdf"))
  <> Some (Some (lit "TF_20240310_SiteMap_Rev2.pdf")).
Proof. vm_compute. discriminate. Qed.

(** C4, amended. [TF_SiteMap_20240310_Rev02.pdf] is answered with
    [TF_20240310_SiteMap_Rev02.pdf], the two revision digits kept as they
    are, with the notes "reinterpreted", "normalized revision element" and
    "added Rev0"; the "No FormID provided" note is absent. *)
Theorem tf_example :
  audit_filename (lit "TF_SiteMap_20240310_Rev02.pdf")
  = Ret (Some (lit "TF_20240310_SiteMap_Rev02.pdf"),
         [note_tf_reinterpreted; note_rev_normalized; note_rev_added], true)
  /\ mem note_tf_no_form [note_tf_reinterpreted; note_rev_normalized; note_rev_added] = false.
Proof. vm_compute. split; reflexivity. Qed.

(** C8. One audit appends the extension note twice: the title [xpdfpdf]
    loses one [pdf] in each of the two passes of
    [strip_spurious_extensions]. *)
Theorem extension_note_twice :
  audit_filename (lit "COR_20240101_xpdfpdf_Rev1.pdf")
  = Ret (Some (lit "COR_20240101_x_Rev1.pdf"),
         [note_ext; note_ext; note_normalized_title], true)
  /\ count_occ (list_eq_dec ascii_dec) [note_ext; note_ext; note_normalized_title] note_ext = 2.
Proof. vm_compute. split; reflexivity. Qed.

(** ** What a match of the matcher tells

    Inversion lemmas: from a configuration the matcher reaches, the shape
    of what it has consumed. *)

Lemma rep_greedy_In (p : ascii -> bool) (s : str) :
  forall lo hi a0 cs c',
    In c' (rep_greedy p lo hi a0 s cs) ->
    exists w, s = w ++ rest c' /\ forallb p w = true /\ lo <= List.length w
              /\ hi_ok hi (List.length w) /\ caps c' = cs
              /\ at0 c' = (a0 && negb (nonempty w)).
Proof.
  induction s as [|x t IH]; intros lo hi a0 cs c' H.
  - cbn in H. destruct lo; [| contradiction].
    destruct H as [H|[]]. subst c'. exists []. cbn. rewrite andb_true_r.
    repeat split; auto. destruct hi; cbn; lia.
  - cbn [rep_greedy] in H. apply in_app_or in H. destruct H as [H|H].
    + assert (K : exists hi', In c' (rep_greedy p (pred lo) hi' false t cs) /\ p x = true
                   /\ forall n, hi_ok hi' n -> hi_ok hi (S n)).
      { destruct hi as [[|h]|]; [contradiction| |];
          destruct (p x) eqn:Px; try contradiction.
        - exists (Some h). repeat split; auto. cbn. intros; lia.
        - exists None. repeat split; auto. }
      destruct K as (hi' & K & Px & Hhi).
      destruct (IH _ _ _ _ _ K) as (w & E & F & L & B & C & A).
      exists (x :: w). cbn. rewrite Px, F, <- E.
      repeat split; auto; try lia. rewrite A. cbn. rewrite andb_false_r. reflexivity.
    + destruct lo; [| contradiction]. destruct H as [H|[]]. subst c'.
      exists []. cbn. rewrite andb_true_r. repeat split; auto. destruct hi; cbn; lia.
Qed.

Lemma in_run_Seq (r1 r2 : re) (c c'' : cfg) :
  In c'' (run (Seq r1 r2) c) <-> exists c', In c' (run r1 c) /\ In c'' (run r2 c').
Proof. cbn [run]. apply in_flat_map. Qed.

Lemma in_run_Alt (r1 r2 : re) (c c' : cfg) :
  In c' (run (Alt r1 r2) c) <-> In c' (run r1 c) \/ In c' (run r2 c).
Proof. cbn [run]. apply in_app_iff. Qed.

Lemma in_run_Eps (c c' : cfg) : In c' (run Eps c) <-> c' = c.
Proof. cbn. intuition. Qed.

Lemma in_run_Chr (p : ascii -> bool) (c c' : cfg) :
  In c' (run (Chr p) c) ->
  exists x, rest c = x :: rest c' /\ p x = true /\ caps c' = caps c /\ at0 c' = false.
Proof.
  cbn [run]. destruct (rest c) as [|x t]; [contradiction|].
  destruct (p x) eqn:Px; [| contradiction].
  intros [H|[]]. subst c'. exists x. cbn. auto.
Qed.

Lemma in_run_Bol (c c' : cfg) : In c' (run Bol c) -> c' = c /\ at0 c = true.
Proof.
  cbn [run]. destruct (at0 c); [| contradiction]. intros [H|[]]. auto.
Qed.

Lemma in_run_Eol (c c' : cfg) : In c' (run Eol c) -> c' = c /\ at_eol (rest c).
Proof.
  cbn [run]. unfold at_eol. destruct (rest c) as [|x [|y t]].
  - intros [H|[]]. auto.
  - destruct (chr_eqb x newline) eqn:E; [| contradiction].
    apply chr_eqb_eq in E. subst x. intros [H|[]]. auto.
  - contradiction.
Qed.

Lemma in_run_Rep (p : ascii -> bool) (lo : nat) (hi : option nat) (c c' : cfg) :
  In c' (run (Rep p lo hi) c) ->
  exists w, rest c = w ++ rest c' /\ forallb p w = true /\ lo <= List.length w
            /\ hi_ok hi (List.length w) /\ caps c' = caps c.
Proof.
  cbn [run]. intros H. destruct (rep_greedy_In _ _ _ _ _ _ _ H) as (w & ? & ? & ? & ? & ? & ?).
  exists w. auto.
Qed.

Lemma firstn_consumed (w r : str) :
  firstn (List.length (w ++ r) - List.length r) (w ++ r) = w.
Proof.
  rewrite length_app, Nat.add_sub. rewrite firstn_app, Nat.sub_diag, firstn_all.
  cbn. apply app_nil_r.
Qed.

Lemma in_run_Grp_Rep (p : ascii -> bool) (lo : nat) (hi : option nat) (c c' : cfg) :
  In c' (run (Grp (Rep p lo hi)) c) ->
  exists w, rest c = w ++ rest c' /\ forallb p w = true /\ lo <= List.length w
            /\ hi_ok hi (List.length w) /\ caps c' = caps c ++ [w].
Proof.
  cbn [run]. intros H. apply in_map_iff in H. destruct H as (c1 & E & H).
  destruct (rep_greedy_In _ _ _ _ _ _ _ H) as (w & Es & F & L & B & C & _).
  subst c'. cbn [rest caps]. exists w. rewrite C, Es, firstn_consumed. auto.
Qed.

Lemma in_run_Ahead (r : re) (c c' : cfg) :
  In c' (run (Ahead r) c) -> c' = c /\ exists c1, In c1 (run r c).
Proof.
  cbn [run]. destruct (run r c) as [|c1 l]; [contradiction|].
  intros [H|[]]. split; auto. exists c1. left. reflexivity.
Qed.

(** Step-by-step inversion of a membership in [run]. *)
Ltac inv_run :=
  repeat match goal with
  | H : In _ (run (chr _) _) |- _ => unfold chr in H
  | H : In _ (run (chr_ci _) _) |- _ => unfold chr_ci in H
  | H : In _ (run (word _) _) |- _ => cbn [word lit list_ascii_of_string] in H
  | H : In _ (run (word_ci _) _) |- _ => cbn [word_ci lit list_ascii_of_string] in H
  | H : In _ (run (Seq _ _) _) |- _ =>
      apply in_run_Seq in H; destruct H as (? & ? & H)
  | H : In _ (run (Alt _ _) _) |- _ => apply in_run_Alt in H; destruct H as [H|H]
  | H : In _ (run Eps _) |- _ => apply in_run_Eps in H; subst
  | H : In _ (run Bol _) |- _ => apply in_run_Bol in H; destruct H as (? & ?); subst
  | H : In _ (run Eol _) |- _ => apply in_run_Eol in H; destruct H as (? & ?); subst
  | H : In _ (run (Grp (Rep _ _ _)) _) |- _ =>
      apply in_run_Grp_Rep in H; destruct H as (? & ? & ? & ? & ? & ?)
  | H : In _ (run (Rep _ _ _) _) |- _ =>
      apply in_run_Rep in H; destruct H as (? & ? & ? & ? & ? & ?)
  | H : In _ (run (Chr _) _) |- _ =>
      apply in_run_Chr in H; destruct H as (? & ? & ? & ? & ?)
  | H : In _ (run (Ahead _) _) |- _ =>
      apply in_run_Ahead in H; destruct H as (? & ? & H); subst
  end.

Lemma match_here_In (r : re) (a0 : bool) (i : nat) (s : str) (m : rmatch) :
  match_here r a0 i s = Some m ->
  exists c', In c' (run r (Cfg a0 s [])) /\ m_start m = i
             /\ m_len m = List.length s - List.length (rest c') /\ m_groups m = caps c'.
Proof.
  unfold match_here. destruct (run r (Cfg a0 s [])) as [|c' l]; [discriminate|].
  intros E. inversion E; subst. exists c'. cbn. auto.
Qed.

(** ** Totality *)

Lemma forallb_nonempty_digits (w : str) :
  forallb is_digit w = true -> 1 <= List.length w ->
  nonempty w = true /\ all_digits w = true.
Proof. intros F L. destruct w; cbn in L; [lia|]. split; auto. Qed.

Lemma mdy_groups (s : str) (m : rmatch) :
  re_match RE_DATE_MDY s = Some m ->
  exists mo d y, m_groups m = [mo; d; y]
    /\ (nonempty mo = true /\ all_digits mo = true)
    /\ (nonempty d = true /\ all_digits d = true).
Proof.
  intros H. apply match_here_In in H. destruct H as (c' & H & _ & _ & G).
  unfold RE_DATE_MDY in H. inv_run.
  repeat match goal with H : caps _ = _ |- _ => rewrite H in *; clear H end.
  cbn [caps app] in *.
  eexists _, _, _. split; [eassumption|].
  split; apply forallb_nonempty_digits; assumption.
Qed.

Lemma ymd_groups (s : str) (m : rmatch) :
  re_match RE_DATE_YMD s = Some m ->
  exists y mo d, m_groups m = [y; mo; d]
    /\ (nonempty mo = true /\ all_digits mo = true)
    /\ (nonempty d = true /\ all_digits d = true).
Proof.
  intros H. apply match_here_In in H. destruct H as (c' & H & _ & _ & G).
  unfold RE_DATE_YMD in H. inv_run.
  repeat match goal with H : caps _ = _ |- _ => rewrite H in *; clear H end.
  cbn [caps app] in *.
  eexists _, _, _. split; [eassumption|].
  split; apply forallb_nonempty_digits; assumption.
Qed.

(** [try_normalize_date] never raises: its [int()] calls are on groups of
    digits, and the [datetime.date] call is inside [try]. *)
Lemma try_normalize_date_total (tok : str) : exists r, try_normalize_date tok = Ret r.
Proof.
  unfold try_normalize_date.
  destruct (negb (nonempty (strip tok))); [eauto|].
  destruct (re_match DATE_RE_STRICT (strip tok)); [eauto|].
  destruct (re_match RE_DATE_DASH (strip tok)) as [m|].
  { destruct (groups3 m) as [[? ?] ?]. eauto. }
  destruct (re_match RE_DATE_MDY (strip tok)) as [m|] eqn:E.
  { destruct (mdy_groups _ E) as (mo & d & y & G & [N1 D1] & [N2 D2]).
    unfold groups3. rewrite G. cbn [nth].
    rewrite (py_int_digits mo N1 D1), (py_int_digits d N2 D2). cbn [bind]. eauto. }
  destruct (re_match RE_DATE_YMD (strip tok)) as [m|] eqn:E'.
  { destruct (ymd_groups _ E') as (y & mo & d & G & [N1 D1] & [N2 D2]).
    unfold groups3. rewrite G. cbn [nth].
    rewrite (py_int_digits mo N1 D1), (py_int_digits d N2 D2). cbn [bind]. eauto. }
  destruct (re_match RE_DATE_9 (strip tok)) as [m|]; [| eauto].
  destruct (groups3 m) as [[? ?] ?].
  match goal with |- context [match ?x with Ret _ => _ | Raise _ => _ end] => destruct x end;
    eauto.
Qed.

Lemma need_date_total (tok : option str) (issues : list str) :
  exists r, need_date tok issues = Ret r.
Proof.
  unfold need_date. destruct (negb (truthy tok)); [eauto|].
  destruct (try_normalize_date_total (as_str tok)) as ([d note] & E).
  rewrite E. cbn [bind]. eauto.
Qed.

Lemma first_date_total (rest : list str) :
  forall i issues, exists r, first_date rest i issues = Ret r.
Proof.
  induction rest as [|tok t IH]; intros i issues; cbn [first_date]; [eauto|].
  destruct (need_date_total (Some tok) issues) as ([[d ok] iss] & E).
  rewrite E. cbn [bind]. destruct ok; [eauto | apply IH].
Qed.

(** Runs one branch to its end: every [need_date] returns, every index is
    within the tokens that the guards have counted. *)
Ltac total_step :=
  match goal with
  | |- exists r, Ret _ = Ret r => eexists; reflexivity
  | |- exists r, reject _ _ = Ret r => eexists; reflexivity
  | |- context [need_date ?t ?i] =>
      let d := fresh "d" in let ok := fresh "ok" in let iss := fresh "iss" in
      let E := fresh "E" in
      destruct (need_date_total t i) as ([[d ok] iss] & E); rewrite E; cbn [bind]
  | |- context [first_date ?t ?i ?iss] =>
      let f := fresh "found" in let iss' := fresh "iss" in let E := fresh "E" in
      destruct (first_date_total t i iss) as ([f iss'] & E); rewrite E; cbn [bind]
  | |- context [sanitize_id_any ?a ?b ?c] =>
      destruct (sanitize_id_any a b c)
  | |- context [sanitize_ids ?a ?b] => destruct (sanitize_ids a b)
  | |- context [normalize_csi ?a] => destruct (normalize_csi a)
  | |- context [if ?b then _ else _] => destruct b
  | |- context [match ?x with Some _ => _ | None => _ end] => destruct x
  | |- context [match ?x with (_, _) => _ end] => destruct x
  | |- context [match ?x with O => _ | S _ => _ end] => destruct x
  end.

Ltac total_branch :=
  unfold reject;
  cbn [nonempty_list negb List.length Nat.ltb Nat.leb index nth_error bind];
  repeat (total_step;
          cbn [nonempty_list negb List.length Nat.ltb Nat.leb index nth_error bind]).

Lemma branch_COR_total c prefix rest issues : exists r, branch_COR c prefix rest issues = Ret r.
Proof. unfold branch_COR. total_branch. Qed.

Lemma branch_FDM_total c prefix rest issues : exists r, branch_FDM c prefix rest issues = Ret r.
Proof. unfold branch_FDM. total_branch. Qed.

Lemma branch_QA_total c prefix rest issues : exists r, branch_QA c prefix rest issues = Ret r.
Proof. unfold branch_QA. destruct rest as [|r0 [|r1 t]]; total_branch. Qed.

Lemma branch_AU_total c prefix rest issues : exists r, branch_AU c prefix rest issues = Ret r.
Proof. unfold branch_AU. destruct rest as [|r0 [|r1 t]]; total_branch. Qed.

Lemma branch_TF_total c prefix rest issues : exists r, branch_TF c prefix rest issues = Ret r.
Proof. unfold branch_TF. destruct rest as [|r0 [|r1 t]]; total_branch. Qed.

Lemma branch_ID_ANY_total c prefix rest issues :
  exists r, branch_ID_ANY c prefix rest issues = Ret r.
Proof. unfold branch_ID_ANY. destruct rest as [|r0 [|r1 t]]; total_branch. Qed.

Lemma branch_CSI_total c prefix rest issues : exists r, branch_CSI c prefix rest issues = Ret r.
Proof. unfold branch_CSI. destruct rest as [|r0 [|r1 t]]; total_branch. Qed.

Lemma branch_CSI_optional_total o c prefix rest issues :
  exists r, branch_CSI_optional o c prefix rest issues = Ret r.
Proof. unfold branch_CSI_optional. destruct rest as [|r0 [|r1 t]]; total_branch. Qed.

Lemma branch_RE_total c prefix rest issues : exists r, branch_RE c prefix rest issues = Ret r.
Proof. unfold branch_RE. destruct rest as [|r0 [|r1 t]]; total_branch. Qed.

Lemma branch_STANDARD_total c prefix rest issues :
  exists r, branch_STANDARD c prefix rest issues = Ret r.
Proof. unfold branch_STANDARD. destruct rest as [|r0 [|r1 t]]; total_branch. Qed.

Lemma dispatch_total c prefix rest issues : exists r, dispatch c prefix rest issues = Ret r.
Proof.
  unfold dispatch.
  destruct (str_eqb prefix "COR"); [apply branch_COR_total|].
  destruct (str_eqb prefix "QA"); [apply branch_QA_total|].
  destruct (str_eqb prefix "AU"); [apply branch_AU_total|].
  destruct (str_eqb prefix "FDM"); [apply branch_FDM_total|].
  assert (T : exists r, (if str_eqb prefix "TF" then branch_TF c prefix rest issues
                         else Ret None) = Ret r).
  { destruct (str_eqb prefix "TF"); [apply branch_TF_total | eauto]. }
  destruct T as (tf & T). rewrite T. cbn [bind].
  destruct tf; [eauto|].
  destruct (mem prefix REQUIRES_ID_ANY); [apply branch_ID_ANY_total|].
  destruct (mem prefix REQUIRES_CSI); [apply branch_CSI_total|].
  destruct (str_eqb prefix "PN"); [apply branch_CSI_optional_total|].
  destruct (str_eqb prefix "SP"); [apply branch_CSI_optional_total|].
  destruct (str_eqb prefix "WR"); [apply branch_CSI_optional_total|].
  destruct (str_eqb prefix "RE"); [apply branch_RE_total|].
  destruct (mem prefix STANDARD_PREFIXES); [apply branch_STANDARD_total|].
  eexists; reflexivity.
Qed.

(** C9. [audit_filename] returns a verdict on every string: no index is
    out of range, no [int()] and no [datetime.date] error escapes. *)
Theorem audit_filename_total (name : str) : exists v, audit_filename name = Ret v.
Proof.
  unfold audit_filename.
  destruct (negb (nonempty (strip name))); [eauto|].
  destruct (existsb _ IGNORE_PREFIXES); [eauto|].
  destruct (tokenize name) as [[c tokens] issues].
  destruct tokens as [|prefix [|t1 tokens]];
    cbn [List.length Nat.ltb Nat.leb]; try (eexists; reflexivity).
  cbn [index nth_error bind skipn].
  destruct (negb (is_some (re_match PREFIX_RE prefix))); [eexists; reflexivity|].
  apply dispatch_total.
Qed.

(** ** Substitution, in general *)

Lemma assemble_decision_None (issues : list str) :
  assemble_decision None issues = (Some [], issues, true).
Proof. unfold assemble_decision. destruct (existsb _ issues); reflexivity. Qed.

Section SubScan.
Variable St : Type.
Variable r : re.
Variable f : rmatch -> St -> str * St.

(** The characters of the result come from the subject or from the
    replacements. *)
Lemma sub_scan_Forall (P : ascii -> Prop) :
  (forall m st, Forall P (fst (f m st))) ->
  forall s a0 i skip st,
    Forall P s -> Forall P (fst (sub_scan r f a0 i skip s st)).
Proof.
  intros Hf. induction s as [|c t IH]; intros a0 i skip st Hs.
  - cbn. destruct skip; [| constructor].
    destruct (match_here r a0 i []); [apply Hf | constructor].
  - inversion Hs as [|? ? Hc Ht]; subst. cbn [sub_scan].
    destruct skip as [|k]; [| apply IH; assumption].
    destruct (match_here r a0 i (c :: t)) as [m|].
    + specialize (Hf m st). destruct (f m st) as [out st1]. cbn [fst] in Hf.
      destruct (m_len m) as [|n].
      * specialize (IH false (S i) 0 st1 Ht).
        destruct (sub_scan r f false (S i) 0 t st1). cbn [fst] in *.
        apply Forall_app. split; [assumption | constructor; assumption].
      * specialize (IH false (S i) n st1 Ht).
        destruct (sub_scan r f false (S i) n t st1). cbn [fst] in *.
        apply Forall_app. split; assumption.
    + specialize (IH false (S i) 0 st Ht).
      destruct (sub_scan r f false (S i) 0 t st). cbn [fst] in *.
      constructor; assumption.
Qed.

(** Where nothing matches, nothing changes. *)
Lemma sub_scan_nomatch :
  forall s a0 i st,
    (forall k, k <= List.length s ->
               match_here r (a0 && (k =? 0)) (i + k) (skipn k s) = None) ->
    sub_scan r f a0 i 0 s st = (s, st).
Proof.
  induction s as [|c t IH]; intros a0 i st H.
  - cbn. specialize (H 0 (Nat.le_refl _)). cbn in H.
    rewrite andb_true_r, Nat.add_0_r in H. rewrite H. reflexivity.
  - cbn [sub_scan]. pose proof (H 0 (Nat.le_0_l _)) as H0. cbn in H0.
    rewrite andb_true_r, Nat.add_0_r in H0. rewrite H0.
    rewrite (IH false (S i) st); [reflexivity|].
    intros k Hk. specialize (H (S k)). cbn [skipn List.length] in H.
    rewrite andb_false_r in H. cbn [andb].
    replace (S i + k) with (i + S k) by lia. apply H. lia.
Qed.

(** A first character at which nothing matches is kept. *)
Lemma sub_scan_head (c : ascii) (t : str) (a0 : bool) (i : nat) (st : St) :
  match_here r a0 i (c :: t) = None ->
  exists t', fst (sub_scan r f a0 i 0 (c :: t) st) = c :: t'.
Proof.
  intros H. cbn [sub_scan]. rewrite H.
  destruct (sub_scan r f false (S i) 0 t st) as [tl st1]. exists tl. reflexivity.
Qed.
End SubScan.

Lemma re_sub_Forall (P : ascii -> Prop) (r : re) (repl s : str) :
  Forall P repl -> Forall P s -> Forall P (re_sub r repl s).
Proof.
  intros Hr Hs. unfold re_sub. apply sub_scan_Forall; [| assumption].
  intros m st. exact Hr.
Qed.

Lemma re_sub_nomatch (r : re) (repl s : str) :
  (forall k, k <= List.length s ->
             match_here r (k =? 0) k (skipn k s) = None) ->
  re_sub r repl s = s.
Proof.
  intros H. unfold re_sub. rewrite sub_scan_nomatch; [reflexivity|].
  intros k Hk. cbn [andb Nat.add]. apply H. exact Hk.
Qed.

Lemma re_sub_head (r : re) (repl : str) (c : ascii) (t : str) :
  match_here r true 0 (c :: t) = None ->
  exists t', re_sub r repl (c :: t) = c :: t'.
Proof. intros H. unfold re_sub. apply sub_scan_head. exact H. Qed.

(** With a replacement no longer than any match, the result is no longer
    than the subject. *)
Lemma sub_scan_length (r : re) (repl : str) :
  (forall a0 i s m, match_here r a0 i s = Some m -> List.length repl <= m_len m) ->
  forall s a0 i skip,
    skip <= List.length s ->
    List.length (fst (sub_scan r (fun _ (u : unit) => (repl, u)) a0 i skip s tt)) + skip
    <= List.length s.
Proof.
  intros Hm. induction s as [|c t IH]; intros a0 i skip Hs.
  - cbn in *. assert (skip = 0) by lia. subst skip.
    destruct (match_here r a0 i []) as [m|] eqn:E; cbn; [| lia].
    pose proof (Hm _ _ _ _ E) as L.
    destruct (match_here_In _ _ _ _ E) as (c' & _ & _ & L' & _). cbn in L'. lia.
  - cbn [sub_scan]. destruct skip as [|k].
    + destruct (match_here r a0 i (c :: t)) as [m|] eqn:E.
      * pose proof (Hm _ _ _ _ E) as L.
        destruct (match_here_In _ _ _ _ E) as (c' & _ & _ & L' & _).
        cbn [List.length] in L'.
        destruct (m_len m) as [|n] eqn:En.
        -- assert (R : repl = []) by (destruct repl; [reflexivity | cbn in L; lia]).
           subst repl.
           specialize (IH false (S i) 0 (Nat.le_0_l _)).
           destruct (sub_scan _ _ false (S i) 0 t tt) as [tl u]. cbn in *. lia.
        -- assert (Hn : n <= List.length t) by lia.
           specialize (IH false (S i) n Hn).
           destruct (sub_scan _ _ false (S i) n t tt) as [tl u]. cbn [fst] in *.
           rewrite length_app. cbn [List.length]. lia.
      * specialize (IH false (S i) 0 (Nat.le_0_l _)).
        destruct (sub_scan _ _ false (S i) 0 t tt) as [tl u]. cbn in *. lia.
    + cbn [List.length] in *. specialize (IH false (S i) k ltac:(lia)). lia.
Qed.

Lemma re_sub_length (r : re) (repl s : str) :
  (forall a0 i s m, match_here r a0 i s = Some m -> List.length repl <= m_len m) ->
  List.length (re_sub r repl s) <= List.length s.
Proof.
  intros Hm. unfold re_sub.
  pose proof (@sub_scan_length r repl Hm s true 0 0 (Nat.le_0_l _)). lia.
Qed.

Unset Implicit Arguments.

(** ** Stripping *)

Lemma lstrip_by_app_stop (f : ascii -> bool) (c : ascii) (l : str) :
  f c = false -> exists w, lstrip_by f (l ++ [c]) = w ++ [c].
Proof.
  intros Hc. induction l as [|x l IH]; cbn.
  - rewrite Hc. exists []. reflexivity.
  - destruct (f x).
    + exact IH.
    + exists (x :: l). reflexivity.
Qed.

Lemma rstrip_by_head (f : ascii -> bool) (c : ascii) (t : str) :
  f c = false -> exists t', rstrip_by f (c :: t) = c :: t'.
Proof.
  intros Hc. unfold rstrip_by. cbn [rev].
  destruct (lstrip_by_app_stop f c (rev t) Hc) as (w & E). rewrite E.
  rewrite rev_app_distr. cbn. exists (rev w). reflexivity.
Qed.

(** ** What [finalize] returns is never empty *)

Lemma prefix_match_upper (prefix : str) (m : rmatch) :
  re_match PREFIX_RE prefix = Some m ->
  exists c t, prefix = c :: t /\ is_upper c = true.
Proof.
  intros H. apply match_here_In in H. destruct H as (c' & H & _).
  unfold PREFIX_RE in H. inv_run. cbn [rest] in *.
  match goal with
  | E : prefix = ?w ++ _, F : forallb is_upper ?w = true, L : 2 <= List.length ?w |- _ =>
      destruct w as [|c w']; [cbn in L; lia|];
      cbn in F; apply andb_true_iff in F; destruct F as [F _];
      exists c; eexists; split; [exact E | exact F]
  end.
Qed.

Lemma join_cons_head (sep : str) (c : ascii) (p : str) (w : str) (ws : list str) :
  exists t, join sep ((c :: p) :: w :: ws) = c :: t.
Proof. cbn [join]. eexists. reflexivity. Qed.

Lemma multi_unders_nomatch_head (a0 : bool) (i : nat) (c : ascii) (t : str) :
  chr_eqb "_" c = false -> match_here MULTI_UNDERS a0 i (c :: t) = None.
Proof.
  intros H. unfold match_here, MULTI_UNDERS, chr. cbn [run rest flat_map]. rewrite H.
  reflexivity.
Qed.

Lemma trailing_unders_nomatch_head (a0 : bool) (i : nat) (c : ascii) (t : str) :
  chr_eqb "_" c = false -> match_here TRAILING_UNDERS a0 i (c :: t) = None.
Proof.
  intros H. unfold match_here, TRAILING_UNDERS.
  cbn [run rest flat_map rep_greedy at0 caps app]. rewrite H. reflexivity.
Qed.

Lemma join_tokens_head (c : ascii) (p : str) (id_part : option str) (date title rev : str) :
  chr_eqb "_" c = false ->
  exists t, join_tokens (c :: p) id_part date title rev = c :: t.
Proof.
  intros H. unfold join_tokens. cbv zeta.
  match goal with
  | |- context [join ?a ?b] => assert (J : exists t, join a b = c :: t)
  end.
  { destruct (truthy id_part); cbn [app]; apply join_cons_head. }
  destruct J as (t & J). rewrite J.
  destruct (re_sub_head MULTI_UNDERS "_" c t (multi_unders_nomatch_head true 0 c t H))
    as (t1 & E1).
  rewrite E1.
  destruct (re_sub_head TRAILING_UNDERS "" c t1 (trailing_unders_nomatch_head true 0 c t1 H))
    as (t2 & E2).
  rewrite E2. eauto.
Qed.

Lemma rstrip_chars_head (chars : str) (c : ascii) (t : str) :
  has_chr c chars = false -> exists t', rstrip_chars chars (c :: t) = c :: t'.
Proof. intros H. unfold rstrip_chars. apply rstrip_by_head. exact H. Qed.

Lemma postprocess_head (c : ascii) (t : str) (notes : list str) :
  chr_eqb c "_" = false -> chr_eqb c "." = false ->
  exists t', fst (postprocess_before_ext (c :: t) notes) = c :: t'.
Proof.
  intros H1 H2. unfold postprocess_before_ext.
  assert (F1 : has_chr c "_" = false) by (unfold has_chr; cbn; rewrite H1; reflexivity).
  assert (F2 : has_chr c "." = false) by (unfold has_chr; cbn; rewrite H2; reflexivity).
  destruct (endswith "_" (c :: t)); cbv beta iota.
  - destruct (rstrip_chars_head "_" c t F1) as (t1 & E1). rewrite E1.
    destruct (endswith "." (c :: t1)); cbn [fst]; [| eauto].
    apply rstrip_chars_head. exact F2.
  - destruct (endswith "." (c :: t)); cbn [fst]; [| eauto].
    apply rstrip_chars_head. exact F2.
Qed.

Lemma finalize_stem_head (issues : list str) (c : ascii) (p : str) (id_part : option str)
    (date_token title_raw : str) (hard_rev : option str) :
  is_upper c = true ->
  exists t, fst (finalize_stem issues (c :: p) id_part date_token title_raw hard_rev) = c :: t.
Proof.
  intros U. unfold finalize_stem.
  destruct (extract_rev title_raw issues) as [[title_no_rev rev_norm] iss1].
  destruct (sanitize_title title_no_rev iss1) as [title iss2].
  destruct (enforce_stem_limit _ _ _ _ _ _) as [title' iss3].
  destruct (class_neq is_upper c "_" U eq_refl) as [N1 N1'].
  destruct (class_neq is_upper c "." U eq_refl) as [N2 _].
  destruct (join_tokens_head c p
              (if truthy id_part then Some (replace_chr "_" "" (as_str id_part)) else None)
              date_token title'
              (if truthy hard_rev then as_str hard_rev else rev_norm) N1') as (t & E).
  rewrite E. apply postprocess_head; assumption.
Qed.

Lemma finalized_nonempty (c : ctx) (prefix : str) (m : rmatch) (v : verdict) :
  re_match PREFIX_RE prefix = Some m ->
  finalized c prefix v ->
  exists x t notes ch, v = (Some (x :: t), notes, ch).
Proof.
  intros Hp (issues & id_part & date_token & title_raw & hard_rev & E & _ & _).
  destruct (prefix_match_upper prefix m Hp) as (x & p & Ep & U). subst prefix.
  destruct (finalize_stem_head issues x p id_part date_token title_raw hard_rev U) as (t & Et).
  subst v. unfold finalize.
  destruct (finalize_stem issues (x :: p) id_part date_token title_raw hard_rev) as [stem notes].
  cbn [fst] in Et. subst stem. cbn [app]. eauto.
Qed.

(** ** More on stripping *)

Lemma lstrip_by_split (f : ascii -> bool) (s : str) :
  exists w, s = w ++ lstrip_by f s /\ forallb f w = true.
Proof.
  induction s as [|c t IH]; cbn.
  - exists []. auto.
  - destruct (f c) eqn:F.
    + destruct IH as (w & E & Fw). exists (c :: w). cbn. rewrite F, Fw, <- E. auto.
    + exists []. auto.
Qed.

Lemma lstrip_by_first (f : ascii -> bool) (s : str) (c : ascii) (t : str) :
  lstrip_by f s = c :: t -> f c = false.
Proof.
  induction s as [|x s IH]; cbn; [discriminate|].
  destruct (f x) eqn:F; [exact IH|]. intros E. inversion E; subst. exact F.
Qed.

Lemma lstrip_by_fixed (f : ascii -> bool) (c : ascii) (t : str) :
  f c = false -> lstrip_by f (c :: t) = c :: t.
Proof. intros F. cbn. rewrite F. reflexivity. Qed.

Lemma rstrip_by_split (f : ascii -> bool) (s : str) :
  exists w, s = rstrip_by f s ++ w /\ forallb f w = true.
Proof.
  unfold rstrip_by. destruct (lstrip_by_split f (rev s)) as (w & E & F).
  exists (rev w). split.
  - rewrite <- rev_app_distr, <- E, rev_involutive. reflexivity.
  - rewrite forallb_forall in *. intros x Hx. apply F. apply in_rev. exact Hx.
Qed.

Lemma rstrip_by_last (f : ascii -> bool) (s l : str) (c : ascii) :
  rstrip_by f s = l ++ [c] -> f c = false.
Proof.
  unfold rstrip_by. intros E.
  destruct (lstrip_by f (rev s)) as [|x t] eqn:L.
  - destruct l; discriminate E.
  - cbn in E. apply app_inj_tail in E. destruct E as [_ E]. subst x.
    exact (lstrip_by_first f _ _ _ L).
Qed.

Lemma rstrip_by_fixed (f : ascii -> bool) (l : str) (c : ascii) :
  f c = false -> rstrip_by f (l ++ [c]) = l ++ [c].
Proof.
  intros F. unfold rstrip_by. rewrite rev_app_distr. cbn [rev app].
  rewrite lstrip_by_fixed by exact F. cbn [rev]. rewrite rev_involutive. reflexivity.
Qed.

Lemma rstrip_by_nil (f : ascii -> bool) : rstrip_by f [] = [].
Proof. reflexivity. Qed.

(** A string is empty or has a last character. *)
Lemma str_last_cases (s : str) : s = [] \/ exists l c, s = l ++ [c].
Proof.
  induction s as [|x s IH] using rev_ind; [left; reflexivity|].
  right. exists s, x. reflexivity.
Qed.

Lemma rstrip_by_idem (f : ascii -> bool) (s : str) :
  rstrip_by f (rstrip_by f s) = rstrip_by f s.
Proof.
  destruct (str_last_cases (rstrip_by f s)) as [E | (l & c & E)].
  - rewrite E. reflexivity.
  - rewrite E. apply rstrip_by_fixed. exact (rstrip_by_last f s l c E).
Qed.

Lemma rstrip_by_length (f : ascii -> bool) (s : str) :
  List.length (rstrip_by f s) <= List.length s.
Proof.
  destruct (rstrip_by_split f s) as (w & E & _).
  rewrite E at 2. rewrite length_app. lia.
Qed.

Lemma rstrip_by_Forall (P : ascii -> Prop) (f : ascii -> bool) (s : str) :
  Forall P s -> Forall P (rstrip_by f s).
Proof.
  intros H. destruct (rstrip_by_split f s) as (w & E & _).
  rewrite E in H. apply Forall_app in H. tauto.
Qed.

Lemma lstrip_by_Forall (P : ascii -> Prop) (f : ascii -> bool) (s : str) :
  Forall P s -> Forall P (lstrip_by f s).
Proof.
  intros H. destruct (lstrip_by_split f s) as (w & E & _).
  rewrite E in H. apply Forall_app in H. tauto.
Qed.

Lemma strip_last (s l : str) (c : ascii) : strip s = l ++ [c] -> is_space c = false.
Proof. unfold strip. apply rstrip_by_last. Qed.

Lemma strip_first (s t : str) (c : ascii) : strip s = c :: t -> is_space c = false.
Proof.
  unfold strip. intros E.
  destruct (lstrip_by is_space s) as [|x u] eqn:L; [discriminate E|].
  pose proof (lstrip_by_first _ _ _ _ L) as F.
  destruct (rstrip_by_head is_space x u F) as (t' & E'). rewrite E' in E.
  inversion E; subst. exact F.
Qed.

Lemma strip_fixed (s : str) :
  (forall c t, s = c :: t -> is_space c = false) ->
  (forall l c, s = l ++ [c] -> is_space c = false) ->
  strip s = s.
Proof.
  intros H1 H2. unfold strip.
  destruct s as [|c t]; [reflexivity|].
  rewrite lstrip_by_fixed by (eapply H1; reflexivity).
  destruct (str_last_cases (c :: t)) as [E | (l & x & E)]; [discriminate E|].
  rewrite E. apply rstrip_by_fixed. eapply H2. exact E.
Qed.

Lemma strip_idem (s : str) : strip (strip s) = strip s.
Proof.
  apply strip_fixed.
  - intros c t E. exact (strip_first s t c E).
  - intros l c E. exact (strip_last s l c E).
Qed.

Lemma strip_Forall (P : ascii -> Prop) (s : str) : Forall P s -> Forall P (strip s).
Proof. intros H. unfold strip. apply rstrip_by_Forall, lstrip_by_Forall, H. Qed.

(** ** The dates that [need_date] accepts *)

Lemma is_space_newline : is_space newline = true.
Proof. reflexivity. Qed.

(** After [strip], [$] can only be the end. *)
Lemma at_eol_strip (tok w r : str) : strip tok = w ++ r -> at_eol r -> r = [].
Proof.
  intros E [H|H]; [exact H|]. subst r. apply strip_last in E.
  rewrite is_space_newline in E. discriminate E.
Qed.

Lemma digit_chr_is_digit (k : Z) : (0 <= k < 10)%Z -> is_digit (digit_chr k) = true.
Proof.
  intros H. apply is_digit_spec. unfold digit_chr, code.
  rewrite nat_ascii_embedding by lia. lia.
Qed.

Lemma fmt02_digits (n : Z) : digits_n 2 (fmt02 n).
Proof.
  unfold fmt02, digits_n, all_digits. cbn [forallb List.length].
  rewrite !digit_chr_is_digit; [auto | |]; apply Z.mod_pos_bound; lia.
Qed.

Lemma digits_n_app (a b : nat) (x y : str) :
  digits_n a x -> digits_n b y -> digits_n (a + b) (x ++ y).
Proof.
  intros [Dx Lx] [Dy Ly]. unfold digits_n, all_digits in *.
  rewrite forallb_app, length_app, Dx, Dy, Lx, Ly. auto.
Qed.

Ltac groups_of H :=
  apply match_here_In in H;
  let c' := fresh "c" in
  let G := fresh "G" in
  destruct H as (c' & H & _ & _ & G);
  inv_run;
  repeat match goal with E : caps _ = _ |- _ => rewrite E in *; clear E end;
  cbn [caps rest app] in *.

Ltac exact_digits :=
  match goal with
  | F : forallb is_digit ?w = true, L1 : ?n <= List.length ?w, L2 : hi_ok (Some ?n) (List.length ?w)
    |- digits_n ?n ?w => split; [exact F | cbn in L2; lia]
  end.

Lemma digits_8_fmt (y : str) (a b : Z) :
  digits_n 4 y -> digits_n 8 (y ++ fmt02 a ++ fmt02 b).
Proof.
  intros H. change 8 with (4 + (2 + 2)).
  apply digits_n_app; [exact H | apply digits_n_app; apply fmt02_digits].
Qed.

Lemma try_normalize_date_sound (tok d : str) (note : option str) :
  try_normalize_date tok = Ret (Some d, note) -> digits_n 8 d.
Proof.
  unfold try_normalize_date.
  destruct (negb (nonempty (strip tok))); [discriminate|].
  destruct (re_match DATE_RE_STRICT (strip tok)) as [m|] eqn:E1.
  { intros E. injection E as Ed _. rewrite <- Ed. unfold re_match, DATE_RE_STRICT in E1.
    groups_of E1.
    match goal with
    | E : strip tok = ?w ++ ?r, A : at_eol ?r |- _ =>
        rewrite (at_eol_strip tok w r E A), app_nil_r in E; rewrite E
    end.
    exact_digits. }
  destruct (re_match RE_DATE_DASH (strip tok)) as [m|] eqn:E2.
  { unfold re_match, RE_DATE_DASH in E2. groups_of E2.
    unfold groups3. rewrite G. cbn [nth]. intros E. injection E as Ed _. rewrite <- Ed.
    change 8 with (4 + (2 + 2)).
    apply digits_n_app; [exact_digits | apply digits_n_app; exact_digits]. }
  destruct (re_match RE_DATE_MDY (strip tok)) as [m|] eqn:E3.
  { unfold re_match, RE_DATE_MDY in E3. groups_of E3.
    unfold groups3. rewrite G. cbn [nth].
    destruct (py_int _); cbn [bind]; [| discriminate].
    destruct (py_int _); cbn [bind]; [| discriminate].
    intros E. injection E as Ed _. rewrite <- Ed.
    apply digits_8_fmt. exact_digits. }
  destruct (re_match RE_DATE_YMD (strip tok)) as [m|] eqn:E4.
  { unfold re_match, RE_DATE_YMD in E4. groups_of E4.
    unfold groups3. rewrite G. cbn [nth].
    destruct (py_int _); cbn [bind]; [| discriminate].
    destruct (py_int _); cbn [bind]; [| discriminate].
    intros E. injection E as Ed _. rewrite <- Ed.
    apply digits_8_fmt. exact_digits. }
  destruct (re_match RE_DATE_9 (strip tok)) as [m|] eqn:E5; [| discriminate].
  unfold re_match, RE_DATE_9 in E5. groups_of E5.
  unfold groups3. rewrite G. cbn [nth].
  match goal with |- context [match ?x with Ret _ => _ | Raise _ => _ end] => destruct x end;
    [| discriminate].
  intros E. injection E as Ed _. rewrite <- Ed.
  change 8 with (4 + (2 + 2)).
  apply digits_n_app; [exact_digits | apply digits_n_app; exact_digits].
Qed.

Lemma truthy_Some (o : option str) : truthy o = true -> exists s, o = Some s /\ nonempty s = true.
Proof. destruct o as [s|]; cbn; [eauto | discriminate]. Qed.

(** What [need_date] returns with [ok] set is a date of eight digits; the
    notes only grow. *)
Lemma need_date_sound (tok : option str) (issues : list str) (d : option str) (ok : bool)
    (iss : list str) :
  need_date tok issues = Ret (d, ok, iss) ->
  (exists extra, iss = issues ++ extra)
  /\ (ok = true -> exists s, d = Some s /\ digits_n 8 s).
Proof.
  unfold need_date. destruct (negb (truthy tok)).
  { intros E. inversion E; subst. split; [exists []; rewrite app_nil_r; reflexivity|].
    discriminate. }
  destruct (try_normalize_date (as_str tok)) as [[d' note]|] eqn:T; cbn [bind]; [| discriminate].
  intros E. inversion E; subst. split.
  - destruct (truthy d && truthy note); eexists; [reflexivity|].
    rewrite app_nil_r. reflexivity.
  - intros K. apply truthy_Some in K. destruct K as (s & Ed & _). subst d.
    exists s. split; [reflexivity|]. exact (try_normalize_date_sound _ _ _ T).
Qed.

Lemma need_date_ok (tok : option str) (issues : list str) (d : option str) (iss : list str) :
  need_date tok issues = Ret (d, true, iss) -> digits_n 8 (as_str d).
Proof.
  intros H. destruct (need_date_sound _ _ _ _ _ H) as (_ & K).
  destruct (K eq_refl) as (s & E & D). subst d. exact D.
Qed.

Lemma first_date_found (rest : list str) :
  forall i issues idx d iss,
    first_date rest i issues = Ret (Some (idx, d), iss) -> digits_n 8 (as_str d).
Proof.
  induction rest as [|tok t IH]; intros i issues idx d iss; cbn [first_date]; [discriminate|].
  destruct (need_date (Some tok) issues) as [[[d0 ok] iss0]|] eqn:E; cbn [bind]; [| discriminate].
  destruct ok.
  - intros K. inversion K; subst. exact (need_date_ok _ _ _ _ E).
  - apply IH.
Qed.

(** ** Searching *)

Lemma search_from_Some (r : re) (s : str) :
  forall a0 i m,
    search_from r a0 i s = Some m ->
    exists k, k <= List.length s
      /\ match_here r (a0 && (k =? 0)) (i + k) (skipn k s) = Some m
      /\ forall j, j < k -> match_here r (a0 && (j =? 0)) (i + j) (skipn j s) = None.
Proof.
  induction s as [|c t IH]; intros a0 i m; cbn [search_from].
  - destruct (match_here r a0 i []) as [m'|] eqn:E; [| discriminate].
    intros K. inversion K; subst. exists 0. cbn. rewrite andb_true_r, Nat.add_0_r.
    repeat split; [lia | exact E | intros; lia].
  - destruct (match_here r a0 i (c :: t)) as [m'|] eqn:E.
    + intros K. inversion K; subst. exists 0. cbn. rewrite andb_true_r, Nat.add_0_r.
      repeat split; [lia | exact E | intros; lia].
    + intros K. destruct (IH _ _ _ K) as (k & Lk & Mk & Nk).
      exists (S k). cbn [skipn List.length andb Nat.eqb]. rewrite andb_false_r.
      replace (i + S k) with (S i + k) by lia.
      repeat split; [lia | exact Mk |].
      intros j Hj. destruct j as [|j].
      * cbn. rewrite andb_true_r, Nat.add_0_r. exact E.
      * cbn [skipn Nat.eqb]. rewrite andb_false_r.
        replace (i + S j) with (S i + j) by lia. apply Nk. lia.
Qed.

Lemma search_from_None (r : re) (s : str) :
  forall a0 i,
    (forall k, k <= List.length s ->
               match_here r (a0 && (k =? 0)) (i + k) (skipn k s) = None) ->
    search_from r a0 i s = None.
Proof.
  induction s as [|c t IH]; intros a0 i H; cbn [search_from].
  - specialize (H 0 (Nat.le_refl _)). cbn in H. rewrite andb_true_r, Nat.add_0_r in H.
    rewrite H. reflexivity.
  - pose proof (H 0 (Nat.le_0_l _)) as H0. cbn in H0.
    rewrite andb_true_r, Nat.add_0_r in H0. rewrite H0.
    apply IH. intros k Hk. specialize (H (S k)). cbn [skipn List.length Nat.eqb] in H.
    rewrite andb_false_r in H. cbn [andb].
    replace (S i + k) with (i + S k) by lia. apply H. lia.
Qed.

(** An invariant of the callback's state is kept by a substitution. *)
Lemma sub_scan_state_inv (St : Type) (r : re) (f : rmatch -> St -> str * St)
    (Inv : St -> Prop) :
  (forall a i s m st, match_here r a i s = Some m -> Inv st -> Inv (snd (f m st))) ->
  forall s a0 i skip st, Inv st -> Inv (snd (sub_scan r f a0 i skip s st)).
Proof.
  intros Hf. induction s as [|c t IH]; intros a0 i skip st Hst.
  - cbn. destruct skip; [| exact Hst].
    destruct (match_here r a0 i []) eqn:E; [| exact Hst]. exact (Hf _ _ _ _ _ E Hst).
  - cbn [sub_scan]. destruct skip as [|k]; [| apply IH; exact Hst].
    destruct (match_here r a0 i (c :: t)) as [m|] eqn:E.
    + pose proof (Hf _ _ _ _ _ E Hst) as H1.
      destruct (f m st) as [out st1]. cbn [snd] in H1.
      destruct (m_len m) as [|n].
      * specialize (IH false (S i) 0 st1 H1).
        destruct (sub_scan r f false (S i) 0 t st1). exact IH.
      * specialize (IH false (S i) n st1 H1).
        destruct (sub_scan r f false (S i) n t st1). exact IH.
    + specialize (IH false (S i) 0 st Hst).
      destruct (sub_scan r f false (S i) 0 t st). exact IH.
Qed.

(** ** The revision that [extract_rev] returns *)

Lemma digit_or_O_cases (c : ascii) :
  is_digit_or_O c = true -> is_digit c = true \/ c = "O"%char \/ c = "o"%char.
Proof.
  unfold is_digit_or_O, one_of, has_chr. cbn [existsb lit list_ascii_of_string].
  rewrite !orb_true_iff. intros [H|[H|[H|H]]]; auto.
  - right. left. apply chr_eqb_eq in H. auto.
  - right. right. apply chr_eqb_eq in H. auto.
  - discriminate H.
Qed.

Lemma digit_upper (c : ascii) : is_digit c = true -> upper_chr c = c.
Proof.
  intros H. unfold upper_chr.
  destruct (is_lower c) eqn:L; [| reflexivity].
  apply is_digit_spec in H. apply is_lower_spec in L. lia.
Qed.

(** [raw.upper().replace('O', '0')] of one character of [[0-9Oo]]. *)
Lemma rev_digit_chr (c : ascii) :
  is_digit_or_O c = true ->
  exists d, replace_chr "O" "0" (upper [c]) = [d] /\ is_digit d = true.
Proof.
  intros H. destruct (digit_or_O_cases c H) as [D | [E | E]].
  - exists c. unfold upper, replace_chr. cbn [map flat_map]. rewrite (digit_upper c D).
    rewrite (proj1 (class_neq is_digit c "O" D eq_refl)). auto.
  - subst c. exists "0"%char. auto.
  - subst c. exists "0"%char. auto.
Qed.

Lemma rev_upper_cons (a : ascii) (w : str) :
  replace_chr "O" "0" (upper (a :: w))
  = replace_chr "O" "0" (upper [a]) ++ replace_chr "O" "0" (upper w).
Proof. unfold replace_chr, upper. cbn [map flat_map]. rewrite app_nil_r. reflexivity. Qed.

Lemma rev_digits_canon (w : str) :
  forallb is_digit_or_O w = true -> 1 <= List.length w -> hi_ok (Some 2) (List.length w) ->
  digits_1_2 (rev_digits w).
Proof.
  intros F L1 L2. cbn in L2.
  destruct w as [|a [|b [|c w]]]; cbn in L1, L2; try lia;
    cbn [forallb] in F; repeat (apply andb_true_iff in F; destruct F as [? F]).
  - destruct (rev_digit_chr a H) as (d & E & D).
    unfold rev_digits. rewrite E. cbn [firstn].
    unfold digits_1_2, all_digits. cbn [forallb List.length].
    rewrite D. split; [reflexivity | left; reflexivity].
  - destruct (rev_digit_chr a H) as (d & E & D).
    destruct (rev_digit_chr b H0) as (d' & E' & D').
    unfold rev_digits. rewrite rev_upper_cons, E, E'. cbn [app firstn].
    unfold digits_1_2, all_digits. cbn [forallb List.length].
    rewrite D, D'. split; [reflexivity | right; reflexivity].
Qed.

Lemma digits_1_2_firstn (w : str) :
  forallb is_digit w = true -> 1 <= List.length w -> hi_ok (Some 2) (List.length w) ->
  digits_1_2 (firstn 2 w) /\ firstn 2 w = w.
Proof.
  intros F L1 L2. cbn in L2.
  assert (E : firstn 2 w = w) by (apply firstn_all2; lia).
  rewrite E. split; [| reflexivity]. split; [exact F | lia].
Qed.

Lemma canon_group (a0 : bool) (i : nat) (s : str) (m : rmatch) :
  match_here CANON_REV_SUFFIX a0 i s = Some m ->
  digits_1_2 (firstn 2 (group1 m)) /\ firstn 2 (group1 m) = group1 m.
Proof.
  intros H. unfold CANON_REV_SUFFIX in H. groups_of H.
  unfold group1. rewrite G. cbn [nth]. apply digits_1_2_firstn; assumption.
Qed.

Lemma rev_any_group (a0 : bool) (i : nat) (s : str) (m : rmatch) :
  match_here REV_ANY_INFIX a0 i s = Some m -> digits_1_2 (rev_digits (group1 m)).
Proof.
  intros H. unfold REV_ANY_INFIX in H. groups_of H.
  unfold group1. rewrite G. cbn [nth]. apply rev_digits_canon; assumption.
Qed.

Lemma embedded_group (a0 : bool) (i : nat) (s : str) (m : rmatch) :
  match_here EMBEDDED_REV a0 i s = Some m -> digits_1_2 (rev_digits (group1 m)).
Proof.
  intros H. unfold EMBEDDED_REV in H. groups_of H;
    unfold group1; rewrite G; cbn [nth]; apply rev_digits_canon; assumption.
Qed.

Lemma re_search_Some (r : re) (s : str) (m : rmatch) :
  re_search r s = Some m -> exists a0 i s', match_here r a0 i s' = Some m.
Proof.
  unfold re_search. intros H. destruct (search_from_Some r s _ _ _ H) as (k & _ & M & _).
  eauto.
Qed.

Lemma digits_1_2_zero : digits_1_2 (lit "0").
Proof. split; [reflexivity | left; reflexivity]. Qed.

Lemma extract_rev_canon (trailing : str) (notes : list str) :
  canon_rev (snd (fst (extract_rev trailing notes))).
Proof.
  unfold extract_rev.
  destruct (re_search CANON_REV_SUFFIX (rstrip trailing)) as [m|] eqn:C.
  { cbn [fst snd]. destruct (re_search_Some _ _ _ C) as (a0 & i & s' & M).
    exists (firstn 2 (group1 m)). split; [reflexivity|]. apply (canon_group a0 i s' m M). }
  match goal with
  | |- context [match ?X with (_, _) => _ end] =>
      match X with
      | match re_search REV_ANY_INFIX _ with Some _ => _ | None => _ end =>
          set (body := X)
      end
  end.
  assert (K : exists s cd nn,
             body = (s, cd, nn)
             /\ (cd = None \/ exists ds, cd = Some ds /\ digits_1_2 ds)).
  { subst body. destruct (re_search REV_ANY_INFIX (rstrip trailing)) as [m|] eqn:R.
    - destruct (re_search_Some _ _ _ R) as (a0 & i & s' & M).
      eexists _, _, _. split; [reflexivity|]. right. eexists. split; [reflexivity|].
      exact (rev_any_group a0 i s' m M).
    - pose proof (sub_scan_state_inv _ EMBEDDED_REV strip_embedded
                    (fun st => fst st = None \/ exists ds, fst st = Some ds /\ digits_1_2 ds))
        as Inv.
      assert (Hf : forall a i s m st, match_here EMBEDDED_REV a i s = Some m ->
                     (fst st = None \/ exists ds, fst st = Some ds /\ digits_1_2 ds) ->
                     (fst (snd (strip_embedded m st)) = None
                      \/ exists ds, fst (snd (strip_embedded m st)) = Some ds /\ digits_1_2 ds)).
      { intros a i s m st M Hst. unfold strip_embedded. cbn [fst snd].
        destruct (nonempty (group1 m)); [| exact Hst].
        right. eexists. split; [reflexivity|]. exact (embedded_group a i s m M). }
      specialize (Inv Hf (rstrip trailing) true 0 0 (None, false) (or_introl eq_refl)).
      destruct (sub_scan EMBEDDED_REV strip_embedded true 0 0 (rstrip trailing) (None, false))
        as [s2 [cd saw]].
      cbn [fst snd] in Inv.
      destruct (str_eqb s2 (rstrip trailing)); eexists _, _, _; (split; [reflexivity | exact Inv]). }
  destruct K as (s & cd & nn & E & Hcd). rewrite E.
  destruct Hcd as [Hcd | (ds & Hcd & D)]; subst cd; cbn [truthy negb].
  - cbn [fst snd]. exists (lit "0"). split; [reflexivity | exact digits_1_2_zero].
  - assert (N : nonempty ds = true) by (destruct (digits_1_2_nonempty D); assumption).
    rewrite N. cbn [negb fst snd]. exists ds. split; [reflexivity | exact D].
Qed.

(** ** Collapsing underscores *)

Lemma rep_greedy_longest (p : ascii -> bool) (w e : str) (cs : list str) :
  forallb p w = true ->
  match e with [] => True | x :: _ => p x = false end ->
  forall lo a0, lo <= List.length w ->
    exists l, rep_greedy p lo None a0 (w ++ e) cs
              = Cfg (a0 && negb (nonempty w)) e cs :: l.
Proof.
  intros F He. induction w as [|c w IH]; intros lo a0 L.
  - cbn in L. assert (lo = 0) by lia. subst lo. cbn [app nonempty negb].
    rewrite andb_true_r. destruct e as [|x t]; cbn [rep_greedy].
    + exists []. reflexivity.
    + rewrite He. exists []. reflexivity.
  - cbn [forallb] in F. apply andb_true_iff in F. destruct F as [Pc F].
    cbn [app rep_greedy]. rewrite Pc.
    destruct (IH F (pred lo) false) as (l & E); [cbn in L; lia|].
    rewrite E. cbn [app nonempty negb andb]. rewrite andb_false_r.
    eexists. reflexivity.
Qed.

Lemma startswith_us (t : str) :
  startswith "_" t = match t with [] => false | b :: _ => chr_eqb "_" b end.
Proof.
  destruct t as [|b t]; cbn; [reflexivity|]. rewrite andb_true_r. reflexivity.
Qed.

(** The match of [__+] at a run of underscores is the whole run. *)
Lemma multi_unders_run (a0 : bool) (i : nat) (w e : str) :
  forallb (chr_eqb "_") w = true -> 1 <= List.length w ->
  startswith "_" e = false ->
  match_here MULTI_UNDERS a0 i ("_"%char :: w ++ e) = Some (RMatch i (S (List.length w)) []).
Proof.
  intros F L He. rewrite startswith_us in He.
  assert (He' : match e with [] => True | x :: _ => chr_eqb "_" x = false end)
    by (destruct e; auto).
  destruct (rep_greedy_longest (chr_eqb "_") w e [] F He' 1 false L) as (l & E).
  unfold match_here, MULTI_UNDERS, chr. cbn [run rest caps at0 flat_map].
  rewrite chr_eqb_refl. cbn [flat_map run rest caps at0]. rewrite E. cbn [app rest caps].
  f_equal. f_equal. cbn [List.length]. rewrite length_app. lia.
Qed.

Lemma multi_unders_single (a0 : bool) (i : nat) (t : str) :
  startswith "_" t = false -> match_here MULTI_UNDERS a0 i ("_"%char :: t) = None.
Proof.
  intros H. rewrite startswith_us in H.
  unfold match_here, MULTI_UNDERS, chr. cbn [run rest caps at0 flat_map].
  rewrite chr_eqb_refl. cbn [flat_map run rest caps at0].
  destruct t as [|x t]; cbn [rep_greedy app]; [reflexivity|]. rewrite H. reflexivity.
Qed.

Lemma multi_unders_nil (a0 : bool) (i : nat) : match_here MULTI_UNDERS a0 i [] = None.
Proof. reflexivity. Qed.

Lemma collapse_run (w e : str) :
  forallb (chr_eqb "_") w = true -> startswith "_" e = false ->
  collapse ("_"%char :: w ++ e) = "_"%char :: collapse e.
Proof.
  intros F He. induction w as [|c w IH].
  - cbn [app collapse]. rewrite He, andb_false_r. reflexivity.
  - cbn [forallb] in F. apply andb_true_iff in F. destruct F as [Pc F].
    apply chr_eqb_eq in Pc. subst c.
    change (collapse ("_"%char :: ("_"%char :: w) ++ e))
      with (if chr_eqb "_" "_" && startswith "_" (("_"%char :: w) ++ e)
            then collapse (("_"%char :: w) ++ e)
            else "_"%char :: collapse (("_"%char :: w) ++ e)).
    rewrite chr_eqb_refl. cbn [app]. rewrite startswith_us, chr_eqb_refl. cbn [andb].
    exact (IH F).
Qed.

(** [MULTI_UNDERS.sub("_", s)] is [collapse s]. *)
Lemma multi_unders_scan (s : str) :
  forall a0 i skip, skip <= List.length s ->
    fst (sub_scan MULTI_UNDERS (fun _ (u : unit) => (lit "_", u)) a0 i skip s tt)
    = collapse (skipn skip s).
Proof.
  induction s as [|c t IH]; intros a0 i skip L.
  - cbn in L. assert (skip = 0) by lia. subst skip. reflexivity.
  - destruct skip as [|k].
    + cbn [skipn sub_scan].
      destruct (chr_eqb "_" c) eqn:Ec.
      * apply chr_eqb_eq in Ec. subst c.
        destruct (lstrip_by_split (chr_eqb "_") t) as (w & Et & Fw).
        assert (He : startswith "_" (lstrip_by (chr_eqb "_") t) = false).
        { rewrite startswith_us. destruct (lstrip_by (chr_eqb "_") t) as [|x u] eqn:E; auto.
          exact (lstrip_by_first _ _ _ _ E). }
        destruct w as [|x w].
        -- cbn [app] in Et. rewrite <- Et in He.
           rewrite (multi_unders_single a0 i t He).
           specialize (IH false (S i) 0 (Nat.le_0_l _)).
           destruct (sub_scan _ _ false (S i) 0 t tt) as [tl u]. cbn [fst skipn] in *.
           rewrite IH. cbn [collapse]. rewrite He, andb_false_r. reflexivity.
        -- set (e := lstrip_by (chr_eqb "_") t) in *. clearbody e. subst t.
           rewrite (multi_unders_run a0 i (x :: w) e Fw ltac:(cbn; lia) He).
           cbn [m_len].
           specialize (IH false (S i) (List.length (x :: w))).
           assert (Lw : List.length (x :: w) <= List.length ((x :: w) ++ e))
             by (rewrite length_app; lia).
           specialize (IH Lw).
           destruct (sub_scan _ _ false (S i) (List.length (x :: w)) ((x :: w) ++ e) tt) as [tl u].
           cbn [fst] in *. rewrite IH.
           rewrite skipn_app, skipn_all, Nat.sub_diag. cbn [app skipn lit list_ascii_of_string].
           symmetry. exact (collapse_run (x :: w) e Fw He).
      * rewrite (multi_unders_nomatch_head a0 i c t Ec).
        specialize (IH false (S i) 0 (Nat.le_0_l _)).
        destruct (sub_scan _ _ false (S i) 0 t tt) as [tl u]. cbn [fst skipn] in *.
        rewrite IH. cbn [collapse]. rewrite Ec. reflexivity.
    + cbn [skipn sub_scan]. apply IH. cbn in L. lia.
Qed.

Lemma multi_unders_collapse (s : str) : re_sub MULTI_UNDERS "_" s = collapse s.
Proof. unfold re_sub. exact (multi_unders_scan s true 0 0 (Nat.le_0_l _)). Qed.

Lemma collapse_us_free (w : str) : us_free w -> collapse w = w.
Proof.
  induction 1 as [|c w Hc _ IH]; cbn [collapse]; [reflexivity|].
  rewrite Hc, IH. reflexivity.
Qed.

Lemma collapse_app_us_free (w y : str) : us_free w -> collapse (w ++ y) = w ++ collapse y.
Proof.
  induction 1 as [|c w Hc _ IH]; cbn [collapse app]; [reflexivity|].
  rewrite Hc, IH. reflexivity.
Qed.

Lemma startswith_us_app (a y : str) :
  nonempty a = true -> startswith "_" (a ++ y) = startswith "_" a.
Proof. destruct a; [discriminate|]. intros _. rewrite !startswith_us. reflexivity. Qed.

(** Collapsing distributes over a cut that does not follow an underscore. *)
Lemma collapse_app (l : str) (c : ascii) (y : str) :
  chr_eqb "_" c = false -> collapse ((l ++ [c]) ++ y) = collapse (l ++ [c]) ++ collapse y.
Proof.
  intros Hc. induction l as [|x l IH].
  - cbn [app collapse]. rewrite Hc. reflexivity.
  - cbn [app collapse]. rewrite IH.
    rewrite (startswith_us_app (l ++ [c]) y) by (destruct l; reflexivity).
    destruct (chr_eqb "_" x && startswith "_" (l ++ [c])); reflexivity.
Qed.

(** ** Trailing underscores and the last character *)

Lemma skipn_snoc (k : nat) (l : str) (c : ascii) :
  skipn k (l ++ [c]) = [] \/ exists l', skipn k (l ++ [c]) = l' ++ [c].
Proof.
  revert k. induction l as [|a l IH]; intros [|k]; cbn [app skipn].
  - right. exists []. reflexivity.
  - left. destruct k; reflexivity.
  - right. exists (a :: l). reflexivity.
  - apply IH.
Qed.

Lemma app_snoc_last (w r l : str) (c : ascii) :
  w ++ r = l ++ [c] -> at_eol r -> 1 <= List.length w ->
  (exists w', w = w' ++ [c]) \/ c = newline.
Proof.
  intros E [R|R] L; subst r.
  - rewrite app_nil_r in E. left. exists l. exact E.
  - right. apply app_inj_tail in E. destruct E as [_ E]. congruence.
Qed.

Lemma forallb_snoc (p : ascii -> bool) (w : str) (c : ascii) :
  forallb p (w ++ [c]) = true -> p c = true.
Proof.
  rewrite forallb_app. cbn. intros H. apply andb_true_iff in H.
  destruct H as [_ H]. rewrite andb_true_r in H. exact H.
Qed.

(** [TRAILING_UNDERS.sub("", s)] leaves a string alone that ends with
    something else than an underscore or a newline. *)
Lemma trailing_unders_id (l : str) (c : ascii) :
  chr_eqb "_" c = false -> chr_eqb c newline = false ->
  re_sub TRAILING_UNDERS "" (l ++ [c]) = l ++ [c].
Proof.
  intros Hu Hn. apply re_sub_nomatch. intros k _.
  destruct (match_here TRAILING_UNDERS (k =? 0) k (skipn k (l ++ [c]))) as [m|] eqn:M;
    [exfalso | reflexivity].
  apply match_here_In in M. destruct M as (c' & H & _).
  unfold TRAILING_UNDERS in H. inv_run. cbn [rest] in *.
  match goal with
  | E : skipn k (l ++ [c]) = ?w ++ _, F : forallb _ ?w = true,
    L : 1 <= List.length ?w, A : at_eol _ |- _ =>
      destruct (skipn_snoc k l c) as [S0 | (l' & S1)];
      [ rewrite S0 in E; destruct w; [cbn in L; lia | discriminate E]
      | rewrite S1 in E; symmetry in E;
        destruct (app_snoc_last _ _ _ _ E A L) as [(w' & Ew) | Ec];
        [ subst w; apply forallb_snoc in F; congruence
        | subst c; rewrite chr_eqb_refl in Hn; discriminate Hn ] ]
  end.
Qed.

Lemma endswith_snoc (x : ascii) (l : str) (c : ascii) :
  endswith [x] (l ++ [c]) = chr_eqb x c.
Proof.
  unfold endswith. rewrite rev_app_distr. cbn. rewrite andb_true_r. reflexivity.
Qed.

(** [postprocess_before_ext] leaves a stem alone that ends with something
    else than an underscore or a period. *)
Lemma postprocess_id (l : str) (c : ascii) (notes : list str) :
  chr_eqb "_" c = false -> chr_eqb "." c = false ->
  postprocess_before_ext (l ++ [c]) notes = (l ++ [c], notes).
Proof.
  intros H1 H2. unfold postprocess_before_ext.
  change (lit "_") with ["_"%char]. change (lit ".") with ["."%char].
  rewrite endswith_snoc, H1. cbv beta iota. rewrite endswith_snoc, H2. reflexivity.
Qed.

(** ** Joining fields *)

Lemma join_cons (sep w : str) (ws : list str) :
  nonempty_list ws = true -> join sep (w :: ws) = w ++ sep ++ join sep ws.
Proof. destruct ws; [discriminate | reflexivity]. Qed.

Lemma join_app (sep : str) (a b : list str) :
  nonempty_list a = true -> nonempty_list b = true ->
  join sep (a ++ b) = join sep a ++ sep ++ join sep b.
Proof.
  intros Ha Hb. induction a as [|w a IH]; [discriminate|].
  destruct a as [|w2 a].
  - cbn [app]. rewrite join_cons by exact Hb. reflexivity.
  - change ((w :: w2 :: a) ++ b) with (w :: ((w2 :: a) ++ b)).
    rewrite join_cons by reflexivity. rewrite IH by reflexivity.
    rewrite (join_cons sep w (w2 :: a)) by reflexivity.
    rewrite <- !app_assoc. reflexivity.
Qed.

Lemma join_snoc (sep : str) (a : list str) (w : str) :
  nonempty_list a = true -> join sep (a ++ [w]) = join sep a ++ sep ++ w.
Proof. intros Ha. rewrite join_app by (exact Ha || reflexivity). reflexivity. Qed.

Lemma count_chr_app (x : ascii) (a b : str) :
  count_chr x (a ++ b) = count_chr x a + count_chr x b.
Proof. unfold count_chr. rewrite filter_app, length_app. reflexivity. Qed.

Lemma count_chr_us_free (w : str) : us_free w -> count_chr "_" w = 0.
Proof.
  induction 1 as [|c w Hc _ IH]; [reflexivity|].
  unfold count_chr in *. cbn [filter]. rewrite Hc. exact IH.
Qed.

(** The underscores of a join of underscore-free fields are its
    separators. *)
Lemma count_join (parts : list str) :
  Forall us_free parts -> nonempty_list parts = true ->
  count_chr "_" (join "_" parts) = List.length parts - 1.
Proof.
  induction 1 as [|w ws Hw Hws IH]; [discriminate|]. intros _.
  destruct ws as [|w2 ws].
  - cbn [join List.length]. rewrite count_chr_us_free by exact Hw. reflexivity.
  - rewrite join_cons by reflexivity. rewrite !count_chr_app.
    rewrite count_chr_us_free by exact Hw. rewrite IH by reflexivity.
    cbn. lia.
Qed.

Lemma length_join (parts : list str) :
  nonempty_list parts = true ->
  List.length (join "_" parts)
  = list_sum (map (@List.length ascii) parts) + (List.length parts - 1).
Proof.
  induction parts as [|w ws IH]; [discriminate|]. intros _.
  destruct ws as [|w2 ws].
  - cbn. lia.
  - rewrite join_cons by reflexivity. rewrite !length_app, IH by reflexivity.
    cbn [map list_sum fold_right List.length lit list_ascii_of_string]. lia.
Qed.

(** A join of non-empty underscore-free fields has no double underscore. *)
Lemma collapse_join (parts : list str) :
  Forall us_free parts -> Forall (fun w => nonempty w = true) parts ->
  collapse (join "_" parts) = join "_" parts.
Proof.
  induction 1 as [|w ws Hw Hws IH]; intros N; [reflexivity|].
  inversion N as [|? ? Nw Nws]; subst.
  destruct ws as [|w2 ws].
  - cbn [join]. apply collapse_us_free. exact Hw.
  - rewrite join_cons by reflexivity.
    rewrite collapse_app_us_free by exact Hw.
    change (lit "_" ++ join "_" (w2 :: ws)) with ("_"%char :: join "_" (w2 :: ws)).
    cbn [collapse]. rewrite (IH Nws).
    assert (S : startswith "_" (join "_" (w2 :: ws)) = false).
    { inversion Nws as [|? ? N2 _]; subst. inversion Hws as [|? ? U2 _]; subst.
      destruct w2 as [|x w2]; [discriminate|]. inversion U2; subst.
      rewrite startswith_us. destruct ws; cbn; assumption. }
    rewrite S, andb_false_r. reflexivity.
Qed.

Lemma join_last (parts : list str) (r : str) (d : ascii) :
  exists l, join "_" (parts ++ [r ++ [d]]) = l ++ [d].
Proof.
  destruct parts as [|w ws].
  - exists r. reflexivity.
  - rewrite join_snoc by reflexivity. exists (join "_" (w :: ws) ++ lit "_" ++ r).
    rewrite <- !app_assoc. reflexivity.
Qed.

(** ** The characters of the fields *)

Lemma title_chr_neq (c x : ascii) :
  not_title_chr c = false -> not_title_chr x = true ->
  chr_eqb c x = false /\ chr_eqb x c = false.
Proof.
  intros Hc Hx. apply (class_neq (fun a => negb (not_title_chr a))).
  - rewrite Hc. reflexivity.
  - rewrite Hx. reflexivity.
Qed.

Lemma title_str_us_free (s : str) : title_str s -> us_free s.
Proof.
  unfold title_str, us_free. apply Forall_impl. intros c Hc.
  exact (proj2 (title_chr_neq c "_" Hc eq_refl)).
Qed.

Lemma all_digits_us_free (s : str) : all_digits s = true -> us_free s.
Proof.
  unfold all_digits, us_free. rewrite forallb_forall, Forall_forall.
  intros H c Hc. exact (proj2 (class_neq is_digit c "_" (H c Hc) eq_refl)).
Qed.

Lemma all_digits_last (s : str) :
  all_digits s = true -> 1 <= List.length s ->
  exists l d, s = l ++ [d] /\ is_digit d = true.
Proof.
  intros A L. destruct (str_last_cases s) as [E | (l & d & E)].
  - subst s. cbn in L. lia.
  - exists l, d. split; [exact E|]. subst s. exact (forallb_snoc is_digit l d A).
Qed.

Lemma canon_rev_us_free (r : str) : canon_rev r -> us_free r.
Proof.
  intros (ds & E & D & _). subst r. unfold us_free.
  change (lit "Rev" ++ ds) with ("R"%char :: "e"%char :: "v"%char :: ds).
  repeat (constructor; [reflexivity|]). exact (all_digits_us_free ds D).
Qed.

Lemma canon_rev_last (r : str) :
  canon_rev r -> exists l d, r = l ++ [d] /\ is_digit d = true.
Proof.
  intros (ds & E & D & L). subst r.
  destruct (all_digits_last ds D ltac:(lia)) as (l & d & E & Hd).
  exists (lit "Rev" ++ l), d. split; [| exact Hd]. subst ds. rewrite app_assoc. reflexivity.
Qed.

Lemma canon_rev_length (r : str) :
  canon_rev r -> List.length r = 4 \/ List.length r = 5.
Proof.
  intros (ds & E & _ & L). subst r. rewrite length_app.
  change (List.length (lit "Rev")) with 3. lia.
Qed.

Lemma canon_rev_head (r : str) : canon_rev r -> startswith "_" r = false.
Proof. intros (ds & E & _). subst r. reflexivity. Qed.

Lemma canon_rev_truthy (r : str) : canon_rev r -> nonempty r = true.
Proof. intros (ds & E & _). subst r. reflexivity. Qed.

Lemma replace_chr_us_free (s : str) : us_free (replace_chr "_" "" s).
Proof.
  unfold us_free, replace_chr. induction s as [|c s IH]; cbn [flat_map]; [constructor|].
  destruct (chr_eqb c "_") eqn:E; cbn [app lit list_ascii_of_string]; [exact IH|].
  constructor; [| exact IH]. rewrite chr_eqb_sym. exact E.
Qed.

Lemma id_clean_us_free (id_part : option str) : us_free (as_str (id_clean_of id_part)).
Proof.
  unfold id_clean_of. destruct (truthy id_part); cbn [as_str]; [| constructor].
  apply replace_chr_us_free.
Qed.

Lemma prefix_match_us_free (prefix : str) (m : rmatch) :
  re_match PREFIX_RE prefix = Some m -> us_free prefix /\ nonempty prefix = true.
Proof.
  intros H. split;
    [| destruct (prefix_match_upper prefix m H) as (c & t & E & _); subst prefix; reflexivity].
  apply match_here_In in H. destruct H as (c' & H & _).
  unfold PREFIX_RE in H. inv_run. cbn [rest] in *.
  match goal with
  | E' : prefix = ?w ++ _, F : forallb is_upper ?w = true, A : at_eol _ |- _ =>
      rewrite E'; apply Forall_app; split;
      [ rewrite forallb_forall in F; apply Forall_forall; intros a Ha;
        exact (proj2 (class_neq is_upper a "_" (F a Ha) eq_refl))
      | destruct A as [-> | ->]; [constructor | constructor; [reflexivity | constructor]] ]
  end.
Qed.

(** ** The characters of a sanitized title *)

Lemma chr_match (p : ascii -> bool) (a0 : bool) (i : nat) (c : ascii) (t : str) :
  match_here (Chr p) a0 i (c :: t) = if p c then Some (RMatch i 1 []) else None.
Proof.
  unfold match_here. cbn [run rest caps]. destruct (p c); [| reflexivity].
  cbn [rest caps List.length]. f_equal. f_equal. lia.
Qed.

Lemma sub_scan_Chr (p : ascii -> bool) (s : str) :
  forall a0 i,
    fst (sub_scan (Chr p) (fun _ (u : unit) => (lit "", u)) a0 i 0 s tt)
    = filter (fun c => negb (p c)) s.
Proof.
  induction s as [|c t IH]; intros a0 i; [reflexivity|].
  cbn [sub_scan filter]. rewrite chr_match. destruct (p c); cbn [negb m_len].
  - specialize (IH false (S i)).
    destruct (sub_scan (Chr p) _ false (S i) 0 t tt) as [tl u]. cbn [fst] in *.
    rewrite IH. reflexivity.
  - specialize (IH false (S i)).
    destruct (sub_scan (Chr p) _ false (S i) 0 t tt) as [tl u]. cbn [fst] in *.
    rewrite IH. reflexivity.
Qed.

(** [re.sub(r"[class]", "", s)] keeps the characters outside the class. *)
Lemma re_sub_Chr (p : ascii -> bool) (s : str) :
  re_sub (Chr p) "" s = filter (fun c => negb (p c)) s.
Proof. unfold re_sub. apply sub_scan_Chr. Qed.

Lemma title_str_filter (s : str) :
  title_str (filter (fun c => negb (not_title_chr c)) s).
Proof.
  unfold title_str. apply Forall_forall. intros c Hc. apply filter_In in Hc.
  destruct Hc as [_ Hc]. destruct (not_title_chr c); [discriminate | reflexivity].
Qed.

Lemma Forall_firstn_str (P : ascii -> Prop) (n : nat) (s : str) :
  Forall P s -> Forall P (firstn n s).
Proof.
  intros H. revert n. induction H as [|c s Hc _ IH]; intros [|n]; cbn [firstn];
    constructor; auto.
Qed.

Lemma drop_ext_suffix_Forall (P : ascii -> Prop) (exts : list str) (lowered s2 : str) :
  Forall P s2 -> Forall P (drop_ext_suffix exts lowered s2).
Proof.
  intros H. induction exts as [|e t IH]; cbn [drop_ext_suffix]; [exact H|].
  destruct (endswith e lowered); [apply Forall_firstn_str; exact H | exact IH].
Qed.

Lemma strip_spurious_title (text : str) (notes : list str) :
  title_str text -> title_str (fst (strip_spurious_extensions text notes)).
Proof.
  intros H. unfold strip_spurious_extensions. cbn [fst]. unfold title_str.
  apply re_sub_Forall; [constructor|].
  apply re_sub_Forall; [constructor; [reflexivity | constructor]|].
  apply drop_ext_suffix_Forall. apply re_sub_Forall; [constructor | exact H].
Qed.

Lemma sanitize_title_str (raw : str) (notes : list str) :
  title_str (fst (sanitize_title raw notes)).
Proof.
  unfold sanitize_title.
  destruct (strip_spurious_extensions raw notes) as [s0 n0].
  repeat match goal with
         | |- context [if has_chr ?a ?b then _ else _] => destruct (has_chr a b)
         end;
    rewrite re_sub_Chr;
    match goal with
    | |- context [strip_spurious_extensions ?a ?b] =>
        pose proof (strip_spurious_title a b (title_str_filter _)) as T;
        destruct (strip_spurious_extensions a b) as [s1 n1]
    end; exact T.
Qed.

(** ** The stem that [finalize] assembles *)

Lemma us_free_last (s : str) :
  us_free s -> nonempty s = true -> exists l d, s = l ++ [d] /\ chr_eqb "_" d = false.
Proof.
  intros U N. destruct (str_last_cases s) as [E | (l & d & E)]; [subst s; discriminate|].
  exists l, d. split; [exact E|]. subst s. apply Forall_app in U. destruct U as [_ U].
  inversion U; assumption.
Qed.

Lemma collapse_join_title (pre : list str) (date title rev : str) :
  Forall us_free (pre ++ [date]) ->
  Forall (fun w => nonempty w = true) (pre ++ [date]) ->
  us_free title -> canon_rev rev ->
  collapse (join "_" ((pre ++ [date]) ++ [title; rev]))
  = join "_" ((pre ++ [date]) ++ (if nonempty title then [title] else []) ++ [rev]).
Proof.
  intros U N Ut Cr.
  assert (NL : nonempty_list (pre ++ [date]) = true) by (destruct pre; reflexivity).
  destruct title as [|x title]; cbn [nonempty].
  - rewrite join_app by (exact NL || reflexivity).
    assert (Ud : us_free date /\ nonempty date = true).
    { apply Forall_app in U. apply Forall_app in N. destruct U as [_ U], N as [_ N].
      inversion U; inversion N; subst. auto. }
    destruct Ud as [Ud Nd]. destruct (us_free_last date Ud Nd) as (ld & dd & Ed & Hd).
    destruct (join_last pre ld dd) as (l & El). rewrite <- Ed in El.
    cbn [join app].
    replace (join "_" (pre ++ [date])) with (l ++ [dd]) by (symmetry; exact El).
    change (lit "_" ++ lit "_" ++ rev) with ("_"%char :: "_"%char :: rev).
    rewrite (collapse_app l dd _ Hd).
    replace (l ++ [dd]) with (join "_" (pre ++ [date])) by exact El.
    rewrite (collapse_join _ U N).
    cbn [collapse]. rewrite chr_eqb_refl. rewrite (canon_rev_head rev Cr).
    cbn [startswith lit list_ascii_of_string andb]. rewrite chr_eqb_refl. cbn [andb].
    rewrite (collapse_us_free rev (canon_rev_us_free rev Cr)).
    symmetry. exact (join_snoc "_" (pre ++ [date]) rev NL).
  - cbn [app]. apply collapse_join.
    + apply Forall_app. split; [exact U|].
      constructor; [exact Ut|]. constructor; [exact (canon_rev_us_free rev Cr) | constructor].
    + apply Forall_app. split; [exact N|].
      constructor; [reflexivity|]. constructor; [exact (canon_rev_truthy rev Cr) | constructor].
Qed.

Lemma join_fields_last (pre : list str) (date title rev : str) :
  canon_rev rev ->
  exists l d,
    join "_" ((pre ++ [date]) ++ (if nonempty title then [title] else []) ++ [rev]) = l ++ [d]
    /\ is_digit d = true.
Proof.
  intros Cr. destruct (canon_rev_last rev Cr) as (lr & dr & Er & Hd). subst rev.
  rewrite app_assoc. destruct (join_last ((pre ++ [date]) ++ (if nonempty title then [title] else []))
                                lr dr) as (l & E).
  exists l, dr. auto.
Qed.

Lemma join_tokens_pre (pre : list str) (date title rev : str) :
  Forall us_free (pre ++ [date]) ->
  Forall (fun w => nonempty w = true) (pre ++ [date]) ->
  us_free title -> canon_rev rev ->
  re_sub TRAILING_UNDERS "" (re_sub MULTI_UNDERS "_" (join "_" ((pre ++ [date]) ++ [title; rev])))
  = join "_" ((pre ++ [date]) ++ (if nonempty title then [title] else []) ++ [rev]).
Proof.
  intros U N Ut Cr. rewrite multi_unders_collapse, collapse_join_title by assumption.
  destruct (join_fields_last pre date title rev Cr) as (l & d & E & Hd). rewrite E.
  apply trailing_unders_id.
  - exact (proj2 (class_neq is_digit d "_" Hd eq_refl)).
  - exact (proj1 (class_neq is_digit d newline Hd eq_refl)).
Qed.

Lemma truthy_as_str (o : option str) : truthy o = nonempty (as_str o).
Proof. destruct o; reflexivity. Qed.

Lemma digits_n_8_facts (date : str) :
  digits_n 8 date -> us_free date /\ nonempty date = true.
Proof.
  intros [D L]. split; [exact (all_digits_us_free date D)|].
  destruct date; [discriminate L | reflexivity].
Qed.

(** The stem that [join_tokens] builds from well-formed fields is the
    join of the fields that are not empty. *)
Lemma join_tokens_fields (prefix : str) (idc : option str) (date title rev : str) :
  us_free prefix -> nonempty prefix = true -> us_free (as_str idc) ->
  digits_n 8 date -> us_free title -> canon_rev rev ->
  join_tokens prefix idc date title rev = join "_" (fields prefix idc date title rev).
Proof.
  intros Up Np Ui Dd Ut Cr. destruct (digits_n_8_facts date Dd) as [Ud Nd].
  unfold join_tokens, fields. cbv zeta. fold (as_str idc).
  destruct (truthy idc) eqn:Ti.
  - rewrite truthy_as_str in Ti.
    apply (join_tokens_pre [prefix; as_str idc] date title rev); cbn [app]; auto.
  - apply (join_tokens_pre [prefix] date title rev); cbn [app]; auto.
Qed.

Lemma fields_us_free (prefix : str) (idc : option str) (date title rev : str) :
  us_free prefix -> us_free (as_str idc) -> digits_n 8 date -> us_free title -> canon_rev rev ->
  Forall us_free (fields prefix idc date title rev).
Proof.
  intros Up Ui Dd Ut Cr. destruct (digits_n_8_facts date Dd) as [Ud _].
  pose proof (canon_rev_us_free rev Cr) as Ur. unfold fields.
  destruct (truthy idc), (nonempty title); cbn [app]; auto 10.
Qed.

Lemma fields_length (prefix : str) (idc : option str) (date title rev : str) :
  List.length (fields prefix idc date title rev)
  = (if truthy idc then 4 else 3) + (if nonempty title then 1 else 0).
Proof. unfold fields. destruct (truthy idc), (nonempty title); reflexivity. Qed.

(** The underscores of an assembled stem: one per field after the first. *)
Lemma fields_count (prefix : str) (idc : option str) (date title rev : str) :
  us_free prefix -> us_free (as_str idc) -> digits_n 8 date -> us_free title -> canon_rev rev ->
  count_chr "_" (join "_" (fields prefix idc date title rev))
  = (if truthy idc then 4 else 3) - (if nonempty title then 0 else 1).
Proof.
  intros Up Ui Dd Ut Cr. rewrite count_join.
  - rewrite fields_length. destruct (truthy idc), (nonempty title); reflexivity.
  - apply fields_us_free; assumption.
  - reflexivity.
Qed.

Lemma underscores_ok_fields (prefix : str) (idc : option str) (date title rev : str) :
  us_free prefix -> us_free (as_str idc) -> digits_n 8 date -> us_free title -> canon_rev rev ->
  underscores_ok (join "_" (fields prefix idc date title rev)) (truthy idc) = nonempty title.
Proof.
  intros Up Ui Dd Ut Cr. unfold underscores_ok. rewrite fields_count by assumption.
  destruct (truthy idc), (nonempty title); reflexivity.
Qed.

Lemma fields_last (prefix : str) (idc : option str) (date title rev : str) :
  canon_rev rev ->
  exists l d, join "_" (fields prefix idc date title rev) = l ++ [d] /\ is_digit d = true.
Proof.
  intros Cr. unfold fields. destruct (truthy idc).
  - exact (join_fields_last [prefix; as_str idc] date title rev Cr).
  - exact (join_fields_last [prefix] date title rev Cr).
Qed.

Lemma postprocess_digit (s : str) (notes : list str) :
  (exists l d, s = l ++ [d] /\ is_digit d = true) ->
  postprocess_before_ext s notes = (s, notes).
Proof.
  intros (l & d & E & Hd). subst s. apply postprocess_id.
  - exact (proj2 (class_neq is_digit d "_" Hd eq_refl)).
  - exact (proj2 (class_neq is_digit d "." Hd eq_refl)).
Qed.

Lemma hard_rev_canon (hard_rev : option str) (rev_norm : str) :
  (forall r, hard_rev = Some r -> canon_rev r) -> canon_rev rev_norm ->
  canon_rev (if truthy hard_rev then as_str hard_rev else rev_norm).
Proof.
  intros H C. destruct hard_rev as [r|]; cbn [truthy as_str]; [| exact C].
  rewrite (canon_rev_truthy r (H r eq_refl)). exact (H r eq_refl).
Qed.

(** [finalize_stem], step by step: the revision is canonical, the title
    is made of title characters, the stem is the join of the non-empty
    fields, and the underscore-count note is added exactly when the title
    is empty. *)
Lemma finalize_stem_unfold (issues : list str) (prefix : str) (id_part : option str)
    (date title_raw : str) (hard_rev : option str) :
  us_free prefix -> nonempty prefix = true -> digits_n 8 date ->
  (forall r, hard_rev = Some r -> canon_rev r) ->
  exists tnr rn iss1 title0 iss2 title iss3,
    let rev := if truthy hard_rev then as_str hard_rev else rn in
    extract_rev title_raw issues = (tnr, rn, iss1)
    /\ sanitize_title tnr iss1 = (title0, iss2)
    /\ enforce_stem_limit prefix (id_clean_of id_part) date title0 rev iss2 = (title, iss3)
    /\ finalize_stem issues prefix id_part date title_raw hard_rev
       = (join "_" (fields prefix (id_clean_of id_part) date title rev),
          if nonempty title then iss3 else iss3 ++ [note_underscore_count])
    /\ canon_rev rev /\ title_str title0 /\ (exists k, title = firstn k title0).
Proof.
  intros Up Np Dd Hr. unfold finalize_stem. fold (id_clean_of id_part).
  pose proof (extract_rev_canon title_raw issues) as Cn.
  destruct (extract_rev title_raw issues) as [[tnr rn] iss1] eqn:E1. cbn [fst snd] in Cn.
  pose proof (hard_rev_canon hard_rev rn Hr Cn) as Cr.
  pose proof (sanitize_title_str tnr iss1) as T0.
  destruct (sanitize_title tnr iss1) as [title0 iss2] eqn:E2. cbn [fst] in T0.
  set (rev := if truthy hard_rev then as_str hard_rev else rn) in *.
  assert (K : exists k, fst (enforce_stem_limit prefix (id_clean_of id_part) date title0 rev iss2)
                        = firstn k title0).
  { unfold enforce_stem_limit. cbv zeta. destruct (_ >? _)%Z; cbn [fst].
    - eexists. reflexivity.
    - exists (List.length title0). rewrite firstn_all. reflexivity. }
  destruct (enforce_stem_limit prefix (id_clean_of id_part) date title0 rev iss2)
    as [title iss3] eqn:E3. cbn [fst] in K. destruct K as (k & K).
  assert (Tt : title_str title) by (rewrite K; apply Forall_firstn_str; exact T0).
  pose proof (title_str_us_free title Tt) as Ut.
  pose proof (id_clean_us_free id_part) as Ui.
  exists tnr, rn, iss1, title0, iss2, title, iss3. cbv zeta.
  split; [reflexivity|]. split; [exact E2|]. split; [exact E3|].
  split; [| split; [exact Cr | split; [exact T0 | exists k; exact K]]].
  rewrite join_tokens_fields by assumption.
  rewrite underscores_ok_fields by assumption.
  rewrite postprocess_digit by (apply fields_last; exact Cr).
  destruct (nonempty title); reflexivity.
Qed.

(** ** The two ways a dispatch ends *)

Lemma reject_terminal1 (prefix : str) (issues : list str) (v : verdict) :
  reject issues [note_terminal] = Ret v -> rejected prefix v.
Proof.
  unfold reject. rewrite assemble_decision_None. intros E. inversion E; subst.
  exists issues, note_terminal. auto.
Qed.

Lemma reject_terminal2 (prefix : str) (issues : list str) (a : str) (v : verdict) :
  reject issues [a; note_terminal] = Ret v -> rejected prefix v.
Proof.
  unfold reject. rewrite assemble_decision_None. intros E. inversion E; subst.
  exists (issues ++ [a]), note_terminal. rewrite <- app_assoc. auto.
Qed.

Lemma reject_csi (prefix : str) (issues : list str) (n : str) (v : verdict) :
  mem prefix REQUIRES_CSI = true ->
  In n [note_missing_csi; note_invalid_csi; note_bad_date] ->
  reject issues [n] = Ret v -> rejected prefix v.
Proof.
  intros M I. unfold reject. rewrite assemble_decision_None. intros E. inversion E; subst.
  exists issues, n. auto.
Qed.

Lemma finalized_intro (c : ctx) (prefix : str) issues id_part date_token title_raw hard_rev v :
  digits_n 8 date_token ->
  (forall r, hard_rev = Some r -> canon_rev r) ->
  Ret (finalize c issues prefix id_part date_token title_raw hard_rev) = Ret v ->
  finalized c prefix v.
Proof. intros D R E. inversion E; subst. do 5 eexists. eauto. Qed.

Lemma no_hard_rev (r : str) : @None str = Some r -> canon_rev r.
Proof. discriminate. Qed.

(** The revision that the [TF] block fixes when it reinterprets the first
    token as the title. *)
Lemma tf_hard_rev (m : option rmatch) (a0 : bool) (i : nat) (s' : str) :
  (forall m', m = Some m' ->
     exists a0 i s', match_here REV_ANY_INFIX a0 i s' = Some m'
                     \/ match_here EMBEDDED_REV a0 i s' = Some m') ->
  canon_rev (lit "Rev" ++
             (let digits := match m with Some m => group1 m | None => lit "0" end in
              if nonempty digits then rev_digits digits else lit "0")).
Proof.
  intros H. cbv zeta. eexists. split; [reflexivity|].
  destruct m as [m'|].
  - destruct (H m' eq_refl) as (b & j & t & [M | M]).
    + pose proof (rev_any_group b j t m' M) as D.
      destruct (nonempty (group1 m')); [exact D | exact digits_1_2_zero].
    + pose proof (embedded_group b j t m' M) as D.
      destruct (nonempty (group1 m')); [exact D | exact digits_1_2_zero].
  - cbn. split; [reflexivity | left; reflexivity].
Qed.

Lemma tf_search (trailing : str) (m' : rmatch) :
  match re_search REV_ANY_INFIX trailing with
  | Some m => Some m
  | None => re_search EMBEDDED_REV trailing
  end = Some m' ->
  exists a0 i s', match_here REV_ANY_INFIX a0 i s' = Some m'
                  \/ match_here EMBEDDED_REV a0 i s' = Some m'.
Proof.
  destruct (re_search REV_ANY_INFIX trailing) as [m|] eqn:A.
  - intros E. inversion E; subst. destruct (re_search_Some _ _ _ A) as (a0 & i & s' & M).
    exists a0, i, s'. left. exact M.
  - intros E. destruct (re_search_Some _ _ _ E) as (a0 & i & s' & M).
    exists a0, i, s'. right. exact M.
Qed.

Lemma finalized_intro_tf (c : ctx) (prefix : str) issues date_token title_raw
    (m : option rmatch) v :
  digits_n 8 date_token ->
  (forall m', m = Some m' ->
     exists a0 i s', match_here REV_ANY_INFIX a0 i s' = Some m'
                     \/ match_here EMBEDDED_REV a0 i s' = Some m') ->
  Ret (Some (finalize c issues prefix None date_token title_raw
               (Some (lit "Rev" ++
                      (let digits := match m with Some m => group1 m | None => lit "0" end in
                       if nonempty digits then rev_digits digits else lit "0")))))
  = Ret (Some v) ->
  finalized c prefix v.
Proof.
  intros D S E. injection E as E. subst v. do 5 eexists.
  split; [reflexivity|]. split; [exact D|].
  intros r Hr. injection Hr as Hr. subst r. exact (tf_hard_rev m true 0 [] S).
Qed.


(** Follows a branch to each of its ends. *)
Ltac shape_step H :=
  match type of H with
  | reject _ [note_terminal] = Ret _ => left; exact (reject_terminal1 _ _ _ H)
  | reject _ [_; note_terminal] = Ret _ => left; exact (reject_terminal2 _ _ _ _ H)
  | Ret (finalize _ _ _ _ _ _ _) = Ret _ =>
      right; refine (finalized_intro _ _ _ _ _ _ _ _ _ no_hard_rev H);
      first [ eapply need_date_ok; eassumption | eapply first_date_found; eassumption ]
  | context [need_date ?t ?i] =>
      let d := fresh "d" in let ok := fresh "ok" in let iss := fresh "iss" in
      let E := fresh "E" in
      destruct (need_date_total t i) as ([[d ok] iss] & E); rewrite E in H; cbn [bind] in H
  | context [first_date ?t ?i ?iss] =>
      let f := fresh "found" in let iss' := fresh "iss" in let E := fresh "E" in
      destruct (first_date_total t i iss) as ([f iss'] & E); rewrite E in H; cbn [bind] in H
  | context [sanitize_id_any ?a ?b ?c] => destruct (sanitize_id_any a b c)
  | context [sanitize_ids ?a ?b] => destruct (sanitize_ids a b)
  | context [normalize_csi ?a] => destruct (normalize_csi a)
  | context [if negb ?b then _ else _] => is_var b; destruct b
  | context [if ?b then _ else _] => destruct b
  | context [match ?x with Some _ => _ | None => _ end] => destruct x
  | context [match ?x with (_, _) => _ end] => destruct x
  | context [match ?x with O => _ | S _ => _ end] => destruct x
  end.

Ltac shape_branch H :=
  cbn [nonempty_list negb List.length Nat.ltb Nat.leb index nth_error bind] in H;
  repeat (shape_step H;
          cbn [nonempty_list negb List.length Nat.ltb Nat.leb index nth_error bind] in H).

Lemma branch_COR_shape c prefix rest issues v :
  branch_COR c prefix rest issues = Ret v -> rejected prefix v \/ finalized c prefix v.
Proof. unfold branch_COR. intros H. shape_branch H. Qed.

Lemma branch_FDM_shape c prefix rest issues v :
  branch_FDM c prefix rest issues = Ret v -> rejected prefix v \/ finalized c prefix v.
Proof. unfold branch_FDM. intros H. shape_branch H. Qed.

Lemma branch_QA_shape c prefix rest issues v :
  branch_QA c prefix rest issues = Ret v -> rejected prefix v \/ finalized c prefix v.
Proof. unfold branch_QA. intros H. destruct rest as [|r0 [|r1 t]]; shape_branch H. Qed.

Lemma branch_AU_shape c prefix rest issues v :
  branch_AU c prefix rest issues = Ret v -> rejected prefix v \/ finalized c prefix v.
Proof. unfold branch_AU. intros H. destruct rest as [|r0 [|r1 t]]; shape_branch H. Qed.

Lemma branch_ID_ANY_shape c prefix rest issues v :
  branch_ID_ANY c prefix rest issues = Ret v -> rejected prefix v \/ finalized c prefix v.
Proof. unfold branch_ID_ANY. intros H. destruct rest as [|r0 [|r1 t]]; shape_branch H. Qed.

Lemma branch_CSI_optional_shape o c prefix rest issues v :
  branch_CSI_optional o c prefix rest issues = Ret v ->
  rejected prefix v \/ finalized c prefix v.
Proof.
  unfold branch_CSI_optional. intros H. destruct rest as [|r0 [|r1 t]]; shape_branch H.
Qed.

Lemma branch_RE_shape c prefix rest issues v :
  branch_RE c prefix rest issues = Ret v -> rejected prefix v \/ finalized c prefix v.
Proof. unfold branch_RE. intros H. destruct rest as [|r0 [|r1 t]]; shape_branch H. Qed.

Lemma branch_STANDARD_shape c prefix rest issues v :
  branch_STANDARD c prefix rest issues = Ret v -> rejected prefix v \/ finalized c prefix v.
Proof. unfold branch_STANDARD. intros H. destruct rest as [|r0 [|r1 t]]; shape_branch H. Qed.

Lemma branch_TF_shape c prefix rest issues v :
  branch_TF c prefix rest issues = Ret (Some v) -> rejected prefix v \/ finalized c prefix v.
Proof.
  unfold branch_TF. intros H.
  destruct rest as [|r0 [|r1 t]];
    cbn [nonempty_list negb List.length Nat.ltb Nat.leb index nth_error bind] in H;
    repeat (match type of H with
            | bind (reject ?i ?n) _ = _ =>
                left; apply (reject_terminal1 prefix i); unfold reject in *;
                cbn [bind] in H; congruence
            | Ret (Some (finalize _ _ _ _ _ _ (Some _))) = Ret (Some _) =>
                right;
                match type of H with
                | context [nonempty (match ?M with Some _ => _ | None => _ end)] =>
                    let S := fresh "S" in
                    assert (S : forall m', M = Some m' ->
                                exists a0 i s', match_here REV_ANY_INFIX a0 i s' = Some m'
                                                \/ match_here EMBEDDED_REV a0 i s' = Some m')
                      by (intros m' Hm;
                          match type of Hm with
                          | context [re_search REV_ANY_INFIX ?t] => exact (tf_search t m' Hm)
                          end);
                    let mm := fresh "mm" in
                    set (mm := M) in *; clearbody mm;
                    refine (finalized_intro_tf _ _ _ _ _ mm _ _ S H);
                    eapply need_date_ok; eassumption
                end
            | Ret (Some (finalize _ _ _ _ _ _ None)) = Ret (Some _) =>
                right; inversion H; subst; do 5 eexists;
                split; [reflexivity|];
                split; [eapply need_date_ok; eassumption | exact no_hard_rev]
            | Ret None = Ret (Some _) => discriminate H
            | (if ?b then _ else _) = _ => is_var b; destruct b
            | _ => shape_step H
            end;
            cbn [nonempty_list negb List.length Nat.ltb Nat.leb index nth_error bind] in H).
Qed.

Ltac csi_leaf H M :=
  match type of H with
  | reject _ [note_missing_csi] = Ret _ =>
      left; apply (reject_csi _ _ _ _ M (or_introl eq_refl) H)
  | reject _ [note_invalid_csi] = Ret _ =>
      left; apply (reject_csi _ _ _ _ M (or_intror (or_introl eq_refl)) H)
  | reject _ [note_bad_date] = Ret _ =>
      left; apply (reject_csi _ _ _ _ M (or_intror (or_intror (or_introl eq_refl))) H)
  | _ => shape_step H
  end.

Lemma branch_CSI_shape c prefix rest issues v :
  mem prefix REQUIRES_CSI = true ->
  branch_CSI c prefix rest issues = Ret v -> rejected prefix v \/ finalized c prefix v.
Proof.
  intros M. unfold branch_CSI. intros H.
  destruct rest as [|r0 [|r1 t]];
    cbn [nonempty_list negb List.length Nat.ltb Nat.leb index nth_error bind] in H;
    repeat (csi_leaf H M;
            cbn [nonempty_list negb List.length Nat.ltb Nat.leb index nth_error bind] in H).
Qed.

Lemma dispatch_shape c prefix rest issues v :
  dispatch c prefix rest issues = Ret v -> rejected prefix v \/ finalized c prefix v.
Proof.
  unfold dispatch.
  destruct (str_eqb prefix "COR"); [apply branch_COR_shape|].
  destruct (str_eqb prefix "QA"); [apply branch_QA_shape|].
  destruct (str_eqb prefix "AU"); [apply branch_AU_shape|].
  destruct (str_eqb prefix "FDM"); [apply branch_FDM_shape|].
  destruct (branch_TF_total c prefix rest issues) as (tf0 & T0).
  assert (T : exists tf, (if str_eqb prefix "TF" then branch_TF c prefix rest issues
                          else Ret None) = Ret tf
                         /\ (forall v', tf = Some v' -> rejected prefix v' \/ finalized c prefix v')).
  { destruct (str_eqb prefix "TF").
    - exists tf0. split; [exact T0|]. intros v' E. subst tf0.
      apply (branch_TF_shape c prefix rest issues v' T0).
    - exists None. split; [reflexivity | discriminate]. }
  destruct T as (tf & T & Tsh). rewrite T. cbn [bind].
  destruct tf as [v'|].
  { intros E. inversion E; subst. apply Tsh. reflexivity. }
  destruct (mem prefix REQUIRES_ID_ANY); [apply branch_ID_ANY_shape|].
  destruct (mem prefix REQUIRES_CSI) eqn:M; [apply branch_CSI_shape; exact M|].
  destruct (str_eqb prefix "PN"); [apply branch_CSI_optional_shape|].
  destruct (str_eqb prefix "SP"); [apply branch_CSI_optional_shape|].
  destruct (str_eqb prefix "WR"); [apply branch_CSI_optional_shape|].
  destruct (str_eqb prefix "RE"); [apply branch_RE_shape|].
  destruct (mem prefix STANDARD_PREFIXES); [apply branch_STANDARD_shape|].
  intros H. left. exact (reject_terminal1 _ _ _ H).
Qed.

(** Every verdict of [audit_filename] is the blank-name verdict, the skip
    verdict, a rejection, or a verdict assembled by [finalize] for a prefix
    of two to four capitals. *)
Lemma audit_filename_shape (name : str) (v : verdict) :
  audit_filename name = Ret v ->
  (nonempty (strip name) = false /\ v = (Some [], [lit "Empty value"], true))
  \/ v = (None, [], false)
  \/ (nonempty (strip name) = true /\ rejected (name_prefix name) v)
  \/ (nonempty (strip name) = true
      /\ finalized (name_ctx name) (name_prefix name) v
      /\ exists m, re_match PREFIX_RE (name_prefix name) = Some m).
Proof.
  unfold audit_filename, name_prefix, name_ctx, name_tokens.
  destruct (nonempty (strip name)) eqn:N; cbn [negb].
  2:{ intros E. inversion E; subst. left. auto. }
  destruct (existsb _ IGNORE_PREFIXES).
  { intros E. inversion E; subst. right. left. reflexivity. }
  destruct (tokenize name) as [[c tokens] issues]. cbn [fst snd].
  destruct tokens as [|prefix [|t1 tokens]]; cbn [List.length Nat.ltb Nat.leb hd].
  - intros H. right. right. left. split; [reflexivity|]. exact (reject_terminal1 _ _ _ H).
  - intros H. right. right. left. split; [reflexivity|]. exact (reject_terminal1 _ _ _ H).
  - cbn [index nth_error bind skipn].
    destruct (re_match PREFIX_RE prefix) as [m|] eqn:P; cbn [is_some negb].
    + intros H. destruct (dispatch_shape _ _ _ _ _ H) as [R|F].
      * right. right. left. auto.
      * right. right. right. split; [reflexivity|]. split; [exact F|]. eauto.
    + intros H. right. right. left. split; [reflexivity|]. exact (reject_terminal1 _ _ _ H).
Qed.

(** ** The length budget *)

Lemma nonempty_length (s : str) : nonempty s = true <-> 1 <= List.length s.
Proof. destruct s; cbn; split; intros; (discriminate || lia || reflexivity). Qed.

Lemma length_fields_join (prefix : str) (idc : option str) (date title rev : str) :
  List.length (join "_" (fields prefix idc date title rev))
  = List.length prefix + 1
    + (if truthy idc then List.length (as_str idc) + 1 else 0)
    + List.length date + 1
    + (if nonempty title then List.length title + 1 else 0)
    + List.length rev.
Proof.
  unfold fields. destruct (truthy idc), (nonempty title); cbn [app join];
    rewrite ?length_app; cbn [List.length lit list_ascii_of_string]; lia.
Qed.

(** After [enforce_stem_limit] the joined stem fits the budget, unless
    the title has been cut down to nothing. *)
Lemma enforce_budget (prefix : str) (idc : option str) (date title0 rev : str)
    (notes : list str) (title : str) (iss3 : list str) :
  enforce_stem_limit prefix idc date title0 rev notes = (title, iss3) ->
  (len (join "_" (fields prefix idc date title rev)) <= MAX_CHARS_TOTAL)%Z
  \/ (nonempty title = false /\ In note_truncated iss3).
Proof.
  unfold enforce_stem_limit. cbv zeta.
  change (match idc with Some i => i | None => [] end) with (as_str idc).
  match goal with
  | |- context [(len ?X + len title0 + 1 + len rev >? _)%Z] =>
      assert (B : len X
                  = Z.of_nat (List.length prefix + 1
                              + (if truthy idc then List.length (as_str idc) + 1 else 0)
                              + List.length date + 1))
        by (unfold len; f_equal; destruct idc as [i|]; cbn [truthy as_str];
            [destruct (nonempty i) |]; cbv beta iota;
            rewrite ?length_app; cbn [List.length lit list_ascii_of_string]; lia)
  end.
  rewrite B. unfold MAX_CHARS_TOTAL, len.
  rewrite length_fields_join.
  destruct (_ >? 64)%Z eqn:G; intros E; injection E as Et En; subst title iss3.
  - apply Z.gtb_lt in G.
    match goal with
    | |- context [firstn ?k title0] => set (keep := k) in *
    end.
    destruct (nonempty (firstn keep title0)) eqn:N.
    + left. apply nonempty_length in N. rewrite length_firstn in *.
      subst keep. lia.
    + right. split; [reflexivity|]. apply in_or_app. right. left. reflexivity.
  - left. assert (G' : ~ (64 < Z.of_nat (List.length prefix + 1
                          + (if truthy idc then List.length (as_str idc) + 1 else 0)
                          + List.length date + 1)
                      + Z.of_nat (List.length title0) + 1 + Z.of_nat (List.length rev))%Z).
    { intros K. apply Z.gtb_lt in K. congruence. }
    destruct (nonempty title0); lia.
Qed.

(** ** What a non-empty suggestion is made of *)

Lemma rejected_empty (prefix : str) (s : str) (notes : list str) (ch : bool) :
  rejected prefix (Some s, notes, ch) -> s = [].
Proof. intros (n0 & n & E & _). congruence. Qed.

Lemma verdict_eq (s s' : str) (n n' : list str) (c c' : bool) :
  (Some s, n, c) = (Some s', n', c') -> s = s' /\ n = n' /\ c = c'.
Proof. intros E. inversion E. auto. Qed.

(** ** Cutting a joined stem again *)

Lemma split_chr_us_free (w : str) : us_free w -> split_chr "_" w = [w].
Proof.
  induction 1 as [|c w Hc _ IH]; [reflexivity|].
  cbn [split_chr]. rewrite chr_eqb_sym, Hc, IH. reflexivity.
Qed.

Lemma split_chr_app (w rest : str) :
  us_free w -> split_chr "_" (w ++ "_"%char :: rest) = w :: split_chr "_" rest.
Proof.
  induction 1 as [|c w Hc _ IH]; cbn [app split_chr].
  - rewrite chr_eqb_refl. reflexivity.
  - rewrite chr_eqb_sym, Hc, IH. reflexivity.
Qed.

(** Splitting a join of underscore-free fields gives the fields back. *)
Lemma split_join (parts : list str) :
  Forall us_free parts -> nonempty_list parts = true ->
  split_chr "_" (join "_" parts) = parts.
Proof.
  induction 1 as [|w ws Hw Hws IH]; [discriminate|]. intros _.
  destruct ws as [|w2 ws].
  - cbn [join]. apply split_chr_us_free. exact Hw.
  - rewrite join_cons by reflexivity.
    change (w ++ lit "_" ++ join "_" (w2 :: ws)) with (w ++ "_"%char :: join "_" (w2 :: ws)).
    rewrite split_chr_app by exact Hw. rewrite IH by reflexivity. reflexivity.
Qed.

Lemma filter_nonempty_id (parts : list str) :
  Forall (fun w => nonempty w = true) parts -> filter nonempty parts = parts.
Proof.
  induction 1 as [|w ws Hw _ IH]; [reflexivity|]. cbn [filter]. rewrite Hw, IH. reflexivity.
Qed.

Lemma collapse_length (s : str) : List.length (collapse s) <= List.length s.
Proof.
  induction s as [|c t IH]; [reflexivity|]. cbn [collapse].
  destruct (chr_eqb "_" c && startswith "_" t); cbn [List.length]; lia.
Qed.

Lemma startswith_us2 (c : ascii) (t : str) :
  startswith "__" (c :: t) = chr_eqb "_" c && startswith "_" t.
Proof. reflexivity. Qed.

(** A string that collapsing leaves alone has no double underscore. *)
Lemma collapse_fixed_contains (s : str) : collapse s = s -> contains "__" s = false.
Proof.
  induction s as [|c t IH]; [reflexivity|]. cbn [collapse contains].
  rewrite startswith_us2.
  destruct (chr_eqb "_" c && startswith "_" t).
  - intros E. pose proof (collapse_length t) as L. rewrite E in L. cbn in L. lia.
  - intros E. injection E as E. rewrite (IH E). reflexivity.
Qed.

(** ** The last dot *)

Lemma rfind_dot_free (s : str) : dot_free s -> rfind_chr "." s = None.
Proof.
  induction 1 as [|c s Hc _ IH]; [reflexivity|].
  cbn [rfind_chr]. rewrite IH, chr_eqb_sym, Hc. reflexivity.
Qed.

Lemma rfind_None (s : str) : rfind_chr "." s = None -> dot_free s.
Proof.
  induction s as [|c s IH]; [constructor|]. cbn [rfind_chr].
  destruct (rfind_chr "." s); [discriminate|].
  destruct (chr_eqb c ".") eqn:E; [discriminate|]. intros _.
  constructor; [rewrite chr_eqb_sym; exact E | apply IH; reflexivity].
Qed.

Lemma rfind_app_dot (a e : str) :
  dot_free e -> rfind_chr "." (a ++ "."%char :: e) = Some (List.length a).
Proof.
  intros D. induction a as [|x a IH]; cbn [app rfind_chr List.length].
  - rewrite (rfind_dot_free e D). reflexivity.
  - rewrite IH. reflexivity.
Qed.

Lemma rfind_Some (s : str) :
  forall i, rfind_chr "." s = Some i ->
    exists e, skipn i s = "."%char :: e /\ dot_free e.
Proof.
  induction s as [|c s IH]; intros i; cbn [rfind_chr]; [discriminate|].
  destruct (rfind_chr "." s) as [j|] eqn:R.
  - intros E. injection E as E. subst i. cbn [skipn]. apply IH. reflexivity.
  - destruct (chr_eqb c ".") eqn:C; [| discriminate].
    intros E. injection E as E. subst i. cbn [skipn].
    apply chr_eqb_eq in C. subst c. exists s. split; [reflexivity|].
    apply rfind_None. exact R.
Qed.

Lemma skipn_last (i : nat) (s l : str) (c : ascii) :
  skipn i s = l ++ [c] -> exists l', s = l' ++ [c].
Proof.
  intros E. exists (firstn i s ++ l).
  rewrite <- app_assoc, <- E. symmetry. apply firstn_skipn.
Qed.

(** The extension that [audit_filename] cuts off: nothing, or the last
    dot and what follows it; its last character is not white space. *)
Lemma name_ext_cases (name : str) :
  name_ext name = []
  \/ exists e l c, name_ext name = "."%char :: e /\ dot_free e
                   /\ name_ext name = l ++ [c] /\ is_space c = false.
Proof.
  unfold name_ext, name_ctx, tokenize.
  destruct (rfind_chr "." (strip name)) as [i|] eqn:R.
  - right. destruct (rfind_Some _ _ R) as (e & E & D).
    destruct (contains "__" (firstn i (strip name))); cbn [fst snd ext];
      (destruct (str_last_cases (skipn i (strip name))) as [K | (l & c & K)];
       [rewrite K in E; discriminate E|];
       exists e, l, c; split; [exact E|]; split; [exact D|]; split; [exact K|];
       destruct (skipn_last _ _ _ _ K) as (l' & K'); exact (strip_last _ _ _ K')).
  - left. destruct (contains "__" (strip name)); reflexivity.
Qed.

Lemma name_original (name : str) : original (name_ctx name) = strip name.
Proof.
  unfold name_ctx, tokenize.
  destruct (rfind_chr "." (strip name)) as [i|].
  - destruct (contains "__" (firstn i (strip name))); reflexivity.
  - destruct (contains "__" (strip name)); reflexivity.
Qed.

(** ** A pass without notes *)

Lemma snoc_not_nil {A : Type} (l : list A) (a : A) : l ++ [a] = [] -> False.
Proof. destruct l; discriminate. Qed.

Lemma app_cons_absurd {A : Type} (l r : list A) (a : A) : l ++ a :: r = [] -> False.
Proof. destruct l; discriminate. Qed.

Lemma if_snoc_nil {A : Type} (b : bool) (l : list A) (a : A) :
  (if b then l ++ [a] else l) = [] -> b = false /\ l = [].
Proof. destruct b; intros E; [destruct (snoc_not_nil _ _ E) | auto]. Qed.

Lemma app_nil_left {A : Type} (l e : list A) : l ++ e = [] -> l = [].
Proof. destruct l; [reflexivity | discriminate]. Qed.

Lemma negb_str_eqb_false (a b : str) : negb (str_eqb a b) = false -> a = b.
Proof. intros H. apply negb_false_iff in H. apply str_eqb_eq. exact H. Qed.

Lemma strip_spurious_nil (text : str) (notes : list str) :
  snd (strip_spurious_extensions text notes) = [] -> notes = [].
Proof.
  unfold strip_spurious_extensions. cbn [snd]. intros E.
  apply if_snoc_nil in E. tauto.
Qed.

(** [sanitize_title] without a note leaves the title as it is. *)
Lemma sanitize_title_nil (raw : str) (notes : list str) (s : str) :
  sanitize_title raw notes = (s, []) -> notes = [] /\ s = raw.
Proof.
  unfold sanitize_title.
  pose proof (strip_spurious_nil raw notes) as G0.
  destruct (strip_spurious_extensions raw notes) as [s0 n0]. cbn [snd] in G0.
  repeat (match goal with
          | |- context [if has_chr ?a ?b then _ else _] => destruct (has_chr a b)
          end; cbv beta iota);
    match goal with
    | |- context [strip_spurious_extensions ?a ?b] =>
        pose proof (strip_spurious_nil a b) as G1;
        destruct (strip_spurious_extensions a b) as [s1 n1]; cbn [snd] in G1
    end;
    intros E; injection E as Es En;
    match type of En with
    | (if ?c then _ else _) = [] =>
        destruct c eqn:C; [destruct (snoc_not_nil _ _ En)|]
    end;
    subst n1; specialize (G1 eq_refl);
    apply if_snoc_nil in G1; destruct G1 as [_ G1];
    try (destruct (snoc_not_nil _ _ G1));
    subst n0; split; [exact (G0 eq_refl)|];
    cbn [mem existsb negb] in C; rewrite andb_true_r in C;
    subst s; apply negb_str_eqb_false; exact C.
Qed.

Lemma enforce_nil (prefix : str) (idc : option str) (date title0 rev : str)
    (notes : list str) (title : str) :
  enforce_stem_limit prefix idc date title0 rev notes = (title, []) ->
  notes = [] /\ title = title0.
Proof.
  unfold enforce_stem_limit. cbv zeta. destruct (_ >? _)%Z; intros E; injection E as Et En.
  - destruct (snoc_not_nil _ _ En).
  - auto.
Qed.

Lemma truthy_false_None (o : option str) : negb (truthy o) = false -> exists s, o = Some s.
Proof. destruct o; [eauto | discriminate]. Qed.

(** [extract_rev] without a note has found the canonical suffix. *)
Lemma extract_rev_nil (trailing : str) (notes : list str) (base rev : str) :
  extract_rev trailing notes = (base, rev, []) ->
  notes = [] /\ rstrip_chars "_- ." base = base.
Proof.
  unfold extract_rev.
  destruct (re_search CANON_REV_SUFFIX (rstrip trailing)) as [m|].
  { intros E. injection E as Eb _ En. split; [exact En|]. subst base.
    unfold rstrip_chars. apply rstrip_by_idem. }
  destruct (re_search REV_ANY_INFIX (rstrip trailing)) as [m|].
  { cbv zeta beta iota. cbn [truthy nonempty negb].
    destruct (nonempty (rev_digits (group1 m))); cbn [negb]; intros E; injection E as _ _ En;
      apply if_snoc_nil in En; destruct En as [_ En];
      destruct (app_cons_absurd _ _ _ En). }
  pose proof (sub_scan_state_inv _ EMBEDDED_REV strip_embedded
                (fun st => forall d, fst st = Some d -> snd st = true)) as Inv.
  specialize (Inv ltac:(intros a i s m st _ _ d _; reflexivity)
                  (rstrip trailing) true 0 0 (None, false) ltac:(intros d K; discriminate K)).
  destruct (sub_scan EMBEDDED_REV strip_embedded true 0 0 (rstrip trailing) (None, false))
    as [s2 [cap saw]]. cbn [fst snd] in Inv.
  destruct cap as [d|].
  - rewrite (Inv d eq_refl).
    destruct (str_eqb s2 (rstrip trailing)); cbv beta iota;
      [destruct (negb (str_eqb _ _))|]; cbv beta iota;
      (destruct (negb (truthy (Some d))); cbv beta iota; intros E; injection E as _ _ En;
       apply if_snoc_nil in En; destruct En as [_ En];
       destruct (app_cons_absurd _ _ _ En)).
  - destruct (str_eqb s2 (rstrip trailing)); cbv beta iota;
      [destruct (negb (str_eqb _ _))|]; cbv beta iota; cbn [truthy negb];
      cbv beta iota; intros E; injection E as _ _ En;
      apply if_snoc_nil in En; destruct En as [_ En]; destruct (app_cons_absurd _ _ _ En).
Qed.

(** ** The revision of a canonical stem, read again *)

Lemma search_from_found (r : re) (s : str) :
  forall a0 i k m,
    k <= List.length s ->
    (forall j, j < k -> match_here r (a0 && (j =? 0)) (i + j) (skipn j s) = None) ->
    match_here r (a0 && (k =? 0)) (i + k) (skipn k s) = Some m ->
    search_from r a0 i s = Some m.
Proof.
  induction s as [|c t IH]; intros a0 i k m L H M; cbn [search_from].
  - cbn in L. assert (k = 0) by lia. subst k. cbn in M.
    rewrite andb_true_r, Nat.add_0_r in M. rewrite M. reflexivity.
  - destruct k as [|k].
    + cbn in M. rewrite andb_true_r, Nat.add_0_r in M. rewrite M. reflexivity.
    + pose proof (H 0 (Nat.lt_0_succ _)) as H0. cbn in H0.
      rewrite andb_true_r, Nat.add_0_r in H0. rewrite H0.
      apply (IH false (S i) k m).
      * cbn in L. lia.
      * intros j Hj. specialize (H (S j) ltac:(lia)). cbn [skipn Nat.eqb] in H.
        rewrite andb_false_r in H. replace (S i + j) with (i + S j) by lia. exact H.
      * cbn [skipn Nat.eqb] in M. rewrite andb_false_r in M.
        replace (S i + k) with (i + S k) by lia. exact M.
Qed.

Lemma canon_nomatch_head (a0 : bool) (i : nat) (c : ascii) (t : str) :
  chr_eqb "_" c = false -> match_here CANON_REV_SUFFIX a0 i (c :: t) = None.
Proof.
  intros H. unfold match_here, CANON_REV_SUFFIX, chr.
  cbn [run rest flat_map at0 caps]. rewrite H. reflexivity.
Qed.

Lemma canon_match_suffix (a0 : bool) (i : nat) (ds : str) :
  digits_1_2 ds ->
  match_here CANON_REV_SUFFIX a0 i (lit "_Rev" ++ ds)
  = Some (RMatch i (4 + List.length ds) [ds]).
Proof.
  intros D. split_digits; unfold CANON_REV_SUFFIX; ev; reflexivity.
Qed.

Lemma skipn_app_lt (j : nat) (a b : str) :
  j < List.length a -> exists x t, skipn j (a ++ b) = x :: t /\ In x a.
Proof.
  revert j. induction a as [|y a IH]; intros j L; [cbn in L; lia|].
  destruct j as [|j]; cbn [skipn app].
  - exists y, (a ++ b). split; [reflexivity | left; reflexivity].
  - destruct (IH j ltac:(cbn in L; lia)) as (x & t & E & I).
    exists x, t. split; [exact E | right; exact I].
Qed.

Lemma canon_search_suffix (title ds : str) :
  us_free title -> digits_1_2 ds ->
  re_search CANON_REV_SUFFIX (title ++ lit "_Rev" ++ ds)
  = Some (RMatch (List.length title) (4 + List.length ds) [ds]).
Proof.
  intros U D. unfold re_search.
  apply (search_from_found _ _ true 0 (List.length title)).
  - rewrite length_app. lia.
  - intros j Hj. destruct (skipn_app_lt j title (lit "_Rev" ++ ds) Hj) as (x & t & E & I).
    rewrite E. apply canon_nomatch_head.
    unfold us_free in U. rewrite Forall_forall in U. exact (U x I).
  - rewrite skipn_app, skipn_all, Nat.sub_diag. cbn [skipn app Nat.add].
    apply canon_match_suffix. exact D.
Qed.

Lemma rstrip_digit_end (s : str) :
  (exists l d, s = l ++ [d] /\ is_digit d = true) -> rstrip s = s.
Proof.
  intros (l & d & E & Hd). subst s. unfold rstrip. apply rstrip_by_fixed.
  exact (digit_not_space d Hd).
Qed.

(** On a title followed by [_Rev] and its digits, [extract_rev] finds the
    canonical suffix and gives the title and the revision back. *)
Lemma extract_rev_again (title ds : str) :
  us_free title -> rstrip_chars "_- ." title = title -> digits_1_2 ds ->
  extract_rev (join "_" [title; lit "Rev" ++ ds]) [] = (title, lit "Rev" ++ ds, []).
Proof.
  intros U R D.
  change (join "_" [title; lit "Rev" ++ ds]) with (title ++ lit "_Rev" ++ ds).
  unfold extract_rev.
  rewrite rstrip_digit_end.
  2:{ destruct D as [A L]. destruct (all_digits_last ds A ltac:(lia)) as (l & d & E & Hd).
      exists (title ++ lit "_Rev" ++ l), d. split; [| exact Hd].
      subst ds. rewrite <- !app_assoc. reflexivity. }
  rewrite (canon_search_suffix title ds U D). cbv beta iota zeta.
  unfold group1. cbn [m_groups nth m_start].
  rewrite firstn_app, firstn_all, Nat.sub_diag, firstn_O, app_nil_r, R.
  rewrite firstn_all2 by (destruct D as [_ [L|L]]; rewrite L; lia).
  reflexivity.
Qed.

(** ** [finalize] without notes *)

Lemma pair3_eq {A B C : Type} (a a' : A) (b b' : B) (c c' : C) :
  (a, b, c) = (a', b', c') -> a = a' /\ b = b' /\ c = c'.
Proof. intros E. inversion E. auto. Qed.

Lemma pair_eq {A B : Type} (a a' : A) (b b' : B) :
  (a, b) = (a', b') -> a = a' /\ b = b'.
Proof. intros E. inversion E. auto. Qed.

(** When [finalize_stem] ends without notes it began without notes, the
    title came out of [extract_rev] clean and whole, and each step, run
    again on its own result, changes nothing. *)
Lemma finalize_stem_nil (issues : list str) (prefix : str) (id_part : option str)
    (date title_raw : str) (hard_rev : option str) (stem : str) :
  us_free prefix -> nonempty prefix = true -> digits_n 8 date ->
  (forall r, hard_rev = Some r -> canon_rev r) ->
  finalize_stem issues prefix id_part date title_raw hard_rev = (stem, []) ->
  issues = []
  /\ exists title rn,
       let rev := if truthy hard_rev then as_str hard_rev else rn in
       extract_rev title_raw [] = (title, rn, [])
       /\ sanitize_title title [] = (title, [])
       /\ enforce_stem_limit prefix (id_clean_of id_part) date title rev [] = (title, [])
       /\ nonempty title = true /\ title_str title
       /\ rstrip_chars "_- ." title = title
       /\ canon_rev rev
       /\ stem = join "_" (fields prefix (id_clean_of id_part) date title rev).
Proof.
  intros Up Np Dd Hr H.
  destruct (finalize_stem_unfold issues prefix id_part date title_raw hard_rev Up Np Dd Hr)
    as (tnr & rn & iss1 & title0 & iss2 & title & iss3 & E1 & E2 & E3 & Ef & Cr & T0 & _).
  cbv zeta in *. rewrite Ef in H. apply pair_eq in H. destruct H as [Es En].
  assert (Nt : nonempty title = true /\ iss3 = []).
  { destruct (nonempty title); [auto | destruct (snoc_not_nil _ _ En)]. }
  destruct Nt as [Nt ->].
  destruct (enforce_nil _ _ _ _ _ _ _ E3) as [-> ->].
  destruct (sanitize_title_nil _ _ _ E2) as [-> ->].
  destruct (extract_rev_nil _ _ _ _ E1) as [-> R].
  split; [reflexivity|]. exists tnr, rn. cbv zeta.
  repeat (split; [assumption|]). symmetry. exact Es.
Qed.

Lemma finalize_nil (c : ctx) (issues : list str) (prefix : str) (id_part : option str)
    (date title_raw : str) (hard_rev : option str) (s : option str) (ch : bool) :
  us_free prefix -> nonempty prefix = true -> digits_n 8 date ->
  (forall r, hard_rev = Some r -> canon_rev r) ->
  finalize c issues prefix id_part date title_raw hard_rev = (s, [], ch) ->
  issues = [].
Proof.
  intros Up Np Dd Hr H. unfold finalize in H.
  destruct (finalize_stem issues prefix id_part date title_raw hard_rev) as [stem notes] eqn:E.
  apply pair3_eq in H. destruct H as (_ & En & _). subst notes.
  exact (proj1 (finalize_stem_nil _ _ _ _ _ _ _ Up Np Dd Hr E)).
Qed.

(** ** Dates and CSI sections, read again *)

Lemma try_normalize_date_strip (tok : str) :
  try_normalize_date (strip tok) = try_normalize_date tok.
Proof. unfold try_normalize_date. rewrite strip_idem. reflexivity. Qed.

Lemma ret_eq {A : Type} (a b : A) : Ret a = Ret b -> a = b.
Proof. intros E. inversion E. reflexivity. Qed.

(** A token that is not a date is not a date whatever the notes are. *)
Lemma need_date_not (tok : str) (issues : list str) (d : option str) (iss : list str) :
  need_date (Some tok) issues = Ret (d, false, iss) ->
  iss = issues /\ forall issues', need_date (Some tok) issues' = Ret (d, false, issues').
Proof.
  unfold need_date. destruct (negb (truthy (Some tok))).
  { intros H. apply ret_eq in H. apply pair3_eq in H. destruct H as (<- & _ & <-). auto. }
  destruct (try_normalize_date_total (as_str (Some tok))) as ([d' note] & E).
  rewrite E. cbn [bind]. intros H. apply ret_eq in H. apply pair3_eq in H.
  destruct H as (Ed & Eo & En). subst d'. rewrite Eo in *. cbn [andb] in *.
  split; [symmetry; exact En | reflexivity].
Qed.

(** The verdict on a token does not depend on the notes. *)
Lemma need_date_ok_indep (tok : option str) (i1 i2 : list str) (d1 d2 : option str)
    (ok1 ok2 : bool) (n1 n2 : list str) :
  need_date tok i1 = Ret (d1, ok1, n1) -> need_date tok i2 = Ret (d2, ok2, n2) -> ok1 = ok2.
Proof.
  unfold need_date. destruct (negb (truthy tok)).
  { intros H1 H2. apply ret_eq in H1, H2. apply pair3_eq in H1, H2.
    destruct H1 as (_ & <- & _), H2 as (_ & <- & _). reflexivity. }
  destruct (try_normalize_date_total (as_str tok)) as ([d' note] & E). rewrite E. cbn [bind].
  intros H1 H2. apply ret_eq in H1, H2. apply pair3_eq in H1, H2.
  destruct H1 as (_ & <- & _), H2 as (_ & <- & _). reflexivity.
Qed.

Lemma digits_title_str (w : str) : forallb is_digit w = true -> title_str w.
Proof.
  unfold title_str. rewrite forallb_forall, Forall_forall. intros H c Hc.
  specialize (H c Hc). unfold not_title_chr, is_alnum. rewrite H, orb_true_r. reflexivity.
Qed.

Ltac csi_title_tac H :=
  unfold re_match in H; apply match_here_In in H;
  let c' := fresh "c" in
  destruct H as (c' & H & _); inv_run; cbn [rest] in *;
  repeat match goal with
         | E : chr_eqb _ _ = true |- _ => apply chr_eqb_eq in E; subst
         end;
  repeat match goal with
         | E : rest ?a = _, E' : context [rest ?a] |- _ => rewrite E in E'; clear E
         end;
  match goal with
  | E : strip ?tok = _, A : at_eol ?r |- _ =>
      destruct A as [A | A]; rewrite A in E;
      [ rewrite E; unfold title_str;
        repeat first [ apply Forall_nil
                     | apply Forall_app; split
                     | apply Forall_cons; [reflexivity|]
                     | apply digits_title_str; assumption ]
      | exfalso;
        match type of E with
        | strip tok = ?a ++ ?x :: ?b ++ ?y :: ?c ++ [newline] =>
            assert (E2 : strip tok = (a ++ x :: b ++ y :: c) ++ [newline])
              by (rewrite E; repeat (rewrite <- app_assoc || (progress cbn [app])); reflexivity);
            apply strip_last in E2; rewrite is_space_newline in E2; discriminate E2
        | strip tok = ?a ++ ?x :: ?b ++ ?y :: ?c ++ ?z :: ?d ++ [newline] =>
            assert (E2 : strip tok = (a ++ x :: b ++ y :: c ++ z :: d) ++ [newline])
              by (rewrite E; repeat (rewrite <- app_assoc || (progress cbn [app])); reflexivity);
            apply strip_last in E2; rewrite is_space_newline in E2; discriminate E2
        end ]
  end.

Lemma csi3_title (tok : str) (m : rmatch) :
  re_match RE_CSI3 (strip tok) = Some m -> title_str (strip tok).
Proof. intros H. unfold RE_CSI3 in H. csi_title_tac H. Qed.

Lemma csi4_title (tok : str) (m : rmatch) :
  re_match RE_CSI4 (strip tok) = Some m -> title_str (strip tok).
Proof. intros H. unfold RE_CSI4 in H. csi_title_tac H. Qed.

Lemma reject_nonempty (issues notes : list str) (s : str) (n : list str) (ch : bool) :
  reject issues notes = Ret (Some s, n, ch) -> nonempty s = true -> False.
Proof.
  unfold reject. rewrite assemble_decision_None. intros E. apply ret_eq in E.
  apply verdict_eq in E. destruct E as (<- & _). discriminate.
Qed.

(** ** The [TF] block never ends quietly *)

Ltac reduce_in H :=
  cbn [nonempty_list negb List.length Nat.ltb Nat.leb index nth_error bind] in H.

Ltac rejected_absurd H N := exfalso; exact (reject_nonempty _ _ _ _ _ H N).

Ltac ask_date H E :=
  match type of H with
  | context [need_date ?t ?i] =>
      let d := fresh "d" in let ok := fresh "ok" in let iss := fresh "iss" in
      destruct (need_date_total t i) as ([[d ok] iss] & E); rewrite E in H; reduce_in H;
      destruct ok; reduce_in H
  end.

Lemma some_canon (x : str) : canon_rev x -> forall r, Some x = Some r -> canon_rev r.
Proof. intros C r E. injection E as <-. exact C. Qed.

Lemma some_eq {A : Type} (a b : A) : Some a = Some b -> a = b.
Proof. intros E. injection E as E. exact E. Qed.

(** The [TF] block never ends without a note. *)
Lemma branch_TF_notes c prefix rest issues s ch :
  us_free prefix -> nonempty prefix = true ->
  branch_TF c prefix rest issues = Ret (Some (Some s, [], ch)) -> nonempty s = true -> False.
Proof.
  intros Up Np H N. unfold branch_TF in H.
  destruct rest as [|r0 t]; reduce_in H.
  - unfold reject in H. cbn [bind] in H. rewrite assemble_decision_None in H.
    apply ret_eq, some_eq, verdict_eq in H. destruct H as (<- & _). discriminate N.
  - ask_date H E0.
    + apply ret_eq, some_eq in H.
      pose proof (finalize_nil _ _ _ _ _ _ _ _ _ Up Np (need_date_ok _ _ _ _ E0)
                    no_hard_rev H) as K.
      exact (snoc_not_nil _ _ K).
    + ask_date H E1; [| discriminate H].
      match type of H with
      | context [nonempty (match ?M with Some _ => _ | None => _ end)] =>
          assert (S : forall m', M = Some m' ->
                      exists a0 i s', match_here REV_ANY_INFIX a0 i s' = Some m'
                                      \/ match_here EMBEDDED_REV a0 i s' = Some m')
            by (intros m' Hm;
                match type of Hm with
                | context [re_search REV_ANY_INFIX ?t] => exact (tf_search t m' Hm)
                end);
          set (mm := M) in *; clearbody mm
      end.
      apply ret_eq, some_eq in H.
      pose proof (finalize_nil _ _ _ _ _ _ _ _ _ Up Np (need_date_ok _ _ _ _ E1)
                    (some_canon _ (tf_hard_rev mm true 0 [] S)) H) as K.
      exact (app_cons_absurd _ _ _ K).
Qed.

(** When the [TF] block falls through, the generic identifier branch
    rejects the name. *)
Lemma branch_TF_falls c prefix rest issues issues' s n ch :
  branch_TF c prefix rest issues = Ret None ->
  branch_ID_ANY c prefix rest issues' = Ret (Some s, n, ch) -> nonempty s = true -> False.
Proof.
  intros T H N. unfold branch_TF in T. unfold branch_ID_ANY in H.
  destruct rest as [|r0 [|r1 t]]; reduce_in H; try rejected_absurd H N.
  reduce_in T.
  ask_date T E0; [discriminate T|].
  ask_date T E1; [discriminate T|].
  ask_date H F0; [rejected_absurd H N|].
  destruct (sanitize_id_any r0 iss1 (id_label prefix)) as [idp iss2].
  ask_date H F1; [| rejected_absurd H N].
  pose proof (need_date_ok_indep _ _ _ _ _ _ _ _ _ E1 F1) as K. discriminate K.
Qed.

(** ** Cutting a suggestion into tokens *)

Lemma tokenize_nonempty (name : str) :
  Forall (fun w => nonempty w = true) (name_tokens name).
Proof.
  unfold name_tokens, tokenize.
  destruct (rfind_chr "." (strip name)) as [i|];
    match goal with
    | |- context [if contains ?a ?b then _ else _] => destruct (contains a b)
    end; cbn [fst snd]; apply Forall_forall; intros w Hw; apply filter_In in Hw; tauto.
Qed.

(** What [audit_filename] does before it dispatches. *)
Lemma audit_filename_dispatch (name s : str) (notes : list str) (ch : bool) :
  audit_filename name = Ret (Some s, notes, ch) -> nonempty s = true ->
  exists rest m,
    Forall (fun w => nonempty w = true) rest
    /\ re_match PREFIX_RE (name_prefix name) = Some m
    /\ dispatch (name_ctx name) (name_prefix name) rest (name_issues name)
       = Ret (Some s, notes, ch).
Proof.
  intros H N. pose proof (tokenize_nonempty name) as Nt. revert H Nt.
  unfold audit_filename, name_prefix, name_ctx, name_issues, name_tokens.
  destruct (nonempty (strip name)); cbn [negb].
  2:{ intros E. apply ret_eq, verdict_eq in E. destruct E as (<- & _). discriminate N. }
  destruct (existsb _ IGNORE_PREFIXES); [discriminate|].
  destruct (tokenize name) as [[c tokens] issues]. cbn [fst snd].
  destruct tokens as [|prefix [|t1 tokens]]; cbn [List.length Nat.ltb Nat.leb hd];
    try (intros H; rejected_absurd H N).
  cbn [index nth_error bind skipn].
  destruct (re_match PREFIX_RE prefix) as [m|] eqn:P; cbn [is_some negb];
    [| intros H; rejected_absurd H N].
  intros H Nt. exists (t1 :: tokens), m. split; [inversion Nt; assumption|]. auto.
Qed.

Lemma no_space_dot (stem ext0 : str) :
  dot_free stem ->
  (exists l d, stem = l ++ [d] /\ is_space d = false) ->
  (ext0 = [] \/ exists e, ext0 = "."%char :: e /\ dot_free e) ->
  forall a sp b, stem ++ ext0 = a ++ sp :: "."%char :: b -> is_space sp = false.
Proof.
  intros Ds (l0 & d & El & Hd) He a sp b E.
  assert (Last : forall x, a ++ [sp] = stem ++ x -> x = [] -> is_space sp = false).
  { intros x K ->. rewrite app_nil_r, El in K. apply app_inj_tail in K.
    destruct K as [_ ->]. exact Hd. }
  change (a ++ sp :: "."%char :: b) with (a ++ [sp] ++ "."%char :: b) in E.
  rewrite app_assoc in E. apply app_eq_app in E. destruct E as (l & [[E1 E2] | [E1 E2]]).
  - destruct l as [|x l].
    + apply (Last []); [rewrite app_nil_r in *; symmetry; exact E1 | reflexivity].
    + exfalso. cbn [app] in E2. injection E2 as <- _.
      rewrite E1 in Ds. apply Forall_app in Ds. destruct Ds as [_ Ds].
      inversion Ds as [|? ? K _]. discriminate K.
  - destruct l as [|x l].
    + apply (Last []); [exact E1 | reflexivity].
    + exfalso. destruct He as [-> | (e & -> & De)]; [discriminate E2|].
      cbn [app] in E2. injection E2 as _ E2. rewrite E2 in De.
      apply Forall_app in De. destruct De as [_ De].
      inversion De as [|? ? K _]. discriminate K.
Qed.

(** No white space before a dot: [SPACE_BEFORE_EXT] does not match. *)
Lemma space_before_ext_none (s : str) :
  (forall a sp b, s = a ++ sp :: "."%char :: b -> is_space sp = false) ->
  re_search SPACE_BEFORE_EXT s = None.
Proof.
  intros H. unfold re_search. apply search_from_None. intros k _.
  destruct (match_here SPACE_BEFORE_EXT (true && (k =? 0)) (0 + k) (skipn k s)) as [m|] eqn:M;
    [exfalso | reflexivity].
  apply match_here_In in M. destruct M as (c' & M & _).
  unfold SPACE_BEFORE_EXT in M. inv_run. cbn [rest] in *.
  repeat match goal with
         | E : chr_eqb _ _ = true |- _ => apply chr_eqb_eq in E; subst
         end.
  match goal with
  | E : skipn k s = ?w ++ _, E' : rest _ = "."%char :: ?r,
    F : forallb is_space ?w = true, L : 1 <= List.length ?w |- _ =>
      rewrite E' in E;
      destruct (str_last_cases w) as [K | (w' & sp & K)];
      [ subst w; cbn in L; lia |];
      subst w; apply forallb_snoc in F;
      assert (S : s = (firstn k s ++ w') ++ sp :: "."%char :: r)
        by (rewrite <- (firstn_skipn k s) at 1; rewrite E, <- !app_assoc; reflexivity);
      rewrite (H _ _ _ S) in F; discriminate F
  end.
Qed.

Lemma join_dot_free (parts : list str) :
  Forall dot_free parts -> dot_free (join "_" parts).
Proof.
  induction 1 as [|w ws Hw _ IH]; [constructor|].
  destruct ws as [|w2 ws]; [exact Hw|].
  rewrite join_cons by reflexivity. apply Forall_app. split; [exact Hw|].
  apply Forall_app. split; [| exact IH]. constructor; [reflexivity | constructor].
Qed.

Lemma field_str_us_free (s : str) : field_str s -> us_free s.
Proof. unfold field_str, us_free. apply Forall_impl. tauto. Qed.

Lemma field_str_dot_free (s : str) : field_str s -> dot_free s.
Proof. unfold field_str, dot_free. apply Forall_impl. tauto. Qed.

Lemma title_str_field (s : str) : title_str s -> field_str s.
Proof.
  unfold title_str, field_str. apply Forall_impl. intros c Hc. split.
  - exact (proj2 (title_chr_neq c "_" Hc eq_refl)).
  - exact (proj2 (title_chr_neq c "." Hc eq_refl)).
Qed.

Lemma digits_field (s : str) : all_digits s = true -> field_str s.
Proof. intros H. apply title_str_field, digits_title_str. exact H. Qed.

Lemma canon_rev_field (r : str) : canon_rev r -> field_str r.
Proof.
  intros (ds & -> & D & _). unfold field_str.
  change (lit "Rev" ++ ds) with ("R"%char :: "e"%char :: "v"%char :: ds).
  repeat (constructor; [split; reflexivity|]). exact (digits_field ds D).
Qed.

Lemma prefix_field (prefix : str) (m : rmatch) :
  re_match PREFIX_RE prefix = Some m -> field_str prefix.
Proof.
  intros H. apply match_here_In in H. destruct H as (c' & H & _).
  unfold PREFIX_RE in H. inv_run. cbn [rest] in *.
  match goal with
  | E' : prefix = ?w ++ _, F : forallb is_upper ?w = true, A : at_eol _ |- _ =>
      rewrite E'; apply Forall_app; split;
      [ rewrite forallb_forall in F; apply Forall_forall; intros a Ha; split;
        [ exact (proj2 (class_neq is_upper a "_" (F a Ha) eq_refl))
        | exact (proj2 (class_neq is_upper a "." (F a Ha) eq_refl)) ]
      | destruct A as [-> | ->];
        [constructor | constructor; [split; reflexivity | constructor]] ]
  end.
Qed.

Lemma upper_not_space (c : ascii) : is_upper c = true -> is_space c = false.
Proof.
  rewrite is_upper_spec. intros H.
  destruct (is_space c) eqn:E; [| reflexivity].
  apply is_space_spec in E. lia.
Qed.

Lemma replace_chr_us_free_id (s : str) : us_free s -> replace_chr "_" "" s = s.
Proof.
  unfold replace_chr. induction 1 as [|c s Hc _ IH]; [reflexivity|].
  cbn [flat_map]. rewrite chr_eqb_sym, Hc, IH. reflexivity.
Qed.

(** With an identifier that needs no repair and a title, the fields of
    the stem are the tokens a second cut finds. *)
Lemma fields_opt_list (prefix : str) (id_part : option str) (date title rev : str) :
  id_ok id_part -> nonempty title = true ->
  fields prefix (id_clean_of id_part) date title rev
  = prefix :: opt_list id_part ++ [date; title; rev].
Proof.
  intros I Nt. unfold fields, id_clean_of. rewrite Nt.
  destruct id_part as [i|]; cbn [truthy opt_list]; [| reflexivity].
  destruct I as [Ni Ti]. rewrite Ni. cbn [truthy as_str].
  rewrite (replace_chr_us_free_id i (title_str_us_free i Ti)), Ni. reflexivity.
Qed.

(** A stem of well-formed fields followed by an extension: the audit
    strips nothing, reports nothing, and dispatches on the fields. *)
Lemma audit_filename_tokens (ext0 prefix : str) (rest : list str) (m : rmatch) :
  Forall field_str (prefix :: rest) ->
  Forall (fun w => nonempty w = true) (prefix :: rest) ->
  nonempty_list rest = true ->
  (exists x t, prefix = x :: t /\ is_space x = false) ->
  (exists l d, join "_" (prefix :: rest) = l ++ [d] /\ is_space d = false) ->
  (ext0 = [] \/ exists e l c, ext0 = "."%char :: e /\ dot_free e
                              /\ ext0 = l ++ [c] /\ is_space c = false) ->
  re_match PREFIX_RE prefix = Some m ->
  existsb (fun ig => startswith ig (join "_" (prefix :: rest) ++ ext0)) IGNORE_PREFIXES = false ->
  audit_filename (join "_" (prefix :: rest) ++ ext0)
  = dispatch (Ctx (join "_" (prefix :: rest) ++ ext0) ext0) prefix rest [].
Proof.
  intros Ff Fn Nr (x & t & Ex & Hx) (l & d & El & Hd) He Pm Hi.
  set (stem := join "_" (prefix :: rest)) in *.
  assert (Fu : Forall us_free (prefix :: rest))
    by (revert Ff; apply Forall_impl; exact field_str_us_free).
  assert (Ds : dot_free stem).
  { apply join_dot_free. revert Ff. apply Forall_impl. exact field_str_dot_free. }
  assert (Hs : exists t', stem = x :: t').
  { unfold stem. rewrite join_cons by exact Nr. subst prefix. eexists. reflexivity. }
  destruct Hs as (t' & Hs).
  assert (St : strip (stem ++ ext0) = stem ++ ext0).
  { apply strip_fixed.
    - intros c0 t0 E. rewrite Hs in E. cbn [app] in E. injection E as <- _. exact Hx.
    - intros l0 c0 E. destruct He as [-> | (e & l1 & c1 & _ & _ & E1 & Hc)].
      + rewrite app_nil_r, El in E. apply app_inj_tail in E. destruct E as [_ <-]. exact Hd.
      + rewrite E1, app_assoc in E. apply app_inj_tail in E. destruct E as [_ <-]. exact Hc. }
  assert (Ns : nonempty (stem ++ ext0) = true) by (rewrite Hs; reflexivity).
  assert (Sp : re_search SPACE_BEFORE_EXT (stem ++ ext0) = None).
  { apply space_before_ext_none. apply no_space_dot.
    - exact Ds.
    - exists l, d. auto.
    - destruct He as [-> | (e & _ & _ & E1 & De & _)]; [left; reflexivity | right; eauto]. }
  assert (Cs : contains "__" stem = false)
    by exact (collapse_fixed_contains stem (collapse_join _ Fu Fn)).
  assert (Sj : filter nonempty (split_chr "_" stem) = prefix :: rest)
    by (unfold stem; rewrite (split_join _ Fu eq_refl); exact (filter_nonempty_id _ Fn)).
  assert (Tk : tokenize (stem ++ ext0) = (Ctx (stem ++ ext0) ext0, prefix :: rest, [])).
  { unfold tokenize. rewrite St, Sp. cbn [is_some].
    destruct He as [-> | (e & _ & _ & -> & De & _)].
    - rewrite app_nil_r, (rfind_dot_free stem Ds). cbv beta iota.
      rewrite Cs, Sj. reflexivity.
    - rewrite (rfind_app_dot stem e De). cbv beta iota.
      rewrite firstn_app, firstn_all, Nat.sub_diag, firstn_O, app_nil_r.
      rewrite skipn_app, skipn_all, Nat.sub_diag. cbn [skipn app].
      rewrite Cs, Sj. reflexivity. }
  unfold audit_filename. rewrite St, Ns. cbn [negb]. rewrite Hi, Tk.
  destruct rest as [|r1 rest]; [discriminate Nr|].
  cbn [List.length Nat.ltb Nat.leb index nth_error bind skipn]. rewrite Pm. reflexivity.
Qed.

(** ** The order of [EXT_TOKENS] *)

Lemma startswith_both (a b l : str) :
  startswith a l = true -> startswith b l = true -> List.length a <= List.length b ->
  startswith a b = true.
Proof.
  revert b l. induction a as [|x a IH]; intros b l Ha Hb L; [reflexivity|].
  destruct b as [|y b]; [cbn in L; lia|].
  destruct l as [|z l]; [discriminate Ha|].
  cbn [startswith] in *. apply andb_true_iff in Ha, Hb.
  destruct Ha as [Ha1 Ha2], Hb as [Hb1 Hb2].
  apply chr_eqb_eq in Ha1, Hb1. subst. rewrite chr_eqb_refl. cbn [andb].
  apply (IH b l Ha2 Hb2). cbn in L. lia.
Qed.

Lemma endswith_both (a b l : str) :
  endswith a l = true -> endswith b l = true -> List.length a <= List.length b ->
  endswith a b = true.
Proof.
  unfold endswith. intros Ha Hb L. apply (startswith_both _ _ _ Ha Hb).
  rewrite !length_rev. exact L.
Qed.

(** No extension token is a proper suffix of another one. *)
Lemma ext_tokens_suffix_free (a b : str) :
  In a EXT_TOKENS -> In b EXT_TOKENS -> endswith a b = true ->
  List.length a = List.length b.
Proof.
  intros Ia Ib E.
  assert (K : forallb (fun x => forallb (fun y => negb (endswith x y)
                                                  || (List.length x =? List.length y))
                                        EXT_TOKENS) EXT_TOKENS = true)
    by (vm_compute; reflexivity).
  rewrite forallb_forall in K. specialize (K a Ia).
  rewrite forallb_forall in K. specialize (K b Ib).
  rewrite E in K. cbn [negb orb] in K. apply Nat.eqb_eq. exact K.
Qed.

Lemma drop_ext_suffix_cases (exts : list str) (lowered s2 : str) :
  (exists e, In e exts /\ endswith e lowered = true
             /\ drop_ext_suffix exts lowered s2
                = firstn (List.length s2 - List.length e) s2)
  \/ ((forall e, In e exts -> endswith e lowered = false)
      /\ drop_ext_suffix exts lowered s2 = s2).
Proof.
  induction exts as [|x exts IH]; cbn [drop_ext_suffix].
  - right. split; [intros e [] | reflexivity].
  - destruct (endswith x lowered) eqn:E.
    + left. exists x. split; [left; reflexivity|]. auto.
    + destruct IH as [(e & I & He & D) | (Hn & D)].
      * left. exists e. split; [right; exact I|]. auto.
      * right. split; [| exact D]. intros e [<- | I]; [exact E | exact (Hn e I)].
Qed.

(** The loop over [EXT_TOKENS] gives the same result in whatever order the
    set is enumerated. *)
Lemma drop_ext_suffix_order (exts : list str) (lowered s2 : str) :
  (forall e, In e exts <-> In e EXT_TOKENS) ->
  drop_ext_suffix exts lowered s2 = drop_ext_suffix EXT_TOKENS lowered s2.
Proof.
  intros Same.
  destruct (drop_ext_suffix_cases exts lowered s2) as [(a & Ia & Ha & Da) | (Na & Da)];
    destruct (drop_ext_suffix_cases EXT_TOKENS lowered s2) as [(b & Ib & Hb & Db) | (Nb & Db)];
    rewrite Da, Db.
  - apply Same in Ia.
    assert (L : List.length a = List.length b).
    { destruct (Nat.le_ge_cases (List.length a) (List.length b)) as [L | L].
      - exact (ext_tokens_suffix_free a b Ia Ib (endswith_both a b lowered Ha Hb L)).
      - symmetry.
        exact (ext_tokens_suffix_free b a Ib Ia (endswith_both b a lowered Hb Ha L)). }
    rewrite L. reflexivity.
  - apply Same in Ia. rewrite (Nb a Ia) in Ha. discriminate Ha.
  - apply Same in Ib. rewrite (Na b Ib) in Hb. discriminate Hb.
  - reflexivity.
Qed.

(** * Further properties of the helpers *)

(** ** The revision extractor *)

(** X1. Whatever the trailing text is, the revision that [extract_rev]
    returns is [Rev] followed by one or two decimal digits. *)
Theorem extract_rev_revision (trailing : str) (notes : list str) :
  exists ds,
    snd (fst (extract_rev trailing notes)) = lit "Rev" ++ ds
    /\ all_digits ds = true
    /\ (List.length ds = 1 \/ List.length ds = 2).
Proof.
  destruct (extract_rev_canon trailing notes) as (ds & E & D & L).
  exists ds. auto.
Qed.

(** X2. A title without underscore that does not end with a separator,
    followed by [_Rev] and one or two digits, is split by [extract_rev]
    into that title and that revision, and the notes are left as they
    are. *)
Theorem extract_rev_canonical_suffix (title ds : str) (notes : list str) :
  us_free title -> rstrip_chars "_- ." title = title -> digits_1_2 ds ->
  extract_rev (title ++ lit "_Rev" ++ ds) notes = (title, lit "Rev" ++ ds, notes).
Proof.
  intros U R D. unfold extract_rev.
  rewrite rstrip_digit_end.
  2:{ destruct D as [A L]. destruct (all_digits_last ds A ltac:(lia)) as (l & d & E & Hd).
      exists (title ++ lit "_Rev" ++ l), d. split; [| exact Hd].
      subst ds. rewrite <- !app_assoc. reflexivity. }
  rewrite (canon_search_suffix title ds U D). cbv beta iota zeta.
  unfold group1. cbn [m_groups nth m_start].
  rewrite firstn_app, firstn_all, Nat.sub_diag, firstn_O, app_nil_r, R.
  rewrite firstn_all2 by (destruct D as [_ [L|L]]; rewrite L; lia).
  reflexivity.
Qed.

Lemma extract_rev_canonical_suffix_witness :
  extract_rev (lit "Site-Map" ++ lit "_Rev" ++ lit "02") [lit "earlier note"]
  = (lit "Site-Map", lit "Rev" ++ lit "02", [lit "earlier note"]).
Proof.
  apply (extract_rev_canonical_suffix (lit "Site-Map") (lit "02") [lit "earlier note"]).
  - unfold us_free. repeat constructor.
  - vm_compute. reflexivity.
  - split; [reflexivity | right; reflexivity].
Defined.

(** ** The date normaliser *)

Lemma strict_date_match (d : str) :
  digits_n 8 d ->
  strip d = d /\ nonempty d = true /\ exists m, re_match DATE_RE_STRICT d = Some m.
Proof.
  intros [A L].
  destruct d as [|c1 [|c2 [|c3 [|c4 [|c5 [|c6 [|c7 [|c8 [|c9 d]]]]]]]]]; try discriminate L.
  unfold all_digits in A. cbn [forallb] in A.
  repeat match goal with
         | H : _ && _ = true |- _ => apply andb_true_iff in H; destruct H
         end.
  unfold DATE_RE_STRICT. ev. repeat split; try reflexivity. eexists. reflexivity.
Qed.

Lemma try_normalize_date_digits (d : str) :
  digits_n 8 d -> try_normalize_date d = Ret (Some d, None).
Proof.
  intros D. destruct (strict_date_match d D) as (S & N & m & M).
  unfold try_normalize_date. rewrite S, N, M. reflexivity.
Qed.

(** X3. A date that [try_normalize_date] returns has exactly eight
    decimal digits, and normalising it again returns it as it is, without
    a note. *)
Theorem try_normalize_date_fixed (tok d : str) (note : option str) :
  try_normalize_date tok = Ret (Some d, note) ->
  digits_n 8 d /\ try_normalize_date d = Ret (Some d, None).
Proof.
  intros H. pose proof (try_normalize_date_sound _ _ _ H) as D.
  split; [exact D | exact (try_normalize_date_digits d D)].
Qed.

Lemma try_normalize_date_fixed_witness :
  digits_n 8 (lit "20240305")
  /\ try_normalize_date (lit "20240305") = Ret (Some (lit "20240305"), None).
Proof.
  apply (try_normalize_date_fixed (lit " 3/5/2024 ") (lit "20240305")
           (Some (lit "Normalized date from M/D/YYYY"))).
  vm_compute. reflexivity.
Defined.

(** X4. Neither the hyphenated nor the plain eight-digit form is checked
    against the calendar: [YYYY-MM-DD] is rewritten to the eight digits
    with the note of its format whatever month and day are, and the eight
    digits are accepted as they are. *)
Theorem dash_dates_not_validated (y mo d : str) :
  digits_n 4 y -> digits_n 2 mo -> digits_n 2 d ->
  try_normalize_date (y ++ lit "-" ++ mo ++ lit "-" ++ d)
  = Ret (Some (y ++ mo ++ d), Some (lit "Normalized date from YYYY-MM-DD"))
  /\ try_normalize_date (y ++ mo ++ d) = Ret (Some (y ++ mo ++ d), None).
Proof.
  intros Hy Hm Hd. split.
  - split_digits. unfold try_normalize_date. cbv zeta.
    unfold DATE_RE_STRICT, RE_DATE_DASH. ev. reflexivity.
  - apply try_normalize_date_digits. change 8 with (4 + (2 + 2)).
    apply digits_n_app; [exact Hy | apply digits_n_app; assumption].
Qed.

Lemma dash_dates_not_validated_witness :
  try_normalize_date (lit "2024" ++ lit "-" ++ lit "13" ++ lit "-" ++ lit "45")
  = Ret (Some (lit "2024" ++ lit "13" ++ lit "45"),
         Some (lit "Normalized date from YYYY-MM-DD"))
  /\ try_normalize_date (lit "2024" ++ lit "13" ++ lit "45")
     = Ret (Some (lit "2024" ++ lit "13" ++ lit "45"), None).
Proof.
  apply (dash_dates_not_validated (lit "2024") (lit "13") (lit "45"));
    (split; [reflexivity | reflexivity]).
Defined.

(** ** The CSI normaliser *)

Lemma forallb_filter (p : ascii -> bool) (s : str) : forallb p (filter p s) = true.
Proof.
  apply forallb_forall. intros c Hc. apply filter_In in Hc. tauto.
Qed.

Lemma csi_digits (t : str) :
  forallb is_digit (re_sub (Chr (fun c => negb (is_digit c))) "" t) = true.
Proof.
  rewrite re_sub_Chr. apply forallb_forall. intros c Hc. apply filter_In in Hc.
  destruct Hc as [_ Hc]. apply negb_true_iff, negb_false_iff in Hc. exact Hc.
Qed.

Lemma normalize_csi_fixed (c : str) :
  strip c = c -> nonempty c = true ->
  is_some (re_match RE_CSI3 c) || is_some (re_match RE_CSI4 c) = true ->
  normalize_csi c = (Some c, None).
Proof.
  intros S N M. unfold normalize_csi. rewrite S, N, M. reflexivity.
Qed.

Ltac digit_chars A :=
  unfold all_digits in A; cbn [forallb] in A;
  repeat match goal with
         | H : _ && _ = true |- _ => apply andb_true_iff in H; destruct H
         end.

Lemma csi3_canonical (ds : str) :
  forallb is_digit ds = true -> List.length ds = 6 ->
  strip (csi3 ds) = csi3 ds /\ nonempty (csi3 ds) = true
  /\ is_some (re_match RE_CSI3 (csi3 ds)) || is_some (re_match RE_CSI4 (csi3 ds)) = true.
Proof.
  intros A L.
  destruct ds as [|c1 [|c2 [|c3 [|c4 [|c5 [|c6 [|c7 ds]]]]]]]; try discriminate L.
  digit_chars A. unfold csi3, slice, RE_CSI3, RE_CSI4. ev. repeat split; reflexivity.
Qed.

Lemma csi4_canonical (ds : str) :
  forallb is_digit ds = true -> List.length ds = 8 ->
  strip (csi4 ds) = csi4 ds /\ nonempty (csi4 ds) = true
  /\ is_some (re_match RE_CSI3 (csi4 ds)) || is_some (re_match RE_CSI4 (csi4 ds)) = true.
Proof.
  intros A L.
  destruct ds as [|c1 [|c2 [|c3 [|c4 [|c5 [|c6 [|c7 [|c8 [|c9 ds]]]]]]]]];
    try discriminate L.
  digit_chars A. unfold csi4, slice, RE_CSI3, RE_CSI4. ev. repeat split; reflexivity.
Qed.

(** X5. A CSI section that [normalize_csi] returns has the canonical form
    [NN-NN-NN] or [NN-NN-NN-NN], and normalising it again returns it as it
    is, without a note. *)
Theorem normalize_csi_canonical (token csi : str) (note : option str) :
  normalize_csi token = (Some csi, note) ->
  is_some (re_match RE_CSI3 csi) || is_some (re_match RE_CSI4 csi) = true
  /\ normalize_csi csi = (Some csi, None).
Proof.
  intros H.
  assert (K : strip csi = csi /\ nonempty csi = true
              /\ is_some (re_match RE_CSI3 csi) || is_some (re_match RE_CSI4 csi) = true).
  { revert H. unfold normalize_csi.
    destruct (nonempty (strip token)) eqn:N; cbn [negb]; [| discriminate].
    destruct (is_some (re_match RE_CSI3 (strip token))
              || is_some (re_match RE_CSI4 (strip token))) eqn:M.
    { intros E. apply pair_eq in E. destruct E as [E _]. apply some_eq in E. subst csi.
      rewrite strip_idem. auto. }
    pose proof (csi_digits (strip token)) as A.
    set (digits := re_sub (Chr (fun c => negb (is_digit c))) "" (strip token)) in *.
    destruct (List.length digits =? 6) eqn:L6.
    { intros E. apply pair_eq in E. destruct E as [E _]. apply some_eq in E. subst csi.
      apply csi3_canonical; [exact A | apply Nat.eqb_eq; exact L6]. }
    destruct (List.length digits =? 8) eqn:L8.
    { intros E. apply pair_eq in E. destruct E as [E _]. apply some_eq in E. subst csi.
      apply csi4_canonical; [exact A | apply Nat.eqb_eq; exact L8]. }
    cbn [orb]. rewrite andb_false_r. discriminate. }
  destruct K as (S & N & M). split; [exact M | exact (normalize_csi_fixed csi S N M)].
Qed.

Lemma normalize_csi_canonical_witness :
  is_some (re_match RE_CSI3 (lit "03-07-08")) || is_some (re_match RE_CSI4 (lit "03-07-08"))
  = true
  /\ normalize_csi (lit "03-07-08") = (Some (lit "03-07-08"), None).
Proof.
  apply (normalize_csi_canonical (lit " 03.07 08 ") (lit "03-07-08")
           (Some (lit "Auto-formatted CSI from 6 digits"))).
  vm_compute. reflexivity.
Defined.

(** ** The identifier sanitisers *)

Lemma app_self_nil {A : Type} (l e : list A) : l ++ e = l -> e = [].
Proof. intros H. apply (app_inv_head l). rewrite app_nil_r. exact H. Qed.

Ltac grown_absurd E :=
  exfalso; rewrite <- ?app_assoc in E; apply app_self_nil in E;
  first [ discriminate E | destruct (app_cons_absurd _ _ _ E) ].

(** X6. The identifier that [sanitize_id_any] returns holds only letters,
    digits and hyphens, and it differs from the raw token only when a note
    has been appended. *)
Theorem sanitize_id_any_reports (raw : str) (notes : list str) (label : str) :
  title_str (fst (sanitize_id_any raw notes label))
  /\ (snd (sanitize_id_any raw notes label) = notes ->
      fst (sanitize_id_any raw notes label) = raw).
Proof.
  unfold sanitize_id_any.
  destruct (has_chr " " raw); cbv beta iota;
    (match goal with
     | |- context [if has_chr ?a ?b then _ else _] => destruct (has_chr a b)
     end; cbv beta iota);
    rewrite re_sub_Chr; cbn [fst snd];
    (split; [apply title_str_filter|]);
    match goal with
    | |- (if ?c then _ else _) = _ -> _ => destruct c eqn:C
    end; intros E; try grown_absurd E.
  apply negb_str_eqb_false in C. exact C.
Qed.

Lemma filter_digit_dash (s : str) :
  digit_dash_str (re_sub (Chr (fun c => negb (is_digit c || chr_eqb c "-"))) "" s).
Proof.
  rewrite re_sub_Chr. unfold digit_dash_str. apply Forall_forall. intros c Hc.
  apply filter_In in Hc. destruct Hc as [_ Hc]. apply negb_true_iff, negb_false_iff in Hc.
  exact Hc.
Qed.

Lemma digits_dashes_accepted (x d : str) (n1 n2 notes' : list str) :
  (if nonempty (re_sub (Chr (fun c => negb (is_digit c || chr_eqb c "-"))) "" x)
      && is_some (re_match (Bol ;; Chr is_digit ;;
                            Rep (fun c => is_digit c || chr_eqb c "-") 0 None ;; Eol)
                           (re_sub (Chr (fun c => negb (is_digit c || chr_eqb c "-"))) "" x))
   then (Some (re_sub (Chr (fun c => negb (is_digit c || chr_eqb c "-"))) "" x), n1)
   else (None, n2)) = (Some d, notes') ->
  digit_dash_str d /\ exists c t, d = c :: t /\ is_digit c = true.
Proof.
  pose proof (filter_digit_dash x) as F.
  set (dd := re_sub (Chr (fun c => negb (is_digit c || chr_eqb c "-"))) "" x) in *.
  destruct (nonempty dd); cbn [andb]; [| discriminate].
  destruct (re_match _ dd) as [m|] eqn:M; cbn [is_some]; [| discriminate].
  intros E. apply pair_eq in E. destruct E as [E _]. apply some_eq in E. subst d.
  split; [exact F|].
  apply match_here_In in M. destruct M as (c' & M & _). inv_run. cbn [rest] in *.
  match goal with
  | K : dd = ?y :: _, D : is_digit ?y = true |- _ =>
      exists y; eexists; split; [exact K | exact D]
  end.
Qed.

(** X7. When [sanitize_id_digits_dashes] returns a number, the number
    holds only digits and hyphens and begins with a digit. *)
Theorem sanitize_id_digits_dashes_number (raw : str) (notes : list str) (label d : str)
    (notes' : list str) :
  sanitize_id_digits_dashes raw notes label = (Some d, notes') ->
  digit_dash_str d /\ exists c t, d = c :: t /\ is_digit c = true.
Proof.
  unfold sanitize_id_digits_dashes.
  destruct (has_chr "_" (re_sub (Rep is_space 1 None) "" raw)); cbv beta iota;
    apply digits_dashes_accepted.
Qed.

Lemma sanitize_id_digits_dashes_number_witness :
  digit_dash_str (lit "12-34")
  /\ exists c t, lit "12-34" = c :: t /\ is_digit c = true.
Proof.
  apply (sanitize_id_digits_dashes_number (lit "1 2_-3x4") [] (lit "Number") (lit "12-34")
           [lit "Removed underscores from Number.";
            lit "Corrected Number to digits/dashes only."]).
  vm_compute. reflexivity.
Defined.

(** ** Prefixes without a branch *)

Lemma dispatch_unknown c prefix rest issues :
  known_prefix prefix = false ->
  dispatch c prefix rest issues = reject issues [note_terminal].
Proof.
  unfold known_prefix. intros K.
  repeat (apply orb_false_iff in K; let K' := fresh "K" in destruct K as [K K']).
  unfold dispatch.
  repeat match goal with H : _ = false |- _ => rewrite H; clear H end.
  reflexivity.
Qed.

Lemma audit_filename_unknown (name : str) :
  nonempty (strip name) = true ->
  existsb (fun ig => startswith ig (strip name)) IGNORE_PREFIXES = false ->
  known_prefix (name_prefix name) = false ->
  audit_filename name = Ret (Some [], name_issues name ++ [note_terminal], true).
Proof.
  intros N X K. revert K. unfold audit_filename, name_prefix, name_issues, name_tokens.
  rewrite N, X. cbn [negb].
  destruct (tokenize name) as [[c tokens] issues]. cbn [fst snd].
  assert (R : reject issues [note_terminal] = Ret (Some [], issues ++ [note_terminal], true))
    by (unfold reject; rewrite assemble_decision_None; reflexivity).
  destruct tokens as [|prefix [|t1 tokens]]; cbn [List.length Nat.ltb Nat.leb hd];
    intros K; try exact R.
  cbn [index nth_error bind skipn].
  destruct (negb (is_some (re_match PREFIX_RE prefix))); [exact R|].
  rewrite (dispatch_unknown _ _ _ _ K). exact R.
Qed.

(** X8. The prefixes of [REQUIRES_ID_DIGITS_DASHES] (PE, AEA, CO, NOC,
    CBL, DL, FM, PO, LNTP, CI, PA) have no branch in [audit_filename]: a
    name with such a prefix that is neither blank nor exempt is always
    rejected, with the terminal note after the notes of the cut. *)
Theorem digits_dashes_family_rejected (name : str) :
  nonempty (strip name) = true ->
  existsb (fun ig => startswith ig (strip name)) IGNORE_PREFIXES = false ->
  mem (name_prefix name) REQUIRES_ID_DIGITS_DASHES = true ->
  audit_filename name = Ret (Some [], name_issues name ++ [note_terminal], true).
Proof.
  intros N X M. apply audit_filename_unknown; [exact N | exact X |].
  assert (K : forallb (fun p => negb (known_prefix p)) REQUIRES_ID_DIGITS_DASHES = true)
    by (vm_compute; reflexivity).
  rewrite forallb_forall in K. unfold mem in M. apply existsb_exists in M.
  destruct M as (p & Ip & Ep). apply str_eqb_eq in Ep. subst p.
  apply negb_true_iff. exact (K _ Ip).
Qed.

Lemma digits_dashes_family_rejected_witness :
  audit_filename (lit "PE_12-34_20240101_Title_Rev1.pdf")
  = Ret (Some [], name_issues (lit "PE_12-34_20240101_Title_Rev1.pdf") ++ [note_terminal],
         true).
Proof.
  apply (digits_dashes_family_rejected (lit "PE_12-34_20240101_Title_Rev1.pdf"));
    vm_compute; reflexivity.
Defined.

(** ** The title sanitiser and the last touches *)

(** X9. The title that [sanitize_title] returns holds only letters,
    digits and hyphens, and whenever it differs from the raw title the
    notes returned contain "Normalized title.". *)
Theorem sanitize_title_reports (raw : str) (notes : list str) :
  title_str (fst (sanitize_title raw notes))
  /\ (fst (sanitize_title raw notes) <> raw ->
      In note_normalized_title (snd (sanitize_title raw notes))).
Proof.
  split; [apply sanitize_title_str|].
  unfold sanitize_title.
  destruct (strip_spurious_extensions raw notes) as [s0 n0].
  repeat (match goal with
          | |- context [if has_chr ?a ?b then _ else _] => destruct (has_chr a b)
          end; cbv beta iota);
    match goal with
    | |- context [strip_spurious_extensions ?a ?b] =>
        destruct (strip_spurious_extensions a b) as [s1 n1]
    end; cbn [fst snd]; intros D;
    (destruct (str_eqb s1 raw) eqn:E; [apply str_eqb_eq in E; contradiction|]);
    cbn [negb andb];
    (destruct (mem note_normalized_title n1) eqn:M; cbn [negb];
     [ unfold mem in M; apply existsb_exists in M; destruct M as (x & Ix & Ex);
       apply str_eqb_eq in Ex; subst x; exact Ix
     | apply in_or_app; right; left; reflexivity ]).
Qed.

Lemma endswith_rstrip (x : ascii) (s : str) :
  endswith [x] (rstrip_chars [x] s) = false.
Proof.
  destruct (str_last_cases (rstrip_chars [x] s)) as [E | (l & c & E)].
  - rewrite E. reflexivity.
  - rewrite E, endswith_snoc. unfold rstrip_chars in E. apply rstrip_by_last in E.
    unfold has_chr in E. cbn [existsb] in E. rewrite orb_false_r in E.
    rewrite chr_eqb_sym. exact E.
Qed.

(** X10. The stem that [postprocess_before_ext] returns never ends with
    a period; a stem that ends with neither an underscore nor a period is
    returned as it is, with the notes unchanged. *)
Theorem postprocess_no_period (stem : str) (notes : list str) :
  endswith "." (fst (postprocess_before_ext stem notes)) = false
  /\ (endswith "_" stem = false -> endswith "." stem = false ->
      postprocess_before_ext stem notes = (stem, notes)).
Proof.
  unfold postprocess_before_ext. split.
  - destruct (endswith "_" stem); cbv beta iota;
      match goal with
      | |- context [if endswith ?p ?s then _ else _] => destruct (endswith p s) eqn:E
      end; cbn [fst]; try exact E; apply (endswith_rstrip "."%char).
  - intros E1 E2. rewrite E1. cbv beta iota. rewrite E2. reflexivity.
Qed.

(** ** Doubled underscores *)

Lemma collapse_head (s : str) : startswith "_" (collapse s) = startswith "_" s.
Proof.
  induction s as [|c t IH]; [reflexivity|]. cbn [collapse].
  destruct (chr_eqb "_" c && startswith "_" t) eqn:E.
  - rewrite IH. apply andb_true_iff in E. destruct E as [E1 E2].
    rewrite E2, startswith_us. symmetry. exact E1.
  - rewrite !startswith_us. reflexivity.
Qed.

Lemma collapse_no_double (s : str) : contains "__" (collapse s) = false.
Proof.
  induction s as [|c t IH]; [reflexivity|]. cbn [collapse].
  destruct (chr_eqb "_" c && startswith "_" t) eqn:E; [exact IH|].
  cbn [contains]. rewrite startswith_us2, collapse_head, E, IH. reflexivity.
Qed.

Lemma collapse_id (s : str) : contains "__" s = false -> collapse s = s.
Proof.
  induction s as [|c t IH]; [reflexivity|]. cbn [contains collapse].
  rewrite startswith_us2. intros H. apply orb_false_iff in H. destruct H as [H1 H2].
  rewrite H1, (IH H2). reflexivity.
Qed.

(** X11. [MULTI_UNDERS.sub("_", s)], which the audit applies to the stem
    and [join_tokens] to the joined fields, leaves no doubled underscore,
    and it leaves a string without doubled underscore as it is. *)
Theorem multi_unders_sub (s : str) :
  contains "__" (re_sub MULTI_UNDERS "_" s) = false
  /\ (contains "__" s = false -> re_sub MULTI_UNDERS "_" s = s).
Proof.
  rewrite multi_unders_collapse. split; [apply collapse_no_double | apply collapse_id].
Qed.

Lemma multi_unders_sub_witness : re_sub MULTI_UNDERS "_" (lit "COR_2024") = lit "COR_2024".
Proof. apply (proj2 (multi_unders_sub (lit "COR_2024"))). reflexivity. Defined.

Lemma postprocess_no_period_witness :
  postprocess_before_ext (lit "COR_Rev1") [] = (lit "COR_Rev1", []).
Proof. apply (proj2 (postprocess_no_period (lit "COR_Rev1") [])); reflexivity. Defined.

Lemma sanitize_title_reports_witness :
  In note_normalized_title (snd (sanitize_title (lit "Site Map") [])).
Proof.
  apply (proj2 (sanitize_title_reports (lit "Site Map") [])).
  vm_compute. discriminate.
Defined.

Lemma sanitize_id_any_reports_witness :
  fst (sanitize_id_any (lit "A-12") [] (lit "ID")) = lit "A-12".
Proof. apply (proj2 (sanitize_id_any_reports (lit "A-12") [] (lit "ID"))). reflexivity. Defined.

(** ** The verdict of the audit *)

(** X12. For a name that is not blank, the changed flag that
    [audit_filename] returns with a suggestion is set exactly when the
    suggestion differs from the stripped name. *)
Theorem changed_flag (name s : str) (notes : list str) (ch : bool) :
  nonempty (strip name) = true ->
  audit_filename name = Ret (Some s, notes, ch) ->
  ch = negb (str_eqb s (strip name)).
Proof.
  intros N H.
  destruct (audit_filename_shape name _ H) as [[N' _] | [E | [[_ R] | [_ [F _]]]]].
  - congruence.
  - discriminate E.
  - destruct R as (n0 & n & E & _). apply pair3_eq in E. destruct E as (E & _ & ->).
    apply some_eq in E. subst s. destruct (strip name); [discriminate N | reflexivity].
  - destruct F as (issues & idp & date & traw & hr & E & _). unfold finalize in E.
    destruct (finalize_stem issues (name_prefix name) idp date traw hr) as [stem n].
    apply verdict_eq in E. destruct E as (-> & _ & ->).
    rewrite name_original. reflexivity.
Qed.

Lemma changed_flag_witness :
  true = negb (str_eqb (lit "COR_20240115_Title_Rev1.pdf")
                 (strip (lit " COR_20240115_Title _Rev1.pdf"))).
Proof.
  apply (changed_flag (lit " COR_20240115_Title _Rev1.pdf")
           (lit "COR_20240115_Title_Rev1.pdf") []).
  - reflexivity.
  - vm_compute. reflexivity.
Defined.

(** X13. [audit_filename] returns no suggestion ([None], the skip
    verdict) only for a name that, once stripped, is not empty and begins
    with an exempt prefix; the notes are then empty and the flag unset. *)
Theorem skip_only_exempt (name : str) (notes : list str) (ch : bool) :
  audit_filename name = Ret (None, notes, ch) ->
  nonempty (strip name) = true
  /\ existsb (fun ig => startswith ig (strip name)) IGNORE_PREFIXES = true
  /\ notes = [] /\ ch = false.
Proof.
  intros H.
  assert (K : forall prefix v, rejected prefix v -> v = (None, notes, ch) -> False).
  { intros prefix v (n0 & n & E & _) E'. rewrite E in E'. discriminate E'. }
  revert H. unfold audit_filename.
  destruct (nonempty (strip name)) eqn:N; cbn [negb]; [| discriminate].
  destruct (existsb _ IGNORE_PREFIXES) eqn:X.
  { intros E. apply ret_eq, pair3_eq in E. destruct E as (_ & <- & <-). auto. }
  destruct (tokenize name) as [[c tokens] issues].
  destruct tokens as [|prefix [|t1 tokens]]; cbn [List.length Nat.ltb Nat.leb];
    try (intros H; exfalso; exact (K prefix _ (reject_terminal1 prefix _ _ H) eq_refl)).
  - intros H. exfalso. exact (K [] _ (reject_terminal1 [] _ _ H) eq_refl).
  - cbn [index nth_error bind skipn].
    destruct (re_match PREFIX_RE prefix) as [m|] eqn:P; cbn [is_some negb];
      [| intros H; exfalso; exact (K prefix _ (reject_terminal1 prefix _ _ H) eq_refl)].
    intros H. exfalso. destruct (dispatch_shape _ _ _ _ _ H) as [R | F].
    + exact (K prefix _ R eq_refl).
    + destruct (finalized_nonempty _ _ m _ P F) as (x & t & n' & ch' & E). discriminate E.
Qed.

Lemma skip_only_exempt_witness :
  nonempty (strip (lit "RFI_0012.pdf")) = true
  /\ existsb (fun ig => startswith ig (strip (lit "RFI_0012.pdf"))) IGNORE_PREFIXES = true
  /\ @nil str = [] /\ false = false.
Proof.
  apply (skip_only_exempt (lit "RFI_0012.pdf") [] false). vm_compute. reflexivity.
Defined.

Lemma dispatch_TF_notes c rest issues s ch :
  dispatch c (lit "TF") rest issues = Ret (Some s, [], ch) -> nonempty s = true -> False.
Proof.
  intros H N.
  assert (Up : us_free (lit "TF")) by (unfold us_free; repeat constructor).
  unfold dispatch in H.
  change (str_eqb (lit "TF") "COR") with false in H.
  change (str_eqb (lit "TF") "QA") with false in H.
  change (str_eqb (lit "TF") "AU") with false in H.
  change (str_eqb (lit "TF") "FDM") with false in H.
  change (str_eqb (lit "TF") "TF") with true in H.
  cbv beta iota in H.
  destruct (branch_TF_total c (lit "TF") rest issues) as (tf & T). rewrite T in H.
  cbn [bind] in H. destruct tf as [v|].
  - apply ret_eq in H. subst v. exact (branch_TF_notes _ _ _ _ _ _ Up eq_refl T N).
  - change (mem (lit "TF") REQUIRES_ID_ANY) with true in H. cbv beta iota in H.
    exact (branch_TF_falls _ _ _ _ _ _ _ _ T H N).
Qed.

(** X14. A name with the prefix [TF] is never answered with a suggestion
    and an empty note list: whenever [audit_filename] suggests a name for
    it, at least one note comes with the suggestion. *)
Theorem tf_always_noted (name s : str) (notes : list str) (ch : bool) :
  name_prefix name = lit "TF" ->
  audit_filename name = Ret (Some s, notes, ch) -> nonempty s = true ->
  notes <> [].
Proof.
  intros P H N E. subst notes.
  destruct (audit_filename_dispatch name s [] ch H N) as (rest & m & _ & _ & D).
  rewrite P in D. exact (dispatch_TF_notes _ _ _ _ _ D N).
Qed.

Lemma tf_always_noted_witness : [note_tf_no_form] <> [].
Proof.
  apply (tf_always_noted (lit "TF_20240310_SiteMap_Rev1.pdf")
           (lit "TF_20240310_SiteMap_Rev1.pdf") [note_tf_no_form] false).
  - vm_compute. reflexivity.
  - vm_compute. reflexivity.
  - reflexivity.
Defined.

(** ** The characters of a suggestion *)

Lemma sanitize_id_any_str (raw : str) (notes : list str) (label : str) :
  title_str (fst (sanitize_id_any raw notes label)).
Proof.
  unfold sanitize_id_any.
  destruct (has_chr " " raw); cbv beta iota;
    (match goal with
     | |- context [if has_chr ?a ?b then _ else _] => destruct (has_chr a b)
     end; cbv beta iota);
    rewrite re_sub_Chr; cbn [fst]; apply title_str_filter.
Qed.

Lemma replace_chr_title (s : str) : title_str s -> title_str (replace_chr "_" "" s).
Proof.
  unfold title_str, replace_chr. induction 1 as [|c s Hc _ IH]; cbn [flat_map]; [constructor|].
  destruct (chr_eqb c "_"); cbn [app lit list_ascii_of_string]; [exact IH|].
  constructor; assumption.
Qed.

Lemma id_clean_none : title_str (as_str (id_clean_of None)).
Proof. constructor. Qed.

Lemma id_clean_some (i : str) : title_str i -> title_str (as_str (id_clean_of (Some i))).
Proof.
  intros T. unfold id_clean_of. destruct (truthy (Some i)); cbn [as_str]; [| constructor].
  apply replace_chr_title. exact T.
Qed.

Lemma normalize_csi_str (token : str) (csi cnote : option str) :
  normalize_csi token = (csi, cnote) -> title_str (as_str (id_clean_of csi)).
Proof.
  intros H. destruct csi as [c|]; [| exact id_clean_none].
  apply id_clean_some.
  assert (K : strip c = c
              /\ is_some (re_match RE_CSI3 c) || is_some (re_match RE_CSI4 c) = true).
  { revert H. unfold normalize_csi.
    destruct (nonempty (strip token)) eqn:N; cbn [negb]; [| discriminate].
    destruct (is_some (re_match RE_CSI3 (strip token))
              || is_some (re_match RE_CSI4 (strip token))) eqn:M.
    { intros E. apply pair_eq in E. destruct E as [E _]. apply some_eq in E. subst c.
      rewrite strip_idem. auto. }
    pose proof (csi_digits (strip token)) as A.
    set (digits := re_sub (Chr (fun c => negb (is_digit c))) "" (strip token)) in *.
    destruct (List.length digits =? 6) eqn:L6.
    { intros E. apply pair_eq in E. destruct E as [E _]. apply some_eq in E. subst c.
      destruct (csi3_canonical digits A) as (S & _ & X); [apply Nat.eqb_eq; exact L6 | auto]. }
    destruct (List.length digits =? 8) eqn:L8.
    { intros E. apply pair_eq in E. destruct E as [E _]. apply some_eq in E. subst c.
      destruct (csi4_canonical digits A) as (S & _ & X); [apply Nat.eqb_eq; exact L8 | auto]. }
    cbn [orb]. rewrite andb_false_r. discriminate. }
  destruct K as [S M]. apply orb_true_iff in M. rewrite <- S in *. destruct M as [M | M].
  - destruct (re_match RE_CSI3 (strip c)) as [m|] eqn:E; [| discriminate M].
    exact (csi3_title c m E).
  - destruct (re_match RE_CSI4 (strip c)) as [m|] eqn:E; [| discriminate M].
    exact (csi4_title c m E).
Qed.

Lemma sanitize_ids_str (id_tokens : list str) :
  forall issues, Forall title_str (fst (sanitize_ids id_tokens issues)).
Proof.
  induction id_tokens as [|t ts IH]; intros issues; cbn [sanitize_ids]; [constructor|].
  pose proof (sanitize_id_any_str t issues "ID") as T.
  destruct (sanitize_id_any t issues "ID") as [t' iss]. cbn [fst] in T.
  specialize (IH iss). destruct (sanitize_ids ts iss) as [ts' iss']. cbn [fst] in *.
  constructor; assumption.
Qed.

Lemma join_dash_title (parts : list str) :
  Forall title_str parts -> title_str (join "-" parts).
Proof.
  induction 1 as [|w ws Hw _ IH]; [constructor|].
  destruct ws as [|w2 ws]; [exact Hw|].
  rewrite join_cons by reflexivity. apply Forall_app. split; [exact Hw|].
  apply Forall_app. split; [| exact IH]. constructor; [reflexivity | constructor].
Qed.

Lemma Forall_filter_str (P : str -> Prop) (f : str -> bool) (l : list str) :
  Forall P l -> Forall P (filter f l).
Proof.
  intros H. apply Forall_forall. intros x Hx. apply filter_In in Hx.
  rewrite Forall_forall in H. apply H. tauto.
Qed.

Lemma finalized_id_intro (c : ctx) (prefix : str) issues id_part date_token title_raw v :
  digits_n 8 date_token -> title_str (as_str (id_clean_of id_part)) ->
  Ret (finalize c issues prefix id_part date_token title_raw None) = Ret v ->
  finalized_id c prefix v.
Proof.
  intros D T E. apply ret_eq in E. subst v. do 5 eexists.
  split; [reflexivity|]. split; [exact D|]. split; [exact no_hard_rev | exact T].
Qed.

Ltac id_fact :=
  first [ exact id_clean_none
        | apply id_clean_some; assumption
        | eapply normalize_csi_str; eassumption
        | apply id_clean_some, join_dash_title, Forall_filter_str; assumption ].

Ltac date_fact :=
  first [ eapply need_date_ok; eassumption | eapply first_date_found; eassumption ].

Ltac idshape_step H :=
  match type of H with
  | reject _ [note_terminal] = Ret _ => left; exact (reject_terminal1 _ _ _ H)
  | reject _ [_; note_terminal] = Ret _ => left; exact (reject_terminal2 _ _ _ _ H)
  | Ret (finalize _ _ _ _ _ _ None) = Ret _ =>
      right; refine (finalized_id_intro _ _ _ _ _ _ _ _ _ H); [date_fact | id_fact]
  | context [need_date ?t ?i] =>
      let d := fresh "d" in let ok := fresh "ok" in let iss := fresh "iss" in
      let E := fresh "E" in
      destruct (need_date_total t i) as ([[d ok] iss] & E); rewrite E in H; cbn [bind] in H
  | context [first_date ?t ?i ?iss] =>
      let f := fresh "found" in let iss' := fresh "iss" in let E := fresh "E" in
      destruct (first_date_total t i iss) as ([f iss'] & E); rewrite E in H; cbn [bind] in H
  | context [sanitize_id_any ?a ?b ?c] =>
      let T := fresh "T" in
      pose proof (sanitize_id_any_str a b c) as T;
      destruct (sanitize_id_any a b c); cbn [fst] in T
  | context [sanitize_ids ?a ?b] =>
      let T := fresh "T" in
      pose proof (sanitize_ids_str a b) as T;
      destruct (sanitize_ids a b); cbn [fst] in T
  | context [normalize_csi ?a] =>
      let Ec := fresh "Ec" in destruct (normalize_csi a) eqn:Ec
  | context [if negb ?b then _ else _] => is_var b; destruct b
  | context [if ?b then _ else _] => destruct b
  | context [match ?x with Some _ => _ | None => _ end] => destruct x
  | context [match ?x with (_, _) => _ end] => destruct x
  | context [match ?x with O => _ | S _ => _ end] => destruct x
  end.

Ltac idshape_branch H :=
  cbn [nonempty_list negb List.length Nat.ltb Nat.leb index nth_error bind] in H;
  repeat (idshape_step H;
          cbn [nonempty_list negb List.length Nat.ltb Nat.leb index nth_error bind] in H).

Lemma branch_COR_id c prefix rest issues v :
  branch_COR c prefix rest issues = Ret v -> rejected prefix v \/ finalized_id c prefix v.
Proof. unfold branch_COR. intros H. idshape_branch H. Qed.

Lemma branch_FDM_id c prefix rest issues v :
  branch_FDM c prefix rest issues = Ret v -> rejected prefix v \/ finalized_id c prefix v.
Proof. unfold branch_FDM. intros H. idshape_branch H. Qed.

Lemma branch_QA_id c prefix rest issues v :
  branch_QA c prefix rest issues = Ret v -> rejected prefix v \/ finalized_id c prefix v.
Proof. unfold branch_QA. intros H. destruct rest as [|r0 [|r1 t]]; idshape_branch H. Qed.

Lemma branch_AU_id c prefix rest issues v :
  branch_AU c prefix rest issues = Ret v -> rejected prefix v \/ finalized_id c prefix v.
Proof. unfold branch_AU. intros H. destruct rest as [|r0 [|r1 t]]; idshape_branch H. Qed.

Lemma branch_ID_ANY_id c prefix rest issues v :
  branch_ID_ANY c prefix rest issues = Ret v -> rejected prefix v \/ finalized_id c prefix v.
Proof. unfold branch_ID_ANY. intros H. destruct rest as [|r0 [|r1 t]]; idshape_branch H. Qed.

Lemma branch_CSI_optional_id o c prefix rest issues v :
  branch_CSI_optional o c prefix rest issues = Ret v ->
  rejected prefix v \/ finalized_id c prefix v.
Proof.
  unfold branch_CSI_optional. intros H. destruct rest as [|r0 [|r1 t]]; idshape_branch H.
Qed.

Lemma branch_RE_id c prefix rest issues v :
  branch_RE c prefix rest issues = Ret v -> rejected prefix v \/ finalized_id c prefix v.
Proof. unfold branch_RE. intros H. destruct rest as [|r0 [|r1 t]]; idshape_branch H. Qed.

Lemma branch_STANDARD_id c prefix rest issues v :
  branch_STANDARD c prefix rest issues = Ret v -> rejected prefix v \/ finalized_id c prefix v.
Proof. unfold branch_STANDARD. intros H. destruct rest as [|r0 [|r1 t]]; idshape_branch H. Qed.

Lemma finalized_id_intro_some (c : ctx) (prefix : str) issues id_part date_token title_raw
    hard_rev v :
  digits_n 8 date_token -> (forall r, hard_rev = Some r -> canon_rev r) ->
  title_str (as_str (id_clean_of id_part)) ->
  Ret (Some (finalize c issues prefix id_part date_token title_raw hard_rev)) = Ret (Some v) ->
  finalized_id c prefix v.
Proof.
  intros D R T E. apply ret_eq, some_eq in E. subst v. do 5 eexists.
  split; [reflexivity|]. auto.
Qed.

Lemma branch_TF_id c prefix rest issues v :
  branch_TF c prefix rest issues = Ret (Some v) ->
  rejected prefix v \/ finalized_id c prefix v.
Proof.
  unfold branch_TF. intros H.
  destruct rest as [|r0 [|r1 t]];
    cbn [nonempty_list negb List.length Nat.ltb Nat.leb index nth_error bind] in H;
    repeat (match type of H with
            | bind (reject ?i ?n) _ = _ =>
                left; apply (reject_terminal1 prefix i); unfold reject in *;
                cbn [bind] in H; congruence
            | Ret (Some (finalize _ _ _ _ _ _ (Some _))) = Ret (Some _) =>
                right;
                match type of H with
                | context [nonempty (match ?M with Some _ => _ | None => _ end)] =>
                    let S := fresh "S" in
                    assert (S : forall m', M = Some m' ->
                                exists a0 i s', match_here REV_ANY_INFIX a0 i s' = Some m'
                                                \/ match_here EMBEDDED_REV a0 i s' = Some m')
                      by (intros m' Hm;
                          match type of Hm with
                          | context [re_search REV_ANY_INFIX ?t] => exact (tf_search t m' Hm)
                          end);
                    let mm := fresh "mm" in
                    set (mm := M) in *; clearbody mm;
                    refine (finalized_id_intro_some _ _ _ _ _ _ _ _ _
                              (some_canon _ (tf_hard_rev mm true 0 [] S)) id_clean_none H);
                    eapply need_date_ok; eassumption
                end
            | Ret (Some (finalize _ _ _ _ _ _ None)) = Ret (Some _) =>
                right;
                refine (finalized_id_intro_some _ _ _ _ _ _ _ _ _ no_hard_rev id_clean_none H);
                eapply need_date_ok; eassumption
            | Ret None = Ret (Some _) => discriminate H
            | (if ?b then _ else _) = _ => is_var b; destruct b
            | _ => idshape_step H
            end;
            cbn [nonempty_list negb List.length Nat.ltb Nat.leb index nth_error bind] in H).
Qed.

Ltac csi_id_leaf H M :=
  match type of H with
  | reject _ [note_missing_csi] = Ret _ =>
      left; apply (reject_csi _ _ _ _ M (or_introl eq_refl) H)
  | reject _ [note_invalid_csi] = Ret _ =>
      left; apply (reject_csi _ _ _ _ M (or_intror (or_introl eq_refl)) H)
  | reject _ [note_bad_date] = Ret _ =>
      left; apply (reject_csi _ _ _ _ M (or_intror (or_intror (or_introl eq_refl))) H)
  | _ => idshape_step H
  end.

Lemma branch_CSI_id c prefix rest issues v :
  mem prefix REQUIRES_CSI = true ->
  branch_CSI c prefix rest issues = Ret v -> rejected prefix v \/ finalized_id c prefix v.
Proof.
  intros M. unfold branch_CSI. intros H.
  destruct rest as [|r0 [|r1 t]];
    cbn [nonempty_list negb List.length Nat.ltb Nat.leb index nth_error bind] in H;
    repeat (csi_id_leaf H M;
            cbn [nonempty_list negb List.length Nat.ltb Nat.leb index nth_error bind] in H).
Qed.

Lemma dispatch_id c prefix rest issues v :
  dispatch c prefix rest issues = Ret v -> rejected prefix v \/ finalized_id c prefix v.
Proof.
  unfold dispatch.
  destruct (str_eqb prefix "COR"); [apply branch_COR_id|].
  destruct (str_eqb prefix "QA"); [apply branch_QA_id|].
  destruct (str_eqb prefix "AU"); [apply branch_AU_id|].
  destruct (str_eqb prefix "FDM"); [apply branch_FDM_id|].
  destruct (branch_TF_total c prefix rest issues) as (tf0 & T0).
  assert (T : exists tf, (if str_eqb prefix "TF" then branch_TF c prefix rest issues
                          else Ret None) = Ret tf
                         /\ (forall v', tf = Some v' ->
                               rejected prefix v' \/ finalized_id c prefix v')).
  { destruct (str_eqb prefix "TF").
    - exists tf0. split; [exact T0|]. intros v' E. subst tf0.
      apply (branch_TF_id c prefix rest issues v' T0).
    - exists None. split; [reflexivity | discriminate]. }
  destruct T as (tf & T & Tsh). rewrite T. cbn [bind].
  destruct tf as [v'|].
  { intros E. apply ret_eq in E. subst v'. apply Tsh. reflexivity. }
  destruct (mem prefix REQUIRES_ID_ANY); [apply branch_ID_ANY_id|].
  destruct (mem prefix REQUIRES_CSI) eqn:M; [apply branch_CSI_id; exact M|].
  destruct (str_eqb prefix "PN"); [apply branch_CSI_optional_id|].
  destruct (str_eqb prefix "SP"); [apply branch_CSI_optional_id|].
  destruct (str_eqb prefix "WR"); [apply branch_CSI_optional_id|].
  destruct (str_eqb prefix "RE"); [apply branch_RE_id|].
  destruct (mem prefix STANDARD_PREFIXES); [apply branch_STANDARD_id|].
  intros H. left. exact (reject_terminal1 _ _ _ H).
Qed.

Lemma known_prefix_upper (prefix : str) :
  known_prefix prefix = true -> forallb is_upper prefix = true.
Proof.
  unfold known_prefix. intros K.
  repeat (apply orb_true_iff in K; destruct K as [K | K]);
    first [ discriminate K | apply str_eqb_eq in K; subst prefix; reflexivity ].
Qed.

Lemma stem_chr_title (s : str) : title_str s -> forallb stem_chr s = true.
Proof.
  intros T. apply forallb_forall. intros c Hc. unfold title_str in T.
  rewrite Forall_forall in T. specialize (T c Hc). unfold not_title_chr in T.
  apply negb_false_iff in T. unfold stem_chr. rewrite T. reflexivity.
Qed.

Lemma stem_chr_join (parts : list str) :
  Forall (fun w => forallb stem_chr w = true) parts ->
  forallb stem_chr (join "_" parts) = true.
Proof.
  induction 1 as [|w ws Hw _ IH]; [reflexivity|].
  destruct ws as [|w2 ws]; [exact Hw|].
  rewrite join_cons by reflexivity. rewrite !forallb_app, Hw, IH. reflexivity.
Qed.

Lemma canon_rev_stem (r : str) : canon_rev r -> forallb stem_chr r = true.
Proof.
  intros (ds & -> & Dg & _).
  change (lit "Rev" ++ ds) with ("R"%char :: "e"%char :: "v"%char :: ds).
  cbn [forallb]. change (stem_chr "R") with true. change (stem_chr "e") with true.
  change (stem_chr "v") with true. cbn [andb].
  exact (stem_chr_title ds (digits_title_str ds Dg)).
Qed.

(** X15. A non-empty suggestion of [audit_filename] is a stem followed by
    the extension of the name as it was given, and the stem holds only
    letters, digits, hyphens and underscores. *)
Theorem suggestion_chars (name s : str) (notes : list str) (ch : bool) :
  audit_filename name = Ret (Some s, notes, ch) -> nonempty s = true ->
  exists stem, s = stem ++ name_ext name /\ forallb stem_chr stem = true.
Proof.
  intros H N.
  destruct (audit_filename_dispatch name s notes ch H N) as (rest & m & _ & Pm & D).
  destruct (prefix_match_us_free _ m Pm) as [Up Np].
  assert (K : known_prefix (name_prefix name) = true).
  { destruct (known_prefix (name_prefix name)) eqn:K; [reflexivity|].
    rewrite (dispatch_unknown _ _ _ _ K) in D. rejected_absurd D N. }
  destruct (dispatch_id _ _ _ _ _ D) as [R | F].
  { apply rejected_empty in R. subst s. discriminate N. }
  destruct F as (issues & idp & date & traw & hr & E & Dd & Hr & Ti).
  destruct (finalize_stem_unfold issues (name_prefix name) idp date traw hr Up Np Dd Hr)
    as (tnr & rn & iss1 & title0 & iss2 & title & iss3 & _ & _ & _ & Ef & Cr & T0 & (k & Kt)).
  cbv zeta in *. unfold finalize in E. rewrite Ef in E.
  apply verdict_eq in E. destruct E as (Es & _ & _).
  eexists. split; [exact Es|].
  apply stem_chr_join. unfold fields.
  assert (A : forall w, title_str w -> forallb stem_chr w = true) by exact stem_chr_title.
  assert (Pu : forallb stem_chr (name_prefix name) = true).
  { pose proof (known_prefix_upper _ K) as U. rewrite forallb_forall in *.
    intros c Hc. specialize (U c Hc). unfold stem_chr, is_alnum, is_alpha. rewrite U.
    reflexivity. }
  assert (Tt : title_str title) by (rewrite Kt; apply Forall_firstn_str; exact T0).
  apply Forall_app. split; [constructor; [exact Pu | constructor]|].
  apply Forall_app. split.
  { destruct (truthy (id_clean_of idp)); [| constructor].
    constructor; [exact (A _ Ti) | constructor]. }
  apply Forall_app. split.
  { constructor; [exact (A _ (digits_title_str _ (proj1 Dd))) | constructor]. }
  apply Forall_app. split.
  { destruct (nonempty title); [| constructor]. constructor; [exact (A _ Tt) | constructor]. }
  constructor; [exact (canon_rev_stem _ Cr) | constructor].
Qed.

Lemma suggestion_chars_witness :
  exists stem,
    lit "AU_A1_20240101_TitleandMore_Rev3.pdf"
    = stem ++ name_ext (lit "AU_A 1_2024-01-01_Title & More_rev 3.pdf")
    /\ forallb stem_chr stem = true.
Proof.
  apply (suggestion_chars (lit "AU_A 1_2024-01-01_Title & More_rev 3.pdf")
           (lit "AU_A1_20240101_TitleandMore_Rev3.pdf")
           (snd (fst (match audit_filename (lit "AU_A 1_2024-01-01_Title & More_rev 3.pdf")
                      with Ret v => v | Raise _ => (None, [], false) end)))
           true).
  - vm_compute. reflexivity.
  - reflexivity.
Defined.

(** * The verdict, family by family *)

(** ** Rejections *)

Lemma reject_ret (issues ns : list str) : reject issues ns = Ret (Some [], issues ++ ns, true).
Proof. unfold reject. rewrite assemble_decision_None. reflexivity. Qed.

Lemma finalize_head (c : ctx) (issues : list str) (prefix : str) (m : rmatch)
    (id_part : option str) (date title_raw : str) (hard_rev : option str) :
  re_match PREFIX_RE prefix = Some m ->
  exists x w n ch,
    finalize c issues prefix id_part date title_raw hard_rev = (Some (x :: w), n, ch).
Proof.
  intros Hp. destruct (prefix_match_upper prefix m Hp) as (x & p & Ep & U). subst prefix.
  destruct (finalize_stem_head issues x p id_part date title_raw hard_rev U) as (t & Et).
  unfold finalize.
  destruct (finalize_stem issues (x :: p) id_part date title_raw hard_rev) as [stem notes].
  cbn [fst] in Et. subst stem. cbn [app]. eauto.
Qed.

(** A prefix of the CSI-required family has the shape of a prefix and
    belongs to no family that the dispatcher tests before. *)
Lemma csi_prefix_facts (prefix : str) :
  mem prefix REQUIRES_CSI = true ->
  (exists m, re_match PREFIX_RE prefix = Some m)
  /\ str_eqb prefix "COR" = false /\ str_eqb prefix "QA" = false
  /\ str_eqb prefix "AU" = false /\ str_eqb prefix "FDM" = false
  /\ str_eqb prefix "TF" = false /\ mem prefix REQUIRES_ID_ANY = false.
Proof.
  unfold mem, REQUIRES_CSI, strs. cbn [map existsb]. intros K.
  repeat (apply orb_true_iff in K; destruct K as [K | K]);
    first [ discriminate K
          | apply str_eqb_eq in K; subst prefix;
            split; [eexists; vm_compute; reflexivity | repeat split; vm_compute; reflexivity] ].
Qed.

Lemma dispatch_CSI (c : ctx) (prefix : str) (rest issues : list str) :
  mem prefix REQUIRES_CSI = true ->
  dispatch c prefix rest issues = branch_CSI c prefix rest issues.
Proof.
  intros M. destruct (csi_prefix_facts prefix M) as (_ & E1 & E2 & E3 & E4 & E5 & E6).
  unfold dispatch. rewrite E1, E2, E3, E4, E5. cbn [bind]. rewrite E6, M. reflexivity.
Qed.

(** The CSI-required branch rejects with one of its three notes, never
    with the terminal note. *)
Lemma branch_CSI_rejects c prefix (m : rmatch) rest issues notes ch :
  re_match PREFIX_RE prefix = Some m ->
  branch_CSI c prefix rest issues = Ret (Some [], notes, ch) ->
  exists notes0 n,
    notes = notes0 ++ [n] /\ In n [note_missing_csi; note_invalid_csi; note_bad_date].
Proof.
  intros Pm H. unfold branch_CSI in H.
  destruct rest as [|r0 [|r1 t]];
    cbn [nonempty_list negb List.length Nat.ltb Nat.leb index nth_error bind] in H;
    repeat (match type of H with
            | reject ?i [?n] = Ret _ =>
                rewrite reject_ret in H; apply ret_eq, verdict_eq in H;
                destruct H as (_ & <- & _); exists i, n; split; [reflexivity|]; cbn [In]; tauto
            | Ret (finalize ?c ?i ?p ?idp ?d ?t ?h) = Ret _ =>
                exfalso; apply ret_eq in H;
                let F := fresh "F" in
                destruct (finalize_head c i p m idp d t h Pm) as (? & ? & ? & ? & F);
                rewrite F in H; discriminate H
            | _ => shape_step H
            end;
            cbn [nonempty_list negb List.length Nat.ltb Nat.leb index nth_error bind] in H).
Qed.

(** C3, as the specification states it, fails on the CSI-required family:
    [CA_x.pdf] is rejected with the single note "Missing CSI section.",
    which is not the terminal message. *)
Lemma csi_rejection_not_terminal :
  audit_filename (lit "CA_x.pdf") = Ret (Some [], [note_missing_csi], true)
  /\ last [note_missing_csi] [] <> note_terminal.
Proof. split; [vm_compute; reflexivity | vm_compute; discriminate]. Qed.

(** C3, amended. When [audit_filename] answers a non-blank name with the
    empty suggestion, the changed flag is set and the notes are not empty.
    For a name of at least two tokens whose prefix is of the CSI-required
    family, the last note is "Missing CSI section.", "Invalid CSI-Section
    ..." or "Invalid or missing date.", and it is not the terminal message;
    for every other name the last note is the terminal message "Does not
    follow CTA file naming convention.". *)
Theorem noncompliant_notes (name : str) (notes : list str) (ch : bool) :
  nonempty (strip name) = true ->
  audit_filename name = Ret (Some [], notes, ch) ->
  ch = true
  /\ exists notes0 n,
       notes = notes0 ++ [n]
       /\ if mem (name_prefix name) REQUIRES_CSI && (2 <=? List.length (name_tokens name))
          then In n [note_missing_csi; note_invalid_csi; note_bad_date] /\ n <> note_terminal
          else n = note_terminal.
Proof.
  intros N. unfold audit_filename, name_prefix, name_tokens. rewrite N. cbn [negb].
  destruct (existsb _ IGNORE_PREFIXES); [discriminate|].
  destruct (tokenize name) as [[c tokens] issues]. cbn [fst snd].
  assert (T : forall iss, reject iss [note_terminal] = Ret (Some [], notes, ch) ->
              ch = true /\ exists notes0 n, notes = notes0 ++ [n] /\ n = note_terminal).
  { intros iss H. rewrite reject_ret in H. apply ret_eq, verdict_eq in H.
    destruct H as (_ & <- & <-). split; [reflexivity|]. eauto. }
  destruct tokens as [|prefix [|t1 tokens]]; cbn [List.length Nat.ltb Nat.leb hd].
  - intros H. rewrite andb_false_r. exact (T _ H).
  - intros H. rewrite andb_false_r. exact (T _ H).
  - cbn [index nth_error bind skipn]. rewrite andb_true_r.
    destruct (mem prefix REQUIRES_CSI) eqn:M.
    + destruct (csi_prefix_facts prefix M) as ((m & Pm) & _). rewrite Pm. cbn [is_some negb].
      rewrite (dispatch_CSI _ _ _ _ M). intros H.
      assert (C : ch = true).
      { destruct (branch_CSI_shape _ _ _ _ _ M H) as [(n0 & n & E & _) | F].
        - apply verdict_eq in E. tauto.
        - destruct (finalized_nonempty _ _ m _ Pm F) as (x & t & n' & ch' & E). discriminate E. }
      split; [exact C|].
      destruct (branch_CSI_rejects _ _ m _ _ _ _ Pm H) as (n0 & n & E & I).
      exists n0, n. split; [exact E|]. split; [exact I|].
      cbn [In] in I. destruct I as [<- | [<- | [<- | []]]]; vm_compute; discriminate.
    + destruct (re_match PREFIX_RE prefix) as [m|] eqn:Pm; cbn [is_some negb];
        [| intros H; exact (T _ H)].
      intros H. destruct (dispatch_shape _ _ _ _ _ H) as [(n0 & n & E & D) | F].
      * apply verdict_eq in E. destruct E as (_ & -> & ->). split; [reflexivity|].
        exists n0, n. split; [reflexivity|].
        destruct D as [D | [D _]]; [exact D | rewrite M in D; discriminate D].
      * destruct (finalized_nonempty _ _ m _ Pm F) as (x & t & n' & ch' & E). discriminate E.
Qed.

Lemma noncompliant_notes_witness :
  true = true
  /\ exists notes0 n,
       [note_missing_csi] = notes0 ++ [n]
       /\ if mem (name_prefix (lit "CA_x.pdf")) REQUIRES_CSI
             && (2 <=? List.length (name_tokens (lit "CA_x.pdf")))
          then In n [note_missing_csi; note_invalid_csi; note_bad_date] /\ n <> note_terminal
          else n = note_terminal.
Proof.
  apply (noncompliant_notes (lit "CA_x.pdf") [note_missing_csi] true).
  - vm_compute. reflexivity.
  - vm_compute. reflexivity.
Defined.


(** ** The arguments of [finalize] *)

Lemma need_date_eq (tok : str) (issues : list str) :
  exists iss,
    need_date (Some tok) issues = Ret (date_of tok, is_some (date_of tok), iss).
Proof.
  unfold need_date, date_of. cbn [truthy as_str].
  destruct (nonempty tok) eqn:N; cbn [negb].
  - destruct (try_normalize_date_total tok) as ([d note] & E). rewrite E. cbn [bind].
    destruct d as [d|]; cbn [truthy is_some]; [| eauto].
    pose proof (try_normalize_date_sound _ _ _ E) as D.
    rewrite (proj2 (digits_n_8_facts _ D)). cbn [is_some]. eauto.
  - destruct tok; [| discriminate N]. exists issues. reflexivity.
Qed.

Lemma need_date_None (issues : list str) : need_date None issues = Ret (None, false, issues).
Proof. reflexivity. Qed.

Lemma first_date_eq (rest : list str) :
  forall i issues,
  exists iss,
    first_date rest i issues
    = Ret (match first_date_of rest i with
           | Some (k, d) => Some (k, Some d)
           | None => None
           end, iss).
Proof.
  induction rest as [|tok t IH]; intros i issues; cbn [first_date first_date_of].
  - eauto.
  - destruct (need_date_eq tok issues) as (iss & E). rewrite E. cbn [bind].
    destruct (date_of tok) as [d|]; cbn [is_some]; [eauto | apply IH].
Qed.

Lemma date_of_digits (tok d : str) : date_of tok = Some d -> digits_n 8 d.
Proof.
  unfold date_of. destruct (try_normalize_date tok) as [[[d'|] note]|] eqn:E; try discriminate.
  destruct (nonempty d'); [| discriminate]. intros K. apply some_eq in K. subst d'.
  exact (try_normalize_date_sound _ _ _ E).
Qed.

Lemma first_date_of_digits (rest : list str) :
  forall i k d, first_date_of rest i = Some (k, d) -> digits_n 8 d.
Proof.
  induction rest as [|tok t IH]; intros i k d; cbn [first_date_of]; [discriminate|].
  destruct (date_of tok) as [d'|] eqn:E; [| apply IH].
  intros K. apply some_eq, pair_eq in K. destruct K as [_ <-]. exact (date_of_digits _ _ E).
Qed.

Lemma ends_reject c prefix issues ns v :
  reject issues ns = Ret v -> ends_with c prefix v None.
Proof. rewrite reject_ret. intros E. apply ret_eq in E. subst v. cbn. eauto. Qed.

Lemma ends_finalize c prefix issues id_part date title_raw hard_rev v :
  Ret (finalize c issues prefix id_part date title_raw hard_rev) = Ret v ->
  ends_with c prefix v (Some (id_part, date, title_raw, hard_rev)).
Proof. intros E. apply ret_eq in E. subst v. cbn. eauto. Qed.

(** Follows a branch and its reading side by side. *)
Ltac asm_step H :=
  match type of H with
  | reject _ _ = Ret _ => exact (ends_reject _ _ _ _ _ H)
  | Ret (finalize _ _ _ _ _ _ _) = Ret _ => exact (ends_finalize _ _ _ _ _ _ _ _ H)
  | context [need_date (Some ?t) ?i] =>
      let iss := fresh "iss" in let E := fresh "E" in
      destruct (need_date_eq t i) as (iss & E); rewrite E in H; clear E; cbn [bind] in H;
      destruct (date_of t); cbn [is_some] in H
  | context [need_date None ?i] => rewrite need_date_None in H; cbn [bind] in H
  | context [first_date ?t ?i ?iss] =>
      let iss' := fresh "iss" in let E := fresh "E" in
      destruct (first_date_eq t i iss) as (iss' & E); rewrite E in H; clear E; cbn [bind] in H;
      destruct (first_date_of t i) as [[? ?]|]
  | context [match ?x with O => _ | S _ => _ end] => is_var x; destruct x
  end.

Ltac asm_branch H :=
  cbn [nonempty_list negb List.length Nat.ltb Nat.leb index nth_error bind is_some] in H |- *;
  repeat (asm_step H;
          cbn [nonempty_list negb List.length Nat.ltb Nat.leb index nth_error bind is_some]
            in H |- *).

Lemma sanitize_id_any_fst (raw : str) (notes : list str) (label label' : str) :
  fst (sanitize_id_any raw notes label) = fst (sanitize_id_any raw [] label').
Proof.
  unfold sanitize_id_any.
  destruct (has_chr " " raw); cbv beta iota;
    match goal with |- context [has_chr "_" ?s] => destruct (has_chr "_" s) end;
    reflexivity.
Qed.

Lemma sanitize_ids_fst (toks : list str) (notes : list str) :
  fst (sanitize_ids toks notes) = fst (sanitize_ids toks []).
Proof.
  revert notes. induction toks as [|t ts IH]; intros notes; cbn [sanitize_ids]; [reflexivity|].
  pose proof (sanitize_id_any_fst t notes "ID" "ID") as A.
  destruct (sanitize_id_any t notes "ID") as [t1 n1].
  destruct (sanitize_id_any t [] "ID") as [t2 n2]. cbn [fst] in A. subst t2.
  pose proof (IH n1) as B. pose proof (IH n2) as B'.
  destruct (sanitize_ids ts n1) as [a1 m1]. destruct (sanitize_ids ts n2) as [a2 m2].
  destruct (sanitize_ids ts []) as [a3 m3]. cbn [fst] in *. congruence.
Qed.

Lemma branch_COR_ends c prefix rest issues v :
  branch_COR c prefix rest issues = Ret v ->
  ends_with c prefix v
    (match first_date_of rest 0 with
     | Some (i, d) => Some (None, d, title_from (i + 1) rest, None)
     | None => None
     end).
Proof. unfold branch_COR. intros H. asm_branch H. Qed.

Lemma branch_RE_ends c prefix rest issues v :
  branch_RE c prefix rest issues = Ret v -> ends_with c prefix v (date_first rest).
Proof.
  unfold branch_RE, date_first. intros H. destruct rest as [|r0 t]; asm_branch H.
Qed.

Lemma branch_STANDARD_ends c prefix rest issues v :
  branch_STANDARD c prefix rest issues = Ret v -> ends_with c prefix v (date_first rest).
Proof.
  unfold branch_STANDARD, date_first. intros H. destruct rest as [|r0 t]; asm_branch H.
Qed.

Lemma branch_AU_ends c prefix rest issues v :
  branch_AU c prefix rest issues = Ret v ->
  ends_with c prefix v (id_required (clean_any "Audit-ID") rest).
Proof.
  unfold branch_AU, id_required, id_first, clean_any. intros H.
  destruct rest as [|r0 [|r1 t]]; asm_branch H.
  pose proof (sanitize_id_any_fst r0 iss "Audit-ID" "Audit-ID") as Sf.
  destruct (sanitize_id_any r0 iss "Audit-ID") as [idp iss1]. cbn [fst] in Sf. rewrite <- Sf.
  asm_branch H.
Qed.

Lemma branch_ID_ANY_ends c prefix rest issues v :
  branch_ID_ANY c prefix rest issues = Ret v ->
  ends_with c prefix v (id_required (clean_any (id_label prefix)) rest).
Proof.
  unfold branch_ID_ANY, id_required, id_first, clean_any. intros H.
  destruct rest as [|r0 [|r1 t]]; asm_branch H.
  pose proof (sanitize_id_any_fst r0 iss (id_label prefix) (id_label prefix)) as Sf.
  destruct (sanitize_id_any r0 iss (id_label prefix)) as [idp iss1]. cbn [fst] in Sf.
  rewrite <- Sf. asm_branch H.
Qed.

Lemma branch_QA_ends c prefix rest issues v :
  branch_QA c prefix rest issues = Ret v ->
  ends_with c prefix v (id_optional (clean_any "QMS-ID") rest).
Proof.
  unfold branch_QA, id_optional, id_first, date_first, clean_any. intros H.
  destruct rest as [|r0 t]; asm_branch H.
  pose proof (sanitize_id_any_fst r0 iss "QMS-ID" "QMS-ID") as Sf.
  destruct (sanitize_id_any r0 iss "QMS-ID") as [idp iss1]. cbn [fst] in Sf. rewrite <- Sf.
  destruct t as [|r1 t]; asm_branch H.
Qed.

Lemma branch_CSI_ends c prefix rest issues v :
  branch_CSI c prefix rest issues = Ret v ->
  ends_with c prefix v (id_required clean_csi rest).
Proof.
  unfold branch_CSI, id_required, id_first, clean_csi. intros H.
  destruct rest as [|r0 [|r1 t]]; asm_branch H.
  destruct (normalize_csi r0) as [csi cnote]. cbn [fst].
  destruct (truthy csi) eqn:Tc; cbn [negb] in H.
  - destruct csi as [x|]; [| discriminate Tc]. cbn [is_some]. asm_branch H.
  - asm_branch H.
Qed.

Lemma branch_CSI_optional_ends o c prefix rest issues v :
  branch_CSI_optional o c prefix rest issues = Ret v ->
  ends_with c prefix v (id_optional clean_csi rest).
Proof.
  unfold branch_CSI_optional, id_optional, id_first, date_first, clean_csi. intros H.
  destruct rest as [|r0 t]; asm_branch H.
  destruct (normalize_csi r0) as [csi cnote]. cbn [fst].
  destruct (truthy csi) eqn:Tc.
  - destruct csi as [x|]; [| discriminate Tc]. cbn [is_some].
    destruct t as [|r1 t]; asm_branch H.
  - asm_branch H.
Qed.

Lemma branch_FDM_ends c prefix rest issues v :
  branch_FDM c prefix rest issues = Ret v ->
  ends_with c prefix v
    (match first_date_of rest 0 with
     | Some (S k, d) =>
         let id_tokens := firstn 2 (firstn (S k) rest) in
         if nonempty_list id_tokens then
           Some (Some (join "-" (filter nonempty (fst (sanitize_ids id_tokens [])))), d,
                 title_from (S k + 1) rest, None)
         else None
     | _ => None
     end).
Proof.
  unfold branch_FDM. intros H. asm_branch H. cbv zeta.
  destruct (nonempty_list (firstn 2 (firstn (S n) rest))); cbn [negb] in H; [| asm_branch H].
  pose proof (sanitize_ids_fst (firstn 2 (firstn (S n) rest)) iss) as Sf.
  destruct (sanitize_ids (firstn 2 (firstn (S n) rest)) iss) as [ids iss1]. cbn [fst] in Sf.
  rewrite <- Sf. asm_branch H.
Qed.


Lemma branch_TF_ends c prefix rest issues tfv :
  branch_TF c prefix rest issues = Ret tfv ->
  match tfv, tf_block rest with
  | Some v, Some a => ends_with c prefix v a
  | None, None => True
  | _, _ => False
  end.
Proof.
  unfold branch_TF, tf_block, tf_rev. intros H.
  destruct rest as [|r0 [|r1 t]];
    cbn [nonempty_list negb List.length Nat.ltb Nat.leb index nth_error bind is_some] in H |- *.
  - rewrite reject_ret in H. cbn [bind] in H. apply ret_eq in H. subst tfv. cbn. eauto.
  - destruct (need_date_eq r0 issues) as (iss & E). rewrite E in H. clear E. cbn [bind] in H.
    destruct (date_of r0); cbn [is_some] in H.
    + apply ret_eq in H. subst tfv. cbn. eauto.
    + apply ret_eq in H. subst tfv. exact I.
  - destruct (need_date_eq r0 issues) as (iss & E). rewrite E in H. clear E. cbn [bind] in H.
    destruct (date_of r0); cbn [is_some] in H.
    + apply ret_eq in H. subst tfv. cbn. eauto.
    + destruct (need_date_eq r1 iss) as (iss1 & E). rewrite E in H. clear E. cbn [bind] in H.
      destruct (date_of r1); cbn [is_some] in H.
      * apply ret_eq in H. subst tfv. cbn. eauto.
      * apply ret_eq in H. subst tfv. exact I.
Qed.

(** The dispatcher ends with a rejection or with the verdict of
    [finalize] on the arguments that [assembled] gives. *)
Lemma dispatch_ends c prefix rest issues v :
  dispatch c prefix rest issues = Ret v -> ends_with c prefix v (assembled prefix rest).
Proof.
  unfold dispatch, assembled.
  destruct (str_eqb prefix "COR"); [apply branch_COR_ends|].
  destruct (str_eqb prefix "QA"); [apply branch_QA_ends|].
  destruct (str_eqb prefix "AU"); [apply branch_AU_ends|].
  destruct (str_eqb prefix "FDM"); [apply branch_FDM_ends|].
  destruct (branch_TF_total c prefix rest issues) as (tf0 & T0).
  pose proof (branch_TF_ends _ _ _ _ _ T0) as Te.
  destruct (str_eqb prefix "TF").
  - rewrite T0. cbn [bind]. destruct tf0 as [v'|], (tf_block rest) as [a|]; try contradiction.
    + intros E. apply ret_eq in E. subst v'. exact Te.
    + destruct (mem prefix REQUIRES_ID_ANY); [apply branch_ID_ANY_ends|].
      destruct (mem prefix REQUIRES_CSI); [apply branch_CSI_ends|].
      destruct (str_eqb prefix "PN"); [apply branch_CSI_optional_ends|].
      destruct (str_eqb prefix "SP"); [apply branch_CSI_optional_ends|].
      destruct (str_eqb prefix "WR"); [apply branch_CSI_optional_ends|].
      destruct (str_eqb prefix "RE"); [apply branch_RE_ends|].
      destruct (mem prefix STANDARD_PREFIXES); [apply branch_STANDARD_ends|].
      apply ends_reject.
  - cbn [bind].
    destruct (mem prefix REQUIRES_ID_ANY); [apply branch_ID_ANY_ends|].
    destruct (mem prefix REQUIRES_CSI); [apply branch_CSI_ends|].
    destruct (str_eqb prefix "PN"); [apply branch_CSI_optional_ends|].
    destruct (str_eqb prefix "SP"); [apply branch_CSI_optional_ends|].
    destruct (str_eqb prefix "WR"); [apply branch_CSI_optional_ends|].
    destruct (str_eqb prefix "RE"); [apply branch_RE_ends|].
    destruct (mem prefix STANDARD_PREFIXES); [apply branch_STANDARD_ends|].
    apply ends_reject.
Qed.

(** A non-empty suggestion is the verdict of [finalize] on the arguments
    that [assembled] gives for the prefix of the name and the tokens after
    it. *)
Lemma audit_filename_assembled (name s : str) (notes : list str) (ch : bool) :
  audit_filename name = Ret (Some s, notes, ch) -> nonempty s = true ->
  exists m id_part date title_raw hard_rev issues,
    re_match PREFIX_RE (name_prefix name) = Some m
    /\ assembled (name_prefix name) (skipn 1 (name_tokens name))
       = Some (id_part, date, title_raw, hard_rev)
    /\ (Some s, notes, ch)
       = finalize (name_ctx name) issues (name_prefix name) id_part date title_raw hard_rev.
Proof.
  intros H N. revert H.
  unfold audit_filename, name_prefix, name_ctx, name_tokens.
  destruct (nonempty (strip name)); cbn [negb].
  2:{ intros E. apply ret_eq, verdict_eq in E. destruct E as (<- & _). discriminate N. }
  destruct (existsb _ IGNORE_PREFIXES); [discriminate|].
  destruct (tokenize name) as [[c tokens] issues]. cbn [fst snd].
  destruct tokens as [|prefix [|t1 tokens]]; cbn [List.length Nat.ltb Nat.leb hd];
    try (intros H; rejected_absurd H N).
  cbn [index nth_error bind skipn].
  destruct (re_match PREFIX_RE prefix) as [m|] eqn:P; cbn [is_some negb];
    [| intros H; rejected_absurd H N].
  intros H. pose proof (dispatch_ends _ _ _ _ _ H) as E.
  destruct (assembled prefix (t1 :: tokens)) as [[[[idp d] traw] hr]|]; cbn [ends_with] in E.
  - destruct E as (iss & E). exists m, idp, d, traw, hr, iss. auto.
  - destruct E as (n & E). apply verdict_eq in E. destruct E as (-> & _). discriminate N.
Qed.


(** ** The strings of [finalize] do not depend on the notes *)

Lemma extract_rev_strings (trailing : str) (notes : list str) :
  fst (extract_rev trailing notes) = fst (extract_rev trailing []).
Proof.
  unfold extract_rev.
  destruct (re_search CANON_REV_SUFFIX (rstrip trailing)); [reflexivity|].
  destruct (re_search REV_ANY_INFIX (rstrip trailing)).
  - cbv zeta beta iota.
    match goal with |- context [negb (truthy ?x)] => destruct (negb (truthy x)) end;
      reflexivity.
  - destruct (sub_scan EMBEDDED_REV strip_embedded true 0 0 (rstrip trailing) (None, false))
      as [s2 [cap saw]].
    destruct (str_eqb s2 (rstrip trailing)); cbv beta iota zeta;
      destruct (negb (truthy cap)); reflexivity.
Qed.

Lemma strip_spurious_string (text : str) (notes : list str) :
  fst (strip_spurious_extensions text notes) = fst (strip_spurious_extensions text []).
Proof. reflexivity. Qed.

Lemma sanitize_title_string (raw : str) (notes : list str) :
  fst (sanitize_title raw notes) = fst (sanitize_title raw []).
Proof.
  unfold sanitize_title.
  pose proof (strip_spurious_string raw notes) as A.
  destruct (strip_spurious_extensions raw notes) as [s0 n0].
  destruct (strip_spurious_extensions raw []) as [s0' n0']. cbn [fst] in A. subst s0'.
  destruct (has_chr "&" s0); cbv beta iota;
    match goal with |- context [has_chr " " ?s] => destruct (has_chr " " s) end; cbv beta iota;
    match goal with |- context [has_chr "_" ?s] => destruct (has_chr "_" s) end; cbv beta iota;
    cbv zeta;
    match goal with
    | |- fst (let '(_, _) := strip_spurious_extensions ?a ?b in _)
         = fst (let '(_, _) := strip_spurious_extensions ?a ?b' in _) =>
        pose proof (strip_spurious_string a b) as B;
        pose proof (strip_spurious_string a b') as B';
        destruct (strip_spurious_extensions a b) as [s1 n1];
        destruct (strip_spurious_extensions a b') as [s1' n1'];
        destruct (strip_spurious_extensions a []) as [s1'' n1''];
        cbn [fst] in *; congruence
    end.
Qed.

Lemma enforce_string (prefix : str) (idc : option str) (date title rev : str)
    (notes : list str) :
  fst (enforce_stem_limit prefix idc date title rev notes)
  = fst (enforce_stem_limit prefix idc date title rev []).
Proof. unfold enforce_stem_limit. cbv zeta. destruct (_ >? _)%Z; reflexivity. Qed.

Lemma enforce_cut (prefix : str) (idc : option str) (date title0 rev : str)
    (notes : list str) (title : str) (iss3 : list str) :
  enforce_stem_limit prefix idc date title0 rev notes = (title, iss3) ->
  (title = title0 /\ iss3 = notes) \/ iss3 = notes ++ [note_truncated].
Proof.
  unfold enforce_stem_limit. cbv zeta. destruct (_ >? _)%Z; intros E; apply pair_eq in E;
    destruct E as [<- <-]; auto.
Qed.

(** [finalize_stem] in terms of the strings read off its arguments: the
    stem joins the prefix, the cleaned identifier, the date, the title
    after the length budget and the revision. *)
Lemma finalize_stem_pinned (issues : list str) (prefix : str) (id_part : option str)
    (date title_raw : str) (hard_rev : option str) :
  us_free prefix -> nonempty prefix = true -> digits_n 8 date ->
  (forall r, hard_rev = Some r -> canon_rev r) ->
  let idc := id_clean_of id_part in
  let rev := rev_of title_raw hard_rev in
  let title := title_cut prefix idc date title_raw hard_rev in
  exists iss2 iss3,
    finalize_stem issues prefix id_part date title_raw hard_rev
    = (join "_" (fields prefix idc date title rev),
       if nonempty title then iss3 else iss3 ++ [note_underscore_count])
    /\ canon_rev rev /\ title_str (title_of title_raw)
    /\ (exists k, title = firstn k (title_of title_raw))
    /\ ((title = title_of title_raw /\ iss3 = iss2) \/ iss3 = iss2 ++ [note_truncated])
    /\ ((len (join "_" (fields prefix idc date title rev)) <= MAX_CHARS_TOTAL)%Z
        \/ (nonempty title = false /\ In note_truncated iss3)).
Proof.
  intros Up Np Dd Hr.
  destruct (finalize_stem_unfold issues prefix id_part date title_raw hard_rev Up Np Dd Hr)
    as (tnr & rn & iss1 & title0 & iss2 & title & iss3 & E1 & E2 & E3 & Ef & Cr & T0 & K).
  cbv zeta in *.
  assert (R : rev_of title_raw hard_rev = if truthy hard_rev then as_str hard_rev else rn).
  { unfold rev_of. rewrite <- (extract_rev_strings title_raw issues), E1. reflexivity. }
  assert (T : title_of title_raw = title0).
  { unfold title_of. rewrite <- (extract_rev_strings title_raw issues), E1. cbn [fst].
    rewrite <- (sanitize_title_string tnr iss1), E2. reflexivity. }
  assert (C : title_cut prefix (id_clean_of id_part) date title_raw hard_rev = title).
  { unfold title_cut. rewrite T, R.
    rewrite <- (enforce_string _ _ _ _ _ iss2), E3. reflexivity. }
  rewrite R, T, C. exists iss2, iss3.
  split; [exact Ef|]. split; [exact Cr|]. split; [exact T0|]. split; [exact K|].
  split; [exact (enforce_cut _ _ _ _ _ _ _ _ E3)|].
  exact (enforce_budget _ _ _ _ _ _ _ _ E3).
Qed.


(** ** What [assembled] gives *)

Lemma tf_rev_canon (rest : list str) : canon_rev (tf_rev rest).
Proof.
  unfold tf_rev. cbv zeta.
  set (trailing := if 2 <? List.length rest then title_from 2 rest else lit "").
  clearbody trailing.
  assert (S0 : forall m',
             match re_search REV_ANY_INFIX trailing with
             | Some m => Some m
             | None => re_search EMBEDDED_REV trailing
             end = Some m' ->
             exists a0 i s', match_here REV_ANY_INFIX a0 i s' = Some m'
                             \/ match_here EMBEDDED_REV a0 i s' = Some m')
    by (intros m' Hm; exact (tf_search trailing m' Hm)).
  set (mm := match re_search REV_ANY_INFIX trailing with
             | Some m => Some m
             | None => re_search EMBEDDED_REV trailing
             end) in *.
  clearbody mm. exact (tf_hard_rev mm true 0 [] S0).
Qed.

Lemma date_first_facts (rest : list str) idp d traw hr :
  date_first rest = Some (idp, d, traw, hr) -> idp = None /\ digits_n 8 d /\ hr = None.
Proof.
  unfold date_first. destruct rest as [|r0 t]; [discriminate|].
  destruct (date_of r0) as [d'|] eqn:E; [| discriminate].
  intros K. apply some_eq, pair_eq in K. destruct K as [K <-].
  apply pair3_eq in K. destruct K as (<- & <- & _).
  split; [reflexivity|]. split; [exact (date_of_digits _ _ E) | reflexivity].
Qed.

Lemma id_first_facts (i : option str) (rest : list str) idp d traw hr :
  id_first i rest = Some (idp, d, traw, hr) -> idp = i /\ digits_n 8 d /\ hr = None.
Proof.
  unfold id_first. destruct rest as [|r0 [|r1 t]]; try discriminate.
  destruct (date_of r1) as [d'|] eqn:E; [| discriminate].
  intros K. apply some_eq, pair_eq in K. destruct K as [K <-].
  apply pair3_eq in K. destruct K as (<- & <- & _).
  split; [reflexivity|]. split; [exact (date_of_digits _ _ E) | reflexivity].
Qed.

Lemma id_required_facts (clean : str -> option str) (rest : list str) idp d traw hr :
  id_required clean rest = Some (idp, d, traw, hr) ->
  (exists r0 t, rest = r0 :: t /\ date_of r0 = None /\ idp = clean r0 /\ is_some idp = true)
  /\ digits_n 8 d /\ hr = None.
Proof.
  unfold id_required. destruct rest as [|r0 [|r1 t]]; try discriminate.
  destruct (date_of r0) eqn:E0; [discriminate|].
  destruct (is_some (clean r0)) eqn:C; [| discriminate].
  intros K. destruct (id_first_facts _ _ _ _ _ _ K) as (-> & D & ->).
  split; [| auto]. exists r0, (r1 :: t). auto.
Qed.

Lemma id_optional_facts (clean : str -> option str) (rest : list str) idp d traw hr :
  id_optional clean rest = Some (idp, d, traw, hr) ->
  (idp = None
   \/ exists r0 t, rest = r0 :: t /\ date_of r0 = None /\ idp = clean r0 /\ is_some idp = true)
  /\ digits_n 8 d /\ hr = None.
Proof.
  unfold id_optional. destruct rest as [|r0 t]; [discriminate|].
  destruct (date_of r0) eqn:E0.
  - intros K. destruct (date_first_facts _ _ _ _ _ K) as (-> & D & ->). auto.
  - destruct (is_some (clean r0)) eqn:C; [| discriminate].
    intros K. destruct (id_first_facts _ _ _ _ _ _ K) as (-> & D & ->).
    split; [| auto]. right. exists r0, t. auto.
Qed.

(** The date that [assembled] gives has eight digits, and the revision
    it fixes, if any, is canonical. *)
Lemma assembled_facts (prefix : str) (rest : list str) idp d traw hr :
  assembled prefix rest = Some (idp, d, traw, hr) ->
  digits_n 8 d /\ (forall r, hr = Some r -> canon_rev r).
Proof.
  assert (Q : forall a : option (option str * str * str * option str),
             (a = Some (idp, d, traw, hr) -> digits_n 8 d /\ hr = None) ->
             a = Some (idp, d, traw, hr) ->
             digits_n 8 d /\ (forall r, hr = Some r -> canon_rev r)).
  { intros a F K. destruct (F K) as [D ->]. split; [exact D | discriminate]. }
  unfold assembled.
  destruct (str_eqb prefix "COR").
  { destruct (first_date_of rest 0) as [[i d']|] eqn:E; [| discriminate].
    intros K. apply some_eq, pair_eq in K. destruct K as [K <-].
    apply pair3_eq in K. destruct K as (_ & <- & _).
    split; [exact (first_date_of_digits _ _ _ _ E) | discriminate]. }
  destruct (str_eqb prefix "QA").
  { apply Q. intros K. destruct (id_optional_facts _ _ _ _ _ _ K); tauto. }
  destruct (str_eqb prefix "AU").
  { apply Q. intros K. destruct (id_required_facts _ _ _ _ _ _ K); tauto. }
  destruct (str_eqb prefix "FDM").
  { destruct (first_date_of rest 0) as [[[|k] d']|] eqn:E; try discriminate.
    cbv zeta. destruct (nonempty_list _); [| discriminate].
    intros K. apply some_eq, pair_eq in K. destruct K as [K <-].
    apply pair3_eq in K. destruct K as (_ & <- & _).
    split; [exact (first_date_of_digits _ _ _ _ E) | discriminate]. }
  assert (G : (if mem prefix REQUIRES_ID_ANY then id_required (clean_any (id_label prefix)) rest
               else if mem prefix REQUIRES_CSI then id_required clean_csi rest
               else if str_eqb prefix "PN" then id_optional clean_csi rest
               else if str_eqb prefix "SP" then id_optional clean_csi rest
               else if str_eqb prefix "WR" then id_optional clean_csi rest
               else if str_eqb prefix "RE" then date_first rest
               else if mem prefix STANDARD_PREFIXES then date_first rest
               else None) = Some (idp, d, traw, hr) ->
              digits_n 8 d /\ (forall r, hr = Some r -> canon_rev r)).
  { apply Q.
    destruct (mem prefix REQUIRES_ID_ANY);
      [intros K; destruct (id_required_facts _ _ _ _ _ _ K); tauto|].
    destruct (mem prefix REQUIRES_CSI);
      [intros K; destruct (id_required_facts _ _ _ _ _ _ K); tauto|].
    destruct (str_eqb prefix "PN");
      [intros K; destruct (id_optional_facts _ _ _ _ _ _ K); tauto|].
    destruct (str_eqb prefix "SP");
      [intros K; destruct (id_optional_facts _ _ _ _ _ _ K); tauto|].
    destruct (str_eqb prefix "WR");
      [intros K; destruct (id_optional_facts _ _ _ _ _ _ K); tauto|].
    destruct (str_eqb prefix "RE");
      [intros K; destruct (date_first_facts _ _ _ _ _ K); tauto|].
    destruct (mem prefix STANDARD_PREFIXES);
      [intros K; destruct (date_first_facts _ _ _ _ _ K); tauto | discriminate]. }
  destruct (str_eqb prefix "TF"); [| exact G].
  unfold tf_block. destruct rest as [|r0 t]; [discriminate|].
  destruct (date_of r0) as [d0|] eqn:E0.
  { intros K. apply some_eq, pair_eq in K. destruct K as [K <-].
    apply pair3_eq in K. destruct K as (_ & <- & _).
    split; [exact (date_of_digits _ _ E0) | discriminate]. }
  destruct t as [|r1 t]; [exact G|].
  destruct (date_of r1) as [d1|] eqn:E1; [| exact G].
  intros K. apply some_eq, pair_eq in K. destruct K as [K <-].
  apply pair3_eq in K. destruct K as (_ & <- & _).
  split; [exact (date_of_digits _ _ E1)|].
  intros r Hr. apply some_eq in Hr. subst r. apply tf_rev_canon.
Qed.

(** A non-empty suggestion, in terms of the strings read off the name:
    the stem joins the prefix, the identifier, the date, the title after
    the length budget, and the revision. *)
Lemma audit_filename_pinned (name s : str) (notes : list str) (ch : bool) :
  audit_filename name = Ret (Some s, notes, ch) -> nonempty s = true ->
  exists id_part date title_raw hard_rev,
    assembled (name_prefix name) (skipn 1 (name_tokens name))
    = Some (id_part, date, title_raw, hard_rev)
    /\ let idc := id_clean_of id_part in
       let rev := rev_of title_raw hard_rev in
       let title := title_cut (name_prefix name) idc date title_raw hard_rev in
       exists iss2 iss3,
         s = join "_" (fields (name_prefix name) idc date title rev) ++ name_ext name
         /\ notes = (if nonempty title then iss3 else iss3 ++ [note_underscore_count])
         /\ ch = negb (str_eqb s (strip name))
         /\ us_free (name_prefix name) /\ nonempty (name_prefix name) = true
         /\ digits_n 8 date /\ canon_rev rev /\ title_str (title_of title_raw)
         /\ (exists k, title = firstn k (title_of title_raw))
         /\ ((title = title_of title_raw /\ iss3 = iss2) \/ iss3 = iss2 ++ [note_truncated])
         /\ ((len (join "_" (fields (name_prefix name) idc date title rev))
              <= MAX_CHARS_TOTAL)%Z
             \/ (nonempty title = false /\ In note_truncated iss3)).
Proof.
  intros H N.
  destruct (audit_filename_assembled name s notes ch H N)
    as (m & idp & d & traw & hr & iss & Pm & A & F).
  destruct (assembled_facts _ _ _ _ _ _ A) as [Dd Hr].
  destruct (prefix_match_us_free _ m Pm) as [Up Np].
  destruct (finalize_stem_pinned iss (name_prefix name) idp d traw hr Up Np Dd Hr)
    as (iss2 & iss3 & Ef & Cr & T0 & K & Cut & B).
  cbv zeta in *. unfold finalize in F. rewrite Ef in F.
  apply verdict_eq in F. destruct F as (Es & En & Ec).
  exists idp, d, traw, hr. split; [exact A|]. exists iss2, iss3.
  split; [exact Es|]. split; [exact En|].
  split; [rewrite Ec, <- Es, name_original; reflexivity|].
  repeat (split; [assumption|]). exact B.
Qed.

(** ** The identifier, family by family *)

(** The families that take no identifier are given none. *)
Lemma assembled_no_id (prefix : str) (rest : list str) idp d traw hr :
  id_family prefix = false ->
  assembled prefix rest = Some (idp, d, traw, hr) -> idp = None.
Proof.
  unfold id_family. intros F.
  repeat (apply orb_false_iff in F; destruct F as [F ?]).
  assert (Q : forall a : option (option str * str * str * option str),
             (a = Some (idp, d, traw, hr) -> idp = None /\ digits_n 8 d /\ hr = None) ->
             a = Some (idp, d, traw, hr) -> idp = None).
  { intros a G K. exact (proj1 (G K)). }
  unfold assembled.
  destruct (str_eqb prefix "COR").
  { destruct (first_date_of rest 0) as [[i d']|]; [| discriminate].
    intros K. apply some_eq, pair_eq in K. destruct K as [K _].
    apply pair3_eq in K. destruct K as (<- & _). reflexivity. }
  repeat match goal with
         | E : ?b = false |- context [if ?b then _ else _] => rewrite E
         end.
  destruct (str_eqb prefix "TF") eqn:T.
  - unfold tf_block. destruct rest as [|r0 t]; [discriminate|].
    destruct (date_of r0) as [d0|].
    { intros K. apply some_eq, pair_eq in K. destruct K as [K _].
      apply pair3_eq in K. destruct K as (<- & _). reflexivity. }
    apply str_eqb_eq in T. subst prefix.
    change (mem (lit "TF") REQUIRES_ID_ANY) with true. cbv beta iota.
    destruct t as [|r1 t]; [discriminate|].
    destruct (date_of r1) as [d1|] eqn:E1.
    { intros K. apply some_eq, pair_eq in K. destruct K as [K _].
      apply pair3_eq in K. destruct K as (<- & _). reflexivity. }
    unfold id_required, id_first. rewrite E1.
    destruct (date_of r0); [discriminate|].
    destruct (is_some _); discriminate.
  - rewrite andb_true_r in *.
    repeat match goal with
           | E : ?b = false |- context [if ?b then _ else _] => rewrite E
           end.
    destruct (str_eqb prefix "RE"); [apply Q, date_first_facts|].
    destruct (mem prefix STANDARD_PREFIXES); [apply Q, date_first_facts | discriminate].
Qed.

(** What [clean_csi] keeps is a CSI section in canonical form. *)
Lemma clean_csi_facts (raw x : str) :
  clean_csi raw = Some x ->
  strip x = x /\ nonempty x = true /\ title_str x
  /\ is_some (re_match RE_CSI3 x) || is_some (re_match RE_CSI4 x) = true
  /\ (x = strip raw
      \/ exists ds, forallb is_digit ds = true
                    /\ ((List.length ds = 6 /\ x = csi3 ds)
                        \/ (List.length ds = 8 /\ x = csi4 ds))).
Proof.
  unfold clean_csi. destruct (normalize_csi raw) as [csi cnote] eqn:E. cbn [fst].
  destruct csi as [c|]; cbn [truthy]; [| discriminate].
  destruct (nonempty c) eqn:N; [| discriminate].
  intros K. apply some_eq in K. subst c.
  assert (G : strip x = x
              /\ is_some (re_match RE_CSI3 x) || is_some (re_match RE_CSI4 x) = true
              /\ (x = strip raw
                  \/ exists ds, forallb is_digit ds = true
                                /\ ((List.length ds = 6 /\ x = csi3 ds)
                                    \/ (List.length ds = 8 /\ x = csi4 ds)))).
  { revert E. unfold normalize_csi.
    destruct (nonempty (strip raw)); cbn [negb]; [| discriminate].
    destruct (is_some (re_match RE_CSI3 (strip raw))
              || is_some (re_match RE_CSI4 (strip raw))) eqn:M.
    { intros E. apply pair_eq in E. destruct E as [E _]. apply some_eq in E. subst x.
      rewrite strip_idem. auto. }
    pose proof (csi_digits (strip raw)) as A.
    set (digits := re_sub (Chr (fun c => negb (is_digit c))) "" (strip raw)) in *.
    destruct (List.length digits =? 6) eqn:L6.
    { apply Nat.eqb_eq in L6.
      intros E. apply pair_eq in E. destruct E as [E _]. apply some_eq in E. subst x.
      destruct (csi3_canonical digits A L6) as (S0 & _ & X).
      split; [exact S0|]. split; [exact X|]. right. exists digits. auto. }
    destruct (List.length digits =? 8) eqn:L8.
    { apply Nat.eqb_eq in L8.
      intros E. apply pair_eq in E. destruct E as [E _]. apply some_eq in E. subst x.
      destruct (csi4_canonical digits A L8) as (S0 & _ & X).
      split; [exact S0|]. split; [exact X|]. right. exists digits. auto. }
    cbn [orb]. rewrite andb_false_r. discriminate. }
  destruct G as (S0 & M & C). split; [exact S0|]. split; [exact N|].
  split; [| auto].
  apply orb_true_iff in M. rewrite <- S0 in *. destruct M as [M | M].
  - destruct (re_match RE_CSI3 (strip x)) as [m|] eqn:Em; [| discriminate M].
    exact (csi3_title x m Em).
  - destruct (re_match RE_CSI4 (strip x)) as [m|] eqn:Em; [| discriminate M].
    exact (csi4_title x m Em).
Qed.

(** The CSI-required family is always given a non-empty identifier. *)
Lemma assembled_csi_id (prefix : str) (rest : list str) idp d traw hr :
  mem prefix REQUIRES_CSI = true ->
  assembled prefix rest = Some (idp, d, traw, hr) ->
  truthy (id_clean_of idp) = true.
Proof.
  intros M. destruct (csi_prefix_facts prefix M) as (_ & E1 & E2 & E3 & E4 & E5 & E6).
  unfold assembled. rewrite E1, E2, E3, E4, E5, E6, M.
  intros K. destruct (id_required_facts _ _ _ _ _ _ K) as ((r0 & t & _ & _ & Ei & Si) & _).
  destruct idp as [x|]; [| discriminate Si]. symmetry in Ei.
  destruct (clean_csi_facts _ _ Ei) as (_ & N & T & _).
  unfold id_clean_of. cbn [truthy as_str]. rewrite N. cbn [truthy].
  rewrite (replace_chr_us_free_id x (title_str_us_free x T)). exact N.
Qed.

(** ** The length of the stem *)

(** C2, as the specification states it, fails when the fields other than
    the title overflow the budget on their own: with an identifier of sixty
    characters the title is cut to nothing and the stem keeps 77
    characters. *)
Lemma long_identifier_overflows :
  audit_filename
    (lit "AU_AAAAAAAAAAAAAAAAAAAAAAAAAAAAAAAAAAAAAAAAAAAAAAAAAAAAAAAAAAAA_20240101_T_Rev1.pdf")
  = Ret (Some (lit "AU_AAAAAAAAAAAAAAAAAAAAAAAAAAAAAAAAAAAAAAAAAAAAAAAAAAAAAAAAAAAA_20240101_Rev1.pdf"),
         [note_truncated; note_underscore_count], true)
  /\ len (stem_of
            (lit "AU_AAAAAAAAAAAAAAAAAAAAAAAAAAAAAAAAAAAAAAAAAAAAAAAAAAAAAAAAAAAA_20240101_Rev1.pdf"))
     = 77%Z.
Proof. split; vm_compute; reflexivity. Qed.

(** C2, amended. A non-empty suggestion of [audit_filename] is a stem
    followed by the extension of the name. The stem joins the prefix of
    the name, the identifier that the branch of the prefix read off the
    tokens (cleaned of underscores, left out when empty), the date that it
    read, the title and the revision. The title is an initial segment of
    the sanitized title, and the truncation note is given when it is a
    proper one; every other field is whole. The stem is at most 64
    characters long, unless the title has been cut to nothing, in which
    case the notes contain the truncation note and the underscore-count
    note. *)
Theorem stem_length (name sugg : str) (notes : list str) (ch : bool) :
  audit_filename name = Ret (Some sugg, notes, ch) -> nonempty sugg = true ->
  exists id_part date title_raw hard_rev,
    assembled (name_prefix name) (skipn 1 (name_tokens name))
    = Some (id_part, date, title_raw, hard_rev)
    /\ let idc := id_clean_of id_part in
       let rev := rev_of title_raw hard_rev in
       let title := title_cut (name_prefix name) idc date title_raw hard_rev in
       let stem := join "_" (fields (name_prefix name) idc date title rev) in
       sugg = stem ++ name_ext name
       /\ (exists k, title = firstn k (title_of title_raw))
       /\ (title <> title_of title_raw -> In note_truncated notes)
       /\ ((len stem <= MAX_CHARS_TOTAL)%Z
           \/ (title = [] /\ In note_truncated notes /\ In note_underscore_count notes)).
Proof.
  intros H N.
  destruct (audit_filename_pinned name sugg notes ch H N)
    as (idp & d & traw & hr & A & Hp).
  exists idp, d, traw, hr. split; [exact A|]. cbv zeta in *.
  destruct Hp as (iss2 & iss3 & Es & En & _ & _ & _ & _ & _ & _ & K & Cut & B).
  split; [exact Es|]. split; [exact K|].
  assert (I3 : forall n, In n iss3 -> In n notes).
  { intros n I. rewrite En. destruct (nonempty (title_cut _ _ _ _ _)); [exact I|].
    apply in_or_app. left. exact I. }
  split.
  - intros Ne. destruct Cut as [[E _] | E]; [contradiction|].
    apply I3. rewrite E. apply in_or_app. right. left. reflexivity.
  - destruct B as [L | [Nt I]]; [left; exact L|]. right.
    split; [| split; [exact (I3 _ I)|]].
    + destruct (title_cut _ _ _ _ _); [reflexivity | discriminate Nt].
    + rewrite En, Nt. apply in_or_app. right. left. reflexivity.
Qed.

Lemma stem_length_witness :
  exists id_part date title_raw hard_rev,
    assembled (name_prefix (lit "COR_1/15/2024_Site Visit.pdf"))
      (skipn 1 (name_tokens (lit "COR_1/15/2024_Site Visit.pdf")))
    = Some (id_part, date, title_raw, hard_rev)
    /\ let idc := id_clean_of id_part in
       let rev := rev_of title_raw hard_rev in
       let title := title_cut (name_prefix (lit "COR_1/15/2024_Site Visit.pdf"))
                      idc date title_raw hard_rev in
       let stem := join "_" (fields (name_prefix (lit "COR_1/15/2024_Site Visit.pdf"))
                               idc date title rev) in
       lit "COR_20240115_SiteVisit_Rev0.pdf" = stem ++ name_ext (lit "COR_1/15/2024_Site Visit.pdf")
       /\ (exists k, title = firstn k (title_of title_raw))
       /\ (title <> title_of title_raw
           -> In note_truncated
                [lit "Normalized date from M/D/YYYY"; note_rev_added;
                 lit "Removed spaces from title."; note_normalized_title])
       /\ ((len stem <= MAX_CHARS_TOTAL)%Z
           \/ (title = []
               /\ In note_truncated
                    [lit "Normalized date from M/D/YYYY"; note_rev_added;
                     lit "Removed spaces from title."; note_normalized_title]
               /\ In note_underscore_count
                    [lit "Normalized date from M/D/YYYY"; note_rev_added;
                     lit "Removed spaces from title."; note_normalized_title])).
Proof.
  apply (stem_length (lit "COR_1/15/2024_Site Visit.pdf")
           (lit "COR_20240115_SiteVisit_Rev0.pdf")
           [lit "Normalized date from M/D/YYYY"; note_rev_added;
            lit "Removed spaces from title."; note_normalized_title] true).
  - vm_compute. reflexivity.
  - reflexivity.
Defined.

(** ** The underscore count *)

(** C5, as the specification states it, fails in two ways. When the
    title is missing the stem has one underscore fewer: [COR_20240115.pdf]
    is answered with [COR_20240115_Rev0.pdf], whose stem has two
    underscores, and with the underscore-count note. And a family that
    requires an identifier does not always get one: the identifier of
    [AU_#_20240101_T_Rev1.pdf] is sanitized to nothing, the stem of the
    suggestion [AU_20240101_T_Rev1.pdf] has three underscores, and the
    underscore-count note is not given. *)
Lemma underscore_count_missing_title :
  (audit_filename (lit "COR_20240115.pdf")
   = Ret (Some (lit "COR_20240115_Rev0.pdf"), [note_rev_added; note_underscore_count], true)
   /\ count_chr "_" (stem_of (lit "COR_20240115_Rev0.pdf")) = 2)
  /\ (audit_filename (lit "AU_#_20240101_T_Rev1.pdf")
      = Ret (Some (lit "AU_20240101_T_Rev1.pdf"),
             [lit "Removed special characters from Audit-ID."], true)
      /\ count_chr "_" (stem_of (lit "AU_20240101_T_Rev1.pdf")) = 3
      /\ mem (lit "AU") REQUIRES_ID_ANY = true).
Proof. repeat split; vm_compute; reflexivity. Qed.

(** C5, amended. A non-empty suggestion of [audit_filename] is a stem
    followed by the extension of the name; the stem joins the prefix of
    the name, the identifier that the branch of the prefix read off the
    tokens (cleaned of underscores, left out when empty), the date that it
    read, the title (left out when empty) and the revision. The stem has
    4 underscores when the identifier is not empty and 3 when it is empty
    or absent, and one fewer when the title is empty; the notes then
    contain the underscore-count note. A family that takes no identifier
    is given none, so that its count is 3; the CSI-required family is
    always given one, so that its count is 4; both less one when the title
    is empty. *)
Theorem underscore_count (name sugg : str) (notes : list str) (ch : bool) :
  audit_filename name = Ret (Some sugg, notes, ch) -> nonempty sugg = true ->
  exists id_part date title_raw hard_rev,
    assembled (name_prefix name) (skipn 1 (name_tokens name))
    = Some (id_part, date, title_raw, hard_rev)
    /\ let idc := id_clean_of id_part in
       let rev := rev_of title_raw hard_rev in
       let title := title_cut (name_prefix name) idc date title_raw hard_rev in
       let stem := join "_" (fields (name_prefix name) idc date title rev) in
       sugg = stem ++ name_ext name
       /\ count_chr "_" stem
          = (if truthy idc then 4 else 3) - (if nonempty title then 0 else 1)
       /\ (nonempty title = false -> In note_underscore_count notes)
       /\ (id_family (name_prefix name) = false -> truthy idc = false)
       /\ (mem (name_prefix name) REQUIRES_CSI = true -> truthy idc = true).
Proof.
  intros H N.
  destruct (audit_filename_pinned name sugg notes ch H N)
    as (idp & d & traw & hr & A & Hp).
  exists idp, d, traw, hr. split; [exact A|]. cbv zeta in *.
  destruct Hp as (iss2 & iss3 & Es & En & _ & Up & _ & Dd & Cr & T0 & (k & K) & _ & _).
  split; [exact Es|]. split; [| split; [| split]].
  - apply fields_count; auto.
    + apply id_clean_us_free.
    + rewrite K. apply title_str_us_free, Forall_firstn_str. exact T0.
  - intros Nt. rewrite En, Nt. apply in_or_app. right. left. reflexivity.
  - intros F. rewrite (assembled_no_id _ _ _ _ _ _ F A). reflexivity.
  - intros M. exact (assembled_csi_id _ _ _ _ _ _ M A).
Qed.

Lemma underscore_count_witness :
  exists id_part date title_raw hard_rev,
    assembled (name_prefix (lit "CA_033000_1/15/2024_Mix Design.pdf"))
      (skipn 1 (name_tokens (lit "CA_033000_1/15/2024_Mix Design.pdf")))
    = Some (id_part, date, title_raw, hard_rev)
    /\ let idc := id_clean_of id_part in
       let rev := rev_of title_raw hard_rev in
       let title := title_cut (name_prefix (lit "CA_033000_1/15/2024_Mix Design.pdf"))
                      idc date title_raw hard_rev in
       let stem := join "_" (fields (name_prefix (lit "CA_033000_1/15/2024_Mix Design.pdf"))
                               idc date title rev) in
       lit "CA_03-30-00_20240115_MixDesign_Rev0.pdf"
       = stem ++ name_ext (lit "CA_033000_1/15/2024_Mix Design.pdf")
       /\ count_chr "_" stem
          = (if truthy idc then 4 else 3) - (if nonempty title then 0 else 1)
       /\ (nonempty title = false
           -> In note_underscore_count
                [lit "Auto-formatted CSI from 6 digits"; lit "Normalized date from M/D/YYYY";
                 note_rev_added; lit "Removed spaces from title."; note_normalized_title])
       /\ (id_family (name_prefix (lit "CA_033000_1/15/2024_Mix Design.pdf")) = false
           -> truthy idc = false)
       /\ (mem (name_prefix (lit "CA_033000_1/15/2024_Mix Design.pdf")) REQUIRES_CSI = true
           -> truthy idc = true).
Proof.
  apply (underscore_count (lit "CA_033000_1/15/2024_Mix Design.pdf")
           (lit "CA_03-30-00_20240115_MixDesign_Rev0.pdf")
           [lit "Auto-formatted CSI from 6 digits"; lit "Normalized date from M/D/YYYY";
            note_rev_added; lit "Removed spaces from title."; note_normalized_title] true).
  - vm_compute. reflexivity.
  - reflexivity.
Defined.

(** ** A title that [sanitize_title] leaves alone *)

(** Where a match is longer than the replacement, a substitution that
    finds a match shortens the subject. *)
Lemma sub_scan_shrinks (r : re) (repl : str) :
  (forall a0 i s m, match_here r a0 i s = Some m -> List.length repl < m_len m) ->
  forall s a0 i k m,
    k <= List.length s ->
    match_here r (a0 && (k =? 0)) (i + k) (skipn k s) = Some m ->
    List.length (fst (sub_scan r (fun _ (u : unit) => (repl, u)) a0 i 0 s tt))
    < List.length s.
Proof.
  intros Hm.
  assert (Hm' : forall a0 i s m, match_here r a0 i s = Some m -> List.length repl <= m_len m)
    by (intros a0 i s m E; apply Nat.lt_le_incl; exact (Hm _ _ _ _ E)).
  induction s as [|c t IH]; intros a0 i k m L M.
  - exfalso. cbn in L. assert (k = 0) by lia. subst k. cbn [skipn] in M.
    pose proof (Hm _ _ _ _ M) as L1.
    destruct (match_here_In _ _ _ _ M) as (c' & _ & _ & L2 & _). cbn in L2. lia.
  - cbn [sub_scan].
    destruct (match_here r a0 i (c :: t)) as [m0|] eqn:E.
    + pose proof (Hm _ _ _ _ E) as L1.
      destruct (match_here_In _ _ _ _ E) as (c' & _ & _ & L2 & _). cbn [List.length] in L2.
      destruct (m_len m0) as [|n] eqn:En; [lia|].
      assert (Hn : n <= List.length t) by lia.
      pose proof (@sub_scan_length r repl Hm' t false (S i) n Hn) as L3.
      destruct (sub_scan _ _ false (S i) n t tt) as [tl u]. cbn [fst] in *.
      rewrite length_app. cbn [List.length]. lia.
    + destruct k as [|k].
      * cbn [skipn Nat.eqb] in M. rewrite andb_true_r, Nat.add_0_r in M. congruence.
      * cbn [skipn Nat.eqb] in M. rewrite andb_false_r in M.
        replace (i + S k) with (S i + k) in M by lia.
        assert (M' : match_here r (false && (k =? 0)) (S i + k) (skipn k t) = Some m)
          by exact M.
        specialize (IH false (S i) k m ltac:(cbn in L; lia) M').
        destruct (sub_scan _ _ false (S i) 0 t tt) as [tl u]. cbn [fst List.length] in *. lia.
Qed.

(** A substitution that keeps the length has found no match, and has
    changed nothing. *)
Lemma re_sub_same_length (r : re) (repl s : str) :
  (forall a0 i s m, match_here r a0 i s = Some m -> List.length repl < m_len m) ->
  List.length (re_sub r repl s) = List.length s ->
  re_sub r repl s = s
  /\ forall k, k <= List.length s -> match_here r (k =? 0) k (skipn k s) = None.
Proof.
  intros Hm L.
  assert (Nm : forall k, k <= List.length s -> match_here r (k =? 0) k (skipn k s) = None).
  { intros k Hk. destruct (match_here r (k =? 0) k (skipn k s)) as [m|] eqn:M; [| reflexivity].
    exfalso. pose proof (@sub_scan_shrinks r repl Hm s true 0 k m Hk M) as K.
    unfold re_sub in L. lia. }
  split; [exact (re_sub_nomatch r repl s Nm) | exact Nm].
Qed.

(** The matches of the two separator patterns of
    [strip_spurious_extensions]. *)
Lemma sep_runs_len (a0 : bool) (i : nat) (s : str) (m : rmatch) :
  match_here (Rep is_sep 2 None) a0 i s = Some m -> List.length (lit "-") < m_len m.
Proof.
  intros H. apply match_here_In in H. destruct H as (c' & H & _ & L & _).
  inv_run. cbn [rest] in *. subst s. rewrite L, length_app. cbn. lia.
Qed.

Lemma sep_ends_len (a0 : bool) (i : nat) (s : str) (m : rmatch) :
  match_here (Alt (Bol ;; Rep is_sep 1 None) (Rep is_sep 1 None ;; Eol)) a0 i s = Some m ->
  List.length (lit "") < m_len m.
Proof.
  intros H. apply match_here_In in H. destruct H as (c' & H & _ & L & _).
  inv_run; cbn [rest] in *;
    repeat match goal with
           | E : rest ?a = _, E' : context [rest ?a] |- _ => rewrite E in E'
           end;
    subst s; rewrite L, length_app; cbn; lia.
Qed.

Lemma sep_ends_last (a0 : bool) (i : nat) (c : ascii) :
  is_sep c = true ->
  match_here (Alt (Bol ;; Rep is_sep 1 None) (Rep is_sep 1 None ;; Eol)) a0 i [c] <> None.
Proof.
  intros H. unfold match_here. cbn [run rest at0 caps flat_map rep_greedy app].
  rewrite H. cbn [Init.Nat.pred app flat_map rest].
  destruct a0; cbn [flat_map rep_greedy rest at0 caps app]; try rewrite H;
    cbn [Init.Nat.pred app]; discriminate.
Qed.

(** A pass of [strip_spurious_extensions] without a note: no extension
    word was found, and what is left is the work of the two separator
    patterns. *)
Lemma strip_spurious_quiet (text s : str) :
  strip_spurious_extensions text [] = (s, []) ->
  s = re_sub (Alt (Bol ;; Rep is_sep 1 None) (Rep is_sep 1 None ;; Eol)) ""
        (re_sub (Rep is_sep 2 None) "-" text).
Proof.
  unfold strip_spurious_extensions. cbv zeta.
  set (s2 := drop_ext_suffix EXT_TOKENS (lower (re_sub EXT_WORD "" text))
               (re_sub EXT_WORD "" text)).
  clearbody s2. intros E. apply pair_eq in E. destruct E as [Es En].
  destruct (negb (str_eqb s2 text)) eqn:C; [discriminate En|].
  apply negb_str_eqb_false in C. subst s2. symmetry. exact Es.
Qed.

(** A title that [sanitize_title] returns as it is, without a note, does
    not end with a separator. *)
Lemma sanitize_title_fixed_last (l : str) (c : ascii) :
  sanitize_title (l ++ [c]) [] = (l ++ [c], []) -> is_sep c = false.
Proof.
  set (t := l ++ [c]). intros H.
  assert (Q : exists s0, strip_spurious_extensions t [] = (s0, [])
                         /\ strip_spurious_extensions s0 [] = (t, [])).
  { revert H. unfold sanitize_title.
    pose proof (strip_spurious_nil t []) as G0.
    destruct (strip_spurious_extensions t []) as [s0 n0]. cbn [snd] in G0.
    destruct (has_chr "&" s0); cbv beta iota;
      (match goal with
       | |- context [if has_chr " " ?b then _ else _] => destruct (has_chr " " b)
       end; cbv beta iota);
      (match goal with
       | |- context [if has_chr "_" ?b then _ else _] => destruct (has_chr "_" b)
       end; cbv beta iota);
      cbv zeta;
      match goal with
      | |- context [strip_spurious_extensions ?a ?b] =>
          pose proof (strip_spurious_nil a b) as G1;
          destruct (strip_spurious_extensions a b) as [s1 n1] eqn:E1; cbn [snd] in G1
      end;
      intros E; apply pair_eq in E; destruct E as [Es En];
      match type of En with
      | (if ?b then _ else _) = [] =>
          destruct b eqn:C; [destruct (snoc_not_nil _ _ En)|]
      end;
      subst n1; specialize (G1 eq_refl);
      apply if_snoc_nil in G1; destruct G1 as [Cq G1];
      try (destruct (snoc_not_nil _ _ G1)).
    subst n0. apply negb_str_eqb_false in Cq. rewrite Cq in E1.
    rewrite str_eqb_refl in E1. cbn [negb] in E1.
    exists s0. split; [reflexivity|]. rewrite E1, Es. reflexivity. }
  destruct Q as (s0 & E0 & E1).
  apply strip_spurious_quiet in E0, E1.
  set (ends := Alt (Bol ;; Rep is_sep 1 None) (Rep is_sep 1 None ;; Eol)) in *.
  set (runs := Rep is_sep 2 None) in *.
  pose proof (re_sub_length ends "" (re_sub runs "-" t)
                (fun a0 i s m E => Nat.lt_le_incl _ _ (sep_ends_len a0 i s m E))) as L1.
  pose proof (re_sub_length runs "-" t
                (fun a0 i s m E => Nat.lt_le_incl _ _ (sep_runs_len a0 i s m E))) as L2.
  pose proof (re_sub_length ends "" (re_sub runs "-" s0)
                (fun a0 i s m E => Nat.lt_le_incl _ _ (sep_ends_len a0 i s m E))) as L3.
  pose proof (re_sub_length runs "-" s0
                (fun a0 i s m E => Nat.lt_le_incl _ _ (sep_runs_len a0 i s m E))) as L4.
  rewrite <- E0 in L1. rewrite <- E1 in L3.
  destruct (re_sub_same_length runs "-" t sep_runs_len ltac:(lia)) as [R _].
  rewrite R in E0, L1.
  destruct (re_sub_same_length ends "" t sep_ends_len ltac:(rewrite <- E0; lia)) as [_ Nm].
  specialize (Nm (List.length l)). unfold t in Nm.
  rewrite length_app, skipn_app, skipn_all, Nat.sub_diag in Nm. cbn [skipn app] in Nm.
  specialize (Nm ltac:(lia)).
  destruct (is_sep c) eqn:Sc; [| reflexivity].
  destruct (sep_ends_last (List.length l =? 0) (List.length l) c Sc Nm).
Qed.

Lemma title_chr_not_sep (c : ascii) :
  not_title_chr c = false -> is_sep c = false -> has_chr c "_- ." = false.
Proof.
  destruct c as [[] [] [] [] [] [] [] []]; intros A B;
    first [reflexivity | discriminate A | discriminate B].
Qed.

(** Such a title is left alone by the stripping that [extract_rev]
    applies to what comes before the revision. *)
Lemma sanitize_title_fixed_rstrip (title : str) :
  title_str title -> sanitize_title title [] = (title, []) ->
  rstrip_chars "_- ." title = title.
Proof.
  intros T H. destruct (str_last_cases title) as [-> | (l & c & ->)].
  - unfold rstrip_chars. apply rstrip_by_nil.
  - unfold rstrip_chars. apply rstrip_by_fixed.
    apply title_chr_not_sep.
    + unfold title_str in T. rewrite Forall_forall in T. apply T.
      apply in_or_app. right. left. reflexivity.
    + exact (sanitize_title_fixed_last l c H).
Qed.

(** ** The branches of the dispatcher on clean fields *)

Lemma need_date_digits (d : str) (issues : list str) :
  digits_n 8 d -> need_date (Some d) issues = Ret (Some d, true, issues).
Proof.
  intros D. unfold need_date. cbn [truthy as_str].
  rewrite (proj2 (digits_n_8_facts d D)). cbn [negb].
  rewrite (try_normalize_date_digits d D). cbn [bind truthy andb].
  rewrite (proj2 (digits_n_8_facts d D)). reflexivity.
Qed.

Lemma need_date_no (tok : str) (issues : list str) :
  date_of tok = None -> need_date (Some tok) issues = Ret (None, false, issues).
Proof.
  intros H. destruct (need_date_eq tok issues) as (iss & E). rewrite H in E.
  cbn [is_some] in E. destruct (need_date_not _ _ _ _ E) as [-> _]. exact E.
Qed.

Lemma date_of_strip (tok : str) : date_of (strip tok) = date_of tok.
Proof. unfold date_of. rewrite try_normalize_date_strip. reflexivity. Qed.

Lemma title_str_has_chr (c : ascii) (s : str) :
  not_title_chr c = true -> title_str s -> has_chr c s = false.
Proof.
  intros Hc T. unfold has_chr. induction T as [|x s Hx _ IH]; [reflexivity|].
  cbn [existsb]. rewrite IH, orb_false_r.
  destruct (chr_eqb c x) eqn:E; [| reflexivity].
  apply chr_eqb_eq in E. subst x. congruence.
Qed.

Lemma title_str_filter_id (s : str) :
  title_str s -> filter (fun c => negb (not_title_chr c)) s = s.
Proof.
  induction 1 as [|x s Hx _ IH]; [reflexivity|]. cbn [filter]. rewrite Hx, IH. reflexivity.
Qed.

(** An identifier of title characters needs no repair. *)
Lemma sanitize_id_any_clean (i : str) (issues : list str) (label : str) :
  title_str i -> sanitize_id_any i issues label = (i, issues).
Proof.
  intros T. unfold sanitize_id_any.
  rewrite (title_str_has_chr " " i eq_refl T). cbv beta iota.
  rewrite (title_str_has_chr "_" i eq_refl T). cbv beta iota.
  rewrite re_sub_Chr, (title_str_filter_id i T), str_eqb_refl. reflexivity.
Qed.

(** A CSI section in canonical form is not read as a date. *)
Lemma csi3_not_date (ds : str) :
  forallb is_digit ds = true -> List.length ds = 6 -> date_of (csi3 ds) = None.
Proof.
  intros A L.
  destruct ds as [|c1 [|c2 [|c3 [|c4 [|c5 [|c6 [|c7 ds]]]]]]]; try discriminate L.
  digit_chars A.
  unfold date_of, try_normalize_date, csi3, slice,
    DATE_RE_STRICT, RE_DATE_DASH, RE_DATE_MDY, RE_DATE_YMD, RE_DATE_9.
  ev. reflexivity.
Qed.

Lemma csi4_not_date (ds : str) :
  forallb is_digit ds = true -> List.length ds = 8 -> date_of (csi4 ds) = None.
Proof.
  intros A L.
  destruct ds as [|c1 [|c2 [|c3 [|c4 [|c5 [|c6 [|c7 [|c8 [|c9 ds]]]]]]]]];
    try discriminate L.
  digit_chars A.
  unfold date_of, try_normalize_date, csi4, slice,
    DATE_RE_STRICT, RE_DATE_DASH, RE_DATE_MDY, RE_DATE_YMD, RE_DATE_9.
  ev. reflexivity.
Qed.

(** So the CSI section that a branch keeps, which it read off a token
    that is not a date, is not read as a date either. *)
Lemma clean_csi_not_date (raw x : str) :
  clean_csi raw = Some x -> date_of raw = None -> date_of x = None.
Proof.
  intros C D. destruct (clean_csi_facts _ _ C) as (_ & _ & _ & _ & [-> | (ds & A & K)]).
  - rewrite date_of_strip. exact D.
  - destruct K as [[L ->] | [L ->]]; [apply csi3_not_date | apply csi4_not_date]; assumption.
Qed.

Ltac fields_branch :=
  cbn [opt_list app nonempty_list negb List.length Nat.ltb Nat.leb index nth_error bind
       first_date];
  repeat (first [ rewrite need_date_no by assumption
                | rewrite need_date_digits by assumption
                | rewrite sanitize_id_any_clean by assumption ];
          cbn [opt_list app nonempty_list negb List.length Nat.ltb Nat.leb index nth_error
               bind first_date Nat.eqb as_str]).

Section Fields.
Variable c : ctx.
Variable prefix d title rev : str.
Hypothesis Dd : digits_n 8 d.

Lemma branch_COR_date :
  branch_COR c prefix [d; title; rev] []
  = Ret (finalize c [] prefix None d (join "_" [title; rev]) None).
Proof. unfold branch_COR. fields_branch. reflexivity. Qed.

Lemma branch_QA_date :
  branch_QA c prefix [d; title; rev] []
  = Ret (finalize c [] prefix None d (join "_" [title; rev]) None).
Proof. unfold branch_QA. fields_branch. reflexivity. Qed.

Lemma branch_RE_date :
  branch_RE c prefix [d; title; rev] []
  = Ret (finalize c [] prefix None d (join "_" [title; rev]) None).
Proof. unfold branch_RE. fields_branch. reflexivity. Qed.

Lemma branch_STANDARD_date :
  branch_STANDARD c prefix [d; title; rev] []
  = Ret (finalize c [] prefix None d (join "_" [title; rev]) None).
Proof. unfold branch_STANDARD. fields_branch. reflexivity. Qed.

Lemma branch_CSI_optional_date :
  branch_CSI_optional None c prefix [d; title; rev] []
  = Ret (finalize c [] prefix None d (join "_" [title; rev]) None).
Proof. unfold branch_CSI_optional. fields_branch. reflexivity. Qed.

Variable i : str.
Hypothesis Ti : title_str i.
Hypothesis Ni : nonempty i = true.
Hypothesis Di : date_of i = None.

Lemma branch_QA_on_id :
  branch_QA c prefix [i; d; title; rev] []
  = Ret (finalize c [] prefix (Some i) d (join "_" [title; rev]) None).
Proof. unfold branch_QA. fields_branch. reflexivity. Qed.

Lemma branch_AU_on_id :
  branch_AU c prefix [i; d; title; rev] []
  = Ret (finalize c [] prefix (Some i) d (join "_" [title; rev]) None).
Proof. unfold branch_AU. fields_branch. reflexivity. Qed.

Lemma branch_ID_ANY_on_id :
  branch_ID_ANY c prefix [i; d; title; rev] []
  = Ret (finalize c [] prefix (Some i) d (join "_" [title; rev]) None).
Proof. unfold branch_ID_ANY. fields_branch. reflexivity. Qed.

Lemma branch_FDM_on_id :
  branch_FDM c prefix [i; d; title; rev] []
  = Ret (finalize c [] prefix (Some i) d (join "_" [title; rev]) None).
Proof.
  unfold branch_FDM. fields_branch. cbn [firstn sanitize_ids]. fields_branch.
  cbn [filter]. rewrite Ni. reflexivity.
Qed.

Hypothesis Si : strip i = i.
Hypothesis Ci : is_some (re_match RE_CSI3 i) || is_some (re_match RE_CSI4 i) = true.

Lemma branch_CSI_on_id :
  branch_CSI c prefix [i; d; title; rev] []
  = Ret (finalize c [] prefix (Some i) d (join "_" [title; rev]) None).
Proof.
  unfold branch_CSI. fields_branch. rewrite (normalize_csi_fixed i Si Ni Ci).
  cbn [truthy]. rewrite Ni. fields_branch. reflexivity.
Qed.

Lemma branch_CSI_optional_on_id (o : option str) :
  branch_CSI_optional o c prefix [i; d; title; rev] []
  = Ret (finalize c [] prefix (Some i) d (join "_" [title; rev]) None).
Proof.
  unfold branch_CSI_optional. fields_branch. rewrite (normalize_csi_fixed i Si Ni Ci).
  cbn [truthy]. rewrite Ni. fields_branch. reflexivity.
Qed.
End Fields.

(** ** The dispatcher on the fields of a suggestion *)

Lemma id_clean_of_clean (i : str) :
  title_str i -> nonempty i = true -> id_clean_of (Some i) = Some i.
Proof.
  intros T N. unfold id_clean_of. cbn [truthy as_str]. rewrite N.
  rewrite (replace_chr_us_free_id i (title_str_us_free i T)). reflexivity.
Qed.

(** The identifier that [assembled] gives is made of title characters. *)
Lemma assembled_id_str (prefix : str) (rest : list str) i d traw hr :
  assembled prefix rest = Some (Some i, d, traw, hr) -> title_str i.
Proof.
  assert (Qa : forall lbl r0, clean_any lbl r0 = Some i -> title_str i).
  { intros lbl r0 E. apply some_eq in E. subst i. apply sanitize_id_any_str. }
  assert (Qc : forall r0, clean_csi r0 = Some i -> title_str i).
  { intros r0 E. destruct (clean_csi_facts _ _ E) as (_ & _ & T & _). exact T. }
  assert (Ro : forall clean,
             (forall r0, clean r0 = Some i -> title_str i) ->
             id_optional clean rest = Some (Some i, d, traw, hr) -> title_str i).
  { intros clean Q K. destruct (id_optional_facts _ _ _ _ _ _ K) as ([E | (r0 & t & _ & _ & E & _)] & _);
      [discriminate E | exact (Q r0 (eq_sym E))]. }
  assert (Rr : forall clean,
             (forall r0, clean r0 = Some i -> title_str i) ->
             id_required clean rest = Some (Some i, d, traw, hr) -> title_str i).
  { intros clean Q K. destruct (id_required_facts _ _ _ _ _ _ K) as ((r0 & t & _ & _ & E & _) & _).
    exact (Q r0 (eq_sym E)). }
  assert (Rd : date_first rest = Some (Some i, d, traw, hr) -> title_str i).
  { intros K. destruct (date_first_facts _ _ _ _ _ K) as (E & _). discriminate E. }
  unfold assembled.
  destruct (str_eqb prefix "COR").
  { destruct (first_date_of rest 0) as [[k d']|]; discriminate. }
  destruct (str_eqb prefix "QA"); [exact (Ro _ (Qa _))|].
  destruct (str_eqb prefix "AU"); [exact (Rr _ (Qa _))|].
  destruct (str_eqb prefix "FDM").
  { destruct (first_date_of rest 0) as [[[|k] d']|]; try discriminate.
    cbv zeta. destruct (nonempty_list _); [| discriminate].
    intros K. apply some_eq, pair_eq in K. destruct K as [K _].
    apply pair3_eq in K. destruct K as (K & _). apply some_eq in K. subst i.
    apply join_dash_title, Forall_filter_str, sanitize_ids_str. }
  assert (G : (if mem prefix REQUIRES_ID_ANY then id_required (clean_any (id_label prefix)) rest
               else if mem prefix REQUIRES_CSI then id_required clean_csi rest
               else if str_eqb prefix "PN" then id_optional clean_csi rest
               else if str_eqb prefix "SP" then id_optional clean_csi rest
               else if str_eqb prefix "WR" then id_optional clean_csi rest
               else if str_eqb prefix "RE" then date_first rest
               else if mem prefix STANDARD_PREFIXES then date_first rest
               else None) = Some (Some i, d, traw, hr) -> title_str i).
  { destruct (mem prefix REQUIRES_ID_ANY); [exact (Rr _ (Qa _))|].
    destruct (mem prefix REQUIRES_CSI); [exact (Rr _ Qc)|].
    destruct (str_eqb prefix "PN"); [exact (Ro _ Qc)|].
    destruct (str_eqb prefix "SP"); [exact (Ro _ Qc)|].
    destruct (str_eqb prefix "WR"); [exact (Ro _ Qc)|].
    destruct (str_eqb prefix "RE"); [exact Rd|].
    destruct (mem prefix STANDARD_PREFIXES); [exact Rd | discriminate]. }
  destruct (str_eqb prefix "TF"); [| exact G].
  unfold tf_block. destruct rest as [|r0 t]; [discriminate|].
  destruct (date_of r0); [discriminate|].
  destruct t as [|r1 t]; [exact G|].
  destruct (date_of r1); [discriminate | exact G].
Qed.

(** The dispatcher, run on the fields of a suggestion, calls [finalize]
    on them, without a note: for a prefix other than [TF], with an
    identifier that is not read as a date and that is not empty unless
    the prefix is [QA], and given that a [WR] name has a CSI section. *)
Lemma dispatch_fields (c' : ctx) (prefix : str) (rest : list str) idp d traw hr
    (title rev : str) :
  assembled prefix rest = Some (idp, d, traw, hr) ->
  str_eqb prefix "TF" = false ->
  (str_eqb prefix "WR" = true -> is_some idp = true) ->
  (forall i, idp = Some i ->
             date_of i = None /\ (nonempty i = true \/ str_eqb prefix "QA" = true)) ->
  dispatch c' prefix (opt_list (id_clean_of idp) ++ [d; title; rev]) []
  = Ret (finalize c' [] prefix (id_clean_of idp) d (join "_" [title; rev]) None).
Proof.
  intros A NT W I.
  destruct (assembled_facts _ _ _ _ _ _ A) as [Dd _].
  assert (Hn : idp = None ->
               forall B : ctx -> str -> list str -> list str -> outcome verdict,
                 B c' prefix [d; title; rev] []
                 = Ret (finalize c' [] prefix None d (join "_" [title; rev]) None) ->
                 B c' prefix (opt_list (id_clean_of idp) ++ [d; title; rev]) []
                 = Ret (finalize c' [] prefix (id_clean_of idp) d (join "_" [title; rev]) None)).
  { intros -> B E. exact E. }
  assert (Hs : forall i, idp = Some i -> nonempty i = true ->
               title_str i /\ date_of i = None
               /\ forall B : ctx -> str -> list str -> list str -> outcome verdict,
                 B c' prefix [i; d; title; rev] []
                 = Ret (finalize c' [] prefix (Some i) d (join "_" [title; rev]) None) ->
                 B c' prefix (opt_list (id_clean_of idp) ++ [d; title; rev]) []
                 = Ret (finalize c' [] prefix (id_clean_of idp) d (join "_" [title; rev]) None)).
  { intros i -> N. pose proof (assembled_id_str _ _ _ _ _ _ A) as T.
    split; [exact T|]. split; [exact (proj1 (I i eq_refl))|].
    intros B E. rewrite (id_clean_of_clean i T N). exact E. }
  revert A. unfold assembled, dispatch.
  destruct (str_eqb prefix "COR").
  { intros A. apply Hn; [| apply branch_COR_date; exact Dd].
    destruct (first_date_of rest 0) as [[k d']|]; [| discriminate A].
    apply some_eq, pair_eq in A. destruct A as [A _].
    apply pair3_eq in A. destruct A as (<- & _). reflexivity. }
  destruct (str_eqb prefix "QA") eqn:Q.
  { intros A.
    destruct (id_optional_facts _ _ _ _ _ _ A) as ([E | (r0 & t & _ & _ & _ & E)] & _).
    - apply (Hn E). apply branch_QA_date. exact Dd.
    - destruct idp as [i|]; [| discriminate E]. destruct (nonempty i) eqn:N.
      + destruct (Hs i eq_refl N) as (T & D & K). apply K. apply branch_QA_on_id; assumption.
      + destruct i; [| discriminate N].
        change (branch_QA c' prefix [d; title; rev] []
                = Ret (finalize c' [] prefix None d (join "_" [title; rev]) None)).
        apply branch_QA_date. exact Dd. }
  assert (Ne : forall i, idp = Some i -> nonempty i = true).
  { intros i E. destruct (I i E) as [_ [N | N]]; [exact N | discriminate N]. }
  assert (Rq : forall (clean : str -> option str)
                      (B : ctx -> str -> list str -> list str -> outcome verdict),
             (forall i, title_str i -> nonempty i = true -> date_of i = None ->
                        (exists r0, clean r0 = Some i) ->
                        B c' prefix [i; d; title; rev] []
                        = Ret (finalize c' [] prefix (Some i) d (join "_" [title; rev]) None)) ->
             id_required clean rest = Some (idp, d, traw, hr) ->
             B c' prefix (opt_list (id_clean_of idp) ++ [d; title; rev]) []
             = Ret (finalize c' [] prefix (id_clean_of idp) d (join "_" [title; rev]) None)).
  { intros clean B HB A.
    destruct (id_required_facts _ _ _ _ _ _ A) as ((r0 & t & _ & _ & Ec & E) & _).
    destruct idp as [i|]; [| discriminate E].
    destruct (Hs i eq_refl (Ne i eq_refl)) as (T & D & K). apply K.
    apply HB; try assumption; [exact (Ne i eq_refl) | exists r0; symmetry; exact Ec]. }
  assert (Ro : forall (clean : str -> option str)
                      (B : ctx -> str -> list str -> list str -> outcome verdict),
             (idp = None ->
              B c' prefix [d; title; rev] []
              = Ret (finalize c' [] prefix None d (join "_" [title; rev]) None)) ->
             (forall i, title_str i -> nonempty i = true -> date_of i = None ->
                        (exists r0, clean r0 = Some i) ->
                        B c' prefix [i; d; title; rev] []
                        = Ret (finalize c' [] prefix (Some i) d (join "_" [title; rev]) None)) ->
             id_optional clean rest = Some (idp, d, traw, hr) ->
             B c' prefix (opt_list (id_clean_of idp) ++ [d; title; rev]) []
             = Ret (finalize c' [] prefix (id_clean_of idp) d (join "_" [title; rev]) None)).
  { intros clean B HD HB A.
    destruct (id_optional_facts _ _ _ _ _ _ A) as ([E | (r0 & t & _ & _ & Ec & E)] & _).
    - exact (Hn E B (HD E)).
    - destruct idp as [i|]; [| discriminate E].
      destruct (Hs i eq_refl (Ne i eq_refl)) as (T & D & K). apply K.
      apply HB; try assumption; [exact (Ne i eq_refl) | exists r0; symmetry; exact Ec]. }
  assert (Rd : forall B : ctx -> str -> list str -> list str -> outcome verdict,
             B c' prefix [d; title; rev] []
             = Ret (finalize c' [] prefix None d (join "_" [title; rev]) None) ->
             date_first rest = Some (idp, d, traw, hr) ->
             B c' prefix (opt_list (id_clean_of idp) ++ [d; title; rev]) []
             = Ret (finalize c' [] prefix (id_clean_of idp) d (join "_" [title; rev]) None)).
  { intros B HB A. destruct (date_first_facts _ _ _ _ _ A) as (E & _). exact (Hn E B HB). }
  assert (Cc : forall o i, title_str i -> nonempty i = true -> date_of i = None ->
               (exists r0, clean_csi r0 = Some i) ->
               branch_CSI_optional o c' prefix [i; d; title; rev] []
               = Ret (finalize c' [] prefix (Some i) d (join "_" [title; rev]) None)).
  { intros o i T N D (r0 & E). destruct (clean_csi_facts _ _ E) as (S0 & _ & _ & M & _).
    apply branch_CSI_optional_on_id; assumption. }
  destruct (str_eqb prefix "AU").
  { apply Rq. intros i T N D _. apply branch_AU_on_id; assumption. }
  destruct (str_eqb prefix "FDM").
  { intros A.
    destruct (first_date_of rest 0) as [[[|k] d']|]; try discriminate A.
    cbv zeta in A. destruct (nonempty_list _); [| discriminate A].
    destruct idp as [i|].
    2:{ apply some_eq, pair_eq in A. destruct A as [A _].
        apply pair3_eq in A. destruct A as (A & _). discriminate A. }
    destruct (Hs i eq_refl (Ne i eq_refl)) as (T & D & K). apply K.
    apply branch_FDM_on_id; try assumption. exact (Ne i eq_refl). }
  rewrite NT. cbn [bind].
  destruct (mem prefix REQUIRES_ID_ANY).
  { apply Rq. intros i T N D _. apply branch_ID_ANY_on_id; assumption. }
  destruct (mem prefix REQUIRES_CSI).
  { apply Rq. intros i T N D (r0 & E).
    destruct (clean_csi_facts _ _ E) as (S0 & _ & _ & M & _).
    apply branch_CSI_on_id; assumption. }
  destruct (str_eqb prefix "PN").
  { apply Ro; [intros _; apply branch_CSI_optional_date; exact Dd | apply Cc]. }
  destruct (str_eqb prefix "SP").
  { apply Ro; [intros _; apply branch_CSI_optional_date; exact Dd | apply Cc]. }
  destruct (str_eqb prefix "WR").
  { apply Ro; [| apply Cc]. intros E. specialize (W eq_refl). rewrite E in W. discriminate W. }
  destruct (str_eqb prefix "RE"); [apply Rd, branch_RE_date; exact Dd|].
  destruct (mem prefix STANDARD_PREFIXES); [apply Rd, branch_STANDARD_date; exact Dd|].
  discriminate.
Qed.

(** ** [finalize] on clean fields *)

(** A title that fits the budget is not cut. *)
Lemma enforce_fits (prefix : str) (idc : option str) (date title rev : str)
    (notes : list str) :
  nonempty title = true ->
  (len (join "_" (fields prefix idc date title rev)) <= MAX_CHARS_TOTAL)%Z ->
  enforce_stem_limit prefix idc date title rev notes = (title, notes).
Proof.
  intros N L. unfold enforce_stem_limit. cbv zeta.
  change (match idc with Some i => i | None => [] end) with (as_str idc).
  match goal with
  | |- context [(?X >? MAX_CHARS_TOTAL)%Z] =>
      assert (E : X = len (join "_" (fields prefix idc date title rev)))
  end.
  { unfold len. rewrite length_fields_join, N.
    destruct idc as [i|]; cbn [truthy as_str]; [destruct (nonempty i) |]; cbv beta iota;
      rewrite ?length_app; cbn [List.length lit list_ascii_of_string]; lia. }
  rewrite E. destruct (_ >? _)%Z eqn:G; [| reflexivity].
  apply Z.gtb_lt in G. lia.
Qed.

(** The identifier that [assembled] gives, cleaned: no identifier, or a
    non-empty one of title characters, which cleaning leaves alone. *)
Lemma assembled_id_ok (prefix : str) (rest : list str) idp d traw hr :
  assembled prefix rest = Some (idp, d, traw, hr) ->
  id_ok (id_clean_of idp) /\ id_clean_of (id_clean_of idp) = id_clean_of idp.
Proof.
  intros A. destruct idp as [i|]; [| split; [exact I | reflexivity]].
  pose proof (assembled_id_str _ _ _ _ _ _ A) as T.
  destruct (nonempty i) eqn:N.
  - rewrite (id_clean_of_clean i T N). split; [split; assumption|].
    exact (id_clean_of_clean i T N).
  - destruct i; [| discriminate N]. split; [exact I | reflexivity].
Qed.

(** On a title that needs no repair and fits the budget, joined with a
    canonical revision, [finalize] assembles the fields as they are,
    without a note. *)
Lemma finalize_fields (c' : ctx) (prefix : str) (id_part : option str)
    (date title rev : str) :
  us_free prefix -> nonempty prefix = true -> digits_n 8 date ->
  id_clean_of id_part = id_part ->
  title_str title -> nonempty title = true -> sanitize_title title [] = (title, []) ->
  canon_rev rev ->
  (len (join "_" (fields prefix id_part date title rev)) <= MAX_CHARS_TOTAL)%Z ->
  finalize c' [] prefix id_part date (join "_" [title; rev]) None
  = (Some (join "_" (fields prefix id_part date title rev) ++ ext c'), [],
     negb (str_eqb (join "_" (fields prefix id_part date title rev) ++ ext c')
             (original c'))).
Proof.
  intros Up Np Dd Hid Tt Nt St Cr L. unfold finalize.
  destruct (finalize_stem_unfold [] prefix id_part date (join "_" [title; rev]) None
              Up Np Dd no_hard_rev)
    as (tnr' & rn' & iss1' & title0' & iss2' & title' & iss3' & E1' & E2' & E3' & Ef' & _).
  cbn [truthy] in *. cbv beta iota zeta in *.
  destruct Cr as (ds & -> & Dg).
  pose proof (eq_trans (eq_sym (extract_rev_again title ds (title_str_us_free _ Tt)
                                  (sanitize_title_fixed_rstrip title Tt St) Dg)) E1') as K.
  apply pair3_eq in K. destruct K as (<- & <- & <-).
  rewrite St in E2'. apply pair_eq in E2'. destruct E2' as (<- & <-).
  rewrite Hid in E3', Ef'.
  rewrite (enforce_fits prefix id_part date title (lit "Rev" ++ ds) [] Nt L) in E3'.
  apply pair_eq in E3'. destruct E3' as (<- & <-).
  rewrite Ef', Nt. reflexivity.
Qed.

(** ** Idempotence *)

(** C1, as the specification states it, fails in several ways. A name
    without a title is given [Rev0] and audited again with notes; a
    canonical [TF] name is answered with a note at every pass, and so is
    a [WR] name without a CSI section; a title that ends in several
    extension words loses one per pass, so the suggestion changes again;
    an identifier that turns into a date once its space is removed makes
    the suggestion non-compliant, and so does an identifier that is
    sanitized to nothing; a suggestion that begins with an exempt prefix
    is skipped; and an [FDM] identifier joined from two tokens can be a
    date at the second pass. None of these first passes has a truncation
    note. *)
Lemma audit_not_idempotent :
  (audit_filename (lit "COR_20240115.pdf")
   = Ret (Some (lit "COR_20240115_Rev0.pdf"), [note_rev_added; note_underscore_count], true)
   /\ audit_filename (lit "COR_20240115_Rev0.pdf")
      = Ret (Some (lit "COR_20240115_Rev0.pdf"),
             [note_rev_normalized; note_underscore_count], false))
  /\ (audit_filename (lit "TF_20240310_SiteMap_Rev1.pdf")
      = Ret (Some (lit "TF_20240310_SiteMap_Rev1.pdf"), [note_tf_no_form], false))
  /\ (audit_filename (lit "WR_20240101_T_Rev1.pdf")
      = Ret (Some (lit "WR_20240101_T_Rev1.pdf"), [note_wr_no_csi], false))
  /\ (audit_filename (lit "COR_20240101_xpdfpdfpdf_Rev1.pdf")
      = Ret (Some (lit "COR_20240101_xpdf_Rev1.pdf"),
             [note_ext; note_ext; note_normalized_title], true)
      /\ audit_filename (lit "COR_20240101_xpdf_Rev1.pdf")
         = Ret (Some (lit "COR_20240101_x_Rev1.pdf"), [note_ext; note_normalized_title], true))
  /\ (audit_filename (lit "AU_2024 0101_20240102_T_Rev1.pdf")
      = Ret (Some (lit "AU_20240101_20240102_T_Rev1.pdf"),
             [lit "Removed spaces from Audit-ID."], true)
      /\ suggestion_of (audit_filename (lit "AU_20240101_20240102_T_Rev1.pdf"))
         = Some (Some (lit "")))
  /\ (audit_filename (lit "AU_#_20240101_T_Rev1.pdf")
      = Ret (Some (lit "AU_20240101_T_Rev1.pdf"),
             [lit "Removed special characters from Audit-ID."], true)
      /\ suggestion_of (audit_filename (lit "AU_20240101_T_Rev1.pdf"))
         = Some (Some (lit "")))
  /\ (audit_filename (lit "_IDR_20240101_T_Rev1.pdf")
      = Ret (Some (lit "IDR_20240101_T_Rev1.pdf"), [], true)
      /\ audit_filename (lit "IDR_20240101_T_Rev1.pdf") = Ret (None, [], false))
  /\ (audit_filename (lit "FDM_2024_01-01_20240101_T_Rev1.pdf")
      = Ret (Some (lit "FDM_2024-01-01_20240101_T_Rev1.pdf"), [], true)
      /\ suggestion_of (audit_filename (lit "FDM_2024-01-01_20240101_T_Rev1.pdf"))
         = Some (Some (lit ""))).
Proof. repeat split; vm_compute; reflexivity. Qed.

(** A truncated title is not a fixed point in general either: the cut
    can leave a hyphen at the end of the title, which the second pass
    strips. *)
Lemma truncation_not_fixed :
  audit_filename
    (lit "COR_20240101_AAAAAAAAAAAAAAAAAAAAAAAAAAAAAAAAAAAAAAAAAAAAA-BBB_Rev1.pdf")
  = Ret (Some (lit "COR_20240101_AAAAAAAAAAAAAAAAAAAAAAAAAAAAAAAAAAAAAAAAAAAAA-_Rev1.pdf"),
         [note_truncated], true)
  /\ audit_filename
       (lit "COR_20240101_AAAAAAAAAAAAAAAAAAAAAAAAAAAAAAAAAAAAAAAAAAAAA-_Rev1.pdf")
     = Ret (Some (lit "COR_20240101_AAAAAAAAAAAAAAAAAAAAAAAAAAAAAAAAAAAAAAAAAAAAA_Rev1.pdf"),
            [], true).
Proof. split; vm_compute; reflexivity. Qed.

(** C1, amended. Let [audit_filename] return a non-empty suggestion for
    a name, with any notes, and let the identifier, the date, the raw
    title and the fixed revision be what the branch of the prefix read off
    the tokens. Auditing the suggestion returns the same suggestion, no
    note, and the changed flag unset, provided that: the title of the
    suggestion (the sanitized title after the length budget) is not empty
    and is returned as it is, without a note, by [sanitize_title]; the
    prefix is not [TF]; a [WR] name has a CSI section; the identifier, if
    there is one, is not read as a date, and is not empty unless the
    prefix is [QA]; and the suggestion does not begin with one of the
    exempt prefixes. *)
Theorem audit_idempotent (name s : str) (notes : list str) (ch : bool)
    (id_part : option str) (date title_raw : str) (hard_rev : option str) :
  audit_filename name = Ret (Some s, notes, ch) -> nonempty s = true ->
  assembled (name_prefix name) (skipn 1 (name_tokens name))
  = Some (id_part, date, title_raw, hard_rev) ->
  nonempty (title_cut (name_prefix name) (id_clean_of id_part) date title_raw hard_rev)
  = true ->
  sanitize_title
    (title_cut (name_prefix name) (id_clean_of id_part) date title_raw hard_rev) []
  = (title_cut (name_prefix name) (id_clean_of id_part) date title_raw hard_rev, []) ->
  str_eqb (name_prefix name) "TF" = false ->
  implb (str_eqb (name_prefix name) "WR") (is_some id_part) = true ->
  match id_part with
  | Some i => date_of i = None
              /\ (nonempty i = true \/ str_eqb (name_prefix name) "QA" = true)
  | None => True
  end ->
  existsb (fun ig => startswith ig s) IGNORE_PREFIXES = false ->
  audit_filename s = Ret (Some s, [], false).
Proof.
  intros H N A Nt St NT W Hid Hi.
  destruct (audit_filename_assembled name s notes ch H N)
    as (m & _ & _ & _ & _ & _ & Pm & _).
  destruct (audit_filename_pinned name s notes ch H N)
    as (idp & d & traw & hr & A' & Hp).
  rewrite A in A'. apply some_eq, pair_eq in A'. destruct A' as [A' <-].
  apply pair3_eq in A'. destruct A' as (<- & <- & <-).
  cbv zeta in Hp.
  destruct Hp as (iss2 & iss3 & Es & _ & _ & Up & Np & Dd & Cr & T0 & (k & K) & _ & B).
  destruct (assembled_id_ok _ _ _ _ _ _ A) as [Iok Idem].
  set (prefix := name_prefix name) in *.
  set (idc := id_clean_of id_part) in *.
  set (rev := rev_of title_raw hard_rev) in *.
  set (title := title_cut prefix idc date title_raw hard_rev) in *.
  assert (Tt : title_str title) by (rewrite K; apply Forall_firstn_str; exact T0).
  assert (L : (len (join "_" (fields prefix idc date title rev)) <= MAX_CHARS_TOTAL)%Z).
  { destruct B as [L | [Ne _]]; [exact L | rewrite Nt in Ne; discriminate Ne]. }
  assert (Ef : fields prefix idc date title rev
               = prefix :: opt_list idc ++ [date; title; rev]).
  { rewrite <- Idem at 1. exact (fields_opt_list prefix idc date title rev Iok Nt). }
  set (rest' := opt_list idc ++ [date; title; rev]) in *.
  assert (Ff : Forall field_str (prefix :: rest')).
  { constructor; [exact (prefix_field _ m Pm)|]. unfold rest'.
    apply Forall_app. split.
    - destruct idc as [i|]; cbn [opt_list]; [| constructor].
      constructor; [apply title_str_field; exact (proj2 Iok) | constructor].
    - constructor; [exact (digits_field _ (proj1 Dd))|].
      constructor; [exact (title_str_field _ Tt)|].
      constructor; [exact (canon_rev_field _ Cr) | constructor]. }
  assert (Fn : Forall (fun w => nonempty w = true) (prefix :: rest')).
  { constructor; [exact Np|]. unfold rest'. apply Forall_app. split.
    - destruct idc as [i|]; cbn [opt_list]; [| constructor].
      constructor; [exact (proj1 Iok) | constructor].
    - constructor; [exact (proj2 (digits_n_8_facts _ Dd))|].
      constructor; [exact Nt|].
      constructor; [exact (canon_rev_truthy _ Cr) | constructor]. }
  assert (Nl : nonempty_list rest' = true) by (unfold rest'; destruct idc; reflexivity).
  assert (Hx : exists x t, prefix = x :: t /\ is_space x = false).
  { destruct (prefix_match_upper _ m Pm) as (x & t & E & U).
    exists x, t. split; [exact E | exact (upper_not_space x U)]. }
  assert (Hd : exists l c, join "_" (prefix :: rest') = l ++ [c] /\ is_space c = false).
  { destruct (fields_last prefix idc date title rev Cr) as (l & c & E & Dc).
    exists l, c. split; [rewrite <- Ef; exact E | exact (digit_not_space c Dc)]. }
  assert (R : forall c',
             dispatch c' prefix rest' []
             = Ret (finalize c' [] prefix idc date (join "_" [title; rev]) None)).
  { intros c'.
    apply (dispatch_fields c' prefix _ id_part date title_raw hard_rev title rev A NT).
    - intros E. rewrite E in W. exact W.
    - intros i E. rewrite E in Hid. exact Hid. }
  rewrite Ef in Es, L. subst s.
  rewrite (audit_filename_tokens (name_ext name) prefix rest' m
             Ff Fn Nl Hx Hd (name_ext_cases name) Pm Hi).
  rewrite R.
  rewrite (finalize_fields _ prefix idc date title rev Up Np Dd Idem Tt Nt St Cr
             ltac:(rewrite Ef; exact L)).
  rewrite Ef. cbn [ext original]. rewrite str_eqb_refl. reflexivity.
Qed.

Lemma audit_idempotent_witness :
  audit_filename (lit "FDM_T1-C2_20240101_MyTitle_Rev0.pdf")
  = Ret (Some (lit "FDM_T1-C2_20240101_MyTitle_Rev0.pdf"), [], false).
Proof.
  apply (audit_idempotent (lit "FDM_T 1_C2_2024-01-01_My Title.pdf")
           (lit "FDM_T1-C2_20240101_MyTitle_Rev0.pdf")
           [lit "Normalized date from YYYY-MM-DD"; lit "Removed spaces from ID.";
            note_rev_added; lit "Removed spaces from title."; note_normalized_title]
           true (Some (lit "T1-C2")) (lit "20240101") (lit "My Title") None).
  - vm_compute. reflexivity.
  - reflexivity.
  - vm_compute. reflexivity.
  - vm_compute. reflexivity.
  - vm_compute. reflexivity.
  - vm_compute. reflexivity.
  - vm_compute. reflexivity.
  - split; [vm_compute; reflexivity | left; reflexivity].
  - vm_compute. reflexivity.
Defined.

(** * The writer *)

(** ** The writer's rows *)

(** [safe_str] returns a stripped string. *)
Lemma safe_str_stripped (x : cell) : strip (safe_str x) = safe_str x.
Proof.
  destruct x as [|s|[|] r]; cbn [safe_str]; try reflexivity; apply strip_idem.
Qed.

(** A verdict with a suggestion for a name that is not blank: the
    suggestion is empty only with a note, and the flag tells whether the
    suggestion differs from the stripped name. *)
Lemma audit_filename_suggestion (name s : str) (notes : list str) (ch : bool) :
  nonempty (strip name) = true ->
  audit_filename name = Ret (Some s, notes, ch) ->
  (nonempty s = false -> notes <> [])
  /\ ch = negb (str_eqb s (strip name)).
Proof.
  intros N H.
  destruct (audit_filename_shape name _ H) as [[N' _] | [E | [[_ R] | [_ [F [m P]]]]]].
  - congruence.
  - discriminate E.
  - destruct R as (n0 & n & E & _). apply verdict_eq in E. destruct E as (-> & -> & ->).
    split; [intros _; destruct n0; discriminate|].
    destruct (strip name); [discriminate N | reflexivity].
  - split.
    + destruct (finalized_nonempty _ _ m _ P F) as (x & t & n' & ch' & E).
      apply verdict_eq in E. destruct E as (-> & _). discriminate.
    + destruct F as (issues & idp & date & traw & hr & E & _). unfold finalize in E.
      destruct (finalize_stem issues (name_prefix name) idp date traw hr) as [stem n].
      apply verdict_eq in E. destruct E as (-> & _ & ->).
      rewrite name_original. reflexivity.
Qed.

Lemma audit_filename_returns (name : str) : exists v, audit_filename name = Ret v.
Proof.
  unfold audit_filename.
  destruct (negb (nonempty (strip name))); [eauto|].
  destruct (existsb _ IGNORE_PREFIXES); [eauto|].
  destruct (tokenize name) as [[c tokens] issues].
  destruct tokens as [|prefix [|t1 tokens]];
    cbn [List.length Nat.ltb Nat.leb]; try (eexists; reflexivity).
  cbn [index nth_error bind skipn].
  destruct (negb (is_some (re_match PREFIX_RE prefix))); [eexists; reflexivity|].
  apply dispatch_total.
Qed.

(** X16. A row gets the status "OK" exactly when [audit_filename] returns
    the stripped cell text itself, with no note and the flag unset; the row
    then has the green dot, an empty new name and empty notes, and counts
    as compliant. *)
Theorem row_ok (raw : cell) (out : row_cells) (key : stat_key) :
  process_row raw = Ret (out, key) ->
  (status_value out = Some (lit "OK")
   <-> audit_filename (safe_str raw) = Ret (Some (safe_str raw), [], false))
  /\ (status_value out = Some (lit "OK") ->
      out = RowCells (Some GREEN_DOT_FONT) (Some (lit "OK")) (Some (lit "")) (Some (lit ""))
      /\ key = Compliant).
Proof.
  unfold process_row. pose proof (safe_str_stripped raw) as St.
  set (f := safe_str raw) in *. clearbody f.
  destruct (nonempty f) eqn:N; cbn [negb].
  2:{ intros E. apply ret_eq, pair_eq in E. destruct E as [<- <-]. cbn [status_value].
      destruct f; [| discriminate N].
      split; [split|]; intros H; try (apply some_eq in H); vm_compute in H; discriminate H. }
  destruct (existsb _ IGNORE_PREFIXES) eqn:X.
  { intros E. apply ret_eq, pair_eq in E. destruct E as [<- <-]. cbn [status_value].
    split; [split|]; try discriminate.
    unfold audit_filename. rewrite St, N, X. cbn [negb]. discriminate. }
  destruct (audit_filename f) as [[[sug notes] ch]|e] eqn:A; cbn [bind]; [| discriminate].
  destruct sug as [s|].
  2:{ intros E. apply ret_eq, pair_eq in E. destruct E as [<- <-]. cbn [status_value].
      split; [split|]; discriminate. }
  assert (N' : nonempty (strip f) = true) by (rewrite St; exact N).
  destruct (audit_filename_suggestion f s notes ch N' A) as [Hs Hc]. rewrite St in Hc.
  intros E. apply ret_eq, pair_eq in E. destruct E as [<- <-]. cbn [status_value].
  destruct notes as [|n notes]; cbn [nonempty_list orb].
  - destruct (nonempty s) eqn:Ns; [| exfalso; exact (Hs eq_refl eq_refl)].
    cbn [andb]. destruct (str_eqb s f) eqn:Q; cbn [negb] in *.
    + apply str_eqb_eq in Q. subst s ch. split; [split|]; auto.
    + split; [split|].
      * intros H. apply some_eq in H. vm_compute in H. discriminate H.
      * intros H. apply ret_eq, verdict_eq in H. destruct H as (-> & _).
        rewrite str_eqb_refl in Q. discriminate Q.
      * intros H. apply some_eq in H. vm_compute in H. discriminate H.
  - split; [split|].
    + intros H. apply some_eq in H. vm_compute in H. discriminate H.
    + intros H. apply ret_eq, verdict_eq in H. destruct H as (_ & H & _). discriminate H.
    + intros H. apply some_eq in H. vm_compute in H. discriminate H.
Qed.

Lemma row_ok_witness :
  (status_value (RowCells (Some GREEN_DOT_FONT) (Some (lit "OK")) (Some (lit "")) (Some (lit "")))
     = Some (lit "OK")
   <-> audit_filename (safe_str (CStr (lit " COR_20240115_Title_Rev1.pdf ")))
       = Ret (Some (safe_str (CStr (lit " COR_20240115_Title_Rev1.pdf "))), [], false))
  /\ (status_value (RowCells (Some GREEN_DOT_FONT) (Some (lit "OK")) (Some (lit "")) (Some (lit "")))
        = Some (lit "OK") ->
      RowCells (Some GREEN_DOT_FONT) (Some (lit "OK")) (Some (lit "")) (Some (lit ""))
      = RowCells (Some GREEN_DOT_FONT) (Some (lit "OK")) (Some (lit "")) (Some (lit ""))
      /\ Compliant = Compliant).
Proof.
  apply (row_ok (CStr (lit " COR_20240115_Title_Rev1.pdf "))). vm_compute. reflexivity.
Defined.
(** ** The writer's counters *)

Lemma process_row_returns (raw : cell) : exists r, process_row raw = Ret r.
Proof.
  unfold process_row.
  destruct (negb (nonempty (safe_str raw))); [eauto|].
  destruct (existsb _ IGNORE_PREFIXES); [eauto|].
  destruct (audit_filename_returns (safe_str raw)) as ([[sug notes] ch] & ->). cbn [bind].
  destruct sug; eauto.
Qed.

Lemma tally_total_incr (key : stat_key) (t : tally) :
  tally_total (incr key t) = S (tally_total t).
Proof. destruct key, t; unfold tally_total; cbn; lia. Qed.

Lemma count_of_incr (key k : stat_key) (t : tally) :
  count_of key (incr k t) = count_of key t + same_key key k.
Proof. destruct key, k, t; cbn; lia. Qed.

Lemma company_sum_cons (key : stat_key) (c : str) (t : tally) (d : list (str * tally)) :
  company_sum key ((c, t) :: d) = count_of key t + company_sum key d.
Proof. reflexivity. Qed.

Lemma company_sum_bump_entry (key k : stat_key) (company : str) (d : list (str * tally)) :
  company_sum key (bump_entry company k d) = company_sum key d + same_key key k.
Proof.
  induction d as [|[c t] d IH]; cbn [bump_entry].
  - rewrite company_sum_cons, count_of_incr. destruct key, k; cbn; lia.
  - destruct (str_eqb c company); rewrite !company_sum_cons.
    + rewrite count_of_incr. lia.
    + rewrite IH. lia.
Qed.

Lemma process_rows_counts (rows : list (cell * option cell)) :
  forall stats by_company,
  exists outs stats' by_company',
    process_rows rows stats by_company = Ret (outs, stats', by_company')
    /\ List.length outs = List.length rows
    /\ tally_total stats' = tally_total stats + List.length rows
    /\ forall key,
         company_sum key by_company' + count_of key stats
         = company_sum key by_company + count_of key stats'.
Proof.
  induction rows as [|[raw cc] rows IH]; intros stats by_company; cbn [process_rows].
  - exists [], stats, by_company. cbn [List.length]. repeat split; lia.
  - destruct (process_row_returns raw) as ([out k] & ->). cbn [bind].
    set (company := match cc with Some x => safe_str x | None => lit "Unknown" end).
    destruct (IH (incr k stats) (bump company k by_company))
      as (outs & st' & bc' & -> & L & T & S). cbn [bind].
    exists (out :: outs), st', bc'. cbn [List.length].
    split; [reflexivity|]. split; [lia|]. split.
    + rewrite T, tally_total_incr. lia.
    + intros key. specialize (S key). unfold bump in S.
      rewrite company_sum_bump_entry, count_of_incr in S. lia.
Qed.

(** X17. Auditing and counting the rows never fails; from empty counters
    the row loop returns one set of cells per row, the four counters of
    [stats] add up to the number of rows, and every counter of [stats] is
    the sum of that counter over the companies of [by_company]. *)
Theorem counters_add_up (rows : list (cell * option cell)) :
  exists outs stats by_company,
    process_rows rows tally_zero [] = Ret (outs, stats, by_company)
    /\ List.length outs = List.length rows
    /\ tally_total stats = List.length rows
    /\ forall key, company_sum key by_company = count_of key stats.
Proof.
  destruct (process_rows_counts rows tally_zero []) as (outs & st & bc & E & L & T & S).
  exists outs, st, bc. split; [exact E|]. split; [exact L|]. split; [exact T|].
  intros key. specialize (S key).
  assert (Z : count_of key tally_zero = 0) by (destruct key; reflexivity).
  rewrite Z in S. change (company_sum key []) with 0 in S. lia.
Qed.

(** ** Sheets given by their rows *)

Lemma row_length_bound (rows : list (list cell)) (i : nat) :
  List.length (nth i rows [])
  <= fold_right (fun row m => Nat.max (List.length row) m) 0 rows.
Proof.
  revert i. induction rows as [|row rows IH]; intros i; cbn [fold_right].
  - destruct i; cbn; lia.
  - destruct i as [|i]; cbn [nth]; [lia|]. specialize (IH i). lia.
Qed.

Lemma sheet_of_rows_wf (rows : list (list cell)) : sheet_wf (sheet_of_rows rows).
Proof.
  intros r c H. unfold sheet_of_rows in *. cbn [cell_value max_row max_column] in *.
  destruct r as [|r]; [reflexivity|]. destruct c as [|c]; [reflexivity|].
  apply nth_overflow. destruct H as [H | H].
  - rewrite (nth_overflow rows []) by lia. cbn. lia.
  - pose proof (row_length_bound rows r). lia.
Qed.
(** ** The last row of the file-name column *)

Section LastRow.
Variable ws : sheet.
Variable col : nat.

(** What the scan returns, started at row [r] with the last non-blank row
    [last] and the rows between them blank. *)
Lemma scan_rows_spec (steps : nat) :
  forall r last,
    last < r -> r - last <= 5 ->
    (forall x, last < x -> x < r -> blank_at ws col x = true) ->
    let res := scan_rows ws col steps r last (r - 1 - last) in
    last <= res
    /\ (res = last \/ (r <= res /\ blank_at ws col res = false))
    /\ (forall x, res < x -> x < r + steps -> x <= res + 5 -> blank_at ws col x = true)
    /\ ((forall x, res < x -> x <= res + 5 -> blank_at ws col x = true) \/ r + steps <= res + 5)
    /\ (forall x, last < x -> x <= res ->
          exists y, x <= y /\ y < x + 5 /\ y <= res /\ blank_at ws col y = false).
Proof.
  induction steps as [|steps IH]; intros r last L S Bl; cbn [scan_rows].
  - cbv zeta. split; [lia|]. split; [left; reflexivity|]. split.
    + intros x H1 H2 _. apply Bl; lia.
    + split; [right; lia|]. intros x H1 H2. lia.
  - change (is_blank (cell_value ws r col)) with (blank_at ws col r). destruct (blank_at ws col r) eqn:Br.
    + cbv zeta. destruct (5 <=? r - 1 - last + 1) eqn:F.
      * apply Nat.leb_le in F. split; [lia|]. split; [left; reflexivity|]. split.
        { intros x H1 H2 H3. destruct (Nat.eq_dec x r) as [->|]; [exact Br|]. apply Bl; lia. }
        split; [| intros x H1 H2; lia].
        left. intros x H1 H2. destruct (Nat.eq_dec x r) as [->|]; [exact Br|]. apply Bl; lia.
      * apply Nat.leb_gt in F.
        assert (Bl' : forall x, last < x -> x < r + 1 -> blank_at ws col x = true).
        { intros x H1 H2. destruct (Nat.eq_dec x r) as [->|]; [exact Br|]. apply Bl; lia. }
        replace (r - 1 - last + 1) with (r + 1 - 1 - last) by lia.
        destruct (IH (r + 1) last ltac:(lia) ltac:(lia) Bl') as (I1 & I2 & I3 & I4 & I5).
        cbv zeta in *.
        set (res := scan_rows ws col steps (r + 1) last (r + 1 - 1 - last)) in *.
        split; [exact I1|]. split.
        { destruct I2 as [I2 | [I2 I2']]; [left; exact I2 | right; split; [lia | exact I2']]. }
        split; [intros x H1 H2 H3; apply I3; lia|].
        split; [| exact I5].
        destruct I4 as [I4 | I4]; [left; exact I4 | right; lia].
    + assert (Bl' : forall x, r < x -> x < r + 1 -> blank_at ws col x = true) by (intros; lia).
      pose proof (IH (r + 1) r ltac:(lia) ltac:(lia) Bl') as I.
      replace (r + 1 - 1 - r) with 0 in I by lia. cbv zeta in *.
      set (res := scan_rows ws col steps (r + 1) r 0) in *.
      destruct I as (I1 & I2 & I3 & I4 & I5).
      split; [lia|]. split.
      { right. destruct I2 as [-> | [I2 I2']]; [split; [lia | exact Br] | split; [lia | exact I2']]. }
      split; [intros x H1 H2 H3; apply I3; lia|].
      split; [destruct I4 as [I4 | I4]; [left; exact I4 | right; lia]|].
      intros x H1 H2. destruct (Nat.le_gt_cases x r) as [Hx | Hx].
      * exists r. repeat split; try lia. exact Br.
      * apply I5; lia.
Qed.

Lemma last_row_unique (header_row l1 l2 : nat) :
  last_row_of ws col header_row l1 -> last_row_of ws col header_row l2 -> l1 = l2.
Proof.
  assert (K : forall a b, last_row_of ws col header_row a -> last_row_of ws col header_row b
                          -> ~ a < b).
  { intros a b (A1 & _ & A3 & _) (_ & _ & _ & B4) L.
    destruct (B4 (a + 1) ltac:(lia) ltac:(lia)) as (y & Y1 & Y2 & _ & Y4).
    rewrite (A3 y) in Y4; [discriminate | lia | lia]. }
  intros H1 H2. pose proof (K _ _ H1 H2). pose proof (K _ _ H2 H1). lia.
Qed.

Lemma scan_rows_last (header_row steps : nat) :
  (forall r, max_row ws < r -> cell_value ws r col = CNone) ->
  max_row ws - header_row <= steps ->
  last_row_of ws col header_row (scan_rows ws col steps (header_row + 1) header_row 0).
Proof.
  intros Wf St.
  assert (Bl : forall x, header_row < x -> x < header_row + 1 -> blank_at ws col x = true) by (intros; lia).
  pose proof (scan_rows_spec steps (header_row + 1) header_row ltac:(lia) ltac:(lia) Bl) as I.
  replace (header_row + 1 - 1 - header_row) with 0 in I by lia. cbv zeta in I.
  set (res := scan_rows ws col steps (header_row + 1) header_row 0) in *.
  destruct I as (I1 & I2 & I3 & I4 & I5).
  split; [exact I1|]. split; [destruct I2 as [I2 | [_ I2]]; auto|]. split; [| exact I5].
  intros r H1 H2. destruct I4 as [I4 | I4]; [apply I4; assumption|].
  destruct (Nat.lt_ge_cases r (header_row + 1 + steps)) as [Hr | Hr]; [apply I3; assumption|].
  unfold blank_at. rewrite Wf; [reflexivity | lia].
Qed.

Lemma scan_rows_gap (header_row steps g : nat) :
  header_row <= g ->
  (forall r, g < r -> r <= g + 5 -> is_blank (cell_value ws r col) = true) ->
  scan_rows ws col steps (header_row + 1) header_row 0 <= g.
Proof.
  intros Hg G.
  assert (Bl : forall x, header_row < x -> x < header_row + 1 -> blank_at ws col x = true) by (intros; lia).
  pose proof (scan_rows_spec steps (header_row + 1) header_row ltac:(lia) ltac:(lia) Bl) as I.
  replace (header_row + 1 - 1 - header_row) with 0 in I by lia. cbv zeta in I.
  set (res := scan_rows ws col steps (header_row + 1) header_row 0) in *.
  destruct I as (_ & _ & _ & _ & I5).
  destruct (Nat.le_gt_cases res g) as [H | H]; [exact H | exfalso].
  destruct (I5 (g + 1) ltac:(lia) ltac:(lia)) as (y & Y1 & Y2 & _ & Y4).
  unfold blank_at in Y4. rewrite G in Y4; [discriminate | lia | lia].
Qed.

End LastRow.

(** X18. On a sheet with no value below [max_row], [find_last_row]
    returns, for a column that has a letter, the one row that is the
    header row or holds a value, is followed by five blank rows, and is
    reached from the header row without crossing five blank rows in a
    row. *)
Theorem find_last_row_spec (ws : sheet) (col_idx header_row : nat) :
  (1 <=? col_idx) && (col_idx <=? MAX_COLUMN) = true ->
  (forall r, max_row ws < r -> cell_value ws r col_idx = CNone) ->
  exists last,
    find_last_row ws col_idx header_row = Ret last
    /\ last_row_of ws col_idx header_row last
    /\ forall last', last_row_of ws col_idx header_row last' -> last' = last.
Proof.
  intros C Wf. unfold find_last_row. rewrite C.
  eexists. split; [reflexivity|].
  assert (L : last_row_of ws col_idx header_row
                (scan_rows ws col_idx (max_row ws + 200 - header_row) (header_row + 1)
                   header_row 0)) by (apply scan_rows_last; [exact Wf | lia]).
  split; [exact L|]. intros last' L'. exact (last_row_unique _ _ _ _ _ L' L).
Qed.

(** X19. Rows below five blank rows in a row are never reached: when the
    five rows after a row [g], at or below the header row, are blank in
    the column, [find_last_row] returns a row that is not below [g]. *)
Theorem find_last_row_gap (ws : sheet) (col_idx header_row g last : nat) :
  header_row <= g ->
  (forall r, g < r -> r <= g + 5 -> is_blank (cell_value ws r col_idx) = true) ->
  find_last_row ws col_idx header_row = Ret last ->
  last <= g.
Proof.
  intros Hg G. unfold find_last_row.
  destruct ((1 <=? col_idx) && (col_idx <=? MAX_COLUMN)); [| discriminate].
  intros E. apply ret_eq in E. subst last. apply scan_rows_gap; assumption.
Qed.

(** X20. The margin of 200 rows in the loop condition of [find_last_row]
    decides nothing on a sheet with no value below [max_row]: the scan
    returns the same row for every bound that reaches [max_row]. *)
Theorem find_last_row_margin (ws : sheet) (col_idx header_row steps last : nat) :
  (forall r, max_row ws < r -> cell_value ws r col_idx = CNone) ->
  max_row ws - header_row <= steps ->
  find_last_row ws col_idx header_row = Ret last ->
  scan_rows ws col_idx steps (header_row + 1) header_row 0 = last.
Proof.
  intros Wf St. unfold find_last_row.
  destruct ((1 <=? col_idx) && (col_idx <=? MAX_COLUMN)); [| discriminate].
  intros E. apply ret_eq in E. subst last.
  apply (last_row_unique ws col_idx header_row); apply scan_rows_last; try exact Wf; lia.
Qed.

Lemma find_last_row_spec_witness :
  exists last,
    find_last_row log_sheet 2 2 = Ret last
    /\ last_row_of log_sheet 2 2 last
    /\ forall last', last_row_of log_sheet 2 2 last' -> last' = last.
Proof.
  apply (find_last_row_spec log_sheet 2 2).
  - reflexivity.
  - intros r H. apply sheet_of_rows_wf. left. exact H.
Defined.

Lemma find_last_row_gap_witness :
  is_blank (cell_value bare_sheet 7 2) = false
  /\ find_last_row bare_sheet 2 1 = Ret 1 /\ 1 <= 1.
Proof.
  split; [reflexivity|]. split; [vm_compute; reflexivity|].
  apply (find_last_row_gap bare_sheet 2 1 1 1).
  - lia.
  - intros r H1 H2.
    do 7 (destruct r as [|r]; [first [lia | reflexivity]|]). lia.
  - vm_compute. reflexivity.
Defined.

Lemma find_last_row_margin_witness : scan_rows log_sheet 2 2 (2 + 1) 2 0 = 4.
Proof.
  apply (find_last_row_margin log_sheet 2 2 2 4).
  - intros r H. apply sheet_of_rows_wf. left. exact H.
  - vm_compute. lia.
  - vm_compute. reflexivity.
Defined.
(** ** The layout of the sheet *)

Lemma dict_get_set_same (k : str) (v : nat) (d : list (str * nat)) :
  dict_get k (dict_set k v d) = Some v.
Proof.
  induction d as [|[k' v'] d IH]; cbn [dict_set dict_get].
  - rewrite str_eqb_refl. reflexivity.
  - destruct (str_eqb k' k) eqn:E; cbn [dict_get]; rewrite E; [reflexivity | exact IH].
Qed.

Lemma dict_get_set_other (k k' : str) (v : nat) (d : list (str * nat)) :
  k <> k' -> dict_get k (dict_set k' v d) = dict_get k d.
Proof.
  intros N. induction d as [|[k0 v0] d IH]; cbn [dict_set dict_get].
  - destruct (str_eqb k' k) eqn:E; [apply str_eqb_eq in E; congruence | reflexivity].
  - destruct (str_eqb k0 k') eqn:E; cbn [dict_get].
    + apply str_eqb_eq in E. subst k0.
      destruct (str_eqb k' k) eqn:E'; [apply str_eqb_eq in E'; congruence | reflexivity].
    + destruct (str_eqb k0 k); [reflexivity | exact IH].
Qed.

Lemma dict_has_get (k : str) (d : list (str * nat)) :
  dict_has k d = match dict_get k d with Some _ => true | None => false end.
Proof.
  unfold dict_has. induction d as [|[k' v'] d IH]; cbn [existsb dict_get fst].
  - reflexivity.
  - destruct (str_eqb k' k); [reflexivity | exact IH].
Qed.

(** [existing_map.get(k)] is the last column of the header row with the
    header [k]. *)
Lemma existing_map_get_upto (ws : sheet) (r : nat) (k : str) (n : nat) :
  dict_get k
    (fold_left (fun m c =>
                  match cell_value ws r c with
                  | CStr s => dict_set (lower (strip s)) c m
                  | _ => m
                  end) (seq 1 n) [])
  = last_col ws r k n.
Proof.
  induction n as [|n IH]; [reflexivity|].
  rewrite seq_S, fold_left_app. cbn [fold_left last_col key_is Nat.add].
  destruct (cell_value ws r (S n)) as [|s|i s]; cbn [key_is]; try exact IH.
  destruct (str_eqb (lower (strip s)) k) eqn:E.
  - apply str_eqb_eq in E. subst k. apply dict_get_set_same.
  - rewrite dict_get_set_other; [exact IH|]. intros ->. rewrite str_eqb_refl in E. discriminate.
Qed.

Lemma existing_map_get (ws : sheet) (r : nat) (k : str) :
  dict_get k (existing_map ws r) = last_col ws r k (max_column ws).
Proof. apply existing_map_get_upto. Qed.

Lemma last_header_col_upto (ws : sheet) (r n : nat) :
  fold_left (fun last c => if is_blank (cell_value ws r c) then last else c) (seq 1 n) 1
  = last_nonblank ws r n.
Proof.
  induction n as [|n IH]; [reflexivity|].
  rewrite seq_S, fold_left_app. cbn [fold_left last_nonblank Nat.add]. rewrite IH. reflexivity.
Qed.

Lemma last_col_some (ws : sheet) (r : nat) (k : str) (n c : nat) :
  last_col ws r k n = Some c <->
  1 <= c /\ c <= n /\ key_is k (cell_value ws r c) = true
  /\ forall c', c < c' -> c' <= n -> key_is k (cell_value ws r c') = false.
Proof.
  induction n as [|n IH]; cbn [last_col].
  - split; [discriminate | intros (H1 & H2 & _); lia].
  - destruct (key_is k (cell_value ws r (S n))) eqn:E.
    + split.
      * intros H. apply some_eq in H. subst c. repeat split; try lia; exact E.
      * intros (H1 & H2 & H3 & H4). f_equal.
        destruct (Nat.eq_dec c (S n)) as [->|N]; [reflexivity|].
        rewrite (H4 (S n)) in E; [discriminate | lia | lia].
    + rewrite IH. split; intros (H1 & H2 & H3 & H4).
      * repeat split; try lia; [exact H3|]. intros c' L1 L2.
        destruct (Nat.eq_dec c' (S n)) as [->|N]; [exact E | apply H4; lia].
      * assert (c <> S n) by (intros ->; congruence).
        repeat split; try lia; [exact H3|]. intros c' L1 L2. apply H4; lia.
Qed.

Lemma last_col_none (ws : sheet) (r : nat) (k : str) (n : nat) :
  last_col ws r k n = None <->
  forall c, 1 <= c -> c <= n -> key_is k (cell_value ws r c) = false.
Proof.
  induction n as [|n IH]; cbn [last_col].
  - split; [intros _ c H1 H2; lia | reflexivity].
  - destruct (key_is k (cell_value ws r (S n))) eqn:E.
    + split; [discriminate|]. intros H. rewrite (H (S n)) in E; [discriminate | lia | lia].
    + rewrite IH. split; intros H c H1 H2.
      * destruct (Nat.eq_dec c (S n)) as [->|N]; [exact E | apply H; lia].
      * apply H; lia.
Qed.

Lemma last_nonblank_spec (ws : sheet) (r n : nat) :
  1 <= last_nonblank ws r n
  /\ last_nonblank ws r n <= Nat.max 1 n
  /\ forall c, last_nonblank ws r n < c -> c <= n -> is_blank (cell_value ws r c) = true.
Proof.
  induction n as [|n (I1 & I2 & I3)]; cbn [last_nonblank].
  - repeat split; lia.
  - destruct (is_blank (cell_value ws r (S n))) eqn:E.
    + repeat split; try lia. intros c H1 H2.
      destruct (Nat.eq_dec c (S n)) as [->|N]; [exact E | apply I3; lia].
    + repeat split; lia.
Qed.

(** A cell with a header text is not blank. *)
Lemma key_is_not_blank (k : str) (v : cell) :
  nonempty k = true -> key_is k v = true -> is_blank v = false.
Proof.
  destruct v as [|s|i s]; cbn [key_is is_blank]; try discriminate.
  intros N K. apply str_eqb_eq in K. subst k.
  destruct (strip s); [discriminate N | reflexivity].
Qed.

Lemma key_is_inj (k k' : str) (v : cell) :
  key_is k v = true -> key_is k' v = true -> k = k'.
Proof.
  destruct v as [|s|i s]; cbn [key_is]; try discriminate.
  intros K K'. apply str_eqb_eq in K. apply str_eqb_eq in K'. congruence.
Qed.

Lemma blank_no_key (k : str) (v : cell) :
  nonempty k = true -> is_blank v = true -> key_is k v = false.
Proof.
  intros N B. destruct (key_is k v) eqn:K; [| reflexivity].
  rewrite (key_is_not_blank k v N K) in B. discriminate.
Qed.

(** What [allocate] gives for the header [k], above a running maximum
    [cur] that is not left of the last header column [n0]. *)
Lemma allocate_spec (ws : sheet) (r : nat) (k : str) (cur : nat) :
  nonempty k = true ->
  last_nonblank ws r (max_column ws) <= cur ->
  forall cur' c,
    allocate (last_col ws r k (max_column ws)) cur = (cur', c) ->
    (cur' = cur /\ last_col ws r k (max_column ws) = Some c
     /\ 1 <= c /\ c <= last_nonblank ws r (max_column ws)
     /\ key_is k (cell_value ws r c) = true)
    \/ (cur' = cur + 1 /\ c = cur + 1 /\ last_col ws r k (max_column ws) = None).
Proof.
  intros N L cur' c. destruct (last_col ws r k (max_column ws)) as [e|] eqn:E.
  - apply last_col_some in E. destruct E as (E1 & E2 & E3 & E4).
    destruct e as [|e]; [lia|]. cbn [allocate]. intros H. apply pair_eq in H.
    destruct H as [<- <-]. left. repeat split; try lia; [| exact E3].
    destruct (last_nonblank_spec ws r (max_column ws)) as (_ & _ & F).
    destruct (Nat.le_gt_cases (S e) (last_nonblank ws r (max_column ws))) as [H|H]; [exact H|].
    specialize (F (S e) H E2). rewrite (key_is_not_blank k _ N E3) in F. discriminate F.
  - cbn [allocate]. unfold next_col. intros H. apply pair_eq in H. destruct H as [<- <-].
    right. auto.
Qed.

Lemma audit_keys_differ (k k' : str) (v : cell) :
  key_is k v = true -> key_is k' v = true -> str_eqb k k' = false -> False.
Proof.
  intros K K' N. rewrite (key_is_inj _ _ _ K K'), str_eqb_refl in N. discriminate N.
Qed.

(** The audit columns of a layout: each one is placed for its header, and
    no two of them are the same column. *)
Lemma detect_layout_placed (ws : sheet) (file_labels company_labels : list str)
    (search_rows search_cols : nat) :
  let l := detect_layout ws file_labels company_labels search_rows search_cols in
  out_header_row l = header_row l
  /\ placed ws (header_row l) "file name ok" (changed_col l)
  /\ placed ws (header_row l) "status" (status_col l)
  /\ placed ws (header_row l) "new file name" (newname_col l)
  /\ placed ws (header_row l) "notes" (notes_col l)
  /\ NoDup [changed_col l; status_col l; newname_col l; notes_col l].
Proof.
  unfold detect_layout.
  set (found := find_label _ _ _ _). clearbody found.
  set (hf := match found with Some (r, c) => (r, c) | None => (6, 2) end).
  destruct hf as [hr fc]. clear found.
  unfold last_header_col. rewrite last_header_col_upto, !existing_map_get.
  set (n0 := last_nonblank ws hr (max_column ws)).
  destruct (allocate (last_col ws hr "file name ok" (max_column ws)) n0) as [cur1 c1] eqn:A1.
  destruct (allocate (last_col ws hr "status" (max_column ws)) cur1) as [cur2 c2] eqn:A2.
  destruct (allocate (last_col ws hr "new file name" (max_column ws)) cur2) as [cur3 c3] eqn:A3.
  destruct (allocate (last_col ws hr "notes" (max_column ws)) cur3) as [cur4 c4] eqn:A4.
  cbv zeta. cbn [out_header_row header_row changed_col status_col newname_col notes_col].
  apply (allocate_spec ws hr "file name ok" n0 eq_refl (Nat.le_refl _)) in A1.
  assert (L1 : n0 <= cur1) by (destruct A1 as [(-> & _) | (-> & _)]; lia).
  apply (allocate_spec ws hr "status" cur1 eq_refl L1) in A2.
  assert (L2 : cur1 <= cur2) by (destruct A2 as [(-> & _) | (-> & _)]; lia).
  apply (allocate_spec ws hr "new file name" cur2 eq_refl ltac:(fold n0; lia)) in A3.
  assert (L3 : cur2 <= cur3) by (destruct A3 as [(-> & _) | (-> & _)]; lia).
  apply (allocate_spec ws hr "notes" cur3 eq_refl ltac:(fold n0; lia)) in A4.
  fold n0 in A1, A2, A3, A4. unfold placed. fold n0.
  split; [reflexivity|].
  split; [destruct A1 as [(_ & E & H1 & H2 & H3) | (_ & -> & E)]; [left; auto | right; split; [exact E | lia]]|].
  split; [destruct A2 as [(_ & E & H1 & H2 & H3) | (_ & -> & E)]; [left; auto | right; split; [exact E | lia]]|].
  split; [destruct A3 as [(_ & E & H1 & H2 & H3) | (_ & -> & E)]; [left; auto | right; split; [exact E | lia]]|].
  split; [destruct A4 as [(_ & E & H1 & H2 & H3) | (_ & -> & E)]; [left; auto | right; split; [exact E | lia]]|].
  destruct A1 as [(-> & _ & P1 & Q1 & K1) | (-> & -> & _)];
  destruct A2 as [(-> & _ & P2 & Q2 & K2) | (-> & -> & _)];
  destruct A3 as [(-> & _ & P3 & Q3 & K3) | (-> & -> & _)];
  destruct A4 as [(_ & _ & P4 & Q4 & K4) | (_ & -> & _)];
  repeat (constructor; [cbn [In]; intros H;
    repeat (destruct H as [H|H]; [try lia; subst;
      first [ exact (audit_keys_differ _ _ _ K1 K2 eq_refl)
            | exact (audit_keys_differ _ _ _ K1 K3 eq_refl)
            | exact (audit_keys_differ _ _ _ K1 K4 eq_refl)
            | exact (audit_keys_differ _ _ _ K2 K3 eq_refl)
            | exact (audit_keys_differ _ _ _ K2 K4 eq_refl)
            | exact (audit_keys_differ _ _ _ K3 K4 eq_refl) ] |]); exact H |]);
  constructor.
Qed.

Lemma label_key (labels : list str) (k : str) (v : cell) :
  is_label labels v = true -> key_is k v = true ->
  mem k (map (fun l => lower (strip l)) labels) = true.
Proof.
  destruct v as [|s|i s]; cbn [is_label key_is]; try discriminate.
  intros L K. apply str_eqb_eq in K. subst k. exact L.
Qed.

Lemma label_not_blank (labels : list str) (v : cell) :
  mem (lit "") (map (fun l => lower (strip l)) labels) = false ->
  is_label labels v = true -> is_blank v = false.
Proof.
  destruct v as [|s|i s]; cbn [is_label is_blank]; try discriminate.
  intros N L. destruct (strip s); [| reflexivity].
  cbn [lower map] in L. unfold lit in N. cbn in N. rewrite N in L. discriminate L.
Qed.

Lemma find_label_some (ws : sheet) (labels : list str) (rows : list nat) (n r c : nat) :
  find_label ws labels rows n = Some (r, c) ->
  In r rows /\ 1 <= c /\ c <= n /\ is_label labels (cell_value ws r c) = true.
Proof.
  induction rows as [|r0 rows IH]; cbn [find_label]; [discriminate|].
  unfold find_in_row. destruct (find _ (seq 1 n)) as [c0|] eqn:F.
  - intros E. apply some_eq, pair_eq in E. destruct E as [-> ->].
    apply find_some in F. destruct F as [I L]. apply in_seq in I.
    split; [left; reflexivity|]. repeat split; try lia. exact L.
  - intros E. destruct (IH E) as (I & H). split; [right; exact I | exact H].
Qed.

Lemma find_in_row_some (ws : sheet) (labels : list str) (r n c : nat) :
  find_in_row ws labels r n = Some c ->
  1 <= c /\ c <= n /\ is_label labels (cell_value ws r c) = true.
Proof.
  unfold find_in_row. intros F. apply find_some in F. destruct F as [I L].
  apply in_seq in I. repeat split; try lia. exact L.
Qed.

(** A placed audit column lies on its own header or on no value at all. *)
Lemma placed_cell (ws : sheet) (r : nat) (k : str) (c : nat) :
  placed ws r k c ->
  1 <= c
  /\ (key_is k (cell_value ws r c) = true
      \/ (c <= max_column ws -> is_blank (cell_value ws r c) = true)).
Proof.
  intros [(_ & H1 & _ & K) | (_ & L)].
  - split; [exact H1 | left; exact K].
  - destruct (last_nonblank_spec ws r (max_column ws)) as (P & _ & F).
    split; [lia|]. right. intros M. apply F; assumption.
Qed.

(** X21. The four audit columns of a layout are four different columns,
    counted from 1, and none of them lies on a cell of the header row that
    holds anything but an audit header: a missing audit column goes on a
    blank cell or right of the sheet. *)
Theorem audit_columns_distinct (ws : sheet) (file_labels company_labels : list str)
    (search_rows search_cols : nat) :
  let l := detect_layout ws file_labels company_labels search_rows search_cols in
  NoDup [changed_col l; status_col l; newname_col l; notes_col l]
  /\ forall c,
       In c [changed_col l; status_col l; newname_col l; notes_col l] ->
       1 <= c
       /\ (c <= max_column ws ->
           is_blank (cell_value ws (header_row l) c) = false ->
           exists k, In k AUDIT_HEADERS /\ key_is k (cell_value ws (header_row l) c) = true).
Proof.
  destruct (detect_layout_placed ws file_labels company_labels search_rows search_cols)
    as (_ & P1 & P2 & P3 & P4 & N).
  cbv zeta. split; [exact N|].
  intros c [<- | [<- | [<- | [<- | []]]]].
  - destruct (placed_cell _ _ _ _ P1) as (H & [K | B]); split; try exact H; intros M Nb.
    + exists (lit "file name ok"). split; [cbn; auto | exact K].
    + rewrite (B M) in Nb. discriminate Nb.
  - destruct (placed_cell _ _ _ _ P2) as (H & [K | B]); split; try exact H; intros M Nb.
    + exists (lit "status"). split; [cbn; auto | exact K].
    + rewrite (B M) in Nb. discriminate Nb.
  - destruct (placed_cell _ _ _ _ P3) as (H & [K | B]); split; try exact H; intros M Nb.
    + exists (lit "new file name"). split; [cbn; auto | exact K].
    + rewrite (B M) in Nb. discriminate Nb.
  - destruct (placed_cell _ _ _ _ P4) as (H & [K | B]); split; try exact H; intros M Nb.
    + exists (lit "notes"). split; [cbn; auto | exact K].
    + rewrite (B M) in Nb. discriminate Nb.
Qed.

(** A cell that holds a file-name label or a company label is not under
    an audit column. *)
Lemma placed_not_label (ws : sheet) (r : nat) (k : str) (c : nat) (labels : list str) :
  placed ws r k c ->
  mem (lit "") (map (fun l => lower (strip l)) labels) = false ->
  mem k (map (fun l => lower (strip l)) labels) = false ->
  c <= max_column ws ->
  is_label labels (cell_value ws r c) = false.
Proof.
  intros P N0 Nk M. destruct (is_label labels (cell_value ws r c)) eqn:L; [| reflexivity].
  destruct (placed_cell _ _ _ _ P) as (_ & [K | B]).
  - rewrite (label_key _ _ _ L K) in Nk. discriminate Nk.
  - rewrite (label_not_blank _ _ N0 L) in B. discriminate (B M).
Qed.

Lemma detect_layout_found (ws : sheet) (file_labels company_labels : list str)
    (search_rows search_cols : nat) :
  let l := detect_layout ws file_labels company_labels search_rows search_cols in
  (header_row l, file_name_col l)
  = match find_label ws file_labels (seq 1 (Nat.min search_rows (max_row ws)))
            (Nat.min search_cols (max_column ws)) with
    | Some (r, c) => (r, c)
    | None => (6, 2)
    end
  /\ company_col l = find_in_row ws company_labels (header_row l) (max_column ws).
Proof.
  unfold detect_layout.
  set (found := find_label _ _ _ _). clearbody found.
  set (hf := match found with Some (r, c) => (r, c) | None => (6, 2) end).
  destruct hf as [hr fc].
  destruct (allocate _ _) as [cur1 c1].
  destruct (allocate _ cur1) as [cur2 c2].
  destruct (allocate _ cur2) as [cur3 c3].
  destruct (allocate _ cur3) as [cur4 c4].
  cbv zeta. cbn [header_row file_name_col company_col]. split; reflexivity.
Qed.

(** X22. When a file-name header is found, the layout takes its row and
    column, and neither that column nor the company column is one of the
    four audit columns. *)
Theorem name_columns_kept (ws : sheet) (r c : nat) :
  find_label ws FILE_HEADER_LABELS (seq 1 (Nat.min 60 (max_row ws)))
    (Nat.min 60 (max_column ws)) = Some (r, c) ->
  let l := detect_layout ws FILE_HEADER_LABELS COMPANY_LABELS 60 60 in
  header_row l = r /\ file_name_col l = c
  /\ ~ In c [changed_col l; status_col l; newname_col l; notes_col l]
  /\ forall cc, company_col l = Some cc ->
                ~ In cc [changed_col l; status_col l; newname_col l; notes_col l].
Proof.
  intros F.
  destruct (detect_layout_placed ws FILE_HEADER_LABELS COMPANY_LABELS 60 60)
    as (_ & P1 & P2 & P3 & P4 & _).
  destruct (detect_layout_found ws FILE_HEADER_LABELS COMPANY_LABELS 60 60) as (E & Ec).
  cbv zeta in *. rewrite F in E. apply pair_eq in E. destruct E as [Er Ef].
  rewrite Er in *. rewrite Ef.
  destruct (find_label_some _ _ _ _ _ _ F) as (_ & C1 & C2 & L).
  split; [reflexivity|]. split; [reflexivity|]. split.
  - intros [<- | [<- | [<- | [<- | []]]]];
      [ rewrite (placed_not_label _ _ _ _ FILE_HEADER_LABELS P1 eq_refl eq_refl) in L
      | rewrite (placed_not_label _ _ _ _ FILE_HEADER_LABELS P2 eq_refl eq_refl) in L
      | rewrite (placed_not_label _ _ _ _ FILE_HEADER_LABELS P3 eq_refl eq_refl) in L
      | rewrite (placed_not_label _ _ _ _ FILE_HEADER_LABELS P4 eq_refl eq_refl) in L ];
      try discriminate L; lia.
  - intros cc Hc. rewrite Ec in Hc. apply find_in_row_some in Hc.
    destruct Hc as (D1 & D2 & Lc).
    intros [<- | [<- | [<- | [<- | []]]]];
      [ rewrite (placed_not_label _ _ _ _ COMPANY_LABELS P1 eq_refl eq_refl) in Lc
      | rewrite (placed_not_label _ _ _ _ COMPANY_LABELS P2 eq_refl eq_refl) in Lc
      | rewrite (placed_not_label _ _ _ _ COMPANY_LABELS P3 eq_refl eq_refl) in Lc
      | rewrite (placed_not_label _ _ _ _ COMPANY_LABELS P4 eq_refl eq_refl) in Lc ];
      try discriminate Lc; lia.
Qed.

Lemma last_nonblank_one (ws : sheet) (r n : nat) :
  (forall c, 2 <= c -> c <= n -> is_blank (cell_value ws r c) = true) ->
  last_nonblank ws r n = 1.
Proof.
  induction n as [|n IH]; intros B; cbn [last_nonblank]; [reflexivity|].
  destruct n as [|n].
  - destruct (is_blank _); reflexivity.
  - rewrite (B (S (S n))) by lia. apply IH. intros c H1 H2. apply B; lia.
Qed.

(** X23. When no file-name header is found and row 6 is blank from its
    second column on, the layout falls back to row 6 and column 2 for the
    file names and puts an audit column, the dot or the status, on that
    same column 2. *)
Theorem default_layout_collision (ws : sheet) (file_labels company_labels : list str)
    (search_rows search_cols : nat) :
  find_label ws file_labels (seq 1 (Nat.min search_rows (max_row ws)))
    (Nat.min search_cols (max_column ws)) = None ->
  (forall c, 2 <= c -> c <= max_column ws -> is_blank (cell_value ws 6 c) = true) ->
  let l := detect_layout ws file_labels company_labels search_rows search_cols in
  header_row l = 6 /\ file_name_col l = 2
  /\ (changed_col l = file_name_col l \/ status_col l = file_name_col l).
Proof.
  intros F B. unfold detect_layout. rewrite F.
  unfold last_header_col. rewrite last_header_col_upto, !existing_map_get.
  pose proof (last_nonblank_one ws 6 (max_column ws) B) as N1.
  destruct (allocate (last_col ws 6 "file name ok" (max_column ws)) _) as [cur1 c1] eqn:A1.
  destruct (allocate (last_col ws 6 "status" (max_column ws)) cur1) as [cur2 c2] eqn:A2.
  destruct (allocate _ cur2) as [cur3 c3].
  destruct (allocate _ cur3) as [cur4 c4].
  cbv zeta. cbn [header_row file_name_col changed_col status_col].
  split; [reflexivity|]. split; [reflexivity|].
  apply (allocate_spec ws 6 "file name ok" _ eq_refl (Nat.le_refl _)) in A1.
  rewrite N1 in A1.
  destruct A1 as [(-> & _ & P1 & Q1 & K1) | (-> & -> & _)]; [| left; reflexivity].
  apply (allocate_spec ws 6 "status" 1 eq_refl ltac:(rewrite N1; lia)) in A2.
  rewrite N1 in A2.
  destruct A2 as [(_ & _ & P2 & Q2 & K2) | (_ & -> & _)]; [| right; reflexivity].
  exfalso. assert (c1 = c2) by lia. subst c2.
  exact (audit_keys_differ _ _ _ K1 K2 eq_refl).
Qed.

(** X24. The file-name column of the default layout always has a column
    letter: [find_last_row] on it raises nothing, on any sheet, and
    returns a row that is not above the header row. *)
Theorem file_column_has_letter (ws ws' : sheet) :
  let l := detect_layout ws FILE_HEADER_LABELS COMPANY_LABELS 60 60 in
  exists last,
    find_last_row ws' (file_name_col l) (header_row l) = Ret last
    /\ header_row l <= last.
Proof.
  destruct (detect_layout_found ws FILE_HEADER_LABELS COMPANY_LABELS 60 60) as (E & _).
  cbv zeta in *.
  set (l := detect_layout ws FILE_HEADER_LABELS COMPANY_LABELS 60 60) in *. clearbody l.
  assert (C : 1 <= file_name_col l /\ file_name_col l <= 60).
  { destruct (find_label _ _ _ _) as [[r c]|] eqn:F; apply pair_eq in E; destruct E as [_ ->];
      [| lia].
    destruct (find_label_some _ _ _ _ _ _ F) as (_ & C1 & C2 & _). lia. }
  unfold find_last_row.
  assert (C1 : (1 <=? file_name_col l) = true) by (apply Nat.leb_le; lia).
  assert (C2 : (file_name_col l <=? MAX_COLUMN) = true).
  { apply Nat.leb_le. apply Nat.le_trans with 60; [lia|].
    apply Nat.leb_le. vm_compute. reflexivity. }
  rewrite C1, C2. cbn [andb]. eexists. split; [reflexivity|].
  assert (Bl : forall x, header_row l < x -> x < header_row l + 1 ->
                         is_blank (cell_value ws' x (file_name_col l)) = true) by (intros; lia).
  pose proof (scan_rows_spec ws' (file_name_col l) (max_row ws' + 200 - header_row l)
                (header_row l + 1) (header_row l) ltac:(lia) ltac:(lia) Bl) as I.
  replace (header_row l + 1 - 1 - header_row l) with 0 in I by lia.
  exact (proj1 I).
Qed.

Lemma audit_columns_distinct_witness :
  1 <= changed_col (detect_layout log_sheet FILE_HEADER_LABELS COMPANY_LABELS 60 60).
Proof.
  apply (proj2 (audit_columns_distinct log_sheet FILE_HEADER_LABELS COMPANY_LABELS 60 60)
           (changed_col (detect_layout log_sheet FILE_HEADER_LABELS COMPANY_LABELS 60 60))).
  left. reflexivity.
Defined.

Lemma name_columns_kept_witness :
  let l := detect_layout log_sheet FILE_HEADER_LABELS COMPANY_LABELS 60 60 in
  header_row l = 2 /\ file_name_col l = 2
  /\ ~ In 2 [changed_col l; status_col l; newname_col l; notes_col l]
  /\ forall cc, company_col l = Some cc ->
                ~ In cc [changed_col l; status_col l; newname_col l; notes_col l].
Proof. apply (name_columns_kept log_sheet 2 2). vm_compute. reflexivity. Defined.

Lemma default_layout_collision_witness :
  let l := detect_layout bare_sheet FILE_HEADER_LABELS COMPANY_LABELS 60 60 in
  header_row l = 6 /\ file_name_col l = 2
  /\ (changed_col l = file_name_col l \/ status_col l = file_name_col l).
Proof.
  apply (default_layout_collision bare_sheet FILE_HEADER_LABELS COMPANY_LABELS 60 60).
  - vm_compute. reflexivity.
  - intros c H1 H2. vm_compute in H2.
    do 3 (destruct c as [|c]; [first [lia | reflexivity]|]). lia.
Defined.

(** *** The layout after the headers are written *)

Lemma set_cell_wf (ws : sheet) (r c : nat) (v : cell) :
  sheet_wf ws -> sheet_wf (set_cell ws r c v).
Proof.
  intros W r' c' H. unfold set_cell in *. cbn [cell_value max_row max_column] in *.
  destruct ((r' =? r) && (c' =? c)) eqn:E.
  - apply andb_true_iff in E. destruct E as [E1 E2].
    apply Nat.eqb_eq in E1. apply Nat.eqb_eq in E2. lia.
  - apply W. lia.
Qed.

Lemma write_headers_wf (ws : sheet) (l : layout) :
  sheet_wf ws -> sheet_wf (write_headers ws l).
Proof. intros W. unfold write_headers, set_header. repeat apply set_cell_wf. exact W. Qed.

Lemma write_headers_cell (ws : sheet) (l : layout) (r c : nat) :
  cell_value (write_headers ws l) r c
  = if (r =? out_header_row l) && (c =? notes_col l) then CStr "Notes"
    else if (r =? out_header_row l) && (c =? newname_col l) then CStr "New file name"
    else if (r =? out_header_row l) && (c =? status_col l) then CStr "Status"
    else if (r =? out_header_row l) && (c =? changed_col l) then CStr "File Name OK"
    else cell_value ws r c.
Proof. reflexivity. Qed.

Lemma write_headers_max_column (ws : sheet) (l : layout) :
  max_column (write_headers ws l)
  = Nat.max (Nat.max (Nat.max (Nat.max (max_column ws) (changed_col l)) (status_col l))
               (newname_col l)) (notes_col l).
Proof. reflexivity. Qed.

Lemma write_headers_max_row (ws : sheet) (l : layout) :
  max_row ws <= max_row (write_headers ws l).
Proof. unfold write_headers, set_header, set_cell. cbn [max_row]. lia. Qed.

(** A property of cells that the four header texts share with the cells
    they replace holds of the same cells before and after. *)
Lemma write_headers_pointwise (p : cell -> bool) (ws : sheet) (l : layout) :
  p (CStr "File Name OK") = p (cell_value ws (out_header_row l) (changed_col l)) ->
  p (CStr "Status") = p (cell_value ws (out_header_row l) (status_col l)) ->
  p (CStr "New file name") = p (cell_value ws (out_header_row l) (newname_col l)) ->
  p (CStr "Notes") = p (cell_value ws (out_header_row l) (notes_col l)) ->
  forall r c, p (cell_value (write_headers ws l) r c) = p (cell_value ws r c).
Proof.
  intros H1 H2 H3 H4 r c. rewrite write_headers_cell.
  repeat match goal with
  | |- context [(?a =? ?b) && (?x =? ?y)] =>
      let E := fresh "E" in
      destruct ((a =? b) && (x =? y)) eqn:E;
      [ apply andb_true_iff in E; destruct E as [Ea Eb];
        apply Nat.eqb_eq in Ea; apply Nat.eqb_eq in Eb; subst; congruence |]
  end.
  reflexivity.
Qed.

Lemma find_app_first {A : Type} (f : A -> bool) (l1 l2 : list A) :
  find f (l1 ++ l2) = match find f l1 with Some x => Some x | None => find f l2 end.
Proof.
  induction l1 as [|a l1 IH]; cbn [app find]; [reflexivity|].
  destruct (f a); [reflexivity | exact IH].
Qed.

Lemma find_seq_ext (f g : nat -> bool) (len start : nat) :
  (forall c, start <= c -> c < start + len -> f c = g c) ->
  find f (seq start len) = find g (seq start len).
Proof.
  revert start. induction len as [|len IH]; intros start H; cbn [seq find]; [reflexivity|].
  rewrite (H start) by lia. destruct (g start); [reflexivity|].
  apply IH. intros c H1 H2. apply H; lia.
Qed.

Lemma find_seq_none (f : nat -> bool) (len start : nat) :
  (forall c, start <= c -> c < start + len -> f c = false) ->
  find f (seq start len) = None.
Proof.
  revert start. induction len as [|len IH]; intros start H; cbn [seq find]; [reflexivity|].
  rewrite (H start) by lia. apply IH. intros c H1 H2. apply H; lia.
Qed.

(** A search of more columns finds the same label when the added cells
    hold none. *)
Lemma find_in_row_ext (ws ws' : sheet) (labels : list str) (r n n' : nat) :
  (forall c, is_label labels (cell_value ws' r c) = is_label labels (cell_value ws r c)) ->
  n <= n' ->
  (forall c, n < c -> c <= n' -> is_label labels (cell_value ws r c) = false) ->
  find_in_row ws' labels r n' = find_in_row ws labels r n.
Proof.
  intros P L F. unfold find_in_row.
  replace n' with (n + (n' - n)) by lia. rewrite seq_app, find_app_first.
  rewrite (find_seq_ext _ (fun c => is_label labels (cell_value ws r c))) by (intros; apply P).
  destruct (find _ (seq 1 n)); [reflexivity|].
  apply find_seq_none. intros c H1 H2. rewrite P. apply F; lia.
Qed.

Lemma find_label_app (ws : sheet) (labels : list str) (rows1 rows2 : list nat) (n : nat) :
  find_label ws labels (rows1 ++ rows2) n
  = match find_label ws labels rows1 n with
    | Some x => Some x
    | None => find_label ws labels rows2 n
    end.
Proof.
  induction rows1 as [|r rows1 IH]; cbn [app find_label]; [reflexivity|].
  destruct (find_in_row ws labels r n); [reflexivity | exact IH].
Qed.

Lemma find_label_rows (ws ws' : sheet) (labels : list str) (rows : list nat) (n n' : nat) :
  (forall r, In r rows -> find_in_row ws' labels r n' = find_in_row ws labels r n) ->
  find_label ws' labels rows n' = find_label ws labels rows n.
Proof.
  induction rows as [|r rows IH]; intros H; cbn [find_label]; [reflexivity|].
  rewrite (H r (or_introl eq_refl)). destruct (find_in_row ws labels r n); [reflexivity|].
  apply IH. intros r' I. apply H. right. exact I.
Qed.

Lemma find_label_none (ws : sheet) (labels : list str) (rows : list nat) (n : nat) :
  (forall r, In r rows -> find_in_row ws labels r n = None) ->
  find_label ws labels rows n = None.
Proof.
  induction rows as [|r rows IH]; intros H; cbn [find_label]; [reflexivity|].
  rewrite (H r (or_introl eq_refl)). apply IH. intros r' I. apply H. right. exact I.
Qed.

(** A search of more rows and columns finds the same label when the added
    cells hold none. *)
Lemma find_label_ext (ws ws' : sheet) (labels : list str) (R R' n n' : nat) :
  (forall r c, is_label labels (cell_value ws' r c) = is_label labels (cell_value ws r c)) ->
  R <= R' -> n <= n' ->
  (forall r c, R < r \/ n < c -> r <= R' -> c <= n' ->
               is_label labels (cell_value ws r c) = false) ->
  find_label ws' labels (seq 1 R') n' = find_label ws labels (seq 1 R) n.
Proof.
  intros P LR Ln F.
  replace R' with (R + (R' - R)) at 1 by lia. rewrite seq_app, find_label_app.
  rewrite (find_label_rows ws ws' labels (seq 1 R) n n').
  2:{ intros r I. apply in_seq in I. apply find_in_row_ext; [intros; apply P | exact Ln |].
      intros c H1 H2. apply F; [right; exact H1 | lia | exact H2]. }
  destruct (find_label ws labels (seq 1 R) n); [reflexivity|].
  apply find_label_none. intros r I. apply in_seq in I.
  unfold find_in_row. apply find_seq_none. intros c H1 H2. rewrite P.
  apply F; [left; lia | lia | lia].
Qed.

Lemma is_label_CNone (labels : list str) : is_label labels CNone = false.
Proof. reflexivity. Qed.

(** On a sheet with no value outside its bounds, the cell under a placed
    audit column holds no label. *)
Lemma placed_no_label (ws : sheet) (r : nat) (k : str) (c : nat) (labels : list str) :
  sheet_wf ws ->
  placed ws r k c ->
  mem (lit "") (map (fun l => lower (strip l)) labels) = false ->
  mem k (map (fun l => lower (strip l)) labels) = false ->
  is_label labels (cell_value ws r c) = false.
Proof.
  intros W P N0 Nk. destruct (Nat.le_gt_cases c (max_column ws)) as [M | M].
  - exact (placed_not_label ws r k c labels P N0 Nk M).
  - rewrite W; [reflexivity | right; exact M].
Qed.

Lemma allocate_some (c cur : nat) : 1 <= c -> allocate (Some c) cur = (cur, c).
Proof. intros H. destruct c; [lia | reflexivity]. Qed.

Lemma nodup4 (a b c d : nat) :
  NoDup [a; b; c; d] -> a <> b /\ a <> c /\ a <> d /\ b <> c /\ b <> d /\ c <> d.
Proof.
  intros N. inversion N as [|? ? Na N1]; subst. inversion N1 as [|? ? Nb N2]; subst.
  inversion N2 as [|? ? Nc N3]; subst. cbn [In] in *. repeat split; intros ->; tauto.
Qed.

(** The column of a header after a rewrite of the header row that puts
    the header on its placed column and on no other. *)
Lemma last_col_written (ws ws' : sheet) (r : nat) (k : str) (c n' : nat) :
  sheet_wf ws ->
  placed ws r k c ->
  c <= n' ->
  key_is k (cell_value ws' r c) = true ->
  (forall c', c' <> c -> key_is k (cell_value ws' r c') = true ->
              key_is k (cell_value ws r c') = true) ->
  last_col ws' r k n' = Some c.
Proof.
  intros W P L K O. apply last_col_some.
  split; [exact (proj1 (placed_cell _ _ _ _ P))|]. split; [exact L|]. split; [exact K|].
  intros c' H1 H2. destruct (key_is k (cell_value ws' r c')) eqn:K'; [exfalso | reflexivity].
  apply O in K'; [| lia].
  assert (M : c' <= max_column ws).
  { destruct (Nat.le_gt_cases c' (max_column ws)) as [M | M]; [exact M|].
    rewrite W in K'; [discriminate K' | right; exact M]. }
  destruct P as [(E & _) | (E & _)].
  - apply last_col_some in E. destruct E as (_ & _ & _ & E).
    rewrite (E c' H1 M) in K'. discriminate K'.
  - rewrite last_col_none in E. rewrite (E c') in K'; [discriminate K' | lia | exact M].
Qed.

Ltac header_cases :=
  repeat match goal with
  | |- context [(?a =? ?b) && (?x =? ?y)] =>
      let E := fresh "E" in
      destruct ((a =? b) && (x =? y)) eqn:E;
      [ apply andb_true_iff in E; destruct E as [_ E]; apply Nat.eqb_eq in E
      | try (rewrite Nat.eqb_refl in E; cbn [andb] in E; apply Nat.eqb_neq in E) ]
  end.

(** X25. Detection is idempotent over the headers: on a sheet with no
    value outside its bounds, once the four audit headers are written at
    the columns of the layout, [detect_layout] finds the same header row,
    the same file-name and company columns and the same four audit
    columns, now all marked as existing. *)
Theorem detect_layout_idempotent (ws : sheet) :
  sheet_wf ws ->
  let l := detect_layout ws FILE_HEADER_LABELS COMPANY_LABELS 60 60 in
  detect_layout (write_headers ws l) FILE_HEADER_LABELS COMPANY_LABELS 60 60 = reused l.
Proof.
  intros W.
  destruct (detect_layout_placed ws FILE_HEADER_LABELS COMPANY_LABELS 60 60)
    as (Eo & P1 & P2 & P3 & P4 & N).
  destruct (detect_layout_found ws FILE_HEADER_LABELS COMPANY_LABELS 60 60) as (Ef & Ec).
  cbv zeta in *.
  set (l := detect_layout ws FILE_HEADER_LABELS COMPANY_LABELS 60 60) in *. clearbody l.
  set (ws' := write_headers ws l).
  apply nodup4 in N. destruct N as (N12 & N13 & N14 & N23 & N24 & N34).
  assert (W' : sheet_wf ws') by (apply write_headers_wf; exact W).
  assert (Mc : max_column ws <= max_column ws')
    by (unfold ws'; rewrite write_headers_max_column; lia).
  assert (Mr : max_row ws <= max_row ws') by apply write_headers_max_row.
  assert (Lf : forall r c, is_label FILE_HEADER_LABELS (cell_value ws' r c)
                           = is_label FILE_HEADER_LABELS (cell_value ws r c)).
  { apply write_headers_pointwise; rewrite Eo; symmetry;
      [ exact (placed_no_label _ _ _ _ FILE_HEADER_LABELS W P1 eq_refl eq_refl)
      | exact (placed_no_label _ _ _ _ FILE_HEADER_LABELS W P2 eq_refl eq_refl)
      | exact (placed_no_label _ _ _ _ FILE_HEADER_LABELS W P3 eq_refl eq_refl)
      | exact (placed_no_label _ _ _ _ FILE_HEADER_LABELS W P4 eq_refl eq_refl) ]. }
  assert (Lc : forall r c, is_label COMPANY_LABELS (cell_value ws' r c)
                           = is_label COMPANY_LABELS (cell_value ws r c)).
  { apply write_headers_pointwise; rewrite Eo; symmetry;
      [ exact (placed_no_label _ _ _ _ COMPANY_LABELS W P1 eq_refl eq_refl)
      | exact (placed_no_label _ _ _ _ COMPANY_LABELS W P2 eq_refl eq_refl)
      | exact (placed_no_label _ _ _ _ COMPANY_LABELS W P3 eq_refl eq_refl)
      | exact (placed_no_label _ _ _ _ COMPANY_LABELS W P4 eq_refl eq_refl) ]. }
  assert (F : find_label ws' FILE_HEADER_LABELS (seq 1 (Nat.min 60 (max_row ws')))
                (Nat.min 60 (max_column ws'))
              = find_label ws FILE_HEADER_LABELS (seq 1 (Nat.min 60 (max_row ws)))
                  (Nat.min 60 (max_column ws))).
  { apply find_label_ext; [exact Lf | lia | lia |].
    intros r c H Hr Hc. rewrite W; [reflexivity | lia]. }
  assert (Cc : find_in_row ws' COMPANY_LABELS (header_row l) (max_column ws')
               = find_in_row ws COMPANY_LABELS (header_row l) (max_column ws)).
  { apply find_in_row_ext; [intros; apply Lc | exact Mc |].
    intros c H _. rewrite W; [reflexivity | right; exact H]. }
  assert (Bc : forall c, In c [changed_col l; status_col l; newname_col l; notes_col l] ->
                         c <= max_column ws').
  { unfold ws'. rewrite write_headers_max_column.
    intros c [<- | [<- | [<- | [<- | []]]]]; lia. }
  assert (K1 : last_col ws' (header_row l) "file name ok" (max_column ws')
               = Some (changed_col l)).
  { apply (last_col_written ws ws' _ _ _ _ W P1); [apply Bc; cbn; auto | |].
    - unfold ws'. rewrite write_headers_cell, Eo.
      header_cases; try congruence; reflexivity.
    - intros c' Hc. unfold ws'. rewrite write_headers_cell, Eo.
      header_cases; try congruence; try discriminate. }
  assert (K2 : last_col ws' (header_row l) "status" (max_column ws') = Some (status_col l)).
  { apply (last_col_written ws ws' _ _ _ _ W P2); [apply Bc; cbn; auto | |].
    - unfold ws'. rewrite write_headers_cell, Eo.
      header_cases; try congruence; reflexivity.
    - intros c' Hc. unfold ws'. rewrite write_headers_cell, Eo.
      header_cases; try congruence; try discriminate. }
  assert (K3 : last_col ws' (header_row l) "new file name" (max_column ws')
               = Some (newname_col l)).
  { apply (last_col_written ws ws' _ _ _ _ W P3); [apply Bc; cbn; auto | |].
    - unfold ws'. rewrite write_headers_cell, Eo.
      header_cases; try congruence; reflexivity.
    - intros c' Hc. unfold ws'. rewrite write_headers_cell, Eo.
      header_cases; try congruence; try discriminate. }
  assert (K4 : last_col ws' (header_row l) "notes" (max_column ws') = Some (notes_col l)).
  { apply (last_col_written ws ws' _ _ _ _ W P4); [apply Bc; cbn; auto | |].
    - unfold ws'. rewrite write_headers_cell, Eo.
      header_cases; try congruence; reflexivity.
    - intros c' Hc. unfold ws'. rewrite write_headers_cell, Eo.
      header_cases; try congruence; try discriminate. }
  clearbody ws'.
  unfold detect_layout. rewrite F, <- Ef, Cc, <- Ec.
  assert (X : existsb (fun k => dict_has k (existing_map ws' (header_row l)))
                (strs ["file name ok"; "status"; "new file name"; "notes"]) = true).
  { cbn [strs map existsb]. rewrite dict_has_get, existing_map_get, K1. reflexivity. }
  rewrite X, !existing_map_get, K1, K2, K3, K4.
  rewrite (allocate_some (changed_col l) _ (proj1 (placed_cell _ _ _ _ P1))).
  rewrite (allocate_some (status_col l) _ (proj1 (placed_cell _ _ _ _ P2))).
  rewrite (allocate_some (newname_col l) _ (proj1 (placed_cell _ _ _ _ P3))).
  rewrite (allocate_some (notes_col l) _ (proj1 (placed_cell _ _ _ _ P4))).
  unfold reused. rewrite Eo. reflexivity.
Qed.

Lemma detect_layout_idempotent_witness :
  let l := detect_layout log_sheet FILE_HEADER_LABELS COMPANY_LABELS 60 60 in
  detect_layout (write_headers log_sheet l) FILE_HEADER_LABELS COMPANY_LABELS 60 60 = reused l.
Proof. apply (detect_layout_idempotent log_sheet). apply sheet_of_rows_wf. Defined.
